(* ===== verification/_CoqProject ===== *)
-Q . S2P
Prelude.v
Base64.v
Utf8.v
WsTypes.v
WsHeader.v
Libevent.v
HttpHeader.v
WsState.v
WsSend.v
WsHandshake.v
WsRecv.v
WsRecvSafety.v
WsRecvSpec.v
WsSession.v
WsLoop.v
WsConnection.v
Time.v
Double.v
TimeFloat.v
TaskQueues.v
TaskQueuesSpec.v
Thread.v
HostCheck.v
HostnameValidation.v
Sync.v
Language.v
Pipeline.v
Logging.v
HttpSession.v
TraceEvent.v
WsUv.v
HttpEv.v
TypeDescriptor.v
Reflect.v
ReflectShared.v
FloatText.v
ReflectValue.v
HttpBeast.v
SemaphorePlatforms.v
UnitTests.v
Tutorials.v
