(* ===== verification/Prelude.v ===== *)
(** * A verification of the network and task-runner libraries

    ** The program

    The repository holds a small C++ library in five parts (paths below are
    relative to src/src/):

    - net/ws_cli: a WebSocket client.  A [Session] owns an implementation;
      [SessionImplEV] (implement/ev) runs on a libevent loop, [SessionImplUV]
      (implement/uv) on libuv and is unfinished.  The session sends the opening
      handshake, reads the reply line by line, then reads and writes frames; it
      uses a base64 codec, a UTF-8 automaton, a header codec and a
      case-insensitive header map.
    - net/http_cli: an HTTP client with the same shape; [SessionImplUV] is the
      one of the default build, with http-parser and OpenSSL memory BIOs,
      [SessionImplEV] wraps evhttp and checks the host name of certificates, and
      [SessionImplBeast] is a chain of Asio handlers around Boost.Beast.
    - wtf: time, logging, trace events, a semaphore and a waitable event, and the
      task runner: task queues, message loops, threads.
    - pipeline: a bounded queue of resources between threads, on two semaphores.
    - reflect: run-time reflection: a registry of classes with their methods and
      fields, keyed by strings that describe types.

    ** How it is modelled

    A component is a record of its data members and one definition per operation,
    in the state monad [M] of this file.  An operation yields a value and a new
    state ([Ret]), ends the process ([Killed]: a failed WTF_CHECK or a fatal log
    line), or meets an operation C++ leaves undefined ([Undef]): an index out of
    range, a null pointer, signed overflow.  Loops are recursive functions, with
    fuel where the recursion is not structural; running out of fuel is an [Undef]
    that the theorems exclude.  Integers are [Z], cut to their width where the
    code does ([u8] to [u64], [i32], [i64], the bit fields of [WSHeader]).
    A double is the [spec_float] of the Standard Library at 53 bits.
    Bytes are integers in [0, 256).

    Code outside the repository is a parameter, a class with its operations and
    one with the documented facts that are used: [EvBuffer] and [EvBufferLaws]
    (libevent buffers), [Env] with [EnvOk] and [LibOk] (rand_s, SHA1, failing
    library calls, stack contents), [OpenSSL] and [OpenSSLLaws] (certificates),
    [HttpParser], [Tls] and [TlsLaws] (http-parser, TLS over memory BIOs),
    [WinSemaphore], [DispatchSemaphore] and [PosixSemaphore] with their laws, [TraceEnv] (the allow list and clock of
    the timeline), [SetWaitableTimer].  The event loop of a library is the list of
    the events it reports, each handled by the callback registered for it.

    ** Files

    Prelude          outcomes, the state monad, [wp]/[wlp]/[moves] rules and tactics, lists
    Base64           ws_cli/implement/ev/base64.cpp
    Utf8             ws_cli/implement/ev/utf8_utils.{h,cpp}
    WsTypes          ws_cli/ws_types.h, ws_state.h
    WsHeader         ws_cli/ws_header.{h,cpp}, util.cpp; [UnpackHeader] of session_impl_ev.cpp
    Libevent         the interface of libevent, SHA1 and rand_s
    HttpHeader       net/header.h, ws_cli/header.h, url.{h,cpp}, request.{h,cpp}, wtf/fmt_string.h
    WsState          ws_cli/implement/ev/session_impl_ev.h, connect_handler, message_handler
    WsSend           session_impl_ev.cpp: frames and closing
    WsHandshake      session_impl_ev.cpp: request and reply
    WsRecv           session_impl_ev.cpp: the frame reader; WsRecvSafety, WsRecvSpec its theorems
    WsSession        session_impl_ev.cpp: callbacks, DoConnect; session.{h,cpp}, session_impl.{h,cpp}
    WsLoop           reachable states of a connection and their invariant
    WsConnection     whole connections
    Time             wtf/time
    Double, TimeFloat    the type double; the conversions of wtf/time/time_delta.h from and to it
    TaskQueues       wtf/task_runner: queues, loops, runners; TaskQueuesSpec its theorems
    Thread           wtf/task_runner/thread.{h,cpp}
    HostCheck        http_cli/implement/ev/host_check.{h,cpp}
    HostnameValidation   http_cli/implement/ev/openssl_hostname_validation.{h,cpp}
    Sync             wtf/sync
    Language         wtf/scope_exit.h, thread_local.h with thread_local_unittests.cpp
    Pipeline         pipeline/
    Logging          wtf/logging
    HttpSession      http_cli/implement/uv, session, session_impl, response, error, cookies
    TraceEvent       wtf/trace_event.{h,cpp}
    WsUv             ws_cli/implement/uv, ws_cli/response.{h,cpp}
    HttpEv           http_cli/implement/ev/session_impl_ev.{h,cpp}
    TypeDescriptor   reflect/TypeDescriptor.h, MethodDescriptor.{h,cpp}, FieldDescriptor.{h,cpp}
    Reflect          reflect/Class.{h,cpp}, declarations of Method.h and Field.h
    ReflectShared    reflect/Class.h: instances with owners
    FloatText        floating-point numbers of both formats and their texts
    ReflectValue     reflect/Value.{h,cpp}, calls of Method.h and Field.h
    HttpBeast        http_cli/implement/beast/session_impl_beast.{h,cpp}
    SemaphorePlatforms   wtf/sync/semaphore.cpp: the branches of macOS and POSIX
    UnitTests        the unit tests of base64, pipeline, waitable event and message loop
    Tutorials        code/03 to code/06

    ** What is shown

    - Codecs: base64 is RFC 4648 and decodes to its input; the UTF-8 automaton
      accepts exactly well-formed UTF-8 and decodes what was encoded; frame headers
      survive packing and unpacking; a time span survives timespec, and seconds and
      milliseconds in double up to their rounding.
    - The WebSocket client: every state a connection reaches keeps an invariant
      and its callbacks return, are killed by a check, or meet one of three named
      undefined operations ([reachable_safe]).  The frame reader ends on any input.
      It delivers unfragmented data frames, masked or not, of at most 127 bytes
      whose payload is valid UTF-8 (which the code asks of binary frames too), in
      order, and the unmasked ones also when the stream is cut between reads anywhere but
      inside a character of a payload, which closes the session.  A text message of
      at most 127 bytes is sent as the frame of RFC 6455, and a longer one with a wrong
      length.  A reply is accepted exactly under the rules of the handshake as the
      code has them.  Closing writes the close frame and starts its timer, or drops
      the connection.  All of it composed, from Connect to delivered messages, is
      [connection_delivers].
    - The task runner: queues stay in the order of target times and registration, a
      flush runs exactly what is due, no wake-up is lost in any interleaving, and
      Join runs every due task.
    - The pipeline: over any semaphore that is a counter, all interleavings are
      safe, bounded and first-in first-out, and one thread sees a bounded queue;
      the semaphore of each platform is such a counter, and on macOS it can be
      destroyed after any use without a crash of the system's library.
    - Host names: [Curl_cert_hostcheck] decides the rule of RFC 6125.
      [ValidateHostname] finds a match exactly when a name of the certificate fits,
      and answers at all when the data of its names is followed by a NUL, which
      OpenSSL does not promise; [VerifyCertCallback] accepts exactly the matching
      certificates whose chain verification did not return 0, so also when it
      reported an error.
    - The HTTP clients: a plain exchange over libuv delivers one response with its
      status and body, and with its headers when the parser reports each name and
      value in one piece; a request over libevent is set up as asked, with
      verification of the peer on and the host checked under https; a round of
      operations over Boost.Beast ends in the redirect or in the error of the
      operation that failed first, and any other response ends the process, as
      nothing stores the function it is for; a request takes finitely many rounds
      whatever the servers answer.
    - Waitable event, logging, trace events: when a signal is pending while threads
      are blocked, a thread is awake whose next step ends its wait and clears the
      signal, as its own or, when its wait timed out, without taking it; what
      a log line writes and when it aborts; scopes nest and flows are begun and
      ended once.
    - Reflection: a type that has a descriptor of its own is read back from it, so
      overloads have keys of their own and are found again; in every state of the
      registry classes are assignable exactly when the descriptors of their base
      types are equal, for types with descriptors of their own when the base types
      are; instances are tracked, and deleted with their last owner; a call through
      type-erased values runs the method on what a direct call passes; numbers
      survive their texts, in floating point when they are whole and below a
      million, and fields give back what was set; a value always holds data of its
      type.
    - The unit tests, run as programs of the model, pass; thread-local objects are
      destroyed once, when their threads let go of them.
    - Where the code does not do what it means to, a theorem or lemma shows it: a
      close frame of 125 bytes writes out of its array, long messages are announced
      modulo 128, fragments kill the process, a timed-out wait can take another
      waiter's signal, and others.

    ** Bounds and fuel

    The frame reader is given 2n+2 turns for n buffered bytes: a turn either takes
    a byte or finishes a frame.  The header loop of the reply gets a turn per byte
    of input, as a line takes at least one.  Fragments get a turn per byte of
    the message and one more.  A flush gets one turn more than there are tasks.
    [FlushReadBio] gets one more than the BIO holds bytes, [read_body] one more than
    the buffer.  [DoRequest] over Boost.Beast needs one round more than there are
    redirects left, a loop over a range one turn more than the range is long.
    [DecodeBase64] and the other loops recurse on their input.
    Theorems about ids ask for fewer than 2^63 of them.

    ** What is not modelled

    Log output inside the sessions (Logging models the macros); the branches of other
    systems except those of the semaphore (the code is built for Windows); the debug
    callbacks of OpenSSL, which print; the stubs of wtf/trace_event.cpp for a build
    without a timeline, which do nothing; code under #if 0; option classes without
    members, which no code reads; ws_cli/Handler.h, a template that nothing includes;
    macros that delete constructors, and the unused singleton.h; code/07, a class
    without definitions; the unit tests that need a network.  What is left of the
    implementation is declarations, includes and comments. *)

From stdpp Require Import base list numbers strings gmap.
From Stdlib Require Import ZArith Lia.

Open Scope Z_scope.

Declare Scope cpp_scope.
Delimit Scope cpp_scope with cpp.

(** ** Bytes and machine integers *)

Abbreviation bytes := (list Z).

Definition is_byte (b : Z) : Prop := 0 <= b < 256.

Definition u8 (z : Z) : Z := z mod 2 ^ 8.
Definition u16 (z : Z) : Z := z mod 2 ^ 16.
Definition u32 (z : Z) : Z := z mod 2 ^ 32.
Definition u64 (z : Z) : Z := z mod 2 ^ 64.
Definition i32 (z : Z) : Z := (z + 2 ^ 31) mod 2 ^ 32 - 2 ^ 31.
Definition i64 (z : Z) : Z := (z + 2 ^ 63) mod 2 ^ 64 - 2 ^ 63.

Definition in_i64 (z : Z) : Prop := - 2 ^ 63 <= z < 2 ^ 63.

#[export] Instance is_byte_dec b : Decision (is_byte b).
Proof. unfold is_byte; apply _. Defined.

#[export] Instance in_i64_dec z : Decision (in_i64 z).
Proof. unfold in_i64; apply _. Defined.

(** The length of a list as an integer, as [size()] returns it. *)
Definition zlen {A} (l : list A) : Z := Z.of_nat (length l).

(** A string literal as the bytes the program stores for it. *)
Definition byte_of_ascii (c : Ascii.ascii) : Z := Z.of_N (Ascii.N_of_ascii c).

Definition str (s : string) : bytes := byte_of_ascii <$> String.list_ascii_of_string s.

(** ** Outcomes: a value, a failed [WTF_CHECK] (the process is aborted by the
    destructor of the fatal log message), or behaviour C++ leaves undefined. *)
Inductive outcome (A : Type) : Type :=
| Ret (a : A)
| Killed (why : string)
| Undef (why : string).
Arguments Ret {A} a.
Arguments Killed {A} why.
Arguments Undef {A} why.

Definition obind {A B} (m : outcome A) (k : A -> outcome B) : outcome B :=
  match m with
  | Ret a => k a
  | Killed w => Killed w
  | Undef w => Undef w
  end.

Notation "'let?' x ':=' m 'in' k" := (obind m (fun x => k))
  (at level 100, x name, m at level 99, right associativity) : cpp_scope.
Notation "'let?' ' p ':=' m 'in' k" :=
  (obind m (fun x => match x with p => k end))
  (at level 100, p pattern, m at level 99, right associativity) : cpp_scope.

(** An access that is undefined when it is out of range. *)
Definition or_undef {A} (why : string) (o : option A) : outcome A :=
  match o with Some a => Ret a | None => Undef why end.

(** Indexing with an integer: [None] when it is negative or past the end. *)
Definition at_Z {A} (l : list A) (i : Z) : option A :=
  if decide (0 <= i) then l !! Z.to_nat i else None.

Definition is_ret {A} (o : outcome A) : bool :=
  match o with Ret _ => true | _ => false end.

(** ** The state monad of a component that can abort *)

Definition M (S A : Type) : Type := S -> outcome (A * S).

Definition retS {S A} (a : A) : M S A := fun s => Ret (a, s).
Definition bindS {S A B} (m : M S A) (k : A -> M S B) : M S B :=
  fun s => match m s with
           | Ret (a, s') => k a s'
           | Killed w => Killed w
           | Undef w => Undef w
           end.
Definition getS {S A} (f : S -> A) : M S A := fun s => Ret (f s, s).
Definition updS {S} (f : S -> S) : M S unit := fun s => Ret (tt, f s).
Definition killS {S A} (why : string) : M S A := fun _ => Killed why.
Definition undefS {S A} (why : string) : M S A := fun _ => Undef why.
Definition liftS {S A} (o : outcome A) : M S A :=
  fun s => match o with
           | Ret a => Ret (a, s)
           | Killed w => Killed w
           | Undef w => Undef w
           end.

Lemma ret_state {S A} (a : A) (s s' : S) : s = s' -> Ret (a, s) = Ret (a, s').
Proof. by intros ->. Qed.

(** Running the first operation of a sequence. *)
Lemma bind_upd {S A} (f : S -> S) (k : unit -> M S A) s : bindS (updS f) k s = k tt (f s).
Proof. done. Qed.
Lemma bind_get {S A B} (f : S -> A) (k : A -> M S B) s : bindS (getS f) k s = k (f s) s.
Proof. done. Qed.
Lemma bind_ret {S A B} (a : A) (k : A -> M S B) s : bindS (retS a) k s = k a s.
Proof. done. Qed.
Lemma bind_run {S A B} (m : M S A) (k : A -> M S B) a s s' :
  m s = Ret (a, s') -> bindS m k s = k a s'.
Proof. unfold bindS. by intros ->. Qed.
Lemma bind_undef {S A B} (m : M S A) (k : A -> M S B) w s :
  m s = Undef w -> bindS m k s = Undef w.
Proof. unfold bindS. by intros ->. Qed.
Lemma bind_killed {S A B} (m : M S A) (k : A -> M S B) w s :
  m s = Killed w -> bindS m k s = Killed w.
Proof. unfold bindS. by intros ->. Qed.

(** [WTF_CHECK(b)]. *)
Definition checkS {S} (b : bool) (why : string) : M S unit :=
  if b then retS tt else killS why.

Definition whenS {S} (b : bool) (m : M S unit) : M S unit :=
  if b then m else retS tt.

Fixpoint iterS {S A} (f : A -> M S unit) (l : list A) : M S unit :=
  match l with
  | [] => retS tt
  | x :: l' => bindS (f x) (fun _ => iterS f l')
  end.

Notation "'let!' x ':=' m 'in' k" := (bindS m (fun x => k))
  (at level 100, x name, m at level 99, right associativity) : cpp_scope.
Notation "'let!' ' p ':=' m 'in' k" :=
  (bindS m (fun x => match x with p => k end))
  (at level 100, p pattern, m at level 99, right associativity) : cpp_scope.
Notation "'do!' m 'in' k" := (bindS m (fun _ => k))
  (at level 100, m at level 99, right associativity) : cpp_scope.
Open Scope cpp_scope.

(** [wp m Q s]: run from [s], [m] neither aborts nor is undefined, and its
    result and final state satisfy [Q]. *)
Definition wp {S A} (m : M S A) (Q : A -> S -> Prop) (s : S) : Prop :=
  match m s with
  | Ret (a, s') => Q a s'
  | _ => False
  end.

(** [wlp U m Q s]: the same, but [m] may be killed, and may be undefined for a
    reason in [U]. *)
Definition wlp {S A} (U : string -> Prop) (m : M S A) (Q : A -> S -> Prop) (s : S) : Prop :=
  match m s with
  | Ret (a, s') => Q a s'
  | Killed _ => True
  | Undef w => U w
  end.

(** [m] moves only along the relation [R]. *)
Definition moves {S A} (U : string -> Prop) (R : S -> S -> Prop) (m : M S A) : Prop :=
  forall s, wlp U m (fun _ s' => R s s') s.

(** ** Record update: [build_setter eta proj] turns the eta-expansion of a
    record into the function that replaces the field [proj]. *)
Ltac build_setter eta proj :=
  let e := eval cbv beta delta [eta] in eta in
  let e' := eval pattern proj in e in
  match e' with
  | ?g _ => let r := eval cbv beta in (fun v r => g (fun _ => v) r) in exact r
  end.

(** ** Proof rules *)

Create HintDb cpp.
Create Rewrite HintDb cpp.

Section wp_rules.
Context {S : Type}.
Implicit Types (s : S).

Lemma wp_ret {A} (a : A) (Q : A -> S -> Prop) s : Q a s -> wp (retS a) Q s.
Proof. done. Qed.

Lemma wp_bind {A B} (m : M S A) (k : A -> M S B) (Q : B -> S -> Prop) s :
  wp m (fun a s' => wp (k a) Q s') s -> wp (bindS m k) Q s.
Proof. unfold wp, bindS. by destruct (m s) as [[a s']| |]. Qed.

Lemma wp_mono {A} (m : M S A) (P Q : A -> S -> Prop) s :
  wp m P s -> (forall a s', P a s' -> Q a s') -> wp m Q s.
Proof. unfold wp. destruct (m s) as [[a s']| |]; naive_solver. Qed.

Lemma wp_run {A} (m : M S A) (Q : A -> S -> Prop) s :
  wp m Q s <-> exists a s', m s = Ret (a, s') /\ Q a s'.
Proof. unfold wp. destruct (m s) as [[a s']| |]; naive_solver. Qed.

Lemma wp_eq {A} (m m' : M S A) (Q : A -> S -> Prop) s s' :
  m s = m' s' -> wp m' Q s' -> wp m Q s.
Proof. unfold wp. by intros ->. Qed.

Lemma wp_val {A} (m : M S A) a s' (Q : A -> S -> Prop) s :
  m s = Ret (a, s') -> Q a s' -> wp m Q s.
Proof. unfold wp. by intros ->. Qed.

Lemma wp_get {A} (f : S -> A) (Q : A -> S -> Prop) s : Q (f s) s -> wp (getS f) Q s.
Proof. done. Qed.

Lemma wp_upd (f : S -> S) (Q : unit -> S -> Prop) s : Q tt (f s) -> wp (updS f) Q s.
Proof. done. Qed.

Lemma wp_check b why (Q : unit -> S -> Prop) s :
  b = true -> Q tt s -> wp (checkS b why) Q s.
Proof. by intros ->. Qed.

Lemma wp_when b (m : M S unit) (Q : unit -> S -> Prop) s :
  (b = true -> wp m Q s) -> (b = false -> Q tt s) -> wp (whenS b m) Q s.
Proof. destruct b; intros H1 H2; [by apply H1|by apply H2]. Qed.

Lemma wp_lift {A} (o : outcome A) a (Q : A -> S -> Prop) s :
  o = Ret a -> Q a s -> wp (liftS o) Q s.
Proof. by intros ->. Qed.

End wp_rules.

Section wlp_rules.
Context {S : Type} (U : string -> Prop).
Implicit Types (s : S).

Lemma wlp_ret {A} (a : A) (Q : A -> S -> Prop) s : Q a s -> wlp U (retS a) Q s.
Proof. done. Qed.

Lemma wlp_bind {A B} (m : M S A) (k : A -> M S B) (Q : B -> S -> Prop) s :
  wlp U m (fun a s' => wlp U (k a) Q s') s -> wlp U (bindS m k) Q s.
Proof. unfold wlp, bindS. by destruct (m s) as [[a s']| |]. Qed.

Lemma wlp_mono {A} (m : M S A) (P Q : A -> S -> Prop) s :
  wlp U m P s -> (forall a s', P a s' -> Q a s') -> wlp U m Q s.
Proof. unfold wlp. destruct (m s) as [[a s']| |]; naive_solver. Qed.

Lemma wlp_get {A} (f : S -> A) (Q : A -> S -> Prop) s : Q (f s) s -> wlp U (getS f) Q s.
Proof. done. Qed.

Lemma wlp_upd (f : S -> S) (Q : unit -> S -> Prop) s : Q tt (f s) -> wlp U (updS f) Q s.
Proof. done. Qed.

Lemma wlp_check b why (Q : unit -> S -> Prop) s :
  (b = true -> Q tt s) -> wlp U (checkS b why) Q s.
Proof. destruct b; unfold wlp; simpl; auto. Qed.

Lemma wlp_when b (m : M S unit) (Q : unit -> S -> Prop) s :
  (b = true -> wlp U m Q s) -> (b = false -> Q tt s) -> wlp U (whenS b m) Q s.
Proof. destruct b; intros H1 H2; [by apply H1|by apply H2]. Qed.

Lemma wlp_lift {A} (o : outcome A) (Q : A -> S -> Prop) s :
  (forall a, o = Ret a -> Q a s) -> (forall w, o = Undef w -> U w) -> wlp U (liftS o) Q s.
Proof. unfold wlp, liftS. destruct o; auto. Qed.

Lemma wlp_undef {A} why (Q : A -> S -> Prop) s : U why -> wlp U (undefS why) Q s.
Proof. done. Qed.

Lemma wlp_kill {A} why (Q : A -> S -> Prop) s : wlp U (killS why) Q s.
Proof. done. Qed.

Lemma wp_wlp {A} (m : M S A) (Q : A -> S -> Prop) s : wp m Q s -> wlp U m Q s.
Proof. unfold wp, wlp. by destruct (m s) as [[a s']| |]. Qed.

Lemma wlp_and {A} V (m : M S A) (P Q : A -> S -> Prop) s :
  wlp U m P s -> wlp V m Q s -> wlp U m (fun a s' => P a s' /\ Q a s') s.
Proof. unfold wlp. by destruct (m s) as [[a s']| |]. Qed.

Lemma wlp_weaken {A} (V : string -> Prop) (m : M S A) (Q : A -> S -> Prop) s :
  wlp V m Q s -> (forall w, V w -> U w) -> wlp U m Q s.
Proof. unfold wlp. destruct (m s) as [[a s']| |]; auto. Qed.

Lemma wlp_run {A} (m : M S A) (Q : A -> S -> Prop) s a s' :
  wlp U m Q s -> m s = Ret (a, s') -> Q a s'.
Proof. unfold wlp. intros H Hm. by rewrite Hm in H. Qed.
End wlp_rules.

(** ** Programs that move along a preorder *)

Section moves_rules.
Context {S : Type} (U : string -> Prop) (R : S -> S -> Prop) `{!PreOrder R}.

Lemma moves_ret {A} (a : A) : moves U R (retS a).
Proof. intros s. by apply wlp_ret. Qed.

Lemma moves_get {A} (f : S -> A) : moves U R (getS f).
Proof. intros s. by apply wlp_get. Qed.

Lemma moves_upd (f : S -> S) : (forall s, R s (f s)) -> moves U R (updS f).
Proof. intros H s. apply wlp_upd, H. Qed.

Lemma moves_bind {A B} (m : M S A) (k : A -> M S B) :
  moves U R m -> (forall a, moves U R (k a)) -> moves U R (bindS m k).
Proof.
  intros Hm Hk s. apply wlp_bind. eapply wlp_mono; [apply Hm|]. intros a s' Hs.
  eapply wlp_mono; [apply Hk|]. intros b s'' Hs'. by transitivity s'.
Qed.

Lemma moves_check b why : moves U R (checkS b why).
Proof. intros s. by apply wlp_check. Qed.

Lemma moves_when b (m : M S unit) : moves U R m -> moves U R (whenS b m).
Proof. intros H s. apply wlp_when; intros; [apply H|done]. Qed.

Lemma moves_lift {A} (o : outcome A) : (forall w, o = Undef w -> U w) -> moves U R (liftS o).
Proof. intros H s. by apply wlp_lift. Qed.

Lemma moves_if {A} (b : bool) (m1 m2 : M S A) :
  moves U R m1 -> moves U R m2 -> moves U R (if b then m1 else m2).
Proof. by destruct b. Qed.

Lemma moves_iter {A} (f : A -> M S unit) l : (forall a, moves U R (f a)) -> moves U R (iterS f l).
Proof.
  intros H. induction l as [|x l IH]; simpl; [apply moves_ret|]. by apply moves_bind.
Qed.

Lemma moves_wlp {A} (m : M S A) (Q : A -> S -> Prop) s :
  moves U R m -> (forall a s', R s s' -> Q a s') -> wlp U m Q s.
Proof. intros Hm H. eapply wlp_mono; [apply Hm|]. auto. Qed.
End moves_rules.

(** Walk through a program whose pieces move along [R]; what is left are the
    updates and the calls the caller has lemmas for. *)
Ltac moves_step :=
  lazymatch goal with
  | |- moves _ _ (bindS _ _) => apply moves_bind; [apply _|..|intros ?]
  | |- moves _ _ (retS _) => apply moves_ret; apply _
  | |- moves _ _ (getS _) => apply moves_get; apply _
  | |- moves _ _ (checkS _ _) => apply moves_check; apply _
  | |- moves _ _ (whenS _ _) => apply moves_when; [apply _|]
  | |- moves _ _ (if _ then _ else _) => apply moves_if
  | |- moves _ _ (match ?p with (_, _) => _ end) => destruct p
  | |- moves _ _ (updS _) => apply moves_upd; intros ?
  | |- moves _ _ (liftS _) => apply moves_lift; [apply _|]
  end; cbv beta zeta.

(** One step of a [wp] or [wlp] goal along the structure of the program;
    conditionals become cases. *)
Ltac wp_step :=
  lazymatch goal with
  | |- wp (bindS _ _) _ _ => apply wp_bind
  | |- wp (retS _) _ _ => apply wp_ret
  | |- wp (getS _) _ _ => apply wp_get
  | |- wp (updS _) _ _ => apply wp_upd
  | |- wp (whenS _ _) _ _ => apply wp_when; intros
  | |- wp (if ?b then _ else _) _ _ => destruct b eqn:?
  | |- wp (match ?p with (_, _) => _ end) _ _ => destruct p
  | |- wlp _ (bindS _ _) _ _ => apply wlp_bind
  | |- wlp _ (retS _) _ _ => apply wlp_ret
  | |- wlp _ (getS _) _ _ => apply wlp_get
  | |- wlp _ (updS _) _ _ => apply wlp_upd
  | |- wlp _ (checkS _ _) _ _ => apply wlp_check; intros
  | |- wlp _ (whenS _ _) _ _ => apply wlp_when; intros
  | |- wlp _ (liftS _) _ _ => apply wlp_lift; intros
  | |- wlp _ (undefS _) _ _ => apply wlp_undef
  | |- wlp _ (killS _) _ _ => apply wlp_kill
  | |- wlp _ (if ?b then _ else _) _ _ => destruct b eqn:?
  | |- wlp _ (match ?p with (_, _) => _ end) _ _ => destruct p
  end; cbv beta zeta.

Ltac wp_steps := repeat wp_step.

(** ** Finite case analysis over bytes: a property of one or two bytes that
    computes to [true] everywhere holds of all of them. *)

Definition all_below (n : nat) (P : Z -> bool) : bool :=
  forallb (fun k => P (Z.of_nat k)) (seq 0 n).

Lemma all_below_spec n P :
  all_below n P = true -> forall z, 0 <= z < Z.of_nat n -> P z = true.
Proof.
  intros H z Hz. unfold all_below in H.
  rewrite forallb_forall in H.
  specialize (H (Z.to_nat z)). rewrite Z2Nat.id in H by lia.
  apply H, in_seq. lia.
Qed.

Lemma bytes_forall P :
  all_below 256 P = true -> forall b, is_byte b -> P b = true.
Proof. intros H b Hb. eapply all_below_spec; [exact H|]. unfold is_byte in Hb. lia. Qed.

Lemma bytes2_forall P :
  all_below 256 (fun a => all_below 256 (P a)) = true ->
  forall a b, is_byte a -> is_byte b -> P a b = true.
Proof.
  intros H a b Ha Hb.
  pose proof (bytes_forall _ H a Ha) as H1. simpl in H1.
  exact (bytes_forall _ H1 b Hb).
Qed.

(** ** Lists and integers *)

Lemma zlen_nonneg {A} (l : list A) : 0 <= zlen l.
Proof. unfold zlen. lia. Qed.

Lemma zlen_app {A} (l k : list A) : zlen (l ++ k) = zlen l + zlen k.
Proof. unfold zlen. rewrite length_app. lia. Qed.

Lemma zlen_cons {A} (x : A) l : zlen (x :: l) = 1 + zlen l.
Proof. unfold zlen. simpl. lia. Qed.

Lemma zlen_nil {A} : zlen (@nil A) = 0.
Proof. done. Qed.

#[export] Hint Rewrite @zlen_app @zlen_cons @zlen_nil : cpp.

Lemma at_Z_app_r {A} (l k : list A) (i j : Z) :
  i = zlen l + j -> 0 <= j -> at_Z (l ++ k) i = at_Z k j.
Proof.
  intros -> Hj. unfold at_Z, zlen. rewrite !decide_True by lia.
  rewrite lookup_app_r by lia. f_equal. lia.
Qed.

Lemma at_Z_app_l {A} (l k : list A) (i : Z) :
  i < zlen l -> at_Z (l ++ k) i = at_Z l i.
Proof.
  intros Hi. unfold at_Z, zlen in *. case_decide; [|done].
  apply lookup_app_l. lia.
Qed.

Lemma at_Z_Some {A} (l : list A) (i : Z) x :
  at_Z l i = Some x -> 0 <= i < zlen l.
Proof.
  unfold at_Z, zlen. case_decide; [|done].
  intros Hx%lookup_lt_Some. lia.
Qed.

Lemma at_Z_is_Some {A} (l : list A) (i : Z) :
  0 <= i < zlen l -> is_Some (at_Z l i).
Proof.
  unfold at_Z, zlen. intros Hi. rewrite decide_True by lia.
  apply lookup_lt_is_Some. lia.
Qed.

Lemma Forall_at_Z {A} (P : A -> Prop) l i x :
  Forall P l -> at_Z l i = Some x -> P x.
Proof.
  unfold at_Z. case_decide; [|done]. intros HF Hx.
  eapply Forall_lookup_1; eauto.
Qed.

Lemma u8_byte z : is_byte (u8 z).
Proof. unfold is_byte, u8. apply Z.mod_pos_bound. lia. Qed.

Lemma u8_id z : is_byte z -> u8 z = z.
Proof. unfold is_byte, u8. intros. apply Z.mod_small. lia. Qed.

#[export] Hint Resolve u8_byte zlen_nonneg : cpp.

(** The bits of a sum of two numbers with no common bit. *)
Lemma lor_disjoint_add a b n :
  0 <= n -> 0 <= a < 2 ^ n -> Z.lor a (Z.shiftl b n) = a + b * 2 ^ n.
Proof.
  intros Hn Ha. rewrite <- (Z.shiftl_mul_pow2 b n) by lia.
  rewrite <- (Z.add_lor_land a (Z.shiftl b n)).
  enough (Z.land a (Z.shiftl b n) = 0) as -> by lia.
  apply Z.bits_inj'. intros k Hk.
  rewrite Z.land_spec, Z.shiftl_spec, Z.bits_0 by lia.
  destruct (decide (k < n)).
  - rewrite (Z.testbit_neg_r b) by lia. by rewrite andb_false_r.
  - rewrite <- (Z.mod_small a (2 ^ n)) by lia.
    by rewrite Z.mod_pow2_bits_high by lia.
Qed.

(** ** Memory of a little-endian host *)

Fixpoint le_bytes (n : nat) (v : Z) : bytes :=
  match n with
  | O => []
  | S n' => v mod 256 :: le_bytes n' (v / 256)
  end.

Fixpoint le_val (bs : bytes) : Z :=
  match bs with
  | [] => 0
  | b :: bs' => b + 256 * le_val bs'
  end.

(** Overwriting [length bs] bytes of a buffer from index [i]. *)
Definition write_at (b : bytes) (i : nat) (bs : bytes) : outcome bytes :=
  if decide (i + length bs <= length b)%nat
  then Ret (take i b ++ bs ++ drop (i + length bs) b)
  else Undef "write past the end of a buffer".

(** Reading [n] bytes of a buffer from index [i]. *)
Definition read_at (b : bytes) (i n : nat) : outcome bytes :=
  if decide (i + n <= length b)%nat
  then Ret (take n (drop i b))
  else Undef "read past the end of a buffer".

Lemma length_le_bytes n v : length (le_bytes n v) = n.
Proof. revert v; induction n; intros; simpl; auto. Qed.

Lemma le_bytes_byte n v : Forall is_byte (le_bytes n v).
Proof.
  revert v; induction n; intros; simpl; constructor; [|done].
  unfold is_byte. apply Z.mod_pos_bound. lia.
Qed.

Lemma le_val_bytes n v : 0 <= v < 256 ^ Z.of_nat n -> le_val (le_bytes n v) = v.
Proof.
  revert v; induction n as [|n IH]; intros v Hv; simpl.
  - change (256 ^ Z.of_nat 0) with 1 in Hv. lia.
  - rewrite Nat2Z.inj_succ, Z.pow_succ_r in Hv by lia.
    rewrite IH; Z.div_mod_to_equations; lia.
Qed.

Lemma le_val_bound bs : Forall is_byte bs -> 0 <= le_val bs < 256 ^ zlen bs.
Proof.
  induction 1 as [|b bs Hb HF IH]; simpl.
  - done.
  - rewrite zlen_cons, Z.pow_add_r by (pose proof (zlen_nonneg bs); lia).
    unfold is_byte in Hb. lia.
Qed.

Lemma le_bytes_val bs : Forall is_byte bs -> le_bytes (length bs) (le_val bs) = bs.
Proof.
  induction 1 as [|b bs Hb HF IH]; simpl; [done|]. unfold is_byte in Hb.
  replace ((b + 256 * le_val bs) mod 256) with b by (Z.div_mod_to_equations; lia).
  replace ((b + 256 * le_val bs) / 256) with (le_val bs) by (Z.div_mod_to_equations; lia).
  by rewrite IH.
Qed.

Arguments le_val : simpl never.

Lemma read_at_ok b i n :
  (i + n <= length b)%nat -> read_at b i n = Ret (take n (drop i b)).
Proof. intros H. unfold read_at. by rewrite decide_True. Qed.

(** A write keeps the size of the buffer. *)
Lemma write_at_inv b i bs b' :
  write_at b i bs = Ret b' -> length b' = length b /\
  (Forall is_byte b -> Forall is_byte bs -> Forall is_byte b').
Proof.
  unfold write_at. case_decide; [|done]. intros [= <-]. split.
  - rewrite !length_app, length_take, length_drop. lia.
  - intros Hb Hbs. apply Forall_app_2; [by apply Forall_take|].
    apply Forall_app_2; [done|by apply Forall_drop].
Qed.

Lemma write_at_undef b i bs w :
  write_at b i bs = Undef w -> w = "write past the end of a buffer"%string.
Proof. unfold write_at. case_decide; [done|]. by intros [= <-]. Qed.

Lemma read_at_inv b i n bs :
  read_at b i n = Ret bs -> length bs = n /\ (Forall is_byte b -> Forall is_byte bs).
Proof.
  unfold read_at. case_decide; [|done]. intros [= <-]. split.
  - rewrite length_take, length_drop. lia.
  - intros H'. by apply Forall_take, Forall_drop.
Qed.
