(* ===== verification/Base64.v ===== *)
(** * Base64: src/src/net/ws_cli/implement/ev/base64.cpp

    [EncodeBase64] and [DecodeBase64] as index loops over the input, with the
    reference encoder of RFC 4648 they are compared with.  The handshake key and
    the accept hash of the WebSocket session are printed by the encoder. *)

From stdpp Require Import base list numbers strings.
From Stdlib Require Import ZArith Lia.
From S2P Require Import Prelude.

Definition base64_chars : bytes :=
  str "ABCDEFGHIJKLMNOPQRSTUVWXYZabcdefghijklmnopqrstuvwxyz0123456789+/".

(** [std::isalnum] in the C locale. *)
Definition isalnum (c : Z) : bool :=
  ((48 <=? c) && (c <=? 57)) || ((65 <=? c) && (c <=? 90)) || ((97 <=? c) && (c <=? 122)).

Definition IsBase64 (c : Z) : bool := isalnum c || (c =? 43) || (c =? 47).

(** ** Encoding *)

Definition rd (bs : bytes) (i : Z) : outcome Z :=
  or_undef "read past bytes_to_encode" (at_Z bs i).

Definition chr64 (k : Z) : outcome Z :=
  or_undef "base64_chars index" (at_Z base64_chars k).

(** The loop over whole groups; [len - 3] is computed on 32 unsigned bits.  It
    returns the index reached and the output. *)
Fixpoint encode_loop (fuel : nat) (bs : bytes) (len i : Z) (res : bytes)
  : outcome (Z * bytes) :=
  match fuel with
  | O => Undef "encode_loop: out of fuel"
  | S fuel' =>
      if (i <=? u32 (len - 3)) && (3 <=? len) then
        let? BYTE0 := rd bs i in
        let? BYTE1 := rd bs (i + 1) in
        let? BYTE2 := rd bs (i + 2) in
        let? c0 := chr64 (Z.shiftr BYTE0 2) in
        let? c1 := chr64 (Z.shiftl (Z.land 0x3 BYTE0) 4 + Z.shiftr BYTE1 4) in
        let? c2 := chr64 (Z.shiftl (Z.land 0x0f BYTE1) 2 + Z.shiftr BYTE2 6) in
        let? c3 := chr64 (Z.land 0x3f BYTE2) in
        encode_loop fuel' bs len (i + 3) (res ++ [c0; c1; c2; c3])
      else Ret (i, res)
  end.

Definition encode_tail (pad : Z) (bs : bytes) (i : Z) (res : bytes) : outcome bytes :=
  if pad =? 2 then
    let? BYTE0 := rd bs i in
    let? c0 := chr64 (Z.shiftr BYTE0 2) in
    let? c1 := chr64 (Z.shiftl (Z.land 0x3 BYTE0) 4) in
    Ret (res ++ [c0; c1; 61; 61])
  else if pad =? 1 then
    let? BYTE0 := rd bs i in
    let? BYTE1 := rd bs (i + 1) in
    let? c0 := chr64 (Z.shiftr BYTE0 2) in
    let? c1 := chr64 (Z.shiftl (Z.land 0x3 BYTE0) 4 + Z.shiftr BYTE1 4) in
    let? c2 := chr64 (Z.shiftl (Z.land 0x0f BYTE1) 2) in
    Ret (res ++ [c0; c1; c2; 61])
  else Ret res.

Definition encode_pad (len : Z) : Z :=
  let modulus := len mod 3 in
  Z.shiftl (Z.land modulus 1) 1 + Z.shiftr (Z.land modulus 2) 1.

Definition EncodeBase64 (bs : bytes) (len : Z) : outcome bytes :=
  let? '(i, res) := encode_loop (S (Z.to_nat len)) bs len 0 [] in
  encode_tail (encode_pad len) bs i res.

(** ** Decoding *)

(** [std::string::operator[]] on a constant string: the position one past the
    end reads the terminator, anything else out of range is undefined. *)
Definition str_at (s : bytes) (i : Z) : outcome Z :=
  if i =? zlen s then Ret 0 else or_undef "string index" (at_Z s i).

(** [base64_chars.find(c)] stored in a [uint8_t]: [npos] becomes 255. *)
Fixpoint find_from (l : bytes) (c : Z) (k : Z) : Z :=
  match l with
  | [] => u8 (2 ^ 64 - 1)
  | x :: l' => if x =? c then u8 k else find_from l' c (k + 1)
  end.
Definition find64 (c : Z) : Z := find_from base64_chars c 0.

Definition decode_pad (s : bytes) (len : Z) : outcome Z :=
  let? a := str_at s (len - 1) in
  let pad := if a =? 61 then 1 else 0 in
  let? b := str_at s (len - 2) in
  Ret (if b =? 61 then pad + 1 else pad).

Fixpoint decode_loop (fuel : nat) (s : bytes) (len pad charNo : Z) (res : bytes)
  : outcome (Z * bytes) :=
  match fuel with
  | O => Undef "decode_loop: out of fuel"
  | S fuel' =>
      if charNo <=? len - 4 - pad then
        let? c0 := str_at s charNo in
        let? c1 := str_at s (charNo + 1) in
        let? c2 := str_at s (charNo + 2) in
        let? c3 := str_at s (charNo + 3) in
        let BYTE0 := find64 c0 in
        let BYTE1 := find64 c1 in
        let BYTE2 := find64 c2 in
        let BYTE3 := find64 c3 in
        decode_loop fuel' s len pad (charNo + 4)
          (res ++ [u8 (Z.lor (Z.shiftl BYTE0 2) (Z.shiftr BYTE1 4));
                   u8 (Z.lor (Z.shiftl BYTE1 4) (Z.shiftr BYTE2 2));
                   u8 (Z.lor (Z.shiftl BYTE2 6) BYTE3)])
      else Ret (charNo, res)
  end.

Definition decode_tail (s : bytes) (pad charNo : Z) (res : bytes) : outcome bytes :=
  if pad =? 1 then
    let? c0 := str_at s charNo in
    let? c1 := str_at s (charNo + 1) in
    let? c2 := str_at s (charNo + 2) in
    let BYTE0 := find64 c0 in
    let BYTE1 := find64 c1 in
    let BYTE2 := find64 c2 in
    Ret (res ++ [u8 (Z.lor (Z.shiftl BYTE0 2) (Z.shiftr BYTE1 4));
                 u8 (Z.lor (Z.shiftl BYTE1 4) (Z.shiftr BYTE2 2))])
  else if pad =? 2 then
    let? c0 := str_at s charNo in
    let? c1 := str_at s (charNo + 1) in
    let BYTE0 := find64 c0 in
    let BYTE1 := find64 c1 in
    Ret (res ++ [u8 (Z.lor (Z.shiftl BYTE0 2) (Z.shiftr BYTE1 4))])
  else Ret res.

Definition DecodeBase64 (s : bytes) : outcome bytes :=
  let len := i32 (zlen s) in
  let? pad := decode_pad s len in
  let? '(charNo, res) := decode_loop (S (length s)) s len pad 0 [] in
  decode_tail s pad charNo res.

(** ** Reference encoder (RFC 4648, section 4) *)

Definition sextet (k : Z) : Z := default 0 (at_Z base64_chars k).

Fixpoint rfc4648_encode (bs : bytes) : bytes :=
  match bs with
  | [] => []
  | [a] => [sextet (a / 4); sextet (a mod 4 * 16); 61; 61]
  | [a; b] =>
      [sextet (a / 4); sextet (a mod 4 * 16 + b / 16); sextet (b mod 16 * 4); 61]
  | a :: b :: c :: r =>
      [sextet (a / 4); sextet (a mod 4 * 16 + b / 16);
       sextet (b mod 16 * 4 + c / 64); sextet (c mod 64)] ++ rfc4648_encode r
  end.

(** ** Lemmas *)

Lemma list_ind3 {A} (P : list A -> Prop) :
  P [] -> (forall a, P [a]) -> (forall a b, P [a; b]) ->
  (forall a b c r, P r -> P (a :: b :: c :: r)) -> forall l, P l.
Proof.
  intros H0 H1 H2 H3. fix IH 1. intros [|a [|b [|c r]]]; [done|done|done|]. apply H3, IH.
Qed.

Lemma chr64_sextet k : 0 <= k < 64 -> chr64 k = Ret (sextet k).
Proof.
  intros Hk. unfold chr64, sextet.
  destruct (at_Z_is_Some base64_chars k) as [x Hx]; [done|]. by rewrite Hx.
Qed.

Lemma find64_sextet k : 0 <= k < 64 -> find64 (sextet k) = k.
Proof.
  intros Hk. apply Z.eqb_eq.
  exact (all_below_spec 64 (fun k => find64 (sextet k) =? k) eq_refl k Hk).
Qed.

Lemma sextet_not_pad k : 0 <= k < 64 -> (sextet k =? 61) = false.
Proof.
  intros Hk. apply negb_true_iff.
  exact (all_below_spec 64 (fun k => negb (sextet k =? 61)) eq_refl k Hk).
Qed.

(** The bit operations of the encoder as arithmetic. *)
Lemma enc_bits a b c :
  is_byte a -> is_byte b -> is_byte c ->
  Z.shiftr a 2 = a / 4 /\
  Z.shiftl (Z.land 0x3 a) 4 = a mod 4 * 16 /\ Z.shiftr b 4 = b / 16 /\
  Z.shiftl (Z.land 0x0f b) 2 = b mod 16 * 4 /\ Z.shiftr c 6 = c / 64 /\
  Z.land 0x3f c = c mod 64.
Proof.
  intros Ha Hb Hc. rewrite !Z.shiftr_div_pow2, !Z.shiftl_mul_pow2 by lia.
  rewrite !(Z.land_comm _ a), !(Z.land_comm _ b), !(Z.land_comm _ c).
  change 0x3 with (Z.ones 2). change 0x0f with (Z.ones 4). change 0x3f with (Z.ones 6).
  rewrite !Z.land_ones by lia. done.
Qed.

Lemma rd_app pre a rest i :
  i = zlen pre -> rd (pre ++ a :: rest) i = Ret a.
Proof.
  intros ->. unfold rd. by rewrite (at_Z_app_r _ _ _ 0) by lia.
Qed.

Lemma rd_app1 pre a b rest i :
  i = zlen pre + 1 -> rd (pre ++ a :: b :: rest) i = Ret b.
Proof.
  intros ->. unfold rd. by rewrite (at_Z_app_r _ _ _ 1) by lia.
Qed.

Lemma rd_app2 pre a b c rest i :
  i = zlen pre + 2 -> rd (pre ++ a :: b :: c :: rest) i = Ret c.
Proof.
  intros ->. unfold rd. by rewrite (at_Z_app_r _ _ _ 2) by lia.
Qed.

Lemma encode_pad_values n : encode_pad n = match n mod 3 with 1 => 2 | 2 => 1 | _ => 0 end.
Proof.
  unfold encode_pad. pose proof (Z.mod_pos_bound n 3 ltac:(lia)).
  assert (n mod 3 = 0 \/ n mod 3 = 1 \/ n mod 3 = 2) as [-> | [-> | ->]] by lia; done.
Qed.

(** The loop and the tail from a position that is a multiple of three. *)
Lemma encode_from rest : forall pre res fuel,
  Forall is_byte rest -> zlen pre mod 3 = 0 -> zlen (pre ++ rest) < 2 ^ 32 ->
  (length rest < fuel)%nat ->
  (let? '(i, r) := encode_loop fuel (pre ++ rest) (zlen (pre ++ rest)) (zlen pre) res in
   encode_tail (encode_pad (zlen (pre ++ rest))) (pre ++ rest) i r)
  = Ret (res ++ rfc4648_encode rest).
Proof.
  induction rest as [|a|a b|a b c r IH] using list_ind3;
    intros pre res fuel HF Hm Hlt Hfuel; (destruct fuel as [|fuel]; [simpl in Hfuel; lia|]);
    cbn [encode_loop]; pose proof (zlen_nonneg pre); autorewrite with cpp in *.
  1-3: rewrite (proj2 (andb_false_iff _ _)) by
    (match goal with |- context [u32 (?n - 3)] => destruct (decide (n < 3)) end;
     [right; lia|left]; unfold u32; rewrite Z.mod_small by lia; lia).
  1-3: cbn [obind]; rewrite encode_pad_values; unfold encode_tail.
  - rewrite (Z.add_0_r (zlen pre)), Hm. simpl. by rewrite !app_nil_r.
  - replace ((zlen pre + (1 + 0)) mod 3) with 1 by (Z.div_mod_to_equations; lia).
    inversion_clear HF as [|? ? Ha _].
    destruct (enc_bits a a a Ha Ha Ha) as (E1 & E2 & _).
    simpl. rewrite rd_app by done. simpl. rewrite E1, E2.
    unfold is_byte in Ha. rewrite !chr64_sextet by (Z.div_mod_to_equations; lia). done.
  - replace ((zlen pre + (1 + (1 + 0))) mod 3) with 2 by (Z.div_mod_to_equations; lia).
    inversion_clear HF as [|? ? Ha HF']. inversion_clear HF' as [|? ? Hb _].
    destruct (enc_bits a b b Ha Hb Hb) as (E1 & E2 & E3 & E4 & _).
    simpl. rewrite rd_app, rd_app1 by done. simpl. rewrite E1, E2, E3, E4.
    unfold is_byte in Ha, Hb. rewrite !chr64_sextet by (Z.div_mod_to_equations; lia). done.
  - inversion_clear HF as [|? ? Ha HF']. inversion_clear HF' as [|? ? Hb HF].
    inversion_clear HF as [|? ? Hc HF'].
    destruct (enc_bits a b c Ha Hb Hc) as (E1 & E2 & E3 & E4 & E5 & E6).
    rewrite (proj2 (andb_true_iff _ _)) by
      (pose proof (zlen_nonneg r); unfold u32; rewrite Z.mod_small by lia; lia).
    rewrite rd_app, rd_app1, rd_app2 by done. cbn [obind]. rewrite E1, E2, E3, E4, E5, E6.
    unfold is_byte in Ha, Hb, Hc.
    rewrite !chr64_sextet by (Z.div_mod_to_equations; lia). cbn [obind].
    specialize (IH (pre ++ [a; b; c])
      (res ++ [sextet (a / 4); sextet (a mod 4 * 16 + b / 16);
               sextet (b mod 16 * 4 + c / 64); sextet (c mod 64)]) fuel HF').
    autorewrite with cpp in IH. rewrite <- !app_assoc in IH. cbn [app] in IH.
    replace (zlen pre + (1 + (1 + (1 + 0))) + zlen r)
      with (zlen pre + (1 + (1 + (1 + zlen r)))) in IH by lia.
    replace (zlen pre + (1 + (1 + (1 + 0)))) with (zlen pre + 3) in IH by lia.
    apply IH; [Z.div_mod_to_equations; lia|lia|simpl in Hfuel; lia].
Qed.

Lemma encode_is_rfc4648 bs :
  Forall is_byte bs -> zlen bs < 2 ^ 32 -> EncodeBase64 bs (zlen bs) = Ret (rfc4648_encode bs).
Proof.
  intros HF Hlt. apply (encode_from bs [] []); [done|done|done|].
  unfold zlen. rewrite Nat2Z.id. lia.
Qed.

Lemma length_rfc4648 bs : zlen (rfc4648_encode bs) = 4 * ((zlen bs + 2) / 3).
Proof.
  induction bs as [|a|a b|a b c r IH] using list_ind3; try done.
  cbn [rfc4648_encode]. autorewrite with cpp. rewrite IH. Z.div_mod_to_equations; lia.
Qed.

(** How many [=] signs the encoding ends in. *)
Definition pads (bs : bytes) : Z := match zlen bs mod 3 with 1 => 2 | 2 => 1 | _ => 0 end.

Lemma pads_cons3 a b c r : pads (a :: b :: c :: r) = pads r.
Proof.
  unfold pads. autorewrite with cpp.
  replace ((1 + (1 + (1 + zlen r))) mod 3) with (zlen r mod 3)
    by (Z.div_mod_to_equations; lia). done.
Qed.

Lemma str_at_app pre l i j :
  i = zlen pre + j -> 0 <= j < zlen l -> str_at (pre ++ l) i = or_undef "string index" (at_Z l j).
Proof.
  intros -> Hj. unfold str_at. autorewrite with cpp.
  replace (zlen pre + j =? zlen pre + zlen l) with false by lia.
  by rewrite (at_Z_app_r _ _ _ j) by lia.
Qed.

Lemma str_at_lookup pre l i n x :
  i = zlen pre + Z.of_nat n -> l !! n = Some x -> str_at (pre ++ l) i = Ret x.
Proof.
  intros Hi Hx. pose proof (lookup_lt_Some _ _ _ Hx).
  rewrite (str_at_app _ _ _ (Z.of_nat n)) by (done || unfold zlen; lia).
  unfold at_Z. rewrite decide_True, Nat2Z.id, Hx by lia. done.
Qed.

Lemma decode_pad_spec rest : forall pre,
  rest <> [] -> Forall is_byte rest ->
  decode_pad (pre ++ rfc4648_encode rest) (zlen (pre ++ rfc4648_encode rest)) = Ret (pads rest).
Proof.
  induction rest as [|a|a b|a b c r IH] using list_ind3; intros pre Hne HF; [done| | |].
  1-2: unfold decode_pad; cbn [rfc4648_encode]; autorewrite with cpp;
    rewrite (str_at_app _ _ _ 3), (str_at_app _ _ _ 2) by (autorewrite with cpp; lia); simpl; try done.
  - inversion_clear HF as [|? ? Ha HF']. inversion_clear HF' as [|? ? Hb _].
    unfold is_byte in *. by rewrite sextet_not_pad by (Z.div_mod_to_equations; lia).
  - inversion_clear HF as [|? ? Ha HF']. inversion_clear HF' as [|? ? Hb HF].
    inversion_clear HF as [|? ? Hc HF']. rewrite pads_cons3.
    destruct (decide (r = [])) as [->|Hr].
    + unfold decode_pad; cbn [rfc4648_encode]; autorewrite with cpp; rewrite app_nil_r.
      rewrite (str_at_app _ _ _ 3), (str_at_app _ _ _ 2) by (autorewrite with cpp; lia).
      unfold is_byte in *. simpl. by rewrite !sextet_not_pad by (Z.div_mod_to_equations; lia).
    + cbn [rfc4648_encode]. rewrite app_assoc. by apply IH.
Qed.

(** Recovering the bytes from the sextets. *)
Lemma dec_bits a b c :
  is_byte a -> is_byte b -> is_byte c ->
  u8 (Z.lor (Z.shiftl (a / 4) 2) (Z.shiftr (a mod 4 * 16 + b / 16) 4)) = a /\
  u8 (Z.lor (Z.shiftl (a mod 4 * 16 + b / 16) 4) (Z.shiftr (b mod 16 * 4 + c / 64) 2)) = b /\
  u8 (Z.lor (Z.shiftl (b mod 16 * 4 + c / 64) 6) (c mod 64)) = c.
Proof.
  intros Ha Hb Hc. unfold is_byte in *.
  rewrite !(Z.lor_comm (Z.shiftl _ _)), !Z.shiftr_div_pow2 by lia.
  rewrite !lor_disjoint_add by (Z.div_mod_to_equations; lia). unfold u8.
  repeat split; Z.div_mod_to_equations; lia.
Qed.

Ltac sextets := rewrite ?find64_sextet by (unfold is_byte in *; Z.div_mod_to_equations; lia).

Lemma decode_from rest : forall pre res fuel,
  Forall is_byte rest -> (length rest < fuel)%nat ->
  let s := pre ++ rfc4648_encode rest in
  (let? '(k, r) := decode_loop fuel s (zlen s) (pads rest) (zlen pre) res in
   decode_tail s (pads rest) k r) = Ret (res ++ rest).
Proof.
  induction rest as [|a|a b|a b c r IH] using list_ind3;
    intros pre res fuel HF Hfuel s; subst s;
    (destruct fuel as [|fuel]; [simpl in Hfuel; lia|]); cbn [decode_loop].
  - cbn [rfc4648_encode]. autorewrite with cpp. replace (pads []) with 0 by done.
    replace (_ <=? _) with false by lia. simpl. by rewrite !app_nil_r.
  - cbn [rfc4648_encode]. autorewrite with cpp. replace (pads [a]) with 2 by done.
    replace (_ <=? _) with false by lia.
    inversion_clear HF as [|? ? Ha _]. simpl. unfold decode_tail. simpl.
    rewrite (str_at_app _ _ _ 0), (str_at_app _ _ _ 1) by (autorewrite with cpp; lia). simpl.
    sextets. destruct (dec_bits a 0 0 Ha) as (E & _); [done|done|].
    rewrite Z.add_0_r in E. by rewrite E.
  - cbn [rfc4648_encode]. autorewrite with cpp. replace (pads [a; b]) with 1 by done.
    replace (_ <=? _) with false by lia.
    inversion_clear HF as [|? ? Ha HF']. inversion_clear HF' as [|? ? Hb _].
    simpl. unfold decode_tail. simpl.
    rewrite (str_at_app _ _ _ 0), (str_at_app _ _ _ 1), (str_at_app _ _ _ 2)
      by (autorewrite with cpp; lia). simpl.
    sextets. destruct (dec_bits a b 0 Ha Hb) as (E & E' & _); [done|].
    change (0 / 64) with 0 in E'. rewrite Z.add_0_r in E'. by rewrite E, E'.
  - inversion_clear HF as [|? ? Ha HF']. inversion_clear HF' as [|? ? Hb HF].
    inversion_clear HF as [|? ? Hc HF'].
    rewrite pads_cons3. cbn [rfc4648_encode].
    set (q := [sextet (a / 4); _; _; _]) in *.
    assert (zlen q = 4) as Hq by done.
    replace (_ <=? _) with true; cycle 1.
    { symmetry. apply Z.leb_le. autorewrite with cpp. rewrite Hq, length_rfc4648.
      unfold pads. pose proof (zlen_nonneg r). repeat case_match; Z.div_mod_to_equations; lia. }
    erewrite (str_at_lookup _ _ _ 0), (str_at_lookup _ _ _ 1), (str_at_lookup _ _ _ 2),
      (str_at_lookup _ _ _ 3) by (lia || done).
    cbn [obind]. sextets.
    destruct (dec_bits a b c Ha Hb Hc) as (-> & -> & ->).
    specialize (IH (pre ++ [sextet (a / 4); sextet (a mod 4 * 16 + b / 16);
       sextet (b mod 16 * 4 + c / 64); sextet (c mod 64)]) (res ++ [a; b; c]) fuel HF').
    cbn zeta in IH. rewrite <- !app_assoc in IH. cbn [app] in IH.
    replace (zlen pre + 4) with (zlen (pre ++ [sextet (a / 4); sextet (a mod 4 * 16 + b / 16);
       sextet (b mod 16 * 4 + c / 64); sextet (c mod 64)])) by (autorewrite with cpp; lia).
    apply IH. simpl in Hfuel. lia.
Qed.

(** ** Theorems *)

(** C19: on every input shorter than 2^32 bytes [EncodeBase64] returns (it never
    reads out of range and its loop ends), and its result is the RFC 4648
    encoding of the input. *)
Theorem EncodeBase64_rfc4648 (bs : bytes) :
  Forall is_byte bs -> zlen bs < 2 ^ 32 ->
  EncodeBase64 bs (zlen bs) = Ret (rfc4648_encode bs).
Proof. apply encode_is_rfc4648. Qed.

Lemma EncodeBase64_rfc4648_witness :
  EncodeBase64 (str "abcd") 4 = Ret (str "YWJjZA==").
Proof.
  apply (EncodeBase64_rfc4648 (str "abcd")); [|done].
  by apply (bool_decide_unpack (Forall is_byte (str "abcd"))).
Defined.

Lemma decode_rfc4648 bs :
  bs <> [] -> Forall is_byte bs -> 4 * ((zlen bs + 2) / 3) < 2 ^ 31 ->
  DecodeBase64 (rfc4648_encode bs) = Ret bs.
Proof.
  intros Hne HF Hlt. unfold DecodeBase64. rewrite <- length_rfc4648 in Hlt.
  pose proof (zlen_nonneg (rfc4648_encode bs)).
  replace (i32 (zlen (rfc4648_encode bs))) with (zlen (rfc4648_encode bs))
    by (unfold i32; rewrite Z.mod_small by lia; lia).
  pose proof (decode_pad_spec bs [] Hne HF) as Hp. cbn [app] in Hp.
  rewrite Hp. cbn [obind].
  apply (decode_from bs [] []); [done|].
  pose proof (length_rfc4648 bs) as Hl. unfold zlen in Hl. Z.div_mod_to_equations; lia.
Qed.

(** No character of an encoding is the NUL character. *)
Lemma rfc4648_no_nul bs : Forall is_byte bs -> Forall (fun c => c <> 0) (rfc4648_encode bs).
Proof.
  assert (forall k, 0 <= k < 64 -> sextet k <> 0) as H.
  { intros k Hk. apply Z.eqb_neq, negb_true_iff.
    exact (all_below_spec 64 (fun k => negb (sextet k =? 0)) eq_refl k Hk). }
  unfold is_byte. induction bs as [|a|a b|a b c r IH] using list_ind3; intros HF; [done|..];
    repeat (apply Forall_cons in HF as [? HF]); cbn [rfc4648_encode app];
    repeat (apply Forall_cons; split; [first [done|apply H; Z.div_mod_to_equations; lia]|]); auto.
Qed.

(** C20: decoding inverts encoding: every non-empty byte string whose encoding
    fits an [int] length is recovered by [DecodeBase64] from the output of
    [EncodeBase64]. *)
Theorem base64_roundtrip (bs : bytes) :
  bs <> [] -> Forall is_byte bs -> 4 * ((zlen bs + 2) / 3) < 2 ^ 31 ->
  (let? s := EncodeBase64 bs (zlen bs) in DecodeBase64 s) = Ret bs.
Proof.
  intros Hne HF Hlt.
  rewrite encode_is_rfc4648 by (done || (Z.div_mod_to_equations; lia)).
  by apply decode_rfc4648.
Qed.

Lemma base64_roundtrip_witness :
  (let? s := EncodeBase64 (str "BC") 2 in DecodeBase64 s) = Ret (str "BC").
Proof.
  apply (base64_roundtrip (str "BC")); [done| |done].
  by apply (bool_decide_unpack (Forall is_byte (str "BC"))).
Defined.

(** on a string of length 0 or 1 (in particular on the encoding of the empty
    input) [DecodeBase64] reads before the start of the string. *)
Theorem DecodeBase64_short_undefined (s : bytes) :
  zlen s <= 1 -> exists why, DecodeBase64 s = Undef why.
Proof.
  destruct s as [|c [|d s]]; intros H; autorewrite with cpp in H.
  - by eexists.
  - unfold DecodeBase64, decode_pad. eexists. change (i32 (zlen [c])) with 1. done.
  - pose proof (zlen_nonneg s). lia.
Qed.

Lemma DecodeBase64_short_undefined_witness :
  EncodeBase64 [] 0 = Ret [] /\ exists why, DecodeBase64 [] = Undef why.
Proof. split; [done|]. apply (DecodeBase64_short_undefined []). done. Defined.
