(* ===== verification/Utf8.v ===== *)
(** * UTF-8: src/src/net/ws_cli/implement/ev/utf8_utils.cpp

    The table-driven decoder [DecodeUtf8] and the incremental validator
    [ValidateUtf8], compared with the grammar of well-formed UTF-8 byte
    sequences (RFC 3629, section 4) and with the encoder it defines. *)

From stdpp Require Import base list numbers strings.
From Stdlib Require Import ZArith Lia.
From S2P Require Import Prelude.

Definition WS_UTF8_ACCEPT : Z := 0.
Definition WS_UTF8_REJECT : Z := 1.

(** The first 256 entries map a byte to its class, the rest map
    [16 * state + class] to the next state. *)
Definition utf8d : bytes :=
[
  0; 0; 0; 0; 0; 0; 0; 0; 0; 0; 0; 0; 0; 0; 0; 0; 0; 0; 0; 0; 0; 0; 0; 0; 0; 0; 0; 0; 0; 0; 0; 0;
  0; 0; 0; 0; 0; 0; 0; 0; 0; 0; 0; 0; 0; 0; 0; 0; 0; 0; 0; 0; 0; 0; 0; 0; 0; 0; 0; 0; 0; 0; 0; 0;
  0; 0; 0; 0; 0; 0; 0; 0; 0; 0; 0; 0; 0; 0; 0; 0; 0; 0; 0; 0; 0; 0; 0; 0; 0; 0; 0; 0; 0; 0; 0; 0;
  0; 0; 0; 0; 0; 0; 0; 0; 0; 0; 0; 0; 0; 0; 0; 0; 0; 0; 0; 0; 0; 0; 0; 0; 0; 0; 0; 0; 0; 0; 0; 0;
  1; 1; 1; 1; 1; 1; 1; 1; 1; 1; 1; 1; 1; 1; 1; 1; 9; 9; 9; 9; 9; 9; 9; 9; 9; 9; 9; 9; 9; 9; 9; 9;
  7; 7; 7; 7; 7; 7; 7; 7; 7; 7; 7; 7; 7; 7; 7; 7; 7; 7; 7; 7; 7; 7; 7; 7; 7; 7; 7; 7; 7; 7; 7; 7;
  8; 8; 2; 2; 2; 2; 2; 2; 2; 2; 2; 2; 2; 2; 2; 2; 2; 2; 2; 2; 2; 2; 2; 2; 2; 2; 2; 2; 2; 2; 2; 2;
  10; 3; 3; 3; 3; 3; 3; 3; 3; 3; 3; 3; 3; 4; 3; 3; 11; 6; 6; 6; 5; 8; 8; 8; 8; 8; 8; 8; 8; 8; 8; 8;
  0; 1; 2; 3; 5; 8; 7; 1; 1; 1; 4; 6; 1; 1; 1; 1; 1; 1; 1; 1; 1; 1; 1; 1; 1; 1; 1; 1; 1; 1; 1; 1;
  1; 0; 1; 1; 1; 1; 1; 0; 1; 0; 1; 1; 1; 1; 1; 1; 1; 2; 1; 1; 1; 1; 1; 2; 1; 2; 1; 1; 1; 1; 1; 1;
  1; 1; 1; 1; 1; 1; 1; 2; 1; 1; 1; 1; 1; 1; 1; 1; 1; 2; 1; 1; 1; 1; 1; 1; 1; 2; 1; 1; 1; 1; 1; 1;
  1; 1; 1; 1; 1; 1; 1; 3; 1; 3; 1; 1; 1; 1; 1; 1; 1; 3; 1; 1; 1; 1; 1; 3; 1; 3; 1; 1; 1; 1; 1; 1;
  1; 3; 1; 1; 1; 1; 1; 1; 1; 1; 1; 1; 1; 1; 1; 1
].

Definition utf8d_at (i : Z) : outcome Z := or_undef "utf8d index" (at_Z utf8d i).

(** [DecodeUtf8(&state, &codep, byte)]: the new state and code point. *)
Definition DecodeUtf8 (state codep byte : Z) : outcome (Z * Z) :=
  let? type := utf8d_at byte in
  let codep' :=
    if negb (state =? WS_UTF8_ACCEPT)
    then Z.lor (Z.land byte 0x3f) (u32 (Z.shiftl codep 6))
    else Z.land (Z.shiftr 0xff type) byte in
  let? state' := utf8d_at (u32 (256 + state * 16 + type)) in
  Ret (state', codep').

(** [ValidateUtf8(&state, str, len)] on the [len] bytes at [str]: the new state. *)
Fixpoint ValidateUtf8 (state : Z) (s : bytes) : outcome Z :=
  match s with
  | [] => Ret state
  | c :: s' =>
      let? type := utf8d_at c in
      let? state' := utf8d_at (u32 (256 + state * 16 + type)) in
      if state' =? WS_UTF8_REJECT then Ret state' else ValidateUtf8 state' s'
  end.

(** ** The grammar of RFC 3629 *)

Definition within (lo hi b : Z) : Prop := lo <= b <= hi.
Definition tail_byte : Z -> Prop := within 0x80 0xBF.

Inductive utf8_char : bytes -> Prop :=
| utf8_1 a : within 0x00 0x7F a -> utf8_char [a]
| utf8_2 a b : within 0xC2 0xDF a -> tail_byte b -> utf8_char [a; b]
| utf8_3_E0 b c : within 0xA0 0xBF b -> tail_byte c -> utf8_char [0xE0; b; c]
| utf8_3_low a b c : within 0xE1 0xEC a -> tail_byte b -> tail_byte c -> utf8_char [a; b; c]
| utf8_3_ED b c : within 0x80 0x9F b -> tail_byte c -> utf8_char [0xED; b; c]
| utf8_3_high a b c : within 0xEE 0xEF a -> tail_byte b -> tail_byte c -> utf8_char [a; b; c]
| utf8_4_F0 b c d :
    within 0x90 0xBF b -> tail_byte c -> tail_byte d -> utf8_char [0xF0; b; c; d]
| utf8_4_mid a b c d :
    within 0xF1 0xF3 a -> tail_byte b -> tail_byte c -> tail_byte d -> utf8_char [a; b; c; d]
| utf8_4_F4 b c d :
    within 0x80 0x8F b -> tail_byte c -> tail_byte d -> utf8_char [0xF4; b; c; d].

Inductive wf_utf8 : bytes -> Prop :=
| wf_nil : wf_utf8 []
| wf_cons c rest : utf8_char c -> wf_utf8 rest -> wf_utf8 (c ++ rest).

(** The encoder of RFC 3629, section 3. *)
Definition scalar_value (cp : Z) : Prop := 0 <= cp < 0xD800 \/ 0xE000 <= cp < 0x110000.

Definition utf8_encode (cp : Z) : bytes :=
  if cp <? 0x80 then [cp]
  else if cp <? 0x800 then [0xC0 + cp / 64; 0x80 + cp mod 64]
  else if cp <? 0x10000 then [0xE0 + cp / 4096; 0x80 + cp / 64 mod 64; 0x80 + cp mod 64]
  else [0xF0 + cp / 262144; 0x80 + cp / 4096 mod 64; 0x80 + cp / 64 mod 64; 0x80 + cp mod 64].

(** Running the decoder over a string. *)
Fixpoint decode_all (state codep : Z) (s : bytes) : outcome (Z * Z) :=
  match s with
  | [] => Ret (state, codep)
  | c :: s' => let? '(st, cp) := DecodeUtf8 state codep c in decode_all st cp s'
  end.

(** ** The automaton *)

(** The byte ranges still expected in each live state. *)
Definition ranges (q : Z) : list (Z * Z) :=
  let t := (0x80, 0xBF) in
  match q with
  | 2 => [t]
  | 3 => [t; t]
  | 4 => [(0xA0, 0xBF); t]
  | 5 => [(0x80, 0x9F); t]
  | 6 => [(0x90, 0xBF); t; t]
  | 7 => [t; t; t]
  | 8 => [(0x80, 0x8F); t; t]
  | _ => []
  end.

Definition live (q : Z) : bool := (q =? 0) || ((2 <=? q) && (q <=? 8)).

Definition in_range (b : Z) (r : Z * Z) : Prop := r.1 <= b <= r.2.

(** The state after a lead byte. *)
Definition lead (b : Z) : Z :=
  if b <=? 0x7F then 0
  else if b <? 0xC2 then 1
  else if b <=? 0xDF then 2
  else if b =? 0xE0 then 4
  else if b =? 0xED then 5
  else if b <=? 0xEF then 3
  else if b =? 0xF0 then 6
  else if b <=? 0xF3 then 7
  else if b =? 0xF4 then 8
  else 1.

(** The state in which the ranges [rs] are left to be read. *)
Definition rest_state (n : nat) : Z := match n with O => 0 | 1%nat => 2 | _ => 3 end.

Definition step (q b : Z) : Z :=
  if q =? 0 then lead b
  else match ranges q with
       | r :: rs => if (r.1 <=? b) && (b <=? r.2) then rest_state (length rs) else 1
       | [] => 1
       end.

Definition table_step (q b : Z) : outcome Z :=
  let? type := utf8d_at b in utf8d_at (u32 (256 + q * 16 + type)).

Definition outcome_eqb (o : outcome Z) (z : Z) : bool :=
  match o with Ret x => x =? z | _ => false end.

Lemma outcome_eqb_true o z : outcome_eqb o z = true -> o = Ret z.
Proof. destruct o; simpl; [|done|done]. intros ->%Z.eqb_eq. done. Qed.

Lemma table_step_spec q b : live q = true -> is_byte b -> table_step q b = Ret (step q b).
Proof.
  intros Hq Hb. apply outcome_eqb_true.
  assert (0 <= q < 9) as Hr by (unfold live in Hq; lia).
  pose proof (all_below_spec 9
    (fun q => negb (live q) || all_below 256 (fun b => outcome_eqb (table_step q b) (step q b)))
    ltac:(vm_compute; reflexivity) q Hr) as H.
  cbn beta in H. rewrite Hq in H. cbn [negb orb] in H. exact (bytes_forall _ H b Hb).
Qed.

(** The validator stays inside its table, also once it has rejected. *)
Lemma ValidateUtf8_total s : forall q, 0 <= q < 9 -> Forall is_byte s ->
  exists q', ValidateUtf8 q s = Ret q' /\ 0 <= q' < 9.
Proof.
  induction s as [|b s IH]; intros q Hq HF; [exists q; done|].
  apply Forall_cons in HF as [Hb HF].
  pose (ok q b := match table_step q b with Ret r => (0 <=? r) && (r <? 9) | _ => false end).
  pose proof (all_below_spec 9 (fun q => all_below 256 (ok q))
    ltac:(vm_compute; reflexivity) q Hq) as H1.
  pose proof (bytes_forall _ H1 b Hb) as H2. unfold ok, table_step in H2.
  cbn [ValidateUtf8]. destruct (utf8d_at b) as [ty| |]; [|done..]. cbn [obind] in *.
  destruct (utf8d_at (u32 _)) as [r| |]; [|done..]. cbn [obind].
  destruct (r =? WS_UTF8_REJECT); [exists r|apply IH; [|done]]; split_and?; try done; lia.
Qed.

(** The strings that take the automaton from [q] to acceptance. *)
Definition accepts (q : Z) (s : bytes) : Prop :=
  exists c rest, s = c ++ rest /\ Forall2 in_range c (ranges q) /\ wf_utf8 rest.

Lemma accepts_0 s : accepts 0 s <-> wf_utf8 s.
Proof.
  split.
  - intros (c & rest & -> & HF & Hw). inversion HF. done.
  - intros Hw. exists [], s. done.
Qed.

Lemma live_cases q : live q = true ->
  q = 0 \/ q = 2 \/ q = 3 \/ q = 4 \/ q = 5 \/ q = 6 \/ q = 7 \/ q = 8.
Proof. unfold live. lia. Qed.

Lemma accepts_inside q b s :
  live q = true -> q <> 0 -> accepts q (b :: s) <->
  live (step q b) = true /\ accepts (step q b) s.
Proof.
  intros Hq Hq0.
  assert (exists r rs, ranges q = r :: rs /\ ranges (rest_state (length rs)) = rs /\
           live (rest_state (length rs)) = true) as (r & rs & E & E1 & E2).
  { destruct (live_cases q Hq) as [->|[->|[->|[->|[->|[->|[->| ->]]]]]]]; [done|..];
      eexists _, _; (split; [reflexivity|]); done. }
  unfold step. replace (q =? 0) with false by lia. rewrite E.
  assert (accepts q (b :: s) <-> in_range b r /\ accepts (rest_state (length rs)) s) as ->.
  { unfold accepts. rewrite E1, E. split.
    - intros (c & rest & Hs & HF & Hw).
      inversion HF as [|x ? c' ? Hx HF']; simplify_eq/=.
      split; [done|]. eexists _, _; done.
    - intros (Hr & c & rest & -> & HF & Hw). exists (b :: c), rest. auto. }
  destruct ((r.1 <=? b) && (b <=? r.2)) eqn:Hb; unfold in_range.
  - rewrite E2. split; [by intros [_ ?]|]. intros [_ ?]. split; [lia|done].
  - split; [lia|]. by intros [H _].
Qed.

Ltac uw := unfold within, tail_byte, within; lia.

Ltac forall2 := repeat match goal with
  | H : Forall2 _ _ (_ :: _) |- _ => inversion H; clear H; subst
  | H : Forall2 _ _ [] |- _ => inversion H; clear H; subst
  end.

Lemma utf8_char_lead b c :
  is_byte b -> utf8_char (b :: c) <->
  live (lead b) = true /\ Forall2 in_range c (ranges (lead b)).
Proof.
  intros Hb. unfold is_byte in Hb. split.
  - unfold lead. intros Hc.
    inversion Hc; subst; unfold within, tail_byte, within in *; repeat case_match; try lia;
      (split; [done|]); repeat constructor; unfold in_range; simpl; lia.
  - unfold lead. intros [Hl HF]. repeat case_match; simpl in HF; forall2; try done;
      unfold in_range in *; simpl in *;
      repeat match goal with H : (b =? _) = true |- _ => apply Z.eqb_eq in H; subst b end;
      first [apply utf8_1; uw|apply utf8_2; uw|apply utf8_3_E0; uw|apply utf8_3_ED; uw
            |apply utf8_4_F0; uw|apply utf8_4_F4; uw|apply utf8_4_mid; uw
            |destruct (decide (b <= 0xEC)); [apply utf8_3_low; uw|apply utf8_3_high; uw]].
Qed.

Lemma accepts_start b s :
  is_byte b -> accepts 0 (b :: s) <-> live (lead b) = true /\ accepts (lead b) s.
Proof.
  intros Hb. rewrite accepts_0. split.
  - intros Hw. inversion Hw as [|c rest Hc Hr E].
    destruct c as [|b' c]; [inversion Hc|]. simplify_eq/=.
    apply (utf8_char_lead b c Hb) in Hc as [Hl HF]. split; [done|]. by exists c, rest.
  - intros (Hl & c & rest & -> & HF & Hw). change (b :: c ++ rest) with ((b :: c) ++ rest).
    constructor; [|done]. by apply utf8_char_lead.
Qed.

Lemma accepts_step q b s :
  live q = true -> is_byte b ->
  accepts q (b :: s) <-> live (step q b) = true /\ accepts (step q b) s.
Proof.
  intros Hq Hb. destruct (decide (q = 0)) as [->|Hne].
  - by apply accepts_start.
  - by apply accepts_inside.
Qed.

Lemma step_live q b : live q = true -> is_byte b -> live (step q b) = negb (step q b =? 1).
Proof.
  intros Hq Hb. assert (0 <= q < 9) as Hr by (unfold live in Hq; lia).
  pose proof (all_below_spec 9
    (fun q => negb (live q) ||
       all_below 256 (fun b => Bool.eqb (live (step q b)) (negb (step q b =? 1))))
    ltac:(vm_compute; reflexivity) q Hr) as H.
  cbn beta in H. rewrite Hq in H. cbn [negb orb] in H.
  apply Bool.eqb_prop. exact (bytes_forall _ H b Hb).
Qed.

Lemma ValidateUtf8_cons q b s :
  live q = true -> is_byte b ->
  ValidateUtf8 q (b :: s) =
    if step q b =? 1 then Ret 1 else ValidateUtf8 (step q b) s.
Proof.
  intros Hq Hb. pose proof (table_step_spec q b Hq Hb) as Ht. unfold table_step in Ht.
  cbn [ValidateUtf8]. unfold WS_UTF8_REJECT.
  destruct (utf8d_at b) as [type| |] eqn:Et; cbn [obind] in *; [|done|done].
  rewrite Ht. cbn [obind]. destruct (step q b =? 1) eqn:E; [|done].
  by apply Z.eqb_eq in E as ->.
Qed.

(** What the validator knows after a string: either no continuation is well
    formed, or exactly those its state accepts are. *)
Lemma validate_run s : forall q, live q = true -> Forall is_byte s ->
  exists q', ValidateUtf8 q s = Ret q' /\
    ((q' = 1 /\ forall w, ~ accepts q (s ++ w)) \/
     (live q' = true /\ forall w, accepts q (s ++ w) <-> accepts q' w)).
Proof.
  induction s as [|b s IH]; intros q Hq HF.
  - exists q. split; [done|]. right. done.
  - inversion_clear HF as [|? ? Hb HF']. rewrite ValidateUtf8_cons by done.
    pose proof (step_live q b Hq Hb) as Hl.
    destruct (step q b =? 1) eqn:E; simpl in Hl.
    + exists 1. split; [done|]. left. split; [done|]. intros w.
      cbn [app]. rewrite accepts_step by done. rewrite Hl. naive_solver.
    + destruct (IH (step q b) Hl HF') as (q' & Hr & Hcase). exists q'. split; [done|].
      destruct Hcase as [[-> Hno]|[Hl' Hiff]]; [left|right]; (split; [done|]); intros w;
        cbn [app]; rewrite accepts_step by done; rewrite Hl; naive_solver.
Qed.

Lemma accepts_completion q : live q = true -> exists w, Forall is_byte w /\ accepts q w.
Proof.
  intros Hq. exists ((ranges q).*1).
  destruct (live_cases q Hq) as [->|[->|[->|[->|[->|[->|[->| ->]]]]]]]; simpl;
    (split; [repeat constructor; unfold is_byte; lia|]);
    eexists _, []; (split; [by rewrite app_nil_r|]);
    (split; [repeat constructor; unfold in_range; simpl; lia|constructor]).
Qed.

(** ** Theorems *)

(** C14: from the accepting state, [ValidateUtf8] ends in the accepting state
    exactly on the well-formed UTF-8 strings of RFC 3629. *)
Theorem ValidateUtf8_accept_iff (s : bytes) :
  Forall is_byte s ->
  ValidateUtf8 WS_UTF8_ACCEPT s = Ret WS_UTF8_ACCEPT <-> wf_utf8 s.
Proof.
  intros HF. destruct (validate_run s 0 eq_refl HF) as (q' & Hr & Hcase).
  unfold WS_UTF8_ACCEPT. rewrite Hr, <- accepts_0. rewrite <- (app_nil_r s) at 1.
  destruct Hcase as [[-> Hno]|[Hl Hiff]].
  - split; [done|]. intros H. by apply Hno in H.
  - rewrite Hiff. split.
    + intros [= ->]. apply accepts_0. constructor.
    + intros (c & rest & E & H2 & _). symmetry in E. apply app_eq_nil in E as [-> ->].
      inversion H2 as [E|]. f_equal.
      destruct (live_cases q' Hl) as [->|[->|[->|[->|[->|[->|[->| ->]]]]]]]; done.
Qed.

Lemma ValidateUtf8_accept_iff_witness :
  ValidateUtf8 WS_UTF8_ACCEPT [0xE4; 0xBD; 0xA0] = Ret WS_UTF8_ACCEPT <->
  wf_utf8 [0xE4; 0xBD; 0xA0].
Proof.
  apply (ValidateUtf8_accept_iff [0xE4; 0xBD; 0xA0]).
  by apply (bool_decide_unpack (Forall is_byte [0xE4; 0xBD; 0xA0])).
Defined.

(** [ValidateUtf8] rejects as early as possible and never too early: it
    reports REJECT on a string exactly when no continuation of that string is
    well-formed UTF-8. *)
Theorem ValidateUtf8_reject_iff (s : bytes) :
  Forall is_byte s ->
  ValidateUtf8 WS_UTF8_ACCEPT s = Ret WS_UTF8_REJECT <->
  ~ exists w, wf_utf8 (s ++ w).
Proof.
  intros HF. destruct (validate_run s 0 eq_refl HF) as (q' & Hr & Hcase).
  unfold WS_UTF8_ACCEPT, WS_UTF8_REJECT. rewrite Hr.
  destruct Hcase as [[-> Hno]|[Hl Hiff]].
  - split; [|done]. intros _ [w Hw]. apply accepts_0 in Hw. by apply Hno in Hw.
  - split; [by intros [= ->]|]. intros Hn. destruct Hn.
    destruct (accepts_completion q' Hl) as (w & _ & Hw). exists w.
    by apply accepts_0, Hiff.
Qed.

Lemma ValidateUtf8_reject_iff_witness :
  ValidateUtf8 WS_UTF8_ACCEPT [0xC0] = Ret WS_UTF8_REJECT <->
  ~ exists w, wf_utf8 ([0xC0] ++ w).
Proof.
  apply (ValidateUtf8_reject_iff [0xC0]).
  by apply (bool_decide_unpack (Forall is_byte [0xC0])).
Defined.

Lemma ValidateUtf8_app a b : forall q,
  ValidateUtf8 q (a ++ b) =
    (let? q' := ValidateUtf8 q a in
     if (q' =? WS_UTF8_REJECT) && negb (bool_decide (a = [])) then Ret q'
     else ValidateUtf8 q' b).
Proof.
  induction a as [|c a IH]; intros q.
  - cbn. by rewrite andb_false_r.
  - cbn [app ValidateUtf8]. destruct (utf8d_at c) as [type| |]; cbn [obind]; [|done|done].
    destruct (utf8d_at _) as [st| |]; cbn [obind]; [|done|done].
    destruct (st =? WS_UTF8_REJECT) eqn:E.
    + cbn [obind]. by rewrite E.
    + rewrite IH. destruct (ValidateUtf8 st a) as [q'| |] eqn:Ea; cbn [obind]; [|done|done].
      destruct a as [|d a]; [|done]. injection Ea as <-. by rewrite E.
Qed.

(** One step of the decoder inside the automaton, as arithmetic. *)
Lemma DecodeUtf8_lead codep b :
  is_byte b -> live (lead b) = true ->
  DecodeUtf8 0 codep b =
    Ret (lead b, if b <? 0x80 then b else if b <? 0xE0 then b mod 32
                 else if b <? 0xF0 then b mod 16 else b mod 8).
Proof.
  intros Hb Hl.
  pose proof (bytes_forall (fun b => negb (live (lead b)) ||
    match DecodeUtf8 0 0 b with
    | Ret (st, cp) => (st =? lead b) &&
        (cp =? (if b <? 0x80 then b else if b <? 0xE0 then b mod 32
                 else if b <? 0xF0 then b mod 16 else b mod 8))
    | _ => false
    end) ltac:(vm_compute; reflexivity) b Hb) as H.
  cbn beta in H. rewrite Hl in H. cbn [negb orb] in H.
  unfold DecodeUtf8 in *. cbn [Z.eqb WS_UTF8_ACCEPT negb] in *.
  destruct (utf8d_at b) as [type| |]; cbn [obind] in *; [|done|done].
  destruct (utf8d_at _) as [st| |]; cbn [obind] in *; [|done|done].
  apply andb_true_iff in H as [->%Z.eqb_eq ->%Z.eqb_eq]. done.
Qed.

Lemma DecodeUtf8_tail q codep b :
  live q = true -> q <> 0 -> is_byte b -> 0 <= codep < 2 ^ 26 ->
  DecodeUtf8 q codep b = Ret (step q b, codep * 64 + b mod 64).
Proof.
  intros Hq Hq0 Hb Hc. pose proof (table_step_spec q b Hq Hb) as Ht. unfold table_step in Ht.
  unfold DecodeUtf8, WS_UTF8_ACCEPT.
  destruct (utf8d_at b) as [type| |]; cbn [obind] in *; [|done|done]. rewrite Ht. cbn [obind].
  replace (q =? 0) with false by lia. cbn [negb]. do 2 f_equal.
  change 0x3f with (Z.ones 6). rewrite Z.land_ones by lia.
  unfold u32. rewrite (Z.mod_small (Z.shiftl codep 6)) by (rewrite Z.shiftl_mul_pow2; lia).
  pose proof (Z.mod_pos_bound b (2 ^ 6) ltac:(lia)).
  rewrite lor_disjoint_add by lia. change (2 ^ 6) with 64. lia.
Qed.

Ltac tails := repeat (rewrite DecodeUtf8_tail by
  (done || (unfold is_byte; Z.div_mod_to_equations; lia)); cbn [obind decode_all]).

(** A range test in the automaton that the arithmetic decides. *)
Lemma step_in q b r rs :
  q <> 0 -> ranges q = r :: rs -> r.1 <= b <= r.2 -> step q b = rest_state (length rs).
Proof.
  intros Hq Hr Hb. unfold step. replace (q =? 0) with false by lia. rewrite Hr.
  by replace ((r.1 <=? b) && (b <=? r.2)) with true by lia.
Qed.

Lemma decode_two cp codep : 0x80 <= cp < 0x800 ->
  decode_all 0 codep (utf8_encode cp) = Ret (0, cp).
Proof.
  intros Hcp. unfold utf8_encode. replace (cp <? 0x80) with false by lia.
  replace (cp <? 0x800) with true by lia. cbn [decode_all].
  assert (0xC2 <= 0xC0 + cp / 64 <= 0xDF) as Hl by (Z.div_mod_to_equations; lia).
  assert (lead (0xC0 + cp / 64) = 2) as El by (unfold lead; repeat case_match; lia).
  rewrite DecodeUtf8_lead by (rewrite ?El; unfold is_byte; lia || done). cbn [obind].
  rewrite El. replace (_ <? 0x80) with false by lia. replace (_ <? 0xE0) with true by lia.
  tails. rewrite (step_in 2 _ _ _ ltac:(done) eq_refl)
    by (simpl; Z.div_mod_to_equations; lia).
  simpl length. cbn [rest_state]. do 2 f_equal. Z.div_mod_to_equations; lia.
Qed.

Lemma decode_three cp codep : 0x800 <= cp < 0xD800 \/ 0xE000 <= cp < 0x10000 ->
  decode_all 0 codep (utf8_encode cp) = Ret (0, cp).
Proof.
  intros Hcp. unfold utf8_encode. replace (cp <? 0x80) with false by lia.
  replace (cp <? 0x800) with false by lia. replace (cp <? 0x10000) with true by lia.
  cbn [decode_all].
  assert (0xE0 <= 0xE0 + cp / 4096 <= 0xEF) as Hl by (Z.div_mod_to_equations; lia).
  assert (exists q r, lead (0xE0 + cp / 4096) = q /\ live q = true /\ q <> 0 /\
    ranges q = [r; (0x80, 0xBF)] /\ r.1 <= 0x80 + cp / 64 mod 64 <= r.2)
    as (q & r & El & Hq & Hq0 & Er & Hin).
  { unfold lead. repeat case_match; try lia; eexists _, _;
      (split; [reflexivity|]); (split; [done|]); (split; [done|]); (split; [reflexivity|]);
      simpl; Z.div_mod_to_equations; lia. }
  rewrite DecodeUtf8_lead by (rewrite ?El; unfold is_byte; lia || done). cbn [obind].
  rewrite El. replace (_ <? 0x80) with false by lia. replace (_ <? 0xE0) with false by lia.
  replace (_ <? 0xF0) with true by lia.
  rewrite DecodeUtf8_tail by (done || (unfold is_byte; Z.div_mod_to_equations; lia)).
  cbn [obind decode_all]. rewrite (step_in q _ _ _ Hq0 Er) by done. simpl length.
  cbn [rest_state]. tails. rewrite (step_in 2 _ _ _ ltac:(done) eq_refl)
    by (simpl; Z.div_mod_to_equations; lia).
  simpl length. cbn [rest_state]. do 2 f_equal. Z.div_mod_to_equations; lia.
Qed.

Lemma decode_four cp codep : 0x10000 <= cp < 0x110000 ->
  decode_all 0 codep (utf8_encode cp) = Ret (0, cp).
Proof.
  intros Hcp. unfold utf8_encode. replace (cp <? 0x80) with false by lia.
  replace (cp <? 0x800) with false by lia. replace (cp <? 0x10000) with false by lia.
  cbn [decode_all].
  assert (0xF0 <= 0xF0 + cp / 262144 <= 0xF4) as Hl by (Z.div_mod_to_equations; lia).
  assert (exists q r, lead (0xF0 + cp / 262144) = q /\ live q = true /\ q <> 0 /\
    ranges q = [r; (0x80, 0xBF); (0x80, 0xBF)] /\ r.1 <= 0x80 + cp / 4096 mod 64 <= r.2)
    as (q & r & El & Hq & Hq0 & Er & Hin).
  { unfold lead. repeat case_match; try lia; eexists _, _;
      (split; [reflexivity|]); (split; [done|]); (split; [done|]); (split; [reflexivity|]);
      simpl; Z.div_mod_to_equations; lia. }
  rewrite DecodeUtf8_lead by (rewrite ?El; unfold is_byte; lia || done). cbn [obind].
  rewrite El. replace (_ <? 0x80) with false by lia. replace (_ <? 0xE0) with false by lia.
  replace (_ <? 0xF0) with false by lia.
  rewrite DecodeUtf8_tail by (done || (unfold is_byte; Z.div_mod_to_equations; lia)).
  cbn [obind decode_all]. rewrite (step_in q _ _ _ Hq0 Er) by done. simpl length.
  cbn [rest_state].
  rewrite DecodeUtf8_tail by (done || (unfold is_byte; Z.div_mod_to_equations; lia)).
  cbn [obind decode_all].
  rewrite (step_in 3 _ _ _ ltac:(done) eq_refl) by (simpl; Z.div_mod_to_equations; lia).
  simpl length. cbn [rest_state]. tails.
  rewrite (step_in 2 _ _ _ ltac:(done) eq_refl) by (simpl; Z.div_mod_to_equations; lia).
  simpl length. cbn [rest_state]. do 2 f_equal. Z.div_mod_to_equations; lia.
Qed.

(** C18: running [DecodeUtf8] over the RFC 3629 encoding of any Unicode scalar
    value ends in the accepting state with exactly that code point, whatever
    the code-point accumulator held before. *)
Theorem DecodeUtf8_roundtrip (cp codep : Z) :
  scalar_value cp ->
  decode_all WS_UTF8_ACCEPT codep (utf8_encode cp) = Ret (WS_UTF8_ACCEPT, cp).
Proof.
  intros Hcp. unfold WS_UTF8_ACCEPT. unfold scalar_value in Hcp.
  destruct (decide (cp < 0x80)).
  - unfold utf8_encode. replace (cp <? 0x80) with true by lia. cbn [decode_all].
    assert (lead cp = 0) as El by (unfold lead; repeat case_match; lia).
    rewrite DecodeUtf8_lead by (rewrite ?El; unfold is_byte; lia || done). cbn [obind].
    rewrite El. by replace (cp <? 0x80) with true by lia.
  - destruct (decide (cp < 0x800)); [apply decode_two; lia|].
    destruct (decide (cp < 0x10000)); [apply decode_three; lia|apply decode_four; lia].
Qed.

Lemma DecodeUtf8_roundtrip_witness :
  decode_all WS_UTF8_ACCEPT 7 (utf8_encode 0x20AC) = Ret (WS_UTF8_ACCEPT, 0x20AC).
Proof. apply (DecodeUtf8_roundtrip 0x20AC 7). left. lia. Defined.
