(* ===== verification/WsTypes.v ===== *)
(** * Protocol types: src/src/net/ws_cli/ws_types.h and ws_state.h

    The enumerations, the frame header with its bit fields and the close-status
    macros.  [WSCloseStatus] is an [enum class] that the session also fills by
    casting a 16-bit integer received from the peer, so it is an integer here,
    with the enumerators as constants. *)

From stdpp Require Import base list numbers strings.
From Stdlib Require Import ZArith Lia.
From S2P Require Import Prelude.

(** ** ws_types.h *)

Definition WS_DEFAULT_CONNECT_TIMEOUT : Z := 60.
Definition HTTP_STATUS_SWITCHING_PROTOCOLS_101 : Z := 101.
Definition WS_HDR_BASE_SIZE : Z := 2.
Definition WS_HDR_PAYLOAD_LEN_SIZE : Z := 8.
Definition WS_HDR_MASK_SIZE : Z := 4.
Definition WS_HDR_MIN_SIZE : Z := WS_HDR_BASE_SIZE.
Definition WS_HDR_MAX_SIZE : Z :=
  WS_HDR_BASE_SIZE + WS_HDR_PAYLOAD_LEN_SIZE + WS_HDR_MASK_SIZE.

Inductive WSOpcode :=
| CONTINUATION_0X0 | TEXT_0X1 | BINARY_0X2
| NON_CONTROL_RSV_0X3 | NON_CONTROL_RSV_0X4 | NON_CONTROL_RSV_0X5
| NON_CONTROL_RSV_0X6 | NON_CONTROL_RSV_0X7
| CLOSE_0X8 | PING_0X9 | PONG_0XA
| CONTROL_RSV_0XB | CONTROL_RSV_0XC | CONTROL_RSV_0XD | CONTROL_RSV_0XE | CONTROL_RSV_0XF.

#[export] Instance WSOpcode_eq_dec : EqDecision WSOpcode.
Proof. solve_decision. Defined.

Definition op (o : WSOpcode) : Z :=
  match o with
  | CONTINUATION_0X0 => 0x0 | TEXT_0X1 => 0x1 | BINARY_0X2 => 0x2
  | NON_CONTROL_RSV_0X3 => 0x3 | NON_CONTROL_RSV_0X4 => 0x4 | NON_CONTROL_RSV_0X5 => 0x5
  | NON_CONTROL_RSV_0X6 => 0x6 | NON_CONTROL_RSV_0X7 => 0x7
  | CLOSE_0X8 => 0x8 | PING_0X9 => 0x9 | PONG_0XA => 0xA
  | CONTROL_RSV_0XB => 0xB | CONTROL_RSV_0XC => 0xC | CONTROL_RSV_0XD => 0xD
  | CONTROL_RSV_0XE => 0xE | CONTROL_RSV_0XF => 0xF
  end.

(** The header.  [payloadLen] is a bit field of 7 bits and [exPayloadLen] is
    never used. *)
Record WSHeader := mkWSHeader {
  fin : Z; rsv1 : Z; rsv2 : Z; rsv3 : Z; opcode : Z;
  maskBit : Z; payloadLen : Z; exPayloadLen : Z; mask : Z
}.

Definition eta_WSHeader (h : WSHeader) : WSHeader :=
  mkWSHeader (fin h) (rsv1 h) (rsv2 h) (rsv3 h) (opcode h)
    (maskBit h) (payloadLen h) (exPayloadLen h) (mask h).

Definition put_fin : Z -> WSHeader -> WSHeader := ltac:(build_setter eta_WSHeader fin).
Definition put_rsv1 : Z -> WSHeader -> WSHeader := ltac:(build_setter eta_WSHeader rsv1).
Definition put_rsv2 : Z -> WSHeader -> WSHeader := ltac:(build_setter eta_WSHeader rsv2).
Definition put_rsv3 : Z -> WSHeader -> WSHeader := ltac:(build_setter eta_WSHeader rsv3).
Definition put_opcode : Z -> WSHeader -> WSHeader := ltac:(build_setter eta_WSHeader opcode).
Definition put_maskBit : Z -> WSHeader -> WSHeader := ltac:(build_setter eta_WSHeader maskBit).
Definition put_payloadLen : Z -> WSHeader -> WSHeader :=
  ltac:(build_setter eta_WSHeader payloadLen).
Definition put_mask : Z -> WSHeader -> WSHeader := ltac:(build_setter eta_WSHeader mask).

(** Assignments to the bit fields keep the low bits. *)
Definition set_fin (v : Z) (h : WSHeader) : WSHeader := put_fin (v mod 2) h.
Definition set_rsv1 (v : Z) (h : WSHeader) : WSHeader := put_rsv1 (v mod 2) h.
Definition set_rsv2 (v : Z) (h : WSHeader) : WSHeader := put_rsv2 (v mod 2) h.
Definition set_rsv3 (v : Z) (h : WSHeader) : WSHeader := put_rsv3 (v mod 2) h.
Definition set_opcode (v : Z) (h : WSHeader) : WSHeader := put_opcode (v mod 16) h.
Definition set_maskBit (v : Z) (h : WSHeader) : WSHeader := put_maskBit (v mod 2) h.
Definition set_payloadLen (v : Z) (h : WSHeader) : WSHeader := put_payloadLen (v mod 128) h.
Definition set_mask (v : Z) (h : WSHeader) : WSHeader := put_mask (u32 v) h.

Definition zero_header : WSHeader := mkWSHeader 0 0 0 0 0 0 0 0 0.

(** The values the fields can hold. *)
Definition wf_header (h : WSHeader) : Prop :=
  0 <= fin h < 2 /\ 0 <= rsv1 h < 2 /\ 0 <= rsv2 h < 2 /\ 0 <= rsv3 h < 2 /\
  0 <= opcode h < 16 /\ 0 <= maskBit h < 2 /\ 0 <= payloadLen h < 128 /\
  exPayloadLen h = 0 /\ 0 <= mask h < 2 ^ 32.

Definition WS_IS_CLOSE_STATUS_NOT_USED (code : Z) : bool := (code <? 1000) || (4999 <? code).
Definition WS_MAX_PAYLOAD_LEN : Z := 0x7FFFFFFFFFFFFFFF.
Definition WS_CONTROL_MAX_PAYLOAD_LEN : Z := 125.
Definition WS_IS_CLOSE_STATUS_IANA_RESERVED (code : Z) : bool :=
  (3000 <=? code) && (code <=? 3999).
Definition WS_IS_CLOSE_STATUS_PRIVATE_USE (code : Z) : bool :=
  (4000 <=? code) && (code <=? 4999).

(** ** ws_state.h *)

Inductive WSSendState := SEND_NONE | MESSAGE_BEGIN | IN_MESSAGE | IN_MESSAGE_PAYLOAD.

Inductive WSConnectState :=
| CONNECT_ERROR | CONNECT_NONE | SENT_REQ | PARSED_STATUS | PARSED_HEADERS | HANDSHAKE_COMPLETE.

Inductive WSParseState := USER_ABORT | PARSE_ERROR | SUCCESS | NEED_MORE.

Definition WS_HAS_VALID_UPGRADE_HEADER : Z := Z.shiftl 1 0.
Definition WS_HAS_VALID_CONNECTION_HEADER : Z := Z.shiftl 1 1.
Definition WS_HAS_VALID_WS_ACCEPT_HEADER : Z := Z.shiftl 1 2.
Definition WS_HAS_VALID_WS_EXT_HEADER : Z := Z.shiftl 1 3.
Definition WS_HAS_VALID_WS_PROTOCOL_HEADER : Z := Z.shiftl 1 4.

Inductive WSState :=
| DNS_LOOKUP | CLOSING | CLOSING_UNCLEANLY | CLOSED_CLEANLY | CLOSED_UNCLEANLY
| CONNECTING | CONNECTED.

#[export] Instance WSSendState_eq_dec : EqDecision WSSendState.
Proof. solve_decision. Defined.
#[export] Instance WSConnectState_eq_dec : EqDecision WSConnectState.
Proof. solve_decision. Defined.
#[export] Instance WSParseState_eq_dec : EqDecision WSParseState.
Proof. solve_decision. Defined.
#[export] Instance WSState_eq_dec : EqDecision WSState.
Proof. solve_decision. Defined.

Definition NORMAL_1000 : Z := 1000.
Definition GOING_AWAY_1001 : Z := 1001.
Definition PROTOCOL_ERR_1002 : Z := 1002.
Definition UNSUPPORTED_DATA_1003 : Z := 1003.
Definition RESERVED_1004 : Z := 1004.
Definition STATUS_CODE_EXPECTED_1005 : Z := 1005.
Definition ABNORMAL_1006 : Z := 1006.
Definition INCONSISTENT_DATA_1007 : Z := 1007.
Definition POLICY_VIOLATION_1008 : Z := 1008.
Definition MESSAGE_TOO_BIG_1009 : Z := 1009.
Definition EXTENSION_NOT_NEGOTIATED_1010 : Z := 1010.
Definition UNEXPECTED_CONDITION_1011 : Z := 1011.
Definition FAILED_TLS_HANDSHAKE_1015 : Z := 1015.

Definition WS_IS_PEER_CLOSE_STATUS_VALID (code : Z) : bool :=
  WS_IS_CLOSE_STATUS_IANA_RESERVED code || WS_IS_CLOSE_STATUS_PRIVATE_USE code
  || (code =? NORMAL_1000) || (code =? GOING_AWAY_1001) || (code =? PROTOCOL_ERR_1002)
  || (code =? UNSUPPORTED_DATA_1003) || (code =? INCONSISTENT_DATA_1007)
  || (code =? POLICY_VIOLATION_1008) || (code =? MESSAGE_TOO_BIG_1009)
  || (code =? EXTENSION_NOT_NEGOTIATED_1010) || (code =? UNEXPECTED_CONDITION_1011).

(** A status the peer may send is one the client may echo. *)
Lemma peer_status_sendable code :
  WS_IS_PEER_CLOSE_STATUS_VALID code = true -> WS_IS_CLOSE_STATUS_NOT_USED code = false.
Proof.
  unfold WS_IS_PEER_CLOSE_STATUS_VALID, WS_IS_CLOSE_STATUS_NOT_USED,
    WS_IS_CLOSE_STATUS_IANA_RESERVED, WS_IS_CLOSE_STATUS_PRIVATE_USE, NORMAL_1000,
    GOING_AWAY_1001, PROTOCOL_ERR_1002, UNSUPPORTED_DATA_1003, INCONSISTENT_DATA_1007,
    POLICY_VIOLATION_1008, MESSAGE_TOO_BIG_1009, EXTENSION_NOT_NEGOTIATED_1010,
    UNEXPECTED_CONDITION_1011. lia.
Qed.
