(* ===== verification/WsHeader.v ===== *)
(** * Frame headers and masking: src/src/net/ws_cli/ws_header.h, ws_header.cpp
    and util.cpp, with [UnpackHeader] of implement/ev/session_impl_ev.cpp

    Headers are packed into and unpacked from a byte buffer of a little-endian
    host, the platform the sources are built for. *)

From stdpp Require Import base list numbers strings.
From Stdlib Require Import ZArith Lia.
From S2P Require Import Prelude WsTypes.

(** ** ws_header.h *)

Definition IsControlOpcode (code : Z) : bool :=
  (op CLOSE_0X8 <=? code) && (code <=? op CONTROL_RSV_0XF).

Definition IsReservedControlOpcode (code : Z) : bool :=
  (op CONTROL_RSV_0XB <=? code) && (code <=? op CONTROL_RSV_0XF).

Definition IsReservedNonControlOpcode (code : Z) : bool :=
  (op NON_CONTROL_RSV_0X3 <=? code) && (code <=? op NON_CONTROL_RSV_0X7).

Definition IsReservedOpcode (code : Z) : bool :=
  IsReservedControlOpcode code || IsReservedNonControlOpcode code.

(** ** util.cpp *)

Definition opcodesStr : list string :=
  ["continuation"; "text"; "binary"; "non control reserved"; "non control reserved";
   "non control reserved"; "non control reserved"; "non control reserved"; "close"; "ping";
   "pong"; "control reserved"; "control reserved"; "control reserved"; "control reserved";
   "control reserved"]%string.

Definition Opcode2Str (opcode : Z) : option string :=
  if (0 <=? opcode) && (opcode <=? 0xF) then at_Z opcodesStr opcode else None.

(** The bytes written through [data] and read back as a [uint64_t]. *)
Definition EncodeN2H64 (input : Z) : Z :=
  le_val [u8 (Z.shiftr input 56); u8 (Z.shiftr input 48); u8 (Z.shiftr input 40);
          u8 (Z.shiftr input 32); u8 (Z.shiftr input 24); u8 (Z.shiftr input 16);
          u8 (Z.shiftr input 8); u8 (Z.shiftr input 0)].

Definition EncodeH2N64 (input : Z) : Z := EncodeN2H64 input.

(** [GetRandomMask(buf, len)] on Windows: one [rand_s] per byte.  [rand_s k] is
    the number the [k]-th call in the life of the process yields; the bytes, the
    value returned and the number of calls made so far come back. *)
Definition GetRandomMask (rand_s : nat -> Z) (calls : nat) (len : nat) : bytes * Z * nat :=
  ((fun k => u8 (rand_s (calls + k)%nat)) <$> seq 0 len, Z.of_nat len, (calls + len)%nat).

(** [MaskPayload(mask, msg, len)] on the [len] bytes at [msg]. *)
Definition mask_octet (mask : Z) (i : nat) : Z :=
  default 0 (le_bytes 4 mask !! (i mod 4)%nat).

Definition MaskPayload (mask : Z) (msg : bytes) : bytes :=
  imap (fun i p => Z.lxor p (mask_octet mask i)) msg.

Definition UnmaskPayload (mask : Z) (msg : bytes) : bytes := MaskPayload mask msg.

(** ** ws_header.cpp *)

Definition htons (v : Z) : Z := u16 v mod 256 * 256 + u16 v / 256.
Definition ntohs (v : Z) : Z := htons v.

(** [!!x] *)
Definition bang2 (x : Z) : Z := if x =? 0 then 0 else 1.

Definition PackHeaderFirstByte (h : WSHeader) (b : bytes) : outcome bytes :=
  let b0 := 0 in
  let b0 := Z.lor b0 (Z.shiftl (bang2 (fin h)) 7) in
  let b0 := Z.lor b0 (Z.shiftl (bang2 (rsv1 h)) 6) in
  let b0 := Z.lor b0 (Z.shiftl (bang2 (rsv2 h)) 5) in
  let b0 := Z.lor b0 (Z.shiftl (bang2 (rsv3 h)) 4) in
  let b0 := Z.lor b0 (Z.land (opcode h) 0xF) in
  write_at b 0 [u8 b0].

Definition PackHeaderRest (h : WSHeader) (b : bytes) (len : Z) : outcome (bytes * Z) :=
  if len <? WS_HDR_MAX_SIZE then Killed "len >= WS_HDR_MAX_SIZE" else
  if WS_MAX_PAYLOAD_LEN <? payloadLen h then Killed "h->payloadLen <= WS_MAX_PAYLOAD_LEN" else
  let b1 := Z.lor 0 (Z.shiftl (bang2 (maskBit h)) 7) in
  let header_len := 2 in
  let? '(b, header_len) :=
    (if payloadLen h <=? 125 then
       let? b := write_at b 1 [u8 (Z.lor b1 (payloadLen h))] in
       Ret (b, header_len)
     else if payloadLen h <=? 0xFFFF then
       let? b := write_at b 1 [u8 (Z.lor b1 126)] in
       let? b := write_at b 2 (le_bytes 2 (htons (u16 (payloadLen h)))) in
       Ret (b, header_len + 2)
     else
       let? b := write_at b 1 [u8 (Z.lor b1 127)] in
       let? b := write_at b 2 (le_bytes 8 (EncodeH2N64 (payloadLen h))) in
       Ret (b, header_len + 8)) in
  if negb (maskBit h =? 0) then
    let? b := write_at b (Z.to_nat header_len) (le_bytes 4 (mask h)) in
    Ret (b, header_len + 4)
  else Ret (b, header_len).

Definition PackHeader (h : WSHeader) (b : bytes) (len : Z) : outcome (bytes * Z) :=
  let? b := PackHeaderFirstByte h b in
  PackHeaderRest h b len.

(** ** [SessionImplEV::UnpackHeader]

    [b] is the whole stack buffer the caller passes, [len] the number of bytes
    the caller has filled; [headerLen] is the caller's variable before the call.
    The results are the parse state, the header and [headerLen] afterwards. *)
Definition UnpackHeader (headerLen : Z) (b : bytes) (len : Z)
  : outcome (WSParseState * WSHeader * Z) :=
  let h := zero_header in
  if len <? WS_HDR_MIN_SIZE then Ret (NEED_MORE, h, headerLen) else
  let? b0 := or_undef "b[0]" (b !! 0%nat) in
  let? b1 := or_undef "b[1]" (b !! 1%nat) in
  let h := set_fin (Z.land (Z.shiftr b0 7) 0x1) h in
  let h := set_rsv1 (Z.land (Z.shiftr b0 6) 0x1) h in
  let h := set_rsv2 (Z.land (Z.shiftr b0 5) 0x1) h in
  let h := set_rsv3 (Z.land (Z.shiftr b0 4) 0x1) h in
  let h := set_opcode (Z.land b0 0xF) h in
  let h := set_maskBit (Z.land (Z.shiftr b1 7) 0x1) h in
  let h := set_payloadLen (Z.land b1 0x7F) h in
  let headerLen := 2 in
  let? '(need_more, h, headerLen) :=
    (if payloadLen h =? 126 then
       if len <? headerLen + 2 then Ret (true, h, headerLen) else
       let? sz := read_at b 2 2 in
       Ret (false, set_payloadLen (ntohs (le_val sz)) h, headerLen + 2)
     else if payloadLen h =? 127 then
       if len <? headerLen + 8 then Ret (true, h, headerLen) else
       let? sz := read_at b 2 8 in
       Ret (false, set_payloadLen (EncodeN2H64 (le_val sz)) h, headerLen + 8)
     else Ret (false, h, headerLen)) in
  if (need_more : bool) then Ret (NEED_MORE, h, headerLen) else
  if negb (maskBit h =? 0) then
    let? m := read_at b (Z.to_nat headerLen) 4 in
    Ret (SUCCESS, set_mask (le_val m) h, headerLen + 4)
  else Ret (SUCCESS, h, headerLen).

(** ** The wire form of a header *)

Definition first_byte (h : WSHeader) : Z :=
  fin h * 128 + rsv1 h * 64 + rsv2 h * 32 + rsv3 h * 16 + opcode h.

(** RFC 6455, section 5.2, for the payload lengths the struct can hold. *)
Definition wire_header (h : WSHeader) : bytes :=
  [first_byte h] ++
  (if payloadLen h <=? 125 then [maskBit h * 128 + payloadLen h]
   else [maskBit h * 128 + 126; payloadLen h / 256; payloadLen h mod 256]) ++
  (if maskBit h =? 0 then [] else le_bytes 4 (mask h)).

Lemma is_bit x : 0 <= x < 2 -> x = 0 \/ x = 1.
Proof. lia. Qed.

Ltac bits H := let E := fresh in
  destruct (is_bit _ H) as [E|E]; rewrite E in *; clear E.

Lemma pack_byte0 f r1 r2 r3 o :
  0 <= f < 2 -> 0 <= r1 < 2 -> 0 <= r2 < 2 -> 0 <= r3 < 2 -> 0 <= o < 16 ->
  u8 (Z.lor (Z.lor (Z.lor (Z.lor (Z.lor 0 (Z.shiftl (bang2 f) 7)) (Z.shiftl (bang2 r1) 6))
     (Z.shiftl (bang2 r2) 5)) (Z.shiftl (bang2 r3) 4)) (Z.land o 0xF))
  = f * 128 + r1 * 64 + r2 * 32 + r3 * 16 + o.
Proof.
  intros Hf H1 H2 H3 Ho. apply Z.eqb_eq. revert o Ho. bits Hf; bits H1; bits H2; bits H3;
    apply (all_below_spec 16); vm_compute; reflexivity.
Qed.

Lemma unpack_byte0 f r1 r2 r3 o :
  0 <= f < 2 -> 0 <= r1 < 2 -> 0 <= r2 < 2 -> 0 <= r3 < 2 -> 0 <= o < 16 ->
  let v := f * 128 + r1 * 64 + r2 * 32 + r3 * 16 + o in
  Z.land (Z.shiftr v 7) 0x1 = f /\ Z.land (Z.shiftr v 6) 0x1 = r1 /\
  Z.land (Z.shiftr v 5) 0x1 = r2 /\ Z.land (Z.shiftr v 4) 0x1 = r3 /\ Z.land v 0xF = o.
Proof.
  intros Hf H1 H2 H3 Ho v. subst v. change 0x1 with (Z.ones 1). change 0xF with (Z.ones 4).
  rewrite !Z.land_ones, !Z.shiftr_div_pow2 by lia.
  repeat split; Z.div_mod_to_equations; lia.
Qed.

Lemma pack_byte1 m p : 0 <= m < 2 -> 0 <= p < 128 ->
  u8 (Z.lor (Z.lor 0 (Z.shiftl (bang2 m) 7)) p) = m * 128 + p.
Proof.
  intros Hm Hp. apply Z.eqb_eq. revert p Hp. bits Hm;
    apply (all_below_spec 128); vm_compute; reflexivity.
Qed.

Lemma unpack_byte1 m p : 0 <= m < 2 -> 0 <= p < 128 ->
  Z.land (Z.shiftr (m * 128 + p) 7) 0x1 = m /\ Z.land (m * 128 + p) 0x7F = p.
Proof.
  intros Hm Hp. change 0x1 with (Z.ones 1). change 0x7F with (Z.ones 7).
  rewrite !Z.land_ones, !Z.shiftr_div_pow2 by lia.
  split; Z.div_mod_to_equations; lia.
Qed.

(** [PackHeader] on the 14-byte buffer of its callers. *)
Lemma PackHeader_wire h b :
  wf_header h -> length b = 14%nat ->
  PackHeader h b WS_HDR_MAX_SIZE =
    Ret (wire_header h ++ drop (length (wire_header h)) b, zlen (wire_header h)).
Proof.
  intros (Hf & H1 & H2 & H3 & Ho & Hm & Hp & He & Hk) Hb.
  do 14 (destruct b as [|? b]; [discriminate Hb|]). destruct b; [|discriminate Hb].
  unfold PackHeader, PackHeaderFirstByte. rewrite pack_byte0 by done.
  change (fin h * 128 + rsv1 h * 64 + rsv2 h * 32 + rsv3 h * 16 + opcode h)
    with (first_byte h).
  cbn -[PackHeaderRest wire_header first_byte]. unfold PackHeaderRest, WS_MAX_PAYLOAD_LEN.
  change (WS_HDR_MAX_SIZE <? WS_HDR_MAX_SIZE) with false.
  replace (_ <? payloadLen h) with false by lia. unfold wire_header.
  destruct (payloadLen h <=? 125) eqn:Hle.
  - rewrite pack_byte1 by done. destruct (maskBit h =? 0) eqn:Em; reflexivity.
  - replace (payloadLen h <=? 0xFFFF) with true by lia. rewrite pack_byte1 by (done || lia).
    assert (payloadLen h = 126 \/ payloadLen h = 127) as [-> | ->] by lia;
      destruct (maskBit h =? 0) eqn:Em; reflexivity.
Qed.

(** [UnpackHeader] on a buffer that starts with a complete header. *)
Lemma UnpackHeader_wire h rest len hl :
  wf_header h -> (maskBit h = 0 -> mask h = 0) -> zlen (wire_header h) <= len ->
  UnpackHeader hl (wire_header h ++ rest) len = Ret (SUCCESS, h, zlen (wire_header h)).
Proof.
  intros (Hf & H1 & H2 & H3 & Ho & Hm & Hp & He & Hk) Hmm Hlen.
  destruct h as [f r1 r2 r3 o m p ex k]. cbn [fin rsv1 rsv2 rsv3 opcode maskBit payloadLen
    exPayloadLen mask] in *. subst ex.
  destruct (unpack_byte0 f r1 r2 r3 o) as (B7 & B6 & B5 & B4 & B0); try done.
  pose proof (le_val_bytes 4 k Hk) as Hle4. cbn [le_bytes] in Hle4.
  assert (k mod 2 ^ 32 = k) as Hku by (apply Z.mod_small; lia).
  unfold UnpackHeader, wire_header, first_byte in *.
  cbn [fin rsv1 rsv2 rsv3 opcode maskBit payloadLen mask] in *.
  assert (2 <= len) as H2len
    by (revert Hlen; repeat case_match; autorewrite with cpp; pose proof (zlen_nonneg
        (le_bytes 4 k)); lia).
  unfold WS_HDR_MIN_SIZE, WS_HDR_BASE_SIZE. replace (len <? 2) with false by lia.
  destruct (p <=? 125) eqn:Hp125.
  - cbn [app lookup list_lookup or_undef obind]. rewrite B7, B6, B5, B4, B0.
    destruct (unpack_byte1 m p) as [M7 ML]; [done|done|]. rewrite M7, ML.
    unfold set_fin, set_rsv1, set_rsv2, set_rsv3, set_opcode, set_maskBit, set_payloadLen.
    cbn. rewrite !Z.mod_small by lia.
    replace (p =? 126) with false by lia. replace (p =? 127) with false by lia. cbn.
    destruct (m =? 0) eqn:Em; cbn.
    + by rewrite Hmm by lia.
    + change (Z.to_nat 2) with 2%nat. rewrite read_at_ok by (simpl; lia). unfold set_mask, put_mask, u32. cbn.
      by rewrite take_0, Hle4, Hku.
  - assert (p = 126 \/ p = 127) as Hp2 by lia.
    cbn [app lookup list_lookup or_undef obind]. rewrite B7, B6, B5, B4, B0.
    destruct (unpack_byte1 m 126) as [M7 ML]; [done|lia|]. rewrite M7, ML.
    unfold set_fin, set_rsv1, set_rsv2, set_rsv3, set_opcode, set_maskBit.
    cbn. rewrite !(Z.mod_small f), !(Z.mod_small r1), !(Z.mod_small r2), !(Z.mod_small r3),
      !(Z.mod_small o), !(Z.mod_small m) by lia.
    replace (len <? 2 + 2) with false
      by (revert Hlen; case_match; autorewrite with cpp;
          pose proof (zlen_nonneg (le_bytes 4 k)); lia).
    rewrite (read_at_ok _ 2 2) by (simpl; lia). cbn [take drop obind]. rewrite take_0.
    replace (ntohs (le_val [p / 256; p mod 256])) with p by (destruct Hp2 as [-> | ->]; done).
    unfold set_payloadLen. rewrite (Z.mod_small p) by lia.
    change (126 mod 128) with 126. cbn.
    destruct (m =? 0) eqn:Em; cbn.
    + by rewrite Hmm by lia.
    + change (Z.to_nat (2 + 2)) with 4%nat. rewrite read_at_ok by (simpl; lia).
      unfold set_mask, put_mask, u32. cbn. by rewrite take_0, Hle4, Hku.
Qed.

(** [UnpackHeader] on a part of a header without a mask. *)
Lemma UnpackHeader_part h part more junk hl :
  wf_header h -> maskBit h = 0 -> wire_header h = part ++ more -> more <> [] ->
  exists h' n, UnpackHeader hl (part ++ junk) (zlen part) = Ret (NEED_MORE, h', n).
Proof.
  intros (_ & _ & _ & _ & _ & _ & Hp & _ & _) Hm Hw Hne. unfold wire_header in Hw.
  rewrite Hm in Hw. change (0 =? 0) with true in Hw. unfold UnpackHeader.
  destruct (zlen part <? WS_HDR_MIN_SIZE) eqn:Hlen; [by eauto|].
  change WS_HDR_MIN_SIZE with 2 in Hlen.
  destruct (payloadLen h <=? 125) eqn:Hle; destruct part as [|c0 [|c1 [|c2 [|c3 part]]]];
    try discriminate Hlen; simpl in Hw; simplify_eq; try done;
    destruct (unpack_byte1 0 126) as [M7 ML]; try lia.
  all: try (by destruct part, more).
  all: cbn -[Z.land Z.shiftr]; rewrite ?ML; cbn -[Z.land Z.shiftr]; by eauto.
Qed.

(** Assignments keep the fields within their widths. *)
Lemma wf_zero_header : wf_header zero_header.
Proof. unfold wf_header. simpl. lia. Qed.

Ltac wf_set :=
  let h := fresh "h" in intros v h (? & ? & ? & ? & ? & ? & ? & ? & ?);
  unfold wf_header; simpl; repeat first [assumption | apply Z.mod_pos_bound; reflexivity | split].

Lemma wf_set_fin : forall v h, wf_header h -> wf_header (set_fin v h).
Proof. wf_set. Qed.
Lemma wf_set_rsv1 : forall v h, wf_header h -> wf_header (set_rsv1 v h).
Proof. wf_set. Qed.
Lemma wf_set_rsv2 : forall v h, wf_header h -> wf_header (set_rsv2 v h).
Proof. wf_set. Qed.
Lemma wf_set_rsv3 : forall v h, wf_header h -> wf_header (set_rsv3 v h).
Proof. wf_set. Qed.
Lemma wf_set_opcode : forall v h, wf_header h -> wf_header (set_opcode v h).
Proof. wf_set. Qed.
Lemma wf_set_maskBit : forall v h, wf_header h -> wf_header (set_maskBit v h).
Proof. wf_set. Qed.
Lemma wf_set_payloadLen : forall v h, wf_header h -> wf_header (set_payloadLen v h).
Proof. wf_set. Qed.
Lemma wf_set_mask : forall v h, wf_header h -> wf_header (set_mask v h).
Proof. wf_set. Qed.

#[export] Hint Resolve wf_zero_header wf_set_fin wf_set_rsv1 wf_set_rsv2 wf_set_rsv3 wf_set_opcode
  wf_set_maskBit wf_set_payloadLen wf_set_mask : cpp.

(** On the 14-byte buffer of [ReadWebsocket] every access of [UnpackHeader] is in
    range and the fields it fills are within their widths. *)
Lemma UnpackHeader_total hl b len :
  length b = 14%nat ->
  exists st h n, UnpackHeader hl b len = Ret (st, h, n) /\ wf_header h /\
    (st = SUCCESS \/ st = NEED_MORE) /\ (st = SUCCESS -> 2 <= n <= 14 /\ 2 <= len).
Proof.
  intros Hb. do 14 (destruct b as [|? b]; [discriminate Hb|]). destruct b; [|discriminate Hb].
  unfold UnpackHeader, WS_HDR_MIN_SIZE, WS_HDR_BASE_SIZE.
  destruct (len <? 2) eqn:Hlen.
  { do 3 eexists. split; [reflexivity|]. split; [auto with cpp|split; [by right|done]]. }
  cbn [lookup list_lookup or_undef obind].
  destruct (_ =? 126); [destruct (len <? 2 + 2)|destruct (_ =? 127); [destruct (len <? 2 + 8)|]];
    rewrite ?(read_at_ok _ 2) by (simpl; lia); cbn [obind];
    try (destruct (negb _); rewrite ?read_at_ok by (simpl; lia); cbn [obind]);
    do 3 eexists; (split; [reflexivity|]); (split; [by auto 12 with cpp|]);
    (split; [by auto|]); intros; try discriminate; lia.
Qed.

(** The wire header has at most eight bytes. *)
Lemma zlen_wire_header h : 2 <= zlen (wire_header h) <= 8.
Proof.
  unfold wire_header. repeat case_match; autorewrite with cpp; unfold zlen;
    rewrite ?length_le_bytes; simpl; lia.
Qed.

Lemma length_MaskPayload k m : length (MaskPayload k m) = length m.
Proof. unfold MaskPayload. apply length_imap. Qed.

Lemma MaskPayload_lookup k m i :
  MaskPayload k m !! i =
    (fun p => Z.lxor p (mask_octet k i)) <$> m !! i.
Proof. unfold MaskPayload. by rewrite list_lookup_imap. Qed.

(** Masking as RFC 6455, section 5.3, defines it on the four octets of the key
    in the order they are sent: each octet of the payload is combined with the
    next octet of the key, around and around. *)
Fixpoint rfc6455_mask (key msg : bytes) : bytes :=
  match msg, key with
  | c :: msg', k :: key' => Z.lxor c k :: rfc6455_mask (key' ++ [k]) msg'
  | _, _ => []
  end.

Lemma rfc6455_mask_lookup msg : forall key i,
  length key = 4%nat ->
  rfc6455_mask key msg !! i = (fun p => Z.lxor p (default 0 (key !! (i mod 4)%nat))) <$> msg !! i.
Proof.
  induction msg as [|c msg IH]; intros [|k0 [|k1 [|k2 [|k3 [|]]]]] i Hk; try discriminate Hk.
  1: by rewrite !lookup_nil.
  cbn [rfc6455_mask app]. destruct i as [|i]; [done|]. cbn [lookup list_lookup].
  change (list_lookup i) with (@lookup nat Z bytes _ i). rewrite IH by done.
  destruct (msg !! i) as [p|]; [|done]. cbn [fmap option_fmap option_map]. do 3 f_equal.
  pose proof (Nat.mod_upper_bound i 4 ltac:(lia)) as Hr.
  assert (S i mod 4 = S (i mod 4) mod 4)%nat as ->
    by (replace (S i) with (i + 1)%nat by lia; replace (S (i mod 4)) with (i mod 4 + 1)%nat by lia;
        by rewrite Nat.Div0.add_mod_idemp_l).
  destruct (i mod 4)%nat as [|[|[|[|]]]]; try lia; done.
Qed.

Lemma MaskPayload_rfc6455 k m : MaskPayload k m = rfc6455_mask (le_bytes 4 k) m.
Proof.
  apply list_eq. intros i. rewrite MaskPayload_lookup, rfc6455_mask_lookup by apply length_le_bytes.
  done.
Qed.

Lemma MaskPayload_involutive k m : MaskPayload k (MaskPayload k m) = m.
Proof.
  apply list_eq. intros i. rewrite !MaskPayload_lookup.
  destruct (m !! i); simpl; [|done].
  by rewrite Z.lxor_assoc, Z.lxor_nilpotent, Z.lxor_0_r.
Qed.

Lemma lxor_byte a b : is_byte a -> is_byte b -> is_byte (Z.lxor a b).
Proof.
  intros Ha Hb. unfold is_byte.
  pose proof (bytes2_forall (fun a b => (0 <=? Z.lxor a b) && (Z.lxor a b <? 256))
    ltac:(vm_compute; reflexivity) a b Ha Hb) as H. cbn beta in H. lia.
Qed.

Lemma mask_octet_byte k i : is_byte (mask_octet k i).
Proof.
  unfold mask_octet. destruct (le_bytes 4 k !! _) as [x|] eqn:E.
  - eapply Forall_lookup_1; [apply (le_bytes_byte 4 k)|exact E].
  - unfold is_byte. simpl. lia.
Qed.

Lemma MaskPayload_bytes k m : Forall is_byte m -> Forall is_byte (MaskPayload k m).
Proof.
  intros HF. apply Forall_lookup. intros i x. rewrite MaskPayload_lookup.
  destruct (m !! i) as [p|] eqn:E; [|done]. intros [= <-].
  apply lxor_byte; [by eapply Forall_lookup_1|apply mask_octet_byte].
Qed.

#[export] Hint Rewrite length_MaskPayload MaskPayload_involutive : cpp.

(** The swap as the reversal of the eight bytes in memory. *)
Lemma EncodeN2H64_rev input :
  0 <= input < 2 ^ 64 -> EncodeN2H64 input = le_val (rev (le_bytes 8 input)).
Proof.
  intros H. unfold EncodeN2H64, u8. rewrite !Z.shiftr_div_pow2 by lia.
  cbn [le_bytes rev app]. rewrite !Z.div_div by lia. rewrite (Z.div_1_r input : input / 2 ^ 0 = _).
  reflexivity.
Qed.

Lemma EncodeN2H64_bound input : 0 <= EncodeN2H64 input < 2 ^ 64.
Proof.
  unfold EncodeN2H64. match goal with |- context [le_val ?l] => pose proof (le_val_bound l) as H end.
  change (256 ^ _) with (2 ^ 64) in H. apply H. repeat (constructor; [apply u8_byte|]). constructor.
Qed.

(** ** Theorems *)

(** C12: every header value the struct can hold survives [PackHeader] into the
    14-byte buffer followed by [UnpackHeader], from as many of the buffer's
    bytes as [PackHeader] reports or more; a header without the mask bit must
    carry a zero mask, as the mask is then not sent. *)
Theorem header_roundtrip (h : WSHeader) (b : bytes) (len hl : Z) :
  wf_header h -> (maskBit h = 0 -> mask h = 0) -> length b = 14%nat ->
  exists b' n, PackHeader h b WS_HDR_MAX_SIZE = Ret (b', n) /\ 2 <= n <= 8 /\
    (n <= len -> UnpackHeader hl b' len = Ret (SUCCESS, h, n)).
Proof.
  intros Hw Hm Hb. eexists _, _. split; [by apply PackHeader_wire|].
  split; [apply zlen_wire_header|]. intros Hlen. by apply UnpackHeader_wire.
Qed.

Definition sample_header : WSHeader := mkWSHeader 1 0 0 0 1 1 126 0 0x04030201.

Lemma header_roundtrip_witness :
  exists b' n, PackHeader sample_header (replicate 14 0) WS_HDR_MAX_SIZE = Ret (b', n) /\
    2 <= n <= 8 /\ (n <= 14 -> UnpackHeader 0 b' 14 = Ret (SUCCESS, sample_header, n)).
Proof.
  apply (header_roundtrip sample_header (replicate 14 0) 14 0);
    [repeat split; simpl; lia|done|done].
Defined.

(** the 16-bit length form a server uses for payloads of 126 to 65535 bytes
    is cut to seven bits by the bit field: the header reports [n mod 128]. *)
Theorem UnpackHeader_length16_truncated (b0 n : Z) (rest : bytes) (hl : Z) :
  is_byte b0 -> 126 <= n < 65536 ->
  exists h, UnpackHeader hl (b0 :: 126 :: n / 256 :: n mod 256 :: rest) 14
            = Ret (SUCCESS, h, 4) /\ payloadLen h = n mod 128.
Proof.
  intros Hb Hn. unfold UnpackHeader. cbn -[Z.land Z.shiftr].
  change (Z.land (Z.shiftr 126 7) 1) with 0. change (Z.land 126 127) with 126.
  unfold set_maskBit, set_payloadLen. cbn -[Z.land Z.shiftr].
  change (0 mod 2) with 0. change (126 mod 128) with 126. cbn -[Z.land Z.shiftr].
  rewrite read_at_ok by (simpl; lia). cbn -[Z.land Z.shiftr]. rewrite take_0.
  eexists. split; [reflexivity|]. cbn.
  unfold ntohs, htons, u16, le_val. Z.div_mod_to_equations; lia.
Qed.

Lemma UnpackHeader_length16_truncated_witness :
  exists h, UnpackHeader 0 [0x81; 126; 300 / 256; 300 mod 256; 65] 14 = Ret (SUCCESS, h, 4) /\
    payloadLen h = 300 mod 128.
Proof.
  apply (UnpackHeader_length16_truncated 0x81 300 [65] 0); unfold is_byte; lia.
Defined.

(** [UnpackHeader] does not wait for the masking key: two received bytes are
    enough for it to accept a short masked header, and the header length it
    reports is then larger than the number of bytes received. *)
Theorem UnpackHeader_ignores_missing_mask (b0 p : Z) (rest : bytes) (hl : Z) :
  0 <= p <= 125 -> (4 <= length rest)%nat ->
  exists h, UnpackHeader hl (b0 :: 128 + p :: rest) 2 = Ret (SUCCESS, h, 6) /\
    maskBit h = 1 /\ payloadLen h = p.
Proof.
  intros Hp Hr. destruct (unpack_byte1 1 p) as [M7 ML]; [lia|lia|].
  unfold UnpackHeader. cbn -[Z.land Z.shiftr].
  replace (128 + p) with (1 * 128 + p) by lia. rewrite M7, ML.
  unfold set_maskBit, set_payloadLen. cbn -[Z.land Z.shiftr].
  change (1 mod 2) with 1. rewrite (Z.mod_small p) by lia. cbn -[Z.land Z.shiftr].
  replace (p =? 126) with false by lia. replace (p =? 127) with false by lia.
  cbn -[Z.land Z.shiftr]. change (Z.to_nat 2) with 2%nat.
  rewrite read_at_ok by (simpl; lia). cbn -[Z.land Z.shiftr].
  eexists. by split.
Qed.

Lemma UnpackHeader_ignores_missing_mask_witness :
  exists h, UnpackHeader 0 (0x81 :: 128 + 5 :: replicate 12 0) 2 = Ret (SUCCESS, h, 6) /\
    maskBit h = 1 /\ payloadLen h = 5.
Proof.
  apply (UnpackHeader_ignores_missing_mask 0x81 5 (replicate 12 0) 0); [lia|].
  rewrite length_replicate. lia.
Defined.

(** [EncodeN2H64] is its own inverse on 64-bit values, and what it leaves in
    the memory of the little-endian host is the value in network byte order. *)
Theorem EncodeN2H64_network_order (input : Z) :
  0 <= input < 2 ^ 64 ->
  EncodeH2N64 (EncodeN2H64 input) = input /\
  le_bytes 8 (EncodeH2N64 input) = rev (le_bytes 8 input).
Proof.
  intros H. unfold EncodeH2N64.
  assert (le_bytes 8 (EncodeN2H64 input) = rev (le_bytes 8 input)) as E.
  { rewrite EncodeN2H64_rev by done.
    assert (length (rev (le_bytes 8 input)) = 8%nat) as <- by done.
    apply le_bytes_val. apply Forall_rev, le_bytes_byte. }
  split; [|done]. rewrite EncodeN2H64_rev by apply EncodeN2H64_bound.
  rewrite E, rev_involutive. by apply le_val_bytes.
Qed.

Lemma EncodeN2H64_network_order_witness :
  EncodeH2N64 (EncodeN2H64 0x0102030405060708) = 0x0102030405060708 /\
  le_bytes 8 (EncodeH2N64 0x0102030405060708) = rev (le_bytes 8 0x0102030405060708).
Proof. apply (EncodeN2H64_network_order 0x0102030405060708). lia. Defined.
