(* ===== verification/Libevent.v ===== *)
(** * The library interface of the WebSocket session

    libevent, OpenSSL's [SHA1] and the C runtime's [rand_s] are not part of the
    repository's own code.  [EvBuffer] lists the byte-buffer operations the
    session calls, [EvBufferLaws] the documented behaviour its theorems rely
    on, and [Env] the rest of the environment.  [ListEvBuffer] is an instance,
    used to evaluate the session on concrete input. *)

From stdpp Require Import base list numbers strings sets.
From Stdlib Require Import ZArith Lia.
From S2P Require Import Prelude.

(** The operations when they succeed. *)
Class EvBuffer := {
  evbuffer : Type;
  evbuffer_new : evbuffer;
  evbuffer_get_length : evbuffer -> Z;
  evbuffer_add : evbuffer -> bytes -> evbuffer;
  evbuffer_add_buffer : evbuffer -> evbuffer -> evbuffer * evbuffer;
  evbuffer_copyout : evbuffer -> nat -> bytes;
  evbuffer_drain : evbuffer -> nat -> evbuffer;
  evbuffer_remove : evbuffer -> nat -> bytes * evbuffer;
  evbuffer_readln_crlf : evbuffer -> option (bytes * evbuffer);
  evbuffer_pullup : evbuffer -> bytes;
}.

Class EvBufferLaws (E : EvBuffer) := {
  contents : evbuffer -> bytes;
  contents_new : contents evbuffer_new = [];
  length_law b : evbuffer_get_length b = zlen (contents b);
  add_law b d : contents (evbuffer_add b d) = contents b ++ d;
  (* evbuffer_add_buffer moves all of the second buffer to the end of the first *)
  add_buffer_law o i o' i' : evbuffer_add_buffer o i = (o', i') ->
    contents o' = contents o ++ contents i /\ contents i' = [];
  (* copies without draining, at most as much as there is *)
  copyout_law b n : evbuffer_copyout b n = take n (contents b);
  drain_law b n : contents (evbuffer_drain b n) = drop n (contents b);
  remove_law b n d b' : evbuffer_remove b n = (d, b') ->
    d = take n (contents b) /\ contents b' = drop n (contents b);
  (* a line ends with a linefeed and an optional carriage return before it; the
     terminator is removed from the buffer and not returned *)
  readln_none b : evbuffer_readln_crlf b = None <-> 10 ∉ contents b;
  readln_some b l b' : evbuffer_readln_crlf b = Some (l, b') ->
    (10 ∉ l) /\ (contents b = l ++ 13 :: 10 :: contents b' \/
               (contents b = l ++ 10 :: contents b' /\ last l <> Some 13));
  pullup_law b : evbuffer_pullup b = contents b;
}.

(** [rand_s k] is the number yielded by the k-th call of [rand_s], [lib_fails k]
    tells whether the k-th fallible library call fails (no memory, no event),
    [stack_junk] is what an uninitialised stack buffer holds, [SHA1] the hash. *)
Record Env := mkEnv {
  rand_s : nat -> Z;
  lib_fails : nat -> bool;
  stack_junk : bytes;
  SHA1 : bytes -> bytes
}.

(** The documented size of a SHA-1 digest, and of the stack buffers. *)
Class EnvOk (env : Env) := {
  SHA1_length m : length (SHA1 env m) = 20%nat;
  SHA1_bytes m : Forall is_byte (SHA1 env m);
  stack_junk_length : length (stack_junk env) = 14%nat;
  stack_junk_bytes : Forall is_byte (stack_junk env)
}.

(** Library calls do not fail. *)
Class LibOk (env : Env) := lib_never_fails k : lib_fails env k = false.

(** ** Buffers as byte lists *)

Fixpoint split_lf (acc l : bytes) : option (bytes * bytes) :=
  match l with
  | [] => None
  | c :: l' => if c =? 10 then Some (acc, l') else split_lf (acc ++ [c]) l'
  end.

(** Dropping one carriage return at the end. *)
Definition chop_cr (l : bytes) : bytes :=
  match last l with
  | Some 13 => take (length l - 1) l
  | _ => l
  end.

#[export] Instance ListEvBuffer : EvBuffer := {|
  evbuffer := bytes;
  evbuffer_new := [];
  evbuffer_get_length b := zlen b;
  evbuffer_add b d := b ++ d;
  evbuffer_add_buffer o i := (o ++ i, []);
  evbuffer_copyout b n := take n b;
  evbuffer_drain b n := drop n b;
  evbuffer_remove b n := (take n b, drop n b);
  evbuffer_readln_crlf b := match split_lf [] b with
                            | Some (l, r) => Some (chop_cr l, r)
                            | None => None
                            end;
  evbuffer_pullup b := b
|}.

Lemma split_lf_None acc l : split_lf acc l = None <-> 10 ∉ l.
Proof.
  revert acc. induction l as [|c l IH]; intros acc; simpl.
  - split; [|done]. intros _. apply not_elem_of_nil.
  - rewrite not_elem_of_cons. destruct (Z.eqb_spec c 10) as [->|Hc]; [naive_solver|].
    rewrite IH. naive_solver.
Qed.

Lemma split_lf_Some acc l p r :
  split_lf acc l = Some (p, r) -> exists q, p = acc ++ q /\ l = q ++ 10 :: r /\ 10 ∉ q.
Proof.
  revert acc. induction l as [|c l IH]; intros acc; simpl; [done|].
  destruct (Z.eqb_spec c 10) as [->|Hc].
  - intros [= <- <-]. exists []. rewrite app_nil_r. split_and!; [done|done|apply not_elem_of_nil].
  - intros (q & -> & -> & Hq)%IH. exists (c :: q). rewrite <- app_assoc.
    split_and!; [done|done|]. apply not_elem_of_cons. naive_solver.
Qed.

Lemma chop_cr_cases l :
  (last l <> Some 13 /\ chop_cr l = l) \/ l = chop_cr l ++ [13].
Proof.
  unfold chop_cr. destruct (last l) as [x|] eqn:E; [|by left].
  destruct (decide (x = 13)) as [->|Hx]; [right|left; split; [naive_solver|]].
  - apply last_Some in E as [l' ->]. rewrite length_app. simpl.
    rewrite take_app_length' by lia. done.
  - repeat case_match; done || (exfalso; apply Hx; congruence).
Qed.

#[export] Instance ListEvBufferLaws : EvBufferLaws ListEvBuffer.
Proof.
  refine {| contents := fun b : @evbuffer ListEvBuffer => b |}; try done.
  - intros o i o' i' [= <- <-]. done.
  - intros b n d b' [= <- <-]. done.
  - intros b. simpl. rewrite <- (split_lf_None [] b).
    destruct (split_lf [] b) as [[? ?]|]; done.
  - intros b l b'. simpl. destruct (split_lf [] b) as [[p r]|] eqn:E; [|done].
    intros [= <- <-]. apply split_lf_Some in E as (q & -> & -> & Hq). cbn [app].
    destruct (chop_cr_cases q) as [[Hl ->]|Hc].
    + split; [done|]. right. done.
    + split; [rewrite Hc in Hq; set_solver|]. left.
      rewrite Hc at 1. by rewrite <- app_assoc.
Defined.

(** An environment to evaluate the session in: the hash is a sum, repeated. *)
Definition sample_env : Env :=
  mkEnv (fun k => 37 * Z.of_nat k + 11) (fun _ => false) (replicate 14 0xCC)
    (fun m => replicate 20 (u8 (foldr Z.add 0 m))).

Lemma sample_env_ok : EnvOk sample_env.
Proof.
  split; simpl; [done| |done|].
  - intros m. repeat constructor; apply u8_byte.
  - repeat constructor; done.
Qed.

Lemma sample_lib_ok : LibOk sample_env.
Proof. done. Qed.
