(* ===== verification/HttpHeader.v ===== *)
(** * Header maps, URLs and requests: src/src/net/header.h, ws_cli/header.h,
    url.h, url.cpp, request.h, request.cpp and wtf/fmt_string.h

    A [Header] is a [std::map] ordered by [CaseInsensitiveCompare]: here an
    association list kept in that order.  Keys that differ in case only are the
    same key: [ci_eq] is that equivalence, and lookup respects it. *)

From stdpp Require Import base list numbers strings sets pretty.
From Stdlib Require Import ZArith Lia Sorted.
From S2P Require Import Prelude.

(** ** Character classes of the C locale *)

Definition tolower (c : Z) : Z := if (65 <=? c) && (c <=? 90) then c + 32 else c.
Definition isspace (c : Z) : bool := ((9 <=? c) && (c <=? 13)) || (c =? 32).
Definition isdigit (c : Z) : bool := (48 <=? c) && (c <=? 57).

(** The characters of a C string: those before the first NUL. *)
Fixpoint cstr (s : bytes) : bytes :=
  match s with
  | [] => []
  | c :: s' => if c =? 0 then [] else c :: cstr s'
  end.

(** What [%d] prints. *)
Definition dec (z : Z) : bytes := str (pretty z).

(** ** Reading numbers *)

Fixpoint skip_ws (s : bytes) : bytes :=
  match s with
  | x :: s' => if isspace x then skip_ws s' else s
  | [] => []
  end.

(** Decimal digits, as [%d] reads them. *)
Fixpoint scan_digits (acc : Z) (s : bytes) : Z * bytes :=
  match s with
  | x :: s' => if isdigit x then scan_digits (10 * acc + (x - 48)) s' else (acc, s)
  | [] => (acc, [])
  end.

Definition scan_nat (s : bytes) : option (Z * bytes) :=
  match s with
  | x :: _ => if isdigit x then Some (scan_digits 0 s) else None
  | [] => None
  end.

(** [%d]: white space, a sign, digits. *)
Definition scan_int (s : bytes) : option (Z * bytes) :=
  match skip_ws s with
  | 45 :: s' => match scan_nat s' with Some (v, r) => Some (- v, r) | None => None end
  | 43 :: s' => scan_nat s'
  | s' => scan_nat s'
  end.

(** What was printed is read back. *)
Definition digit_first (l : bytes) : Prop := exists c r, l = c :: r /\ isdigit c = true.

Lemma pretty_N_char_digit n : (n < 10)%N -> byte_of_ascii (pretty_N_char n) = 48 + Z.of_N n.
Proof.
  intros H. destruct n as [|p]; [done|]. do 4 (destruct p as [p|p|]; try done); lia.
Qed.

Lemma scan_pretty_go n s :
  digit_first (str s) \/ (0 < n)%N ->
  digit_first (str (pretty_N_go n s)) /\ scan_digits 0 (str (pretty_N_go n s)) = scan_digits (Z.of_N n) (str s).
Proof.
  revert s. induction (N.lt_wf_0 n) as [n _ IH]; intros s Hd. destruct (decide (n = 0)%N) as [->|Hn].
  { rewrite pretty_N_go_0. destruct Hd as [Hd|Hd]; [done|lia]. }
  rewrite pretty_N_go_step by lia. assert (Hm : (n `mod` 10 < 10)%N) by (apply N.mod_lt; lia).
  assert (Hc : isdigit (48 + Z.of_N (n `mod` 10)) = true) by (revert Hm; generalize (n `mod` 10)%N as m; unfold isdigit; intros; lia).
  destruct (IH (n `div` 10)%N (N.div_lt n 10 ltac:(lia) eq_refl) (String (pretty_N_char (n `mod` 10)) s)) as [H1 H2].
  - left. exists (48 + Z.of_N (n `mod` 10)), (str s). split; [|done]. unfold str. cbn [String.list_ascii_of_string].
    by rewrite fmap_cons, pretty_N_char_digit.
  - split; [done|]. rewrite H2. unfold str at 1. cbn [String.list_ascii_of_string].
    rewrite fmap_cons, pretty_N_char_digit by done. cbn [scan_digits]. rewrite Hc. fold (str s). f_equal.
    pose proof (N.div_mod n 10 ltac:(lia)). lia.
Qed.

Lemma scan_pretty_N n : digit_first (str (pretty n)) /\ scan_digits 0 (str (pretty n)) = (Z.of_N n, []).
Proof.
  unfold pretty, pretty_N. case_decide as Hn; [subst n; split; [by exists 48, []|done]|].
  destruct (scan_pretty_go n "" ltac:(right; lia)) as [H1 H2]. by rewrite H2.
Qed.

Lemma digit_first_scan l : digit_first l -> skip_ws l = l /\ scan_nat l = Some (scan_digits 0 l) /\ scan_int l = scan_nat l.
Proof.
  intros (c & r & -> & Hc). assert (isspace c = false) as Hs by (unfold isspace, isdigit in *; lia).
  unfold scan_int. cbn [skip_ws]. rewrite Hs. unfold scan_nat. rewrite Hc. split_and!; [done..|].
  destruct c as [|p|p]; [done| |done]. do 6 (destruct p as [p|p|]; try done).
Qed.

Lemma scan_dec z : exists c l, dec z = c :: l /\ isspace c = false /\ scan_int (dec z) = Some (z, []).
Proof.
  unfold dec. destruct z as [|p|p]; [by exists 48, []|..].
  - change (pretty (Z.pos p)) with (pretty (N.pos p)). destruct (scan_pretty_N (N.pos p)) as [H1 H2].
    destruct (digit_first_scan _ H1) as (_ & Hn & ->). destruct H1 as (c & l & Hl & Hc). exists c, l. split; [done|].
    split; [unfold isspace, isdigit in *; lia|]. by rewrite Hn, H2.
  - change (str (pretty (Z.neg p))) with (45 :: str (pretty (N.pos p))). destruct (scan_pretty_N (N.pos p)) as [H1 H2].
    destruct (digit_first_scan _ H1) as (_ & Hn & _). exists 45, (str (pretty (N.pos p))). split; [done|]. split; [done|].
    unfold scan_int. cbn [skip_ws isspace]. change (isspace 45) with false. cbn iota. by rewrite Hn, H2.
Qed.

Definition crlf : bytes := [13; 10].

(** ** header.h *)

(** [std::lexicographical_compare] with [tolower(ac) < tolower(bc)]. *)
Fixpoint CaseInsensitiveCompare (a b : bytes) : bool :=
  match a, b with
  | _, [] => false
  | [], _ :: _ => true
  | ac :: a', bc :: b' =>
      if tolower ac <? tolower bc then true
      else if tolower bc <? tolower ac then false
      else CaseInsensitiveCompare a' b'
  end.

Abbreviation Header := (list (bytes * bytes)).

(** [insert_or_assign]: an existing key keeps its spelling. *)
Fixpoint insert_or_assign (k v : bytes) (h : Header) : Header :=
  match h with
  | [] => [(k, v)]
  | (k', v') :: h' =>
      if CaseInsensitiveCompare k k' then (k, v) :: h
      else if CaseInsensitiveCompare k' k then (k', v') :: insert_or_assign k v h'
      else (k', v) :: h'
  end.

Fixpoint header_find (h : Header) (k : bytes) : option bytes :=
  match h with
  | [] => None
  | (k', v') :: h' =>
      if CaseInsensitiveCompare k k' then None
      else if CaseInsensitiveCompare k' k then header_find h' k
      else Some v'
  end.

(** ** url.h, url.cpp *)

Record Url := mkUrl {
  url : bytes; schema : bytes; host : bytes; port : Z;
  path : bytes; query : bytes; fragment : bytes
}.

Definition ParseUrl (u : Url) : Url := u.

(** [Url::Url(const std::string&)]; the other members start empty, [port] holds
    whatever the storage held. *)
Definition Url_ctor (u : bytes) (port0 : Z) : Url := ParseUrl (mkUrl u [] [] port0 [] [] []).

Definition IsHttps (u : Url) : bool := bool_decide (schema u = str "https").

(** ** wtf/fmt_string.h

    [FmtString] of a text formatted by [snprintf], first into a stack buffer of
    [BUFSIZ] bytes and, when that is too small, into a heap buffer. *)

Definition BUFSIZ : Z := 512.

(** [snprintf(buf, n, ...)]: what the buffer holds and the value returned. *)
Definition snprintf (n : Z) (text : bytes) : bytes * Z :=
  (take (Z.to_nat (n - 1)) text, zlen text).

Definition FmtString (text : bytes) : bytes :=
  let '(buffer, r) := snprintf BUFSIZ text in
  let newlen := r + 1 in
  if BUFSIZ <? newlen then
    let '(newBuffer, _) := snprintf newlen text in cstr newBuffer
  else cstr buffer.

(** ** request.h, request.cpp *)

Record Request := mkRequest {
  req_header : Header; req_method : bytes; req_url : Url;
  httpMajor : Z; httpMinor : Z; raw : bytes
}.

Definition header_line (kv : bytes * bytes) : bytes :=
  FmtString (cstr kv.1 ++ str ": " ++ cstr kv.2 ++ crlf).

Definition PreparePayload (r : Request) : Request :=
  let raw1 :=
    FmtString (cstr (req_method r) ++ str " " ++
      (if bool_decide (path (req_url r) = []) then str "/" else cstr (path (req_url r))) ++
      str " HTTP/" ++ dec (httpMajor r) ++ str "." ++ dec (httpMinor r) ++ crlf) in
  let raw2 := raw1 ++ FmtString (str "Host: " ++ cstr (host (req_url r)) ++ crlf) in
  let raw3 := foldl (fun acc kv => acc ++ header_line kv) raw2 (req_header r) in
  mkRequest (req_header r) (req_method r) (req_url r) (httpMajor r) (httpMinor r) (raw3 ++ crlf).

(** ** The order on keys *)

Definition ci_eq (a b : bytes) : Prop := tolower <$> a = tolower <$> b.

#[export] Instance ci_eq_equiv : Equivalence ci_eq.
Proof. unfold ci_eq. split; repeat intro; congruence. Qed.

Lemma CIC_ci_eq a b :
  ci_eq a b <-> CaseInsensitiveCompare a b = false /\ CaseInsensitiveCompare b a = false.
Proof.
  unfold ci_eq. revert b. induction a as [|x a IH]; intros [|y b]; simpl;
    [done | split; [done|intros []; done] | split; [done|intros []; done] |].
  destruct (Z.ltb_spec (tolower x) (tolower y)), (Z.ltb_spec (tolower y) (tolower x)); try lia;
    rewrite <- ?IH; split; try (intros []; discriminate).
  - intros [= ? _]. lia.
  - intros [= ? _]. lia.
  - intros [= _ ?]. done.
  - intros E. rewrite (Z.le_antisymm (tolower x) (tolower y)) by lia. by f_equal.
Qed.

Lemma CIC_irrefl a : CaseInsensitiveCompare a a = false.
Proof. by apply (CIC_ci_eq a a). Qed.

Lemma CIC_trans a b c :
  CaseInsensitiveCompare a b = true -> CaseInsensitiveCompare b c = true ->
  CaseInsensitiveCompare a c = true.
Proof.
  revert b c. induction a as [|x a IH]; intros [|y b] [|z c]; simpl; try done.
  repeat case_match; try lia; eauto; done.
Qed.

#[export] Instance CIC_proper :
  Proper (ci_eq ==> ci_eq ==> eq) CaseInsensitiveCompare.
Proof.
  unfold ci_eq. intros a a' Ha b b' Hb. revert a' Ha b b' Hb.
  induction a as [|x a IH]; intros [|x' a'] Ha [|y b] [|y' b'] Hb; simpl in *; try done.
  injection Ha as Hx Ha. injection Hb as Hy Hb. rewrite Hx, Hy.
  by rewrite (IH _ Ha _ _ Hb).
Qed.

Lemma CIC_asymm a b :
  CaseInsensitiveCompare a b = true -> CaseInsensitiveCompare b a = false.
Proof.
  intros H1. destruct (CaseInsensitiveCompare b a) eqn:H2; [|done].
  pose proof (CIC_trans _ _ _ H1 H2) as H. by rewrite CIC_irrefl in H.
Qed.

(** A map in key order, without equivalent keys. *)
Definition header_wf (h : Header) : Prop :=
  StronglySorted (fun p q => CaseInsensitiveCompare p.1 q.1 = true) h.

#[export] Instance header_find_proper h : Proper (ci_eq ==> eq) (header_find h).
Proof.
  intros k k' Hk. induction h as [|[k0 v0] h IH]; simpl; [done|].
  by rewrite IH, (CIC_proper k k' Hk k0 k0 eq_refl), (CIC_proper k0 k0 eq_refl k k' Hk).
Qed.

Lemma insert_keys k v h p :
  p ∈ insert_or_assign k v h -> p.1 = k \/ exists q, q ∈ h /\ q.1 = p.1.
Proof.
  induction h as [|[k0 v0] h IH]; simpl.
  - intros ->%list_elem_of_singleton. by left.
  - repeat case_match.
    + intros [->|Hp]%elem_of_cons; [by left|]. right. eauto.
    + intros [->|Hp]%elem_of_cons; [right; eexists; split; [left|done]|].
      destruct (IH Hp) as [?|(q & Hq & ?)]; [by left|]. right. exists q. set_solver.
    + intros [->|Hp]%elem_of_cons; [right; eexists; split; [left|done]|].
      right. exists p. set_solver.
Qed.

Lemma insert_wf k v h : header_wf h -> header_wf (insert_or_assign k v h).
Proof.
  unfold header_wf. induction 1 as [|[k0 v0] h Hs IH HF]; simpl.
  - repeat constructor.
  - destruct (CaseInsensitiveCompare k k0) eqn:E1; [|destruct (CaseInsensitiveCompare k0 k) eqn:E2].
    + constructor; [by constructor|]. constructor; [done|].
      eapply Forall_impl; [exact HF|]. simpl. intros q. by apply CIC_trans.
    + constructor; [done|]. apply Forall_forall. intros p Hp. simpl.
      apply insert_keys in Hp as [->|(q & Hq & <-)]; [done|].
      rewrite Forall_forall in HF. by apply HF.
    + constructor; [done|]. done.
Qed.

Lemma header_find_lt h k :
  Forall (fun q => CaseInsensitiveCompare k q.1 = true) h -> header_find h k = None.
Proof. destruct 1 as [|[k0 v0] h H _]; simpl in *; [done|]. by rewrite H. Qed.

Lemma CIC_trich k k' :
  ~ ci_eq k k' -> CaseInsensitiveCompare k k' = false -> CaseInsensitiveCompare k' k = true.
Proof.
  intros Hn H. destruct (CaseInsensitiveCompare k' k) eqn:E; [done|].
  exfalso. by apply Hn, CIC_ci_eq.
Qed.

(** the header map is a map up to case: after [insert_or_assign] the order
    invariant still holds, a lookup with any spelling of the key finds the new
    value, and every key that is not a spelling of it finds what it found. *)
Theorem header_insert_lookup k v h :
  header_wf h ->
  header_wf (insert_or_assign k v h) /\
  forall k', header_find (insert_or_assign k v h) k' =
    if decide (tolower <$> k = tolower <$> k') then Some v else header_find h k'.
Proof.
  intros Hwf. split; [by apply insert_wf|]. intros k'. case_decide as Hk.
  - rewrite <- (header_find_proper _ k k') by exact Hk. clear Hk Hwf.
    induction h as [|[k0 v0] h IH]; simpl; [by rewrite CIC_irrefl|].
    destruct (CaseInsensitiveCompare k k0) eqn:E1; [simpl; by rewrite CIC_irrefl|].
    destruct (CaseInsensitiveCompare k0 k) eqn:E2; simpl; by rewrite E1, E2.
  - induction Hwf as [|[k0 v0] h Hs IH HF]; simpl.
    + destruct (CaseInsensitiveCompare k' k) eqn:E; [done|].
      by rewrite (CIC_trich k' k) by (done || by symmetry).
    + destruct (CaseInsensitiveCompare k k0) eqn:E1; [|destruct (CaseInsensitiveCompare k0 k) eqn:E2].
      * simpl. destruct (CaseInsensitiveCompare k' k) eqn:E.
        -- by rewrite (CIC_trans _ _ _ E E1).
        -- rewrite (CIC_trich k' k) by (done || by symmetry). done.
      * simpl. by rewrite IH.
      * simpl. assert (ci_eq k k0) as Hc by (by apply CIC_ci_eq).
        destruct (CaseInsensitiveCompare k' k0) eqn:E; [done|].
        assert (CaseInsensitiveCompare k0 k' = true) as ->; [|done].
        apply CIC_trich; [|done]. intros H'. apply Hk. rewrite H'. done.
Qed.

Lemma header_insert_lookup_witness :
  header_find (insert_or_assign (str "HOST") [49] [(str "Host", [48]); (str "Upgrade", [50])])
    (str "host") = Some [49].
Proof.
  destruct (header_insert_lookup (str "HOST") [49] [(str "Host", [48]); (str "Upgrade", [50])])
    as [_ H].
  - repeat constructor.
  - rewrite H. reflexivity.
Defined.

Lemma cstr_take n s : ~ 0 ∈ s -> cstr (take n s) = take n s.
Proof.
  intros H. assert (0 ∉ take n s) as H'.
  { intros Hin. apply H. rewrite <- (take_drop n s). apply elem_of_app. by left. }
  clear H. induction (take n s) as [|c l IH]; simpl; [done|].
  apply not_elem_of_cons in H' as [Hc Hl]. replace (c =? 0) with false by lia.
  by rewrite IH.
Qed.

(** [FmtString] returns the whole formatted text whatever its length: the
    stack buffer is used up to 511 characters, and beyond that the heap buffer
    is large enough. *)
Theorem FmtString_whole text : ~ 0 ∈ text -> FmtString text = text.
Proof.
  intros H. unfold FmtString, snprintf. case_match eqn:E; rewrite cstr_take by done;
    apply take_ge; unfold BUFSIZ, zlen in *; lia.
Qed.

Lemma FmtString_whole_witness :
  FmtString (replicate 600 65) = replicate 600 65.
Proof.
  apply FmtString_whole. intros [? _]%elem_of_replicate. done.
Defined.
