(* ===== verification/WsState.v ===== *)
(** * The state of a WebSocket session: implement/ev/session_impl_ev.h

    [SessionImplEV] has the data members of the class.  Pointers to library
    objects whose contents the session never looks at are booleans (non-null or
    not).  The bufferevent is the pointer [bev_] and the two buffers of the
    object; they stay alive until the running callback returns, because the
    object is created with BEV_OPT_DEFER_CALLBACKS, so a callback may still read
    its input buffer after [ShutDown] has cleared the pointer.

    Members no code reads are left out (noCopyExtra_ and the message and frame
    callbacks).  Three fields record what the environment sees: [rand_calls] and
    [lib_calls] count the calls of rand_s and of the library calls that can
    fail, and [trace] lists what happened, latest first. *)

From stdpp Require Import base list numbers strings.
From Stdlib Require Import ZArith Lia.
From S2P Require Import Prelude Utf8 WsTypes Libevent HttpHeader.

(** What a handler given to the session does with it. *)
Inductive ApiCall :=
| ApiSendMsg (msg : bytes)
| ApiClose.

(** ** connect_handler.h, connect_handler.cpp, message_handler.h, message_handler.cpp

    A handler is the function object it holds, if any: the calls of the session
    it makes. *)

Record ConnectHandler := mkConnectHandler { connect_handler_ : option (list ApiCall) }.

Definition ConnectHandler_default : ConnectHandler := mkConnectHandler None.
Definition ConnectHandler_ctor (handler : option (list ApiCall)) : ConnectHandler :=
  mkConnectHandler handler.

(** [operator()]: what is called. *)
Definition ConnectHandler_call (h : ConnectHandler) : list ApiCall :=
  match connect_handler_ h with Some f => f | None => [] end.

Record MessageHandler := mkMessageHandler {
  isValid_ : bool;
  message_handler_ : option (bytes -> bool -> list ApiCall)
}.

Definition MessageHandler_default : MessageHandler := mkMessageHandler false None.
Definition MessageHandler_ctor (handler : option (bytes -> bool -> list ApiCall))
  : MessageHandler := mkMessageHandler true handler.

Definition IsValid (h : MessageHandler) : bool := isValid_ h.

Definition MessageHandler_call (h : MessageHandler) (msg : bytes) (binary : bool)
  : list ApiCall :=
  match message_handler_ h with Some f => f msg binary | None => [] end.

(** What [serverReason_] points to: nothing, the literal "", or the third byte
    of [ctrlPayload_]. *)
Inductive Reason := RNull | REmpty | RCtrl.

(** What the application and the event loop see. *)
Inductive Happening :=
| Connected_cb
| Message_cb (msg : bytes) (binary : bool)
| Close_cb (status : Z)
| Ping_cb (payload : bytes)
| Pong_cb (payload : bytes)
| Loop_exit.

Section state.
Context {E : EvBuffer}.

Record SessionImplEV := mkSession {
  evBase_ : bool;
  dnsBase_ : bool;
  msg_ : option evbuffer;
  frameData_ : option evbuffer;
  bev_ : bool;
  bev_input : evbuffer;
  bev_output : evbuffer;
  connectTimeout_ : Z;
  connectTimeoutEvent_ : bool;
  uri_ : bytes;
  host_ : bytes;
  handshakeKeyBase64_ : bytes;
  origin_ : bytes;
  port_ : Z;
  numSubprotocols_ : Z;
  subprotocols_ : list bytes;
  connectState_ : WSConnectState;
  closeTimeoutEvent_ : bool;
  httpHeaderFlags_ : Z;
  recvFrameLen_ : Z;
  maxFrameSize_ : Z;
  ctrlPayload_ : bytes;
  ctrlLen_ : Z;
  state_ : WSState;
  utf8State_ : Z;
  sendState_ : WSSendState;
  serverCloseStatus_ : Z;
  hasHeader_ : bool;
  wsHeader_ : WSHeader;
  header_ : Header;
  inMsgFlag_ : bool;
  useSsl_ : bool;
  binaryMode_ : Z;
  msgIsBinary_ : bool;
  sentCloseFlag_ : bool;
  receivedCloseFlag_ : bool;
  msgIsBinary : bool;
  noCopyCleanupCb_ : bool;
  onClose_ : bool;
  onConnect_ : ConnectHandler;
  onMessage_ : MessageHandler;
  onPing_ : bool;
  onPong_ : bool;
  serverReason_ : Reason;
  serverReasonLen_ : Z;
  rand_calls : nat;
  lib_calls : nat;
  trace : list Happening
}.

Definition eta_Session (s : SessionImplEV) : SessionImplEV :=
  mkSession (evBase_ s) (dnsBase_ s) (msg_ s) (frameData_ s) (bev_ s)
    (bev_input s) (bev_output s) (connectTimeout_ s) (connectTimeoutEvent_ s) (uri_ s)
    (host_ s) (handshakeKeyBase64_ s) (origin_ s) (port_ s) (numSubprotocols_ s)
    (subprotocols_ s) (connectState_ s) (closeTimeoutEvent_ s) (httpHeaderFlags_ s) (recvFrameLen_ s)
    (maxFrameSize_ s) (ctrlPayload_ s) (ctrlLen_ s) (state_ s) (utf8State_ s)
    (sendState_ s) (serverCloseStatus_ s) (hasHeader_ s) (wsHeader_ s) (header_ s)
    (inMsgFlag_ s) (useSsl_ s) (binaryMode_ s) (msgIsBinary_ s) (sentCloseFlag_ s)
    (receivedCloseFlag_ s) (msgIsBinary s) (noCopyCleanupCb_ s) (onClose_ s) (onConnect_ s)
    (onMessage_ s) (onPing_ s) (onPong_ s) (serverReason_ s) (serverReasonLen_ s)
    (rand_calls s) (lib_calls s) (trace s).

Definition with_evBase_ : bool -> SessionImplEV -> SessionImplEV :=
  ltac:(build_setter eta_Session evBase_).
Definition with_dnsBase_ : bool -> SessionImplEV -> SessionImplEV :=
  ltac:(build_setter eta_Session dnsBase_).
Definition with_msg_ : (option evbuffer) -> SessionImplEV -> SessionImplEV :=
  ltac:(build_setter eta_Session msg_).
Definition with_frameData_ : (option evbuffer) -> SessionImplEV -> SessionImplEV :=
  ltac:(build_setter eta_Session frameData_).
Definition with_bev_ : bool -> SessionImplEV -> SessionImplEV :=
  ltac:(build_setter eta_Session bev_).
Definition with_bev_input : evbuffer -> SessionImplEV -> SessionImplEV :=
  ltac:(build_setter eta_Session bev_input).
Definition with_bev_output : evbuffer -> SessionImplEV -> SessionImplEV :=
  ltac:(build_setter eta_Session bev_output).
Definition with_connectTimeout_ : Z -> SessionImplEV -> SessionImplEV :=
  ltac:(build_setter eta_Session connectTimeout_).
Definition with_connectTimeoutEvent_ : bool -> SessionImplEV -> SessionImplEV :=
  ltac:(build_setter eta_Session connectTimeoutEvent_).
Definition with_uri_ : bytes -> SessionImplEV -> SessionImplEV :=
  ltac:(build_setter eta_Session uri_).
Definition with_host_ : bytes -> SessionImplEV -> SessionImplEV :=
  ltac:(build_setter eta_Session host_).
Definition with_handshakeKeyBase64_ : bytes -> SessionImplEV -> SessionImplEV :=
  ltac:(build_setter eta_Session handshakeKeyBase64_).
Definition with_origin_ : bytes -> SessionImplEV -> SessionImplEV :=
  ltac:(build_setter eta_Session origin_).
Definition with_port_ : Z -> SessionImplEV -> SessionImplEV :=
  ltac:(build_setter eta_Session port_).
Definition with_numSubprotocols_ : Z -> SessionImplEV -> SessionImplEV :=
  ltac:(build_setter eta_Session numSubprotocols_).
Definition with_subprotocols_ : (list bytes) -> SessionImplEV -> SessionImplEV :=
  ltac:(build_setter eta_Session subprotocols_).
Definition with_connectState_ : WSConnectState -> SessionImplEV -> SessionImplEV :=
  ltac:(build_setter eta_Session connectState_).
Definition with_closeTimeoutEvent_ : bool -> SessionImplEV -> SessionImplEV :=
  ltac:(build_setter eta_Session closeTimeoutEvent_).
Definition with_httpHeaderFlags_ : Z -> SessionImplEV -> SessionImplEV :=
  ltac:(build_setter eta_Session httpHeaderFlags_).
Definition with_recvFrameLen_ : Z -> SessionImplEV -> SessionImplEV :=
  ltac:(build_setter eta_Session recvFrameLen_).
Definition with_maxFrameSize_ : Z -> SessionImplEV -> SessionImplEV :=
  ltac:(build_setter eta_Session maxFrameSize_).
Definition with_ctrlPayload_ : bytes -> SessionImplEV -> SessionImplEV :=
  ltac:(build_setter eta_Session ctrlPayload_).
Definition with_ctrlLen_ : Z -> SessionImplEV -> SessionImplEV :=
  ltac:(build_setter eta_Session ctrlLen_).
Definition with_state_ : WSState -> SessionImplEV -> SessionImplEV :=
  ltac:(build_setter eta_Session state_).
Definition with_utf8State_ : Z -> SessionImplEV -> SessionImplEV :=
  ltac:(build_setter eta_Session utf8State_).
Definition with_sendState_ : WSSendState -> SessionImplEV -> SessionImplEV :=
  ltac:(build_setter eta_Session sendState_).
Definition with_serverCloseStatus_ : Z -> SessionImplEV -> SessionImplEV :=
  ltac:(build_setter eta_Session serverCloseStatus_).
Definition with_hasHeader_ : bool -> SessionImplEV -> SessionImplEV :=
  ltac:(build_setter eta_Session hasHeader_).
Definition with_wsHeader_ : WSHeader -> SessionImplEV -> SessionImplEV :=
  ltac:(build_setter eta_Session wsHeader_).
Definition with_header_ : Header -> SessionImplEV -> SessionImplEV :=
  ltac:(build_setter eta_Session header_).
Definition with_inMsgFlag_ : bool -> SessionImplEV -> SessionImplEV :=
  ltac:(build_setter eta_Session inMsgFlag_).
Definition with_useSsl_ : bool -> SessionImplEV -> SessionImplEV :=
  ltac:(build_setter eta_Session useSsl_).
Definition with_binaryMode_ : Z -> SessionImplEV -> SessionImplEV :=
  ltac:(build_setter eta_Session binaryMode_).
Definition with_msgIsBinary_ : bool -> SessionImplEV -> SessionImplEV :=
  ltac:(build_setter eta_Session msgIsBinary_).
Definition with_sentCloseFlag_ : bool -> SessionImplEV -> SessionImplEV :=
  ltac:(build_setter eta_Session sentCloseFlag_).
Definition with_receivedCloseFlag_ : bool -> SessionImplEV -> SessionImplEV :=
  ltac:(build_setter eta_Session receivedCloseFlag_).
Definition with_msgIsBinary : bool -> SessionImplEV -> SessionImplEV :=
  ltac:(build_setter eta_Session msgIsBinary).
Definition with_noCopyCleanupCb_ : bool -> SessionImplEV -> SessionImplEV :=
  ltac:(build_setter eta_Session noCopyCleanupCb_).
Definition with_onClose_ : bool -> SessionImplEV -> SessionImplEV :=
  ltac:(build_setter eta_Session onClose_).
Definition with_onConnect_ : ConnectHandler -> SessionImplEV -> SessionImplEV :=
  ltac:(build_setter eta_Session onConnect_).
Definition with_onMessage_ : MessageHandler -> SessionImplEV -> SessionImplEV :=
  ltac:(build_setter eta_Session onMessage_).
Definition with_onPing_ : bool -> SessionImplEV -> SessionImplEV :=
  ltac:(build_setter eta_Session onPing_).
Definition with_onPong_ : bool -> SessionImplEV -> SessionImplEV :=
  ltac:(build_setter eta_Session onPong_).
Definition with_serverReason_ : Reason -> SessionImplEV -> SessionImplEV :=
  ltac:(build_setter eta_Session serverReason_).
Definition with_serverReasonLen_ : Z -> SessionImplEV -> SessionImplEV :=
  ltac:(build_setter eta_Session serverReasonLen_).
Definition with_rand_calls : nat -> SessionImplEV -> SessionImplEV :=
  ltac:(build_setter eta_Session rand_calls).
Definition with_lib_calls : nat -> SessionImplEV -> SessionImplEV :=
  ltac:(build_setter eta_Session lib_calls).
Definition with_trace : (list Happening) -> SessionImplEV -> SessionImplEV :=
  ltac:(build_setter eta_Session trace).

(** [std::make_shared<SessionImplEV>()]: the constructor is defaulted, so the
    object is zeroed before its members are initialised. *)
Definition new_session : SessionImplEV :=
  mkSession
    false false None None false evbuffer_new evbuffer_new 0
    false [] [] [] [] 0 0 []
    CONNECT_NONE false 0 0 0 (replicate 125 0) 0 DNS_LOOKUP
    0 SEND_NONE 0 false zero_header [] false false
    0 false false false false false false ConnectHandler_default
    MessageHandler_default false false RNull 0 0%nat 0%nat [].

End state.

(** Two states that are updates of the same state, compared field by field. *)
Ltac ses_norm :=
  cbv beta iota zeta delta [
    evBase_ dnsBase_ msg_ frameData_ bev_ bev_input bev_output connectTimeout_
    connectTimeoutEvent_ uri_ host_ handshakeKeyBase64_ origin_ port_ numSubprotocols_
    subprotocols_ connectState_ closeTimeoutEvent_ httpHeaderFlags_ recvFrameLen_ maxFrameSize_
    ctrlPayload_ ctrlLen_ state_ utf8State_ sendState_ serverCloseStatus_ hasHeader_ wsHeader_
    header_ inMsgFlag_ useSsl_ binaryMode_ msgIsBinary_ sentCloseFlag_ receivedCloseFlag_
    msgIsBinary noCopyCleanupCb_ onClose_ onConnect_ onMessage_ onPing_ onPong_ serverReason_
    serverReasonLen_ rand_calls lib_calls trace with_evBase_ with_dnsBase_ with_msg_
    with_frameData_ with_bev_ with_bev_input with_bev_output with_connectTimeout_
    with_connectTimeoutEvent_ with_uri_ with_host_ with_handshakeKeyBase64_ with_origin_
    with_port_ with_numSubprotocols_ with_subprotocols_ with_connectState_
    with_closeTimeoutEvent_ with_httpHeaderFlags_ with_recvFrameLen_ with_maxFrameSize_
    with_ctrlPayload_ with_ctrlLen_ with_state_ with_utf8State_ with_sendState_
    with_serverCloseStatus_ with_hasHeader_ with_wsHeader_ with_header_ with_inMsgFlag_
    with_useSsl_ with_binaryMode_ with_msgIsBinary_ with_sentCloseFlag_ with_receivedCloseFlag_
    with_msgIsBinary with_noCopyCleanupCb_ with_onClose_ with_onConnect_ with_onMessage_
    with_onPing_ with_onPong_ with_serverReason_ with_serverReasonLen_ with_rand_calls
    with_lib_calls with_trace].

Ltac ses_eq := ses_norm; reflexivity.

(** Reading fields of an updated state. *)
Ltac ses_simpl :=
  cbn [
    evBase_ dnsBase_ msg_ frameData_ bev_ bev_input bev_output connectTimeout_
    connectTimeoutEvent_ uri_ host_ handshakeKeyBase64_ origin_ port_ numSubprotocols_
    subprotocols_ connectState_ closeTimeoutEvent_ httpHeaderFlags_ recvFrameLen_ maxFrameSize_
    ctrlPayload_ ctrlLen_ state_ utf8State_ sendState_ serverCloseStatus_ hasHeader_ wsHeader_
    header_ inMsgFlag_ useSsl_ binaryMode_ msgIsBinary_ sentCloseFlag_ receivedCloseFlag_
    msgIsBinary noCopyCleanupCb_ onClose_ onConnect_ onMessage_ onPing_ onPong_ serverReason_
    serverReasonLen_ rand_calls lib_calls trace with_evBase_ with_dnsBase_ with_msg_
    with_frameData_ with_bev_ with_bev_input with_bev_output with_connectTimeout_
    with_connectTimeoutEvent_ with_uri_ with_host_ with_handshakeKeyBase64_ with_origin_
    with_port_ with_numSubprotocols_ with_subprotocols_ with_connectState_
    with_closeTimeoutEvent_ with_httpHeaderFlags_ with_recvFrameLen_ with_maxFrameSize_
    with_ctrlPayload_ with_ctrlLen_ with_state_ with_utf8State_ with_sendState_
    with_serverCloseStatus_ with_hasHeader_ with_wsHeader_ with_header_ with_inMsgFlag_
    with_useSsl_ with_binaryMode_ with_msgIsBinary_ with_sentCloseFlag_ with_receivedCloseFlag_
    with_msgIsBinary with_noCopyCleanupCb_ with_onClose_ with_onConnect_ with_onMessage_
    with_onPing_ with_onPong_ with_serverReason_ with_serverReasonLen_ with_rand_calls
    with_lib_calls with_trace] in *.
