(* ===== verification/WsSend.v ===== *)
(** * Sending and closing: implement/ev/session_impl_ev.cpp

    The operations that write frames to the output buffer, and those that end
    the connection.  A function that masks the caller's buffer in place returns
    that buffer's contents after the call.  Log output is not modelled.
    [rfc6455_frame] is the frame the standard asks for, with which the output is
    compared. *)

From stdpp Require Import base list numbers strings.
From Stdlib Require Import ZArith Lia.
From S2P Require Import Prelude WsTypes WsHeader Libevent HttpHeader WsState.

Section ops.
Context {E : EvBuffer} (env : Env).

Abbreviation SM := (M SessionImplEV).

(** A library call that can fail: the answer tells whether it did. *)
Definition lib_call : SM bool := fun s =>
  Ret (lib_fails env (lib_calls s), with_lib_calls (S (lib_calls s)) s).

Definition happen (h : Happening) : SM unit := updS (fun s => with_trace (h :: trace s) s).

(** [GetRandomMask(buf, len)] with the process's [rand_s]. *)
Definition random_bytes (len : nat) : SM (bytes * Z) := fun s =>
  let '(bs, r, calls) := GetRandomMask (rand_s env) (rand_calls s) len in
  Ret ((bs, r), with_rand_calls calls s).

(** [evbuffer_add(bufferevent_get_output(bev_), msg, len)], true when it fails.
    [evbuffer_add_reference] puts the same bytes into the buffer. *)
Definition output_add (msg : bytes) : SM bool :=
  let! failed := lib_call in
  do! whenS (negb failed)
        (updS (fun s => with_bev_output (evbuffer_add (bev_output s) msg) s)) in
  retS failed.

Definition SendData (msg : bytes) (no_copy : bool) : SM Z :=
  let! bev := getS bev_ in
  if negb bev then retS (-1) else
  let! cb := getS noCopyCleanupCb_ in
  if no_copy && cb then
    let! failed := output_add msg in
    if (failed : bool) then retS (-1) else retS 0
  else
    let! failed := output_add msg in
    if (failed : bool) then retS (-1) else retS 0.

Definition upd_header (f : WSHeader -> WSHeader) : SM unit :=
  updS (fun s => with_wsHeader_ (f (wsHeader_ s)) s).

(** [PackHeader(wsHeader_, header_buf, sizeof(header_buf), &header_len)] and
    [SendData(header_buf, header_len, 0)]. *)
Definition send_header : SM Z :=
  let! h := getS wsHeader_ in
  let! '(header_buf, header_len) := liftS (PackHeader h (stack_junk env) WS_HDR_MAX_SIZE) in
  SendData (take (Z.to_nat header_len) header_buf) false.

Definition SendFrameRaw (opcode : WSOpcode) (data : bytes) : SM (Z * bytes) :=
  let! st := getS sendState_ in
  if negb (bool_decide (st = SEND_NONE)) then retS (-1, data) else
  if IsControlOpcode (op opcode) && (125 <? zlen data) then retS (-1, data) else
  do! updS (with_wsHeader_ zero_header) in
  do! upd_header (set_fin 0x1) in
  do! upd_header (set_opcode (op opcode)) in
  if WS_MAX_PAYLOAD_LEN <? zlen data then retS (-1, data) else
  do! upd_header (set_maskBit 0x1) in
  do! upd_header (set_payloadLen (zlen data)) in
  let! '(m, r) := random_bytes 4 in
  do! upd_header (set_mask (le_val m)) in
  if negb (r =? 4) then retS (-1, data) else
  let! failed := send_header in
  if negb (failed =? 0) then retS (-1, data) else
  let! h := getS wsHeader_ in
  let data := MaskPayload (mask h) data in
  let! failed := SendData data true in
  if negb (failed =? 0) then retS (-1, data) else
  retS (0, data).

(** ** Fragmented messages *)

Definition OnSendMsgBegin (binary : Z) : SM Z :=
  let! st := getS state_ in
  do! checkS (negb (bool_decide (st = CONNECTED))) "state_ != WSState::CONNECTED" in
  let! ss := getS sendState_ in
  if negb (bool_decide (ss = SEND_NONE)) then retS (-1) else
  do! updS (with_binaryMode_ binary) in
  do! updS (with_wsHeader_ zero_header) in
  do! upd_header (set_opcode (op (if binary =? 0 then TEXT_0X1 else BINARY_0X2))) in
  do! updS (with_sendState_ MESSAGE_BEGIN) in
  retS 0.

Definition in_send (ss : WSSendState) : bool :=
  bool_decide (ss = MESSAGE_BEGIN) || bool_decide (ss = IN_MESSAGE).

Definition OnMsgFrameDataBegin (datalen : Z) : SM Z :=
  let! ss := getS sendState_ in
  if negb (in_send ss) then retS (-1) else
  if WS_MAX_PAYLOAD_LEN <? datalen then retS (-1) else
  do! upd_header (set_maskBit 0x1) in
  do! upd_header (set_payloadLen datalen) in
  let! '(m, r) := random_bytes 4 in
  do! upd_header (set_mask (le_val m)) in
  if negb (r =? 4) then retS (-1) else
  do! (if bool_decide (ss = MESSAGE_BEGIN) then
         let! h := getS wsHeader_ in
         do! checkS ((opcode h =? op TEXT_0X1) || (opcode h =? op BINARY_0X2))
               "wsHeader_.opcode is TEXT_0X1 or BINARY_0X2" in
         updS (with_sendState_ IN_MESSAGE)
       else upd_header (set_opcode (op CONTINUATION_0X0))) in
  let! failed := send_header in
  if negb (failed =? 0) then retS (-1) else
  retS 0.

Definition OnMsgFrameDataSend (data : bytes) : SM (Z * bytes) :=
  let! ss := getS sendState_ in
  if negb (bool_decide (ss = IN_MESSAGE)) then retS (-1, data) else
  let! h := getS wsHeader_ in
  let data := if negb (maskBit h =? 0) then MaskPayload (mask h) data else data in
  let! failed := SendData data true in
  if negb (failed =? 0) then retS (-1, data) else
  retS (0, data).

(** [frame_data] is [None] for the null pointer. *)
Definition OnMsgFrameSend (frame_data : option bytes) (datalen : Z) : SM (Z * bytes) :=
  let data := default [] frame_data in
  do! checkS (bool_decide (is_Some frame_data) || (datalen =? 0))
        "frame_data || (!frame_data && (datalen == 0))" in
  let! st := getS state_ in
  do! checkS (negb (bool_decide (st = CONNECTED))) "state_ != WSState::CONNECTED" in
  let! ss := getS sendState_ in
  if negb (in_send ss) then retS (-1, data) else
  let! failed := OnMsgFrameDataBegin datalen in
  if negb (failed =? 0) then retS (-1, data) else
  let! '(failed, data) := OnMsgFrameDataSend data in
  if negb (failed =? 0) then retS (-1, data) else
  retS (0, data).

Definition OnSendMsgEnd : SM Z :=
  let! ss := getS sendState_ in
  if negb (bool_decide (ss = IN_MESSAGE)) then retS (-1) else
  do! upd_header (set_fin 0x1) in
  let! '(failed, _) := OnMsgFrameSend None 0 in
  if negb (failed =? 0) then retS (-1) else
  do! updS (with_sendState_ SEND_NONE) in
  retS 0.

(** The [do ... while (remaining > 0)] loop of [SendMsgEx]: [sent] is the part
    of the buffer before [msg], already masked.  Each turn takes at least one
    byte unless the message is empty, so [length msg + 1] turns are enough. *)
Fixpoint send_fragments (fuel : nat) (sent msg : bytes) : SM (Z * bytes) :=
  match fuel with
  | O => undefS "send_fragments: out of fuel"
  | S fuel' =>
      let! mx := getS maxFrameSize_ in
      let remaining := zlen msg in
      let curlen := if mx <? remaining then mx else remaining in
      let frame := take (Z.to_nat curlen) msg in
      let rest := drop (Z.to_nat curlen) msg in
      let! '(failed, frame) := OnMsgFrameSend (Some frame) curlen in
      if negb (failed =? 0) then retS (-1, sent ++ frame ++ rest) else
      if 0 <? zlen rest then send_fragments fuel' (sent ++ frame) rest
      else retS (0, sent ++ frame)
  end.

Definition SendMsgEx (msg : bytes) (binary : Z) : SM (Z * bytes) :=
  let! st := getS state_ in
  do! checkS (bool_decide (st = CONNECTED)) "state_ == WSState::CONNECTED" in
  let! mx := getS maxFrameSize_ in
  if (zlen msg <=? mx) || (mx =? 0) then
    SendFrameRaw (if binary =? 0 then TEXT_0X1 else BINARY_0X2) msg
  else
    let! failed := OnSendMsgBegin binary in
    if negb (failed =? 0) then retS (-1, msg) else
    let! '(failed, msg) := send_fragments (S (length msg)) [] msg in
    if negb (failed =? 0) then retS (-1, msg) else
    let! failed := OnSendMsgEnd in
    if negb (failed =? 0) then retS (-1, msg) else
    retS (0, msg).

(** [DoSendMsg(msg)]: the second result is the caller's string afterwards. *)
Definition DoSendMsg (msg : bytes) : SM (Z * bytes) := SendMsgEx msg 0.

(** ** Closing *)

Definition ShutDown : SM unit :=
  do! updS (with_connectTimeoutEvent_ false) in
  updS (with_bev_ false).

Definition SendClose (statusCode : Z) (reason : bytes) : SM Z :=
  if WS_IS_CLOSE_STATUS_NOT_USED statusCode then retS (-1) else
  if WS_CONTROL_MAX_PAYLOAD_LEN <? zlen reason + 2 then retS (-1) else
  let! '(failed, _) := SendFrameRaw CLOSE_0X8 (le_bytes 2 (htons (u16 statusCode)) ++ reason) in
  if negb (failed =? 0) then retS (-1) else
  retS 0.

(** What follows the label [fail]. *)
Definition close_fail : SM Z :=
  do! updS (with_closeTimeoutEvent_ false) in
  do! ShutDown in
  let! cb := getS onClose_ in
  do! whenS cb (happen (Close_cb ABNORMAL_1006)) in
  retS (-1).

Definition CloseWithStatusReason (status : Z) (reason : bytes) : SM Z :=
  do! updS (with_state_ CLOSING) in
  let! sent := getS sentCloseFlag_ in
  let! failed := (if negb sent then SendClose status reason else retS 0) in
  if negb (failed =? 0) then close_fail else
  do! updS (with_sentCloseFlag_ true) in
  let! no_timer := lib_call in
  do! updS (with_closeTimeoutEvent_ (negb no_timer)) in
  if (no_timer : bool) then close_fail else
  let! not_added := lib_call in
  if (not_added : bool) then close_fail else
  retS 0.

Definition CloseWithStatus (status : Z) : SM Z := CloseWithStatusReason status [].

Definition DoClose : SM Z := CloseWithStatusReason NORMAL_1000 [].

(** [OnCloseTimeout]. *)
Definition OnCloseTimeout : SM unit :=
  let! sent := getS sentCloseFlag_ in
  do! checkS sent "thiz->sentCloseFlag_" in
  ShutDown.

(** What a handler does with the session. *)
Definition api_call (c : ApiCall) : SM unit :=
  match c with
  | ApiSendMsg msg => let! _ := DoSendMsg msg in retS tt
  | ApiClose => let! _ := DoClose in retS tt
  end.

Definition run_handler (calls : list ApiCall) : SM unit := iterS api_call calls.

End ops.

(** ** The frame written by [SendFrameRaw] *)

Section spec.
Context {E : EvBuffer} (env : Env).

(** The masking key drawn in state [s]. *)
Definition frame_mask (s : SessionImplEV) : Z :=
  le_val (GetRandomMask (rand_s env) (rand_calls s) 4).1.1.

Definition frame_header (o : WSOpcode) (data : bytes) (s : SessionImplEV) : WSHeader :=
  mkWSHeader 1 0 0 0 (op o) 1 (zlen data mod 128) 0 (frame_mask s).

(** The bytes of the frame. *)
Definition frame_bytes (o : WSOpcode) (data : bytes) (s : SessionImplEV) : bytes :=
  wire_header (frame_header o data s) ++ MaskPayload (frame_mask s) data.

Definition sent_frame (o : WSOpcode) (data : bytes) (s : SessionImplEV) : SessionImplEV :=
  with_bev_output (evbuffer_add (evbuffer_add (bev_output s) (wire_header (frame_header o data s)))
                     (MaskPayload (frame_mask s) data))
    (with_lib_calls (S (S (lib_calls s)))
       (with_rand_calls (rand_calls s + 4)%nat
          (with_wsHeader_ (frame_header o data s) s))).

Lemma frame_mask_bound s : 0 <= frame_mask s < 2 ^ 32.
Proof.
  unfold frame_mask, GetRandomMask. cbn -[le_val]. 
  apply (le_val_bound (_ :: _ :: _ :: _ :: [])). repeat constructor; apply u8_byte.
Qed.

Lemma wf_frame_header o data s : wf_header (frame_header o data s).
Proof.
  unfold wf_header, frame_header. cbn -[Z.pow].
  pose proof (frame_mask_bound s). pose proof (Z.mod_pos_bound (zlen data) 128).
  destruct o; cbn -[Z.pow]; lia.
Qed.

(** The header as [SendFrameRaw] fills it, field by field. *)
Lemma frame_header_assigned o data s :
  set_mask (frame_mask s)
    (set_payloadLen (zlen data) (set_maskBit 1 (set_opcode (op o) (set_fin 1 zero_header))))
  = frame_header o data s.
Proof.
  unfold set_mask, u32. rewrite Z.mod_small by apply frame_mask_bound. by destruct o.
Qed.

(** [SendFrameRaw] after its guards: the header is in place. *)
Lemma SendFrameRaw_body o data s :
  sendState_ s = SEND_NONE ->
  IsControlOpcode (op o) && (125 <? zlen data) = false -> zlen data <= WS_MAX_PAYLOAD_LEN ->
  SendFrameRaw env o data s =
    (let! failed := send_header env in
     if negb (failed =? 0) then retS (-1, data) else
     let! h := getS wsHeader_ in
     let data := MaskPayload (mask h) data in
     let! failed := SendData env data true in
     if negb (failed =? 0) then retS (-1, data) else retS (0, data))
      (with_rand_calls (rand_calls s + 4)%nat (with_wsHeader_ (frame_header o data s) s)).
Proof.
  intros Hs Hc Hl. unfold SendFrameRaw, bindS, getS, updS, upd_header, random_bytes. simpl.
  rewrite Hs, Hc, bool_decide_true by done. simpl.
  replace (_ <? zlen data) with false by lia. simpl.
  change (le_val _) with (frame_mask s). rewrite frame_header_assigned. done.
Qed.

Context {EO : EnvOk env} {LO : LibOk env}.

Lemma SendData_ok msg nc s :
  bev_ s = true ->
  SendData env msg nc s =
    Ret (0, with_bev_output (evbuffer_add (bev_output s) msg) (with_lib_calls (S (lib_calls s)) s)).
Proof.
  intros Hb. unfold SendData, output_add, lib_call, bindS, getS. rewrite Hb. simpl.
  destruct (nc && _); simpl; by rewrite lib_never_fails.
Qed.

Lemma SendData_closed msg nc s : bev_ s = false -> SendData env msg nc s = Ret (-1, s).
Proof. intros Hb. unfold SendData, bindS, getS. by rewrite Hb. Qed.

Lemma send_header_ok s :
  bev_ s = true -> wf_header (wsHeader_ s) ->
  send_header env s =
    Ret (0, with_bev_output (evbuffer_add (bev_output s) (wire_header (wsHeader_ s)))
              (with_lib_calls (S (lib_calls s)) s)).
Proof.
  intros Hb Hwf. unfold send_header, bindS, getS, liftS.
  rewrite PackHeader_wire by (done || apply stack_junk_length).
  rewrite SendData_ok by done. unfold zlen. by rewrite Nat2Z.id, take_app_length.
Qed.

Lemma SendFrameRaw_sent o data s :
  bev_ s = true -> sendState_ s = SEND_NONE ->
  IsControlOpcode (op o) && (125 <? zlen data) = false -> zlen data <= WS_MAX_PAYLOAD_LEN ->
  SendFrameRaw env o data s = Ret ((0, MaskPayload (frame_mask s) data), sent_frame o data s).
Proof.
  intros Hb Hs Hc Hl. rewrite SendFrameRaw_body by done. unfold bindS.
  rewrite send_header_ok by (done || apply wf_frame_header). simpl. unfold bindS, getS.
  rewrite SendData_ok by done. simpl. unfold sent_frame. apply ret_state. ses_eq.
Qed.

End spec.

(** What sending a frame with opcode [c] may change: the header scratch area, the
    output buffer and the counters of the environment. *)
Definition sends {E : EvBuffer} (c : WSOpcode) (s s' : SessionImplEV) : Prop :=
  exists h o r l, (h = wsHeader_ s \/ (wf_header h /\ opcode h = op c)) /\
    s' = with_wsHeader_ h (with_bev_output o (with_rand_calls r (with_lib_calls l s))).

Section frame_condition.
Context {E : EvBuffer} (env : Env) {EO : EnvOk env}.

Lemma sends_refl c s : sends c s s.
Proof.
  exists (wsHeader_ s), (bev_output s), (rand_calls s), (lib_calls s). split; [by left|].
  by destruct s.
Qed.

Lemma sends_trans c s1 s2 s3 : sends c s1 s2 -> sends c s2 s3 -> sends c s1 s3.
Proof.
  intros (h & o & r & l & Hh & ->) (h' & o' & r' & l' & Hh' & ->).
  exists h', o', r', l'. split; [|done]. destruct Hh' as [->|]; [|by right]. exact Hh.
Qed.

Lemma sends_lib c s l : sends c s (with_lib_calls l s).
Proof. exists (wsHeader_ s), (bev_output s), (rand_calls s), l. split; [by left|]. by destruct s. Qed.

Lemma sends_output c s o : sends c s (with_bev_output o s).
Proof. exists (wsHeader_ s), o, (rand_calls s), (lib_calls s). split; [by left|]. by destruct s. Qed.

Lemma output_add_sends c msg s : wp (output_add env msg) (fun _ s' => sends c s s') s.
Proof.
  unfold output_add, lib_call, wp, bindS. destruct (lib_fails _ _); simpl.
  - apply sends_lib.
  - eapply sends_trans; [apply sends_lib|apply sends_output].
Qed.

Lemma SendData_sends c msg nc s :
  wp (SendData env msg nc) (fun r s' => (r = 0 \/ r = -1) /\ sends c s s') s.
Proof.
  unfold SendData. wp_steps; [by split; [right|apply sends_refl]|..];
    (eapply wp_mono; [apply (output_add_sends c)|]); intros failed s' Hs; wp_steps; auto.
Qed.

Lemma send_header_sends c s :
  wf_header (wsHeader_ s) ->
  wp (send_header env) (fun r s' => (r = 0 \/ r = -1) /\ sends c s s') s.
Proof.
  intros Hwf. unfold send_header. do 3 wp_step.
  eapply wp_lift; [apply PackHeader_wire; [exact Hwf|apply stack_junk_length]|].
  wp_step. apply SendData_sends.
Qed.

(** Whatever the library calls answer, [SendFrameRaw] returns 0 or -1. *)
Lemma SendFrameRaw_sends o data s :
  wp (SendFrameRaw env o data) (fun r s' => (r.1 = 0 \/ r.1 = -1) /\ sends o s s') s.
Proof.
  destruct (decide (sendState_ s = SEND_NONE)) as [Hs|Hs].
  2: { unfold SendFrameRaw. do 2 wp_step. rewrite bool_decide_false by done.
       simpl. wp_steps. auto using sends_refl. }
  destruct (IsControlOpcode (op o) && (125 <? zlen data)) eqn:Hc.
  { unfold SendFrameRaw. do 2 wp_step. rewrite bool_decide_true by done. rewrite Hc.
    simpl. wp_steps. auto using sends_refl. }
  destruct (decide (zlen data <= WS_MAX_PAYLOAD_LEN)) as [Hl|Hl].
  - eapply wp_eq; [by apply SendFrameRaw_body|]. set (s0 := with_rand_calls _ _).
    assert (sends o s s0) as H0.
    { exists (frame_header env o data s), (bev_output s), (rand_calls s + 4)%nat, (lib_calls s).
      split; [right; split; [apply wf_frame_header|reflexivity]|reflexivity]. }
    wp_step. eapply wp_mono; [apply (send_header_sends o), wf_frame_header|].
    intros r1 s1 [_ H1]. wp_steps; [split; [by right|by eapply sends_trans]|].
    eapply wp_mono; [apply (SendData_sends o)|]. intros r2 s2 [Hr H2].
    wp_steps; (split; [by auto|]); eapply sends_trans; eauto using sends_trans.
  - unfold SendFrameRaw, upd_header. do 2 wp_step. rewrite bool_decide_true by done. rewrite Hc.
    cbn [negb]. do 6 wp_step. replace (_ <? zlen data) with true by lia. wp_step.
    split; [by right|].
    exists (set_opcode (op o) (set_fin 1 zero_header)), (bev_output s), (rand_calls s), (lib_calls s).
    split; [right; destruct o; vm_compute; intuition congruence|reflexivity].
Qed.
End frame_condition.

(** What sending and closing may change, [P] holding of a new header. *)
Definition outward {E : EvBuffer} (P : WSHeader -> Prop) (s s' : SessionImplEV) : Prop :=
  exists h o rc lc st sc ct cn bv tr, (h = wsHeader_ s \/ (wf_header h /\ P h)) /\
    s' = with_wsHeader_ h (with_bev_output o (with_rand_calls rc (with_lib_calls lc
          (with_state_ st (with_sentCloseFlag_ sc (with_closeTimeoutEvent_ ct
            (with_connectTimeoutEvent_ cn (with_bev_ bv (with_trace tr s))))))))).

Section outward.
Context {E : EvBuffer}.

#[export] Instance outward_preorder P : PreOrder (outward P).
Proof.
  split.
  - intros s. exists (wsHeader_ s), (bev_output s), (rand_calls s), (lib_calls s), (state_ s),
      (sentCloseFlag_ s), (closeTimeoutEvent_ s), (connectTimeoutEvent_ s), (bev_ s), (trace s).
    split; [by left|]. destruct s. ses_eq.
  - intros s1 s2 s3 (h & o & rc & lc & st & sc & ct & cn & bv & tr & Hh & ->)
      (h' & o' & rc' & lc' & st' & sc' & ct' & cn' & bv' & tr' & Hh' & ->).
    exists h', o', rc', lc', st', sc', ct', cn', bv', tr'. split; [|ses_eq].
    destruct Hh' as [->|]; [exact Hh|by right].
Qed.

Lemma outward_mono (P Q : WSHeader -> Prop) s s' :
  (forall h, P h -> Q h) -> outward P s s' -> outward Q s s'.
Proof.
  intros H (h & o & rc & lc & st & sc & ct & cn & bv & tr & Hh & ->).
  do 10 eexists. split; [|reflexivity]. destruct Hh as [|[]]; auto.
Qed.

Lemma sends_outward c s s' : sends c s s' -> outward (fun h => opcode h = op c) s s'.
Proof.
  intros (h & o & r & l & Hh & ->). exists h, o, r, l, (state_ s), (sentCloseFlag_ s),
    (closeTimeoutEvent_ s), (connectTimeoutEvent_ s), (bev_ s), (trace s).
  split; [exact Hh|]. destruct s. ses_eq.
Qed.
End outward.

(** ** Closing, whatever fails *)

Ltac closing_done Hh :=
  split; [done|]; split; [first [by right | left; by split_and!]|];
  do 10 eexists; split; [exact Hh|ses_eq].

Section closing.
Context {E : EvBuffer} (env : Env) {EO : EnvOk env}.

Lemma SendClose_sends status reason s :
  wp (SendClose env status reason) (fun r s' => (r = 0 \/ r = -1) /\ sends CLOSE_0X8 s s') s.
Proof.
  unfold SendClose. wp_steps; [by auto using sends_refl..|].
  eapply wp_mono; [apply (SendFrameRaw_sends env)|]. intros [r d] s' [Hr Hs]. wp_steps; auto.
Qed.

(** The session after a failed closing. *)
Lemma lib_call_wp (Q : bool -> SessionImplEV -> Prop) s :
  (forall b, Q b (with_lib_calls (S (lib_calls s)) s)) -> wp (lib_call env) Q s.
Proof. intros H. apply H. Qed.

Lemma close_fail_wp (Q : Z -> SessionImplEV -> Prop) s :
  (forall t, Q (-1) (with_trace t (with_bev_ false (with_connectTimeoutEvent_ false
                      (with_closeTimeoutEvent_ false s))))) ->
  wp close_fail Q s.
Proof.
  intros H. unfold close_fail, ShutDown, happen. wp_steps; simpl.
  - pose proof (H (Close_cb ABNORMAL_1006 :: trace s)) as H'. ses_norm. exact H'.
  - pose proof (H (trace s)) as H'. revert H'. ses_norm. auto.
Qed.

Definition closed_or_closing (s0 : SessionImplEV) (r : Z) (s : SessionImplEV) : Prop :=
  state_ s = CLOSING /\
  (r = 0 /\ sentCloseFlag_ s = true /\ closeTimeoutEvent_ s = true /\ bev_ s = bev_ s0 \/
   r = -1 /\ closeTimeoutEvent_ s = false /\ bev_ s = false) /\
  outward (fun h => opcode h = op CLOSE_0X8) s0 s.

Lemma CloseWithStatusReason_wp status reason s :
  wp (CloseWithStatusReason env status reason) (closed_or_closing s) s.
Proof.
  unfold CloseWithStatusReason. do 5 wp_step.
  eapply (wp_mono _ (fun r s' => sends CLOSE_0X8 (with_state_ CLOSING s) s')).
  { wp_step; [|apply sends_refl]. eapply wp_mono; [apply SendClose_sends|]. naive_solver. }
  intros r s' (h & o & rc & l & Hh & ->).
  wp_step; [apply close_fail_wp; intros t; closing_done Hh|].
  do 3 wp_step. apply lib_call_wp. intros [].
  - do 2 wp_step. apply close_fail_wp. intros t. closing_done Hh.
  - do 3 wp_step. apply lib_call_wp. intros [].
    + apply close_fail_wp. intros t. closing_done Hh.
    + wp_step. closing_done Hh.
Qed.

Abbreviation any_header := (fun _ : WSHeader => True).

Lemma CloseWithStatusReason_moves U status reason :
  moves U (outward (fun h => opcode h = op CLOSE_0X8)) (CloseWithStatusReason env status reason).
Proof.
  intros s. apply wp_wlp. eapply wp_mono; [apply CloseWithStatusReason_wp|].
  intros r s' (_ & _ & H). exact H.
Qed.

Lemma SendMsgEx_moves U msg binary :
  moves U (outward any_header) (SendMsgEx env msg binary).
Proof.
  intros s. unfold SendMsgEx. do 3 wp_step. do 3 wp_step. wp_step.
  - apply wp_wlp. eapply wp_mono; [apply (SendFrameRaw_sends env)|]. intros r s' [_ Hs].
    eapply outward_mono; [|by apply sends_outward]. done.
  - unfold wlp, OnSendMsgBegin, bindS, getS.
    apply bool_decide_eq_true in H as ->. done.
Qed.

(** Whatever a handler does with the session. *)
Lemma run_handler_moves U calls : moves U (outward any_header) (run_handler env calls).
Proof.
  apply moves_iter; [apply _|]. intros [msg|]; simpl; moves_step.
  - apply SendMsgEx_moves.
  - moves_step.
  - intros s. eapply wlp_mono; [apply CloseWithStatusReason_moves|].
    intros r s'. by apply outward_mono.
  - moves_step.
Qed.
End closing.

(** ** The frame of RFC 6455

    Section 5.2 for a final frame with a mask: the opcode, the length in its
    shortest form, the key and the payload combined with it. *)
Definition rfc6455_length (n : Z) : bytes :=
  if n <=? 125 then [0x80 + n]
  else if n <? 65536 then [0x80 + 126; n / 256; n mod 256]
  else (0x80 + 127) :: rev (le_bytes 8 n).

Definition rfc6455_frame (opcode : Z) (key payload : bytes) : bytes :=
  [0x80 + opcode] ++ rfc6455_length (zlen payload) ++ key ++ rfc6455_mask key payload.

(** ** What a peer makes of the frames *)

(** The frame at the start of a byte stream, read as [UnpackHeader] and
    [UnmaskPayload] read it. *)
Definition peer_read (stream : bytes) : outcome (WSHeader * bytes) :=
  let? '(_, h, n) := UnpackHeader 0 stream (zlen stream) in
  Ret (h, UnmaskPayload (mask h)
            (take (Z.to_nat (payloadLen h)) (drop (Z.to_nat n) stream))).

Lemma take_MaskPayload k n m : take n (MaskPayload k m) = MaskPayload k (take n m).
Proof.
  apply list_eq. intros i. destruct (decide (i < n)%nat).
  - rewrite lookup_take_lt, !MaskPayload_lookup, lookup_take_lt by done. done.
  - rewrite lookup_take_ge, MaskPayload_lookup, lookup_take_ge by lia. done.
Qed.

Section peer.
Context {E : EvBuffer} {L : EvBufferLaws E} (env : Env) {EO : EnvOk env} {LO : LibOk env}.

Lemma contents_sent_frame o data s :
  contents (bev_output (sent_frame env o data s)) =
    contents (bev_output s) ++ frame_bytes env o data s.
Proof. simpl. unfold frame_bytes. by rewrite !add_law, app_assoc. Qed.

Lemma peer_read_frame o data s rest :
  peer_read (frame_bytes env o data s ++ rest) =
    Ret (frame_header env o data s, take (Z.to_nat (zlen data mod 128)) data).
Proof.
  unfold peer_read, frame_bytes. rewrite <- app_assoc.
  rewrite UnpackHeader_wire.
  - cbn [obind mask payloadLen frame_header]. unfold zlen at 2. rewrite Nat2Z.id, drop_app_length.
    rewrite take_app_le by
      (rewrite length_MaskPayload; pose proof (Z.mod_le (zlen data) 128 (zlen_nonneg _));
       pose proof (Z.mod_pos_bound (zlen data) 128); unfold zlen in *; lia).
    rewrite take_MaskPayload. unfold UnmaskPayload. by rewrite MaskPayload_involutive.
  - apply wf_frame_header.
  - done.
  - rewrite zlen_app. pose proof (zlen_nonneg (MaskPayload (frame_mask env s) data ++ rest)). lia.
Qed.

(** The four octets drawn for the key of the next frame. *)
Definition fresh_key (s : SessionImplEV) : bytes :=
  (fun i => u8 (rand_s env (rand_calls s + i)%nat)) <$> seq 0 4.

Lemma frame_mask_key s : le_bytes 4 (frame_mask env s) = fresh_key s.
Proof. apply (le_bytes_val (fresh_key s)). apply Forall_fmap, Forall_true. intros. apply u8_byte. Qed.

Lemma masked_payload data s : MaskPayload (frame_mask env s) data = rfc6455_mask (fresh_key s) data.
Proof. by rewrite MaskPayload_rfc6455, frame_mask_key. Qed.

(** Up to 127 bytes the frame written is that of the standard. *)
Lemma frame_bytes_rfc6455 o data s :
  zlen data <= 127 -> frame_bytes env o data s = rfc6455_frame (op o) (fresh_key s) data.
Proof.
  intros Hl. pose proof (zlen_nonneg data). unfold frame_bytes, rfc6455_frame, rfc6455_length, wire_header.
  rewrite masked_payload. cbn [frame_header payloadLen maskBit mask].
  rewrite frame_mask_key, Z.mod_small by lia. change (1 =? 0) with false. cbn iota.
  assert (first_byte (frame_header env o data s) = 0x80 + op o) as ->
    by (unfold first_byte; cbn [frame_header fin rsv1 rsv2 rsv3 opcode]; lia).
  rewrite <- !app_assoc. do 2 f_equal. replace (zlen data <? 65536) with true by lia.
  by destruct (zlen data <=? 125).
Qed.

(** *** What has been written when a library call fails *)

(** The output with [part] added, and the fields that decide what is sent next. *)
Definition wrote (part : bytes) (s s' : SessionImplEV) : Prop :=
  contents (bev_output s') = contents (bev_output s) ++ part /\
  wsHeader_ s' = wsHeader_ s /\ bev_ s' = bev_ s /\ trace s' = trace s /\ onClose_ s' = onClose_ s.

Lemma wrote_nil s : wrote [] s s.
Proof. unfold wrote. by rewrite app_nil_r. Qed.

Lemma SendData_wrote msg nc s :
  wp (SendData env msg nc) (fun r s' => r = 0 /\ wrote msg s s' \/ r = -1 /\ wrote [] s s') s.
Proof.
  unfold SendData, output_add, lib_call. wp_steps; [right; split; [done|apply wrote_nil]|..];
    unfold wp, bindS; destruct (lib_fails _ _); simpl;
    [right|left|right|left]; split; try done; unfold wrote; simpl; by rewrite ?add_law, ?app_nil_r.
Qed.

Lemma send_header_wrote s :
  wf_header (wsHeader_ s) ->
  wp (send_header env)
    (fun r s' => r = 0 /\ wrote (wire_header (wsHeader_ s)) s s' \/ r = -1 /\ wrote [] s s') s.
Proof.
  intros Hwf. unfold send_header. do 3 wp_step.
  eapply wp_lift; [apply PackHeader_wire; [exact Hwf|apply stack_junk_length]|].
  cbn iota beta. unfold zlen. rewrite Nat2Z.id, take_app_length. apply SendData_wrote.
Qed.

(** A frame is written whole, or the answer is -1 and a part of it is. *)
Definition frame_written (frame : bytes) (r : Z) (s s' : SessionImplEV) : Prop :=
  exists part, contents (bev_output s') = contents (bev_output s) ++ part /\
    part `prefix_of` frame /\ (r = 0 /\ part = frame /\ sendState_ s = SEND_NONE \/ r = -1) /\
    trace s' = trace s /\ onClose_ s' = onClose_ s.

Lemma frame_unwritten frame s s' :
  bev_output s' = bev_output s -> trace s' = trace s -> onClose_ s' = onClose_ s ->
  frame_written frame (-1) s s'.
Proof.
  intros Ho Ht Hc. exists []. rewrite app_nil_r, Ho. split_and!; try done; [apply prefix_nil|by right].
Qed.

Lemma SendFrameRaw_wrote o data s :
  zlen data <= 127 ->
  wp (SendFrameRaw env o data)
     (fun r s' => frame_written (rfc6455_frame (op o) (fresh_key s) data) r.1 s s') s.
Proof.
  intros Hl. destruct (decide (sendState_ s = SEND_NONE)) as [Hs|Hs].
  2: { unfold SendFrameRaw. do 2 wp_step. rewrite bool_decide_false by done.
       simpl. wp_step. by apply frame_unwritten. }
  destruct (IsControlOpcode (op o) && (125 <? zlen data)) eqn:Hc.
  { unfold SendFrameRaw. do 2 wp_step. rewrite bool_decide_true by done. rewrite Hc.
    simpl. wp_step. by apply frame_unwritten. }
  eapply wp_eq; [apply SendFrameRaw_body; try done; unfold WS_MAX_PAYLOAD_LEN; lia|].
  rewrite <- frame_bytes_rfc6455 by done. unfold frame_bytes.
  set (h := frame_header env o data s). set (masked := MaskPayload (frame_mask env s) data).
  set (s0 := with_rand_calls _ _).
  assert (wrote [] s0 s0 /\ wsHeader_ s0 = h /\ bev_output s0 = bev_output s /\ trace s0 = trace s /\
          onClose_ s0 = onClose_ s) as (_ & Hw0 & Ho0 & Ht0 & Hn0) by (split; [apply wrote_nil|done]).
  clearbody s0. wp_step.
  eapply wp_mono; [apply send_header_wrote; rewrite Hw0; apply wf_frame_header|].
  intros r1 s1 [[-> (Ho1 & Hw1 & Hb1 & Ht1 & Hn1)]|[-> (Ho1 & Hw1 & Hb1 & Ht1 & Hn1)]]; cbn [negb Z.eqb].
  2: { wp_step. exists []. rewrite Ho1, Ho0. split_and!; try congruence; [apply prefix_nil|by right]. }
  do 3 wp_step. rewrite Hw1, Hw0. change (MaskPayload (mask h) data) with masked.
  eapply wp_mono; [apply SendData_wrote|].
  intros r2 s2 [[-> (Ho2 & Hw2 & Hb2 & Ht2 & Hn2)]|[-> (Ho2 & Hw2 & Hb2 & Ht2 & Hn2)]]; cbn [negb Z.eqb]; wp_step.
  - exists (wire_header h ++ masked). rewrite Ho2, Ho1, Ho0, Hw0, app_assoc.
    split_and!; try congruence; try done. by left.
  - exists (wire_header h). rewrite Ho2, Ho1, Ho0, Hw0, app_nil_r.
    split_and!; try congruence; try done; [by apply prefix_app_r|by right].
Qed.

Lemma DoSendMsg_sent msg s :
  bev_ s = true -> state_ s = CONNECTED -> sendState_ s = SEND_NONE -> maxFrameSize_ s = 0 ->
  zlen msg <= WS_MAX_PAYLOAD_LEN ->
  DoSendMsg env msg s =
    Ret ((0, MaskPayload (frame_mask env s) msg), sent_frame env TEXT_0X1 msg s).
Proof.
  intros Hb Hst Hs Hm Hl. unfold DoSendMsg, SendMsgEx, bindS, getS. rewrite Hst. simpl.
  rewrite Hm. rewrite orb_true_r. by rewrite SendFrameRaw_sent.
Qed.

(** The frame [SendClose] writes. *)
Definition close_payload (status : Z) (reason : bytes) : bytes :=
  le_bytes 2 (htons (u16 status)) ++ reason.

Lemma SendClose_sent status reason s :
  bev_ s = true -> sendState_ s = SEND_NONE ->
  WS_IS_CLOSE_STATUS_NOT_USED status = false -> zlen reason <= 123 ->
  SendClose env status reason s =
    Ret (0, sent_frame env CLOSE_0X8 (close_payload status reason) s).
Proof.
  intros Hb Hs Hu Hr. unfold SendClose, WS_CONTROL_MAX_PAYLOAD_LEN. rewrite Hu.
  replace (125 <? zlen reason + 2) with false by lia. unfold bindS.
  assert (zlen (close_payload status reason) = 2 + zlen reason) as Hz
    by (unfold close_payload; by rewrite zlen_app).
  fold (close_payload status reason). unfold WS_MAX_PAYLOAD_LEN.
  rewrite SendFrameRaw_sent; [done|done|done|done|done| |]; rewrite Hz;
    [replace (125 <? _) with false by lia; done|unfold WS_MAX_PAYLOAD_LEN; lia].
Qed.

Lemma close_payload_status status reason :
  0 <= status < 65536 ->
  close_payload status reason = status / 256 :: status mod 256 :: reason.
Proof.
  intros H. unfold close_payload, htons, u16. cbn [le_bytes app].
  rewrite (Z.mod_small status) by lia. f_equal; [|f_equal]; Z.div_mod_to_equations; lia.
Qed.

(** The close frame of RFC 6455: the status in network byte order and the reason. *)
Definition close_frame (status : Z) (reason : bytes) (s : SessionImplEV) : bytes :=
  rfc6455_frame 8 (fresh_key s) (status / 256 :: status mod 256 :: reason).

Lemma SendClose_wrote status reason s :
  wp (SendClose env status reason)
     (fun r s' => frame_written (close_frame status reason s) r s s' /\
        (r = 0 -> 1000 <= status <= 4999 /\ zlen reason <= 123)) s.
Proof.
  unfold SendClose, WS_IS_CLOSE_STATUS_NOT_USED, WS_CONTROL_MAX_PAYLOAD_LEN.
  destruct (_ || _) eqn:H1; [wp_step; split; [by apply frame_unwritten|done]|].
  destruct (125 <? _) eqn:H2; [wp_step; split; [by apply frame_unwritten|done]|].
  fold (close_payload status reason). rewrite close_payload_status by lia. wp_step.
  eapply wp_mono; [apply SendFrameRaw_wrote; rewrite !zlen_cons; lia|].
  intros [r d] s' Hw. cbn [fst] in Hw.
  change (rfc6455_frame (op CLOSE_0X8) _ _) with (close_frame status reason s) in Hw.
  wp_step; wp_step; split; try done; try lia.
  - destruct Hw as (part & ? & ? & _ & ? & ?). exists part. split_and!; try done. by right.
  - by assert (r = 0) as -> by lia.
Qed.

(** The part of the close frame that has been written when the answer is [r]. *)
Definition close_written (status : Z) (reason : bytes) (s : SessionImplEV) (r : Z)
  (s' : SessionImplEV) : Prop :=
  exists part, contents (bev_output s') = contents (bev_output s) ++ part /\
    part `prefix_of` close_frame status reason s /\
    trace s' = trace s /\ onClose_ s' = onClose_ s /\
    (r = 0 -> if sentCloseFlag_ s then part = []
              else part = close_frame status reason s /\ sendState_ s = SEND_NONE /\
                   1000 <= status <= 4999 /\ zlen reason <= 123).

(** Closing, by what it has written and told when it returns. *)
Definition closing_outcome (status : Z) (reason : bytes) (s : SessionImplEV) (r : Z)
  (s' : SessionImplEV) : Prop :=
  exists part, contents (bev_output s') = contents (bev_output s) ++ part /\
    part `prefix_of` close_frame status reason s /\
    (r = 0 /\ trace s' = trace s /\
       (if sentCloseFlag_ s then part = []
        else part = close_frame status reason s /\ sendState_ s = SEND_NONE /\
             1000 <= status <= 4999 /\ zlen reason <= 123) \/
     r = -1 /\ trace s' = (if onClose_ s then [Close_cb ABNORMAL_1006] else []) ++ trace s).

Lemma close_fail_told (Q : Z -> SessionImplEV -> Prop) s :
  (forall s', bev_output s' = bev_output s ->
     trace s' = (if onClose_ s then [Close_cb ABNORMAL_1006] else []) ++ trace s -> Q (-1) s') ->
  wp close_fail Q s.
Proof.
  intros H. unfold close_fail, ShutDown, happen, wp, bindS, updS, getS, whenS. ses_simpl.
  change (onClose_ (with_bev_ _ _)) with (onClose_ s).
  destruct (onClose_ s) eqn:Ec; apply H; try done; by rewrite Ec.
Qed.

Lemma close_failed status reason r0 s s1 :
  close_written status reason s r0 s1 -> wp close_fail (closing_outcome status reason s) s1.
Proof.
  intros (part & Ho & Hp & Ht & Hn & _). apply close_fail_told. intros s' Ho' Ht'.
  exists part. split_and!; [congruence|done|]. right. split; [done|]. by rewrite Ht', Ht, Hn.
Qed.

Lemma close_written_first status reason s :
  wp (if negb (sentCloseFlag_ s) then SendClose env status reason else retS 0)
    (close_written status reason s) (with_state_ CLOSING s).
Proof.
  unfold close_written. destruct (sentCloseFlag_ s) eqn:Hs; cbn [negb].
  - wp_step. exists []. rewrite app_nil_r. split_and!; try done. apply prefix_nil.
  - eapply wp_mono; [apply SendClose_wrote|]. intros r s' [(part & ? & ? & Hc & ? & ?) Hr].
    exists part. split_and!; try done. intros Hr0. split_and!; try by apply Hr.
    all: destruct Hc as [(_ & ? & ?)|?]; [done|lia].
Qed.

Lemma CloseWithStatusReason_told status reason s :
  wp (CloseWithStatusReason env status reason) (closing_outcome status reason s) s.
Proof.
  unfold CloseWithStatusReason. do 5 wp_step.
  change (sentCloseFlag_ (with_state_ CLOSING s)) with (sentCloseFlag_ s).
  eapply wp_mono; [apply close_written_first|]. intros r s1 Hw.
  wp_step; [by eapply close_failed|]. assert (r = 0) as -> by lia.
  do 3 wp_step. apply lib_call_wp. intros b.
  do 2 wp_step. destruct b.
  { eapply close_failed. exact Hw. }
  wp_step. apply lib_call_wp. intros []; [eapply close_failed; exact Hw|].
  wp_step. destruct Hw as (part & Ho & Hp & Ht & Hn & Hr). exists part. split_and!; try done.
  left. split_and!; try done. by apply Hr.
Qed.

(** A whole closing with nothing failing. *)
Lemma CloseWithStatusReason_sent status reason s :
  bev_ s = true -> sendState_ s = SEND_NONE -> sentCloseFlag_ s = false ->
  WS_IS_CLOSE_STATUS_NOT_USED status = false -> zlen reason <= 123 ->
  CloseWithStatusReason env status reason s =
    Ret (0, with_closeTimeoutEvent_ true (with_sentCloseFlag_ true
         (with_lib_calls (4 + lib_calls s)%nat
           (sent_frame env CLOSE_0X8 (close_payload status reason) (with_state_ CLOSING s))))).
Proof.
  intros Hb Hs Hf Hu Hr. unfold CloseWithStatusReason, bindS, updS, getS. simpl. rewrite Hf. simpl.
  rewrite SendClose_sent by done. simpl. unfold lib_call. rewrite !lib_never_fails. simpl.
  unfold sent_frame. apply ret_state. ses_eq.
Qed.

Lemma CloseWithStatusReason_again status reason s :
  sentCloseFlag_ s = true ->
  CloseWithStatusReason env status reason s =
    Ret (0, with_closeTimeoutEvent_ true (with_lib_calls (2 + lib_calls s)%nat
              (with_state_ CLOSING s))).
Proof.
  intros Hf. unfold CloseWithStatusReason, bindS, updS, getS. simpl. rewrite Hf. simpl.
  unfold lib_call. rewrite !lib_never_fails. simpl.
  apply ret_state. destruct s; simpl in *; subst. ses_eq.
Qed.

End peer.

(** ** Theorems *)

(** A connected session on list buffers. *)
Definition open_session : @SessionImplEV ListEvBuffer :=
  with_connectState_ HANDSHAKE_COMPLETE (with_bev_ true (with_state_ CONNECTED new_session)).

Section theorems.
Context {E : EvBuffer} {L : EvBufferLaws E} (env : Env).

(** C13: on a connected session [DoSendMsg] of a message of at most 127 bytes
    returns 0, draws four octets for a key and appends to the output exactly the
    masked text frame of RFC 6455 with that key: 0x81, the length in its shortest
    form, the key, and octet i of the message combined with octet i mod 4 of the
    key; a peer that reads as this program does finds the message in it, whatever
    follows, and the caller's string is left masked. *)
Theorem DoSendMsg_delivers (msg : bytes) (s : SessionImplEV) :
  EnvOk env -> LibOk env ->
  bev_ s = true -> state_ s = CONNECTED -> sendState_ s = SEND_NONE -> maxFrameSize_ s = 0 ->
  zlen msg <= 127 ->
  let key := (fun i => u8 (rand_s env (rand_calls s + i)%nat)) <$> seq 0 4 in
  exists s', DoSendMsg env msg s = Ret ((0, rfc6455_mask key msg), s') /\
    contents (bev_output s') = contents (bev_output s) ++ rfc6455_frame 1 key msg /\
    rand_calls s' = (rand_calls s + 4)%nat /\
    forall rest, exists h, peer_read (rfc6455_frame 1 key msg ++ rest) = Ret (h, msg) /\
      fin h = 1 /\ opcode h = op TEXT_0X1 /\ maskBit h = 1 /\ payloadLen h = zlen msg.
Proof.
  intros EO LO Hb Hst Hs Hm Hl key. pose proof (zlen_nonneg msg).
  change key with (fresh_key env s). rewrite <- masked_payload.
  change 1 with (op TEXT_0X1). rewrite <- frame_bytes_rfc6455 by done.
  eexists. split; [apply DoSendMsg_sent; try done; unfold WS_MAX_PAYLOAD_LEN; lia|].
  split; [apply contents_sent_frame|]. split; [done|]. intros rest.
  exists (frame_header env TEXT_0X1 msg s). rewrite peer_read_frame.
  cbn [fin opcode maskBit payloadLen frame_header]. rewrite Z.mod_small by lia.
  split; [|by split_and!]. do 2 f_equal. apply take_ge. unfold zlen. lia.
Qed.

(** a message of 128 bytes or more is announced with its length modulo 128
    (the length field of the header struct has seven bits), so the peer takes
    only a prefix of it for the message and the rest for further frames. *)
Theorem DoSendMsg_long_truncated (msg : bytes) (s : SessionImplEV) :
  EnvOk env -> LibOk env ->
  bev_ s = true -> state_ s = CONNECTED -> sendState_ s = SEND_NONE -> maxFrameSize_ s = 0 ->
  128 <= zlen msg <= WS_MAX_PAYLOAD_LEN ->
  exists key s' frame h,
    DoSendMsg env msg s = Ret ((0, MaskPayload key msg), s') /\
    contents (bev_output s') = contents (bev_output s) ++ frame /\
    peer_read frame = Ret (h, take (Z.to_nat (zlen msg mod 128)) msg) /\
    payloadLen h < zlen msg.
Proof.
  intros EO LO Hb Hst Hs Hm Hl.
  eexists _, _, _, _. split; [apply DoSendMsg_sent; try done; lia|].
  split; [apply contents_sent_frame|]. rewrite <- (app_nil_r (frame_bytes _ _ _ _)).
  split; [apply peer_read_frame|]. cbn. pose proof (Z.mod_pos_bound (zlen msg) 128). lia.
Qed.

(** a session that would fragment (a maximal frame size is set and the
    message is longer) never sends: the check at the start of [OnSendMsgBegin]
    is the negation of the one [SendMsgEx] has just made, so the process is
    killed. *)
Theorem SendMsgEx_fragment_killed (msg : bytes) (binary : Z) (s : SessionImplEV) :
  state_ s = CONNECTED -> 0 < maxFrameSize_ s < zlen msg ->
  SendMsgEx env msg binary s = Killed "state_ != WSState::CONNECTED".
Proof.
  intros Hst Hm. unfold SendMsgEx, OnSendMsgBegin, bindS, getS. rewrite Hst. simpl.
  replace (zlen msg <=? _) with false by lia. replace (_ =? 0) with false by lia. simpl.
  by rewrite Hst.
Qed.

(** [SendClose] refuses a status outside 1000..4999 or a reason of more than
    123 bytes without touching the session; otherwise the frame it appends is
    read by a peer as a final close frame whose payload is the status in network
    byte order and the reason. *)
Theorem SendClose_format (status : Z) (reason : bytes) (s : SessionImplEV) :
  EnvOk env -> LibOk env -> bev_ s = true -> sendState_ s = SEND_NONE ->
  if (1000 <=? status) && (status <=? 4999) && (zlen reason <=? 123) then
    exists s' frame h,
      SendClose env status reason s = Ret (0, s') /\
      contents (bev_output s') = contents (bev_output s) ++ frame /\
      peer_read frame = Ret (h, status / 256 :: status mod 256 :: reason) /\
      fin h = 1 /\ opcode h = op CLOSE_0X8
  else SendClose env status reason s = Ret (-1, s).
Proof.
  intros EO LO Hb Hs. case_match eqn:Hc.
  - assert (0 <= status < 65536) as Hst by lia. pose proof (close_payload_status status reason Hst) as Hp.
    eexists _, _, (frame_header env CLOSE_0X8 (close_payload status reason) s).
    split; [apply SendClose_sent; try done; unfold WS_IS_CLOSE_STATUS_NOT_USED; lia|].
    split; [apply contents_sent_frame|]. rewrite <- (app_nil_r (frame_bytes _ _ _ _)).
    split; [|by split_and!]. rewrite peer_read_frame, Hp. do 2 f_equal. apply take_ge.
    autorewrite with cpp. pose proof (zlen_nonneg reason).
    rewrite (Z.mod_small (1 + _)) by lia. cbn [length]. unfold zlen. lia.
  - unfold SendClose, WS_IS_CLOSE_STATUS_NOT_USED, WS_CONTROL_MAX_PAYLOAD_LEN.
    destruct ((status <? 1000) || (4999 <? status)) eqn:H1; [done|].
    by replace (125 <? zlen reason + 2) with true by lia.
Qed.

(** C21: closing always ends in one of two ways, whatever library call fails.
    Either 0 is returned: the close frame of RFC 6455 with this status and reason
    has been appended to the output, masked with a fresh key (nothing, when a
    close frame was sent before), it is marked as sent and the close timer runs.
    Or -1 is returned: the connection is shut down, no timer runs, a close
    handler that is set has been told 1006 once, and at most a part of that frame
    is in the output.  The state is CLOSING in both cases. *)
Theorem CloseWithStatusReason_outcome (status : Z) (reason : bytes) (s : SessionImplEV) :
  EnvOk env ->
  let key := (fun i => u8 (rand_s env (rand_calls s + i)%nat)) <$> seq 0 4 in
  let frame := rfc6455_frame 8 key (status / 256 :: status mod 256 :: reason) in
  exists r s' part, CloseWithStatusReason env status reason s = Ret (r, s') /\
    state_ s' = CLOSING /\ contents (bev_output s') = contents (bev_output s) ++ part /\
    (r = 0 /\ sentCloseFlag_ s' = true /\ closeTimeoutEvent_ s' = true /\ bev_ s' = bev_ s /\
       trace s' = trace s /\
       (if sentCloseFlag_ s then part = []
        else part = frame /\ 1000 <= status <= 4999 /\ zlen reason <= 123) \/
     r = -1 /\ closeTimeoutEvent_ s' = false /\ bev_ s' = false /\ part `prefix_of` frame /\
       trace s' = (if onClose_ s then [Close_cb ABNORMAL_1006] else []) ++ trace s).
Proof.
  intros EO key frame. pose proof (CloseWithStatusReason_told env status reason s) as Ht.
  pose proof (CloseWithStatusReason_wp env status reason s) as Hw.
  apply wp_run in Ht as (r & s' & Hr & part & Ho & Hp & Ht). unfold wp in Hw. rewrite Hr in Hw.
  destruct Hw as (Hst & Hw & _). change (close_frame env status reason s) with frame in *.
  exists r, s', part. split_and!; [done..|].
  destruct Ht as [(-> & Ht & Hpart)|(-> & Ht)]; [left|right].
  - destruct Hw as [(_ & ? & ? & ?)|(? & _)]; [|done]. split_and!; try done.
    destruct (sentCloseFlag_ s); [done|]. by destruct Hpart as (? & _ & ? & ?).
  - destruct Hw as [(? & _)|(_ & ? & ?)]; [done|]. by split_and!.
Qed.

(** one close frame at most: once a closing has succeeded, closing again
    with any status and reason succeeds and writes nothing. *)
Theorem close_frame_once (status status' : Z) (reason reason' : bytes) (s s1 : SessionImplEV) :
  LibOk env -> CloseWithStatusReason env status reason s = Ret (0, s1) -> EnvOk env ->
  exists s2, CloseWithStatusReason env status' reason' s1 = Ret (0, s2) /\
    bev_output s2 = bev_output s1.
Proof.
  intros LO H1 EO. eexists. split; [apply CloseWithStatusReason_again; [done|]|done].
  pose proof (CloseWithStatusReason_wp env status reason s) as Hw. unfold wp in Hw.
  rewrite H1 in Hw. by destruct Hw as (_ & [(_ & ? & _)|(? & _)] & _).
Qed.

End theorems.

Lemma DoSendMsg_delivers_witness :
  let key := (fun i => u8 (rand_s sample_env (0 + i)%nat)) <$> seq 0 4 in
  exists s', DoSendMsg sample_env (str "hello") open_session = Ret ((0, rfc6455_mask key (str "hello")), s') /\
    contents (bev_output s') =
      contents (bev_output open_session) ++ rfc6455_frame 1 key (str "hello") /\
    rand_calls s' = (rand_calls open_session + 4)%nat /\
    forall rest, exists h, peer_read (rfc6455_frame 1 key (str "hello") ++ rest) = Ret (h, str "hello") /\
      fin h = 1 /\ opcode h = op TEXT_0X1 /\ maskBit h = 1 /\ payloadLen h = zlen (str "hello").
Proof.
  apply (DoSendMsg_delivers sample_env (str "hello") open_session);
    solve [apply sample_env_ok | apply sample_lib_ok | reflexivity | vm_compute; discriminate].
Defined.

Lemma DoSendMsg_long_truncated_witness :
  exists key s' frame h,
    DoSendMsg sample_env (replicate 200 65) open_session =
      Ret ((0, MaskPayload key (replicate 200 65)), s') /\
    contents (bev_output s') = contents (bev_output open_session) ++ frame /\
    peer_read frame = Ret (h, take (Z.to_nat (zlen (replicate 200 65) mod 128)) (replicate 200 65)) /\
    payloadLen h < zlen (replicate 200 65).
Proof.
  apply (DoSendMsg_long_truncated sample_env (replicate 200 65) open_session);
    solve [apply sample_env_ok | apply sample_lib_ok | reflexivity
          | vm_compute; split; discriminate].
Defined.

Lemma SendMsgEx_fragment_killed_witness :
  SendMsgEx sample_env (str "hello") 0 (with_maxFrameSize_ 2 open_session) =
    Killed "state_ != WSState::CONNECTED".
Proof.
  apply (SendMsgEx_fragment_killed sample_env (str "hello") 0 (with_maxFrameSize_ 2 open_session));
    [reflexivity|vm_compute; split; reflexivity].
Defined.

Lemma SendClose_format_witness :
  exists s' frame h,
    SendClose sample_env 1001 (str "bye") open_session = Ret (0, s') /\
    contents (bev_output s') = contents (bev_output open_session) ++ frame /\
    peer_read frame = Ret (h, 1001 / 256 :: 1001 mod 256 :: str "bye") /\
    fin h = 1 /\ opcode h = op CLOSE_0X8.
Proof.
  apply (SendClose_format sample_env 1001 (str "bye") open_session);
    solve [apply sample_env_ok | apply sample_lib_ok | reflexivity].
Defined.

Lemma CloseWithStatusReason_outcome_witness :
  let key := (fun i => u8 (rand_s sample_env (0 + i)%nat)) <$> seq 0 4 in
  let frame := rfc6455_frame 8 key (1000 / 256 :: 1000 mod 256 :: str "bye") in
  exists r s' part, CloseWithStatusReason sample_env 1000 (str "bye") open_session = Ret (r, s') /\
    state_ s' = CLOSING /\ contents (bev_output s') = contents (bev_output open_session) ++ part /\
    (r = 0 /\ sentCloseFlag_ s' = true /\ closeTimeoutEvent_ s' = true /\
       bev_ s' = bev_ open_session /\ trace s' = trace open_session /\
       (if sentCloseFlag_ open_session then part = []
        else part = frame /\ 1000 <= 1000 <= 4999 /\ zlen (str "bye") <= 123) \/
     r = -1 /\ closeTimeoutEvent_ s' = false /\ bev_ s' = false /\ part `prefix_of` frame /\
       trace s' = (if onClose_ open_session then [Close_cb ABNORMAL_1006] else [])
                    ++ trace open_session).
Proof. apply (CloseWithStatusReason_outcome sample_env 1000 (str "bye") open_session), sample_env_ok. Defined.

Lemma close_frame_once_witness :
  exists s1, CloseWithStatusReason sample_env 1000 [] open_session = Ret (0, s1) /\
  exists s2, CloseWithStatusReason sample_env 1002 (str "again") s1 = Ret (0, s2) /\
    bev_output s2 = bev_output s1.
Proof.
  eexists. split; [vm_compute; reflexivity|].
  apply (close_frame_once sample_env 1000 1002 [] (str "again") open_session).
  - apply sample_lib_ok.
  - vm_compute. reflexivity.
  - apply sample_env_ok.
Defined.
