(* ===== verification/WsHandshake.v ===== *)
(** * The opening handshake: implement/ev/session_impl_ev.cpp

    The request the client sends and the reading of the server's reply, a line
    at a time, with what [std::getline], [operator>>] and [sscanf] do on it. *)

From stdpp Require Import base list numbers strings sets.
From Stdlib Require Import ZArith Lia.
From S2P Require Import Prelude Base64 WsTypes WsHeader Libevent HttpHeader WsState WsSend.

(** ** Library functions used on a line *)

(** [CompareStrIgnoreCase]: [std::equal] on two ranges with their ends. *)
Fixpoint CompareStrIgnoreCase (a b : bytes) : bool :=
  match a, b with
  | [], [] => true
  | x :: a', y :: b' => (tolower x =? tolower y) && CompareStrIgnoreCase a' b'
  | _, _ => false
  end.

(** [std::getline(iss, key, c)]: the characters before [c] and, when [c] was
    found, what follows it. *)
Fixpoint getline (c : Z) (s : bytes) : bytes * option bytes :=
  match s with
  | [] => ([], None)
  | x :: s' => if x =? c then ([], Some s') else
               let '(k, r) := getline c s' in (x :: k, r)
  end.

Fixpoint token (s : bytes) : bytes :=
  match s with
  | x :: s' => if isspace x then [] else x :: token s'
  | [] => []
  end.

(** [iss >> val]: a failing extraction leaves [val] as it was. *)
Definition extract (rest : option bytes) (val : bytes) : bytes :=
  match rest with
  | None => val
  | Some r => match skip_ws r with
              | [] => val
              | r' => token r'
              end
  end.

(** Literal characters of the format. *)
Fixpoint scan_lit (lit s : bytes) : option bytes :=
  match lit, s with
  | [], _ => Some s
  | c :: lit', x :: s' => if x =? c then scan_lit lit' s' else None
  | _ :: _, [] => None
  end.

Definition in_int (v : Z) : bool := (- 2 ^ 31 <=? v) && (v <? 2 ^ 31).

(** ** The operations *)

(** [ParseHttpStatus]: the version and the status when it returns 0.  A number
    that does not fit an [int] is undefined in [sscanf]. *)
Definition ParseHttpStatus (line : bytes) : outcome (option (Z * Z * Z)) :=
  let line := cstr line in
  match scan_lit (str "HTTP/") line with
  | None => Ret None
  | Some s1 =>
  match scan_int s1 with
  | None => Ret None
  | Some (major, s2) =>
  if negb (in_int major) then Undef "sscanf: integer out of range" else
  match scan_lit (str ".") s2 with
  | None => Ret None
  | Some s3 =>
  match scan_int s3 with
  | None => Ret None
  | Some (minor, s4) =>
  if negb (in_int minor) then Undef "sscanf: integer out of range" else
  match scan_int (skip_ws s4) with
  | None => Ret None
  | Some (status, _) =>
  if negb (in_int status) then Undef "sscanf: integer out of range" else
  Ret (Some (major, minor, status))
  end end end end end.

Section ops.
Context {E : EvBuffer} (env : Env).

Abbreviation SM := (M SessionImplEV).

(** [evbuffer_add_printf] on the output buffer; its result is not checked. *)
Definition out_printf (text : bytes) : SM unit :=
  let! _ := output_add env text in retS tt.

Definition GenerateHandshakeKey : SM Z :=
  let! '(randKey, r) := random_bytes env 16 in
  if r <? 0 then retS (-1) else
  let! key := liftS (EncodeBase64 randKey 16) in
  do! updS (with_handshakeKeyBase64_ key) in
  if bool_decide (key = []) then retS (-1) else
  retS 0.

(** The list after the first subprotocol: [for (i = 1; i < num; i++)]. *)
Fixpoint send_subprotocols (n : nat) (i : Z) : SM unit :=
  match n with
  | O => retS tt
  | S n' =>
      let! sp := getS subprotocols_ in
      let! p := liftS (or_undef "subprotocols_[i]" (at_Z sp i)) in
      do! out_printf (str ", " ++ cstr p) in
      send_subprotocols n' (i + 1)
  end.

Definition SendHandshake : SM Z :=
  let! failed := GenerateHandshakeKey in
  if negb (failed =? 0) then retS (-1) else
  let! uri := getS uri_ in
  do! out_printf (str "GET /" ++ (if bool_decide (uri = []) then [] else cstr uri)
                    ++ str " HTTP/1.1" ++ crlf) in
  let! host := getS host_ in
  let! port := getS port_ in
  do! out_printf (str "Host: " ++ cstr host ++ str ":" ++ dec port ++ crlf) in
  do! out_printf (str "Connection: Upgrade" ++ crlf) in
  do! out_printf (str "Upgrade: websocket" ++ crlf) in
  do! out_printf (str "Sec-Websocket-Version: 13" ++ crlf) in
  let! key := getS handshakeKeyBase64_ in
  do! out_printf (str "Sec-WebSocket-Key: " ++ cstr key ++ crlf) in
  let! origin := getS origin_ in
  do! whenS (negb (bool_decide (origin = [])))
        (out_printf (str "Origin: " ++ cstr origin ++ crlf)) in
  let! num := getS numSubprotocols_ in
  do! whenS (0 <? num)
        (let! sp := getS subprotocols_ in
         let! p := liftS (or_undef "subprotocols_[0]" (at_Z sp 0)) in
         do! out_printf (str "Sec-WebSocket-Protocol: " ++ cstr p) in
         send_subprotocols (Z.to_nat (num - 1)) 1) in
  do! out_printf crlf in
  do! updS (with_connectState_ SENT_REQ) in
  retS 0.

(** [Request(bev)]: a fixed request, not used by the handshake. *)
Definition Request : SM unit :=
  let! uri := getS uri_ in
  let! host := getS host_ in
  let! port := getS port_ in
  do! out_printf (str "GET " ++ cstr uri ++ str " HTTP/1.1" ++ crlf) in
  do! out_printf (str "Host:" ++ cstr host ++ str ":" ++ dec port ++ crlf) in
  do! out_printf (str "Upgrade:websocket" ++ crlf) in
  do! out_printf (str "Connection:upgrade" ++ crlf) in
  do! out_printf (str "Sec-WebSocket-Key:dGhlIHNhbXBsZSBub25jZQ==" ++ crlf) in
  do! out_printf (str "Sec-WebSocket-Version:13" ++ crlf) in
  do! out_printf (str "Origin:http://" ++ cstr host ++ str ":" ++ dec port ++ crlf) in
  out_printf crlf.

(** [ParseHttpHeader(line, headerKey, headerVal)]: the key and value after the
    call; it always returns 0. *)
Definition ParseHttpHeader (line headerVal : bytes) : SM (bytes * bytes) :=
  let '(headerKey, rest) := getline 58 (cstr line) in
  let headerVal := extract rest headerVal in
  do! updS (fun s => with_header_ (insert_or_assign headerKey headerVal (header_ s)) s) in
  retS (headerKey, headerVal).

Definition accept_key : bytes := str "258EAFA5-E914-47DA-95CA-C5AB0DC85B11".

Definition CalculateKeyHash (handshake_key_base64 : bytes) : outcome bytes :=
  EncodeBase64 (SHA1 env (cstr handshake_key_base64 ++ accept_key)) 20.

Definition ValidateHttpHeader (flag : Z) (name val expectedName expected_val : bytes)
  (must_appear_only_once : bool) : SM Z :=
  if CompareStrIgnoreCase expectedName name then
    let! flags := getS httpHeaderFlags_ in
    if must_appear_only_once && negb (Z.land flags flag =? 0) then retS (-1) else
    if negb (CompareStrIgnoreCase expected_val val) then retS (-1) else
    do! updS (with_httpHeaderFlags_ (u8 (Z.lor flags flag))) in
    retS 0
  else retS 0.

Definition clear_protocol_flag : SM unit :=
  updS (fun s => with_httpHeaderFlags_
    (u8 (Z.land (httpHeaderFlags_ s) (Z.lnot WS_HAS_VALID_WS_PROTOCOL_HEADER))) s).

Definition ValidateHttpHeaders (name val : bytes) : SM Z :=
  let! r := ValidateHttpHeader WS_HAS_VALID_UPGRADE_HEADER name val
              (str "Upgrade") (str "websocket") true in
  if negb (r =? 0) then retS (-1) else
  let! r := ValidateHttpHeader WS_HAS_VALID_CONNECTION_HEADER name val
              (str "Connection") (str "upgrade") true in
  if negb (r =? 0) then retS (-1) else
  let! key := getS handshakeKeyBase64_ in
  let! acceptKeyHash := liftS (CalculateKeyHash key) in
  if bool_decide (acceptKeyHash = []) then retS (-1) else
  let! r := ValidateHttpHeader WS_HAS_VALID_WS_ACCEPT_HEADER name val
              (str "Sec-WebSocket-Accept") (cstr acceptKeyHash) true in
  if negb (r =? 0) then retS (-1) else
  if CompareStrIgnoreCase name (str "Sec-WebSocket-Extensions") then retS (-1) else
  if CompareStrIgnoreCase (str "Sec-WebSocket-Protocol") name then
    let! flags := getS httpHeaderFlags_ in
    if negb (Z.land flags WS_HAS_VALID_WS_PROTOCOL_HEADER =? 0) then
      do! clear_protocol_flag in retS (-1)
    else
      do! clear_protocol_flag in retS (-1)
  else retS 0.

(** [evbuffer_readln(in, &len, EVBUFFER_EOL_CRLF)] on the input buffer. *)
Definition input_readln : SM (option bytes) := fun s =>
  match evbuffer_readln_crlf (bev_input s) with
  | None => Ret (None, s)
  | Some (line, b) => Ret (Some line, with_bev_input b s)
  end.

(** The loop of [ReadHttpHeaders]; every turn but the last takes at least the
    linefeed of a line, so one turn more than there are bytes is enough. *)
Fixpoint read_header_lines (fuel : nat) (headerVal : bytes) : SM WSParseState :=
  match fuel with
  | O => undefS "read_header_lines: out of fuel"
  | S fuel' =>
      let! line := input_readln in
      match line with
      | None => retS NEED_MORE
      | Some line =>
          if bool_decide (cstr line = []) then retS SUCCESS else
          let! '(headerKey, headerVal) := ParseHttpHeader line headerVal in
          let! r := ValidateHttpHeaders headerKey headerVal in
          if negb (r =? 0) then retS PARSE_ERROR else
          read_header_lines fuel' headerVal
      end
  end.

Definition ReadHttpHeaders : SM WSParseState :=
  let! n := getS (fun s => evbuffer_get_length (bev_input s)) in
  read_header_lines (S (Z.to_nat n)) [].

(** [ReadHttpStatus]: the numbers come with SUCCESS. *)
Definition ReadHttpStatus : SM (WSParseState * option (Z * Z * Z)) :=
  let! line := input_readln in
  match line with
  | None => retS (NEED_MORE, None)
  | Some line =>
      let! st := liftS (ParseHttpStatus line) in
      match st with
      | None => retS (PARSE_ERROR, None)
      | Some v => retS (SUCCESS, Some v)
      end
  end.

(** The cases of the switch in [ReadServerHandshakeReply], last first, as each
    falls through to the next. *)
Definition reply_check_headers : SM WSParseState :=
  let! flag := getS httpHeaderFlags_ in
  if Z.land flag WS_HAS_VALID_UPGRADE_HEADER =? 0 then retS PARSE_ERROR else
  if Z.land flag WS_HAS_VALID_CONNECTION_HEADER =? 0 then retS PARSE_ERROR else
  if Z.land flag WS_HAS_VALID_WS_ACCEPT_HEADER =? 0 then retS PARSE_ERROR else
  do! updS (with_connectState_ HANDSHAKE_COMPLETE) in
  retS SUCCESS.

Definition reply_read_headers : SM WSParseState :=
  let! parseState := ReadHttpHeaders in
  if negb (bool_decide (parseState = SUCCESS)) then retS parseState else
  do! updS (with_connectState_ PARSED_HEADERS) in
  reply_check_headers.

Definition reply_read_status : SM WSParseState :=
  do! updS (with_httpHeaderFlags_ 0) in
  let! '(parseState, v) := ReadHttpStatus in
  match parseState, v with
  | SUCCESS, Some (majorVersion, minorVersion, statusCode) =>
      if negb (majorVersion =? 1) || negb (minorVersion =? 1) then retS PARSE_ERROR else
      if negb (statusCode =? HTTP_STATUS_SWITCHING_PROTOCOLS_101) then retS PARSE_ERROR else
      do! updS (with_connectState_ PARSED_STATUS) in
      reply_read_headers
  | _, _ => retS parseState
  end.

Definition ReadServerHandshakeReply : SM WSParseState :=
  let! cs := getS connectState_ in
  match cs with
  | SENT_REQ => reply_read_status
  | PARSED_STATUS => reply_read_headers
  | PARSED_HEADERS => reply_check_headers
  | _ => retS PARSE_ERROR
  end.

End ops.

(** ** The reply as a list of lines

    What the client asks of the header lines of a reply: [hash] is the value
    expected in Sec-WebSocket-Accept, [flags] the headers seen so far. *)

Definition same_text (a b : bytes) : bool := bool_decide (tolower <$> a = tolower <$> b).

Definition header_rule (hash name val : bytes) (flags : Z) : option Z :=
  let once f expected :=
    if negb (Z.land flags f =? 0) || negb (same_text expected val) then None
    else Some (Z.lor flags f) in
  if same_text (str "Upgrade") name then once 1 (str "websocket") else
  if same_text (str "Connection") name then once 2 (str "upgrade") else
  if same_text (str "Sec-WebSocket-Accept") name then once 4 hash else
  if same_text (str "Sec-WebSocket-Extensions") name then None else
  if same_text (str "Sec-WebSocket-Protocol") name then None else
  Some flags.

(** A line gives a name and, unless it has none, a value. *)
Definition line_name (line : bytes) : bytes := (getline 58 (cstr line)).1.
Definition line_val (line val : bytes) : bytes := extract (getline 58 (cstr line)).2 val.

Fixpoint check_lines (hash : bytes) (lines : list bytes) (val : bytes) (flags : Z) : option Z :=
  match lines with
  | [] => Some flags
  | l :: lines' =>
      match header_rule hash (line_name l) (line_val l val) flags with
      | None => None
      | Some flags' => check_lines hash lines' (line_val l val) flags'
      end
  end.

Definition line_ok (l : bytes) : Prop := (10 ∉ l) /\ cstr l <> [].

(** The lines as they are sent. *)
Definition on_wire (lines : list bytes) : bytes := concat ((fun l => l ++ crlf) <$> lines).

(** ** Lemmas on lines *)

Lemma CompareStrIgnoreCase_same a b : CompareStrIgnoreCase a b = same_text a b.
Proof.
  unfold same_text. revert b. induction a as [|x a IH]; intros [|y b]; simpl; try done.
  rewrite IH. destruct (Z.eqb_spec (tolower x) (tolower y)) as [->|Hn]; simpl.
  - apply bool_decide_ext. split; intros H; [by f_equal|by injection H].
  - symmetry. apply bool_decide_false. by intros [=].
Qed.

Lemma same_text_sym a b : same_text a b = same_text b a.
Proof. unfold same_text. apply bool_decide_ext. naive_solver. Qed.

Lemma same_text_other a b c :
  (tolower <$> a) <> (tolower <$> b) -> same_text a c = true -> same_text b c = false.
Proof.
  unfold same_text. intros Hn H%bool_decide_eq_true. apply bool_decide_false. congruence.
Qed.

Lemma cut_at_lf (a b c d : bytes) :
  10 ∉ a -> 10 ∉ b -> a ++ 10 :: c = b ++ 10 :: d -> a = b /\ c = d.
Proof.
  revert b. induction a as [|x a IH]; intros [|y b] Ha Hb; simpl.
  - by intros [= ->].
  - intros [= <- _]. set_solver.
  - intros [= -> _]. set_solver.
  - intros [= -> H]. destruct (IH b) as [-> ->]; [set_solver..|done|done].
Qed.

Arguments CompareStrIgnoreCase : simpl never.
Arguments same_text : simpl never.
Arguments str : simpl never.

(** What else the name is not, once it is known to be one of the five. *)
Ltac name_not H n :=
  match type of H with same_text ?a ?c = true =>
    let F := fresh in
    assert (same_text (str n) c = false) as F
      by (apply (same_text_other a); [vm_compute; discriminate|exact H])
  end.

Ltac name_facts H :=
  try name_not H "Upgrade"%string; try name_not H "Connection"%string;
  try name_not H "Sec-WebSocket-Accept"%string;
  try name_not H "Sec-WebSocket-Extensions"%string;
  try name_not H "Sec-WebSocket-Protocol"%string.

Section lemmas.
Context {E : EvBuffer} {L : EvBufferLaws E} (env : Env).

Lemma readln_crlf line rest (b : evbuffer) :
  10 ∉ line -> contents b = line ++ crlf ++ rest ->
  exists b', evbuffer_readln_crlf b = Some (line, b') /\ contents b' = rest.
Proof.
  intros Hl Hc. assert (contents b = (line ++ [13]) ++ 10 :: rest) as Hc'
    by (rewrite Hc; unfold crlf; by rewrite <- app_assoc).
  assert (10 ∉ line ++ [13]) as Hl' by set_solver.
  destruct (evbuffer_readln_crlf b) as [[l b']|] eqn:Hr.
  2: { apply readln_none in Hr. rewrite Hc in Hr. set_solver. }
  exists b'. apply readln_some in Hr as (Hl0 & [H|[H Hlast]]).
  - replace (l ++ 13 :: 10 :: contents b') with ((l ++ [13]) ++ 10 :: contents b') in H
      by (by rewrite <- app_assoc).
    rewrite Hc' in H. apply cut_at_lf in H as [Heq ->]; [|done|set_solver].
    apply app_inj_tail in Heq as [-> _]. done.
  - rewrite Hc' in H. destruct (cut_at_lf _ _ _ _ Hl' Hl0 H) as [<- ->].
    exfalso. apply Hlast. apply last_snoc.
Qed.

(** The value [CalculateKeyHash] computes. *)
Definition key_hash (key : bytes) : bytes := rfc4648_encode (SHA1 env (cstr key ++ accept_key)).

Context {EO : EnvOk env}.

Lemma CalculateKeyHash_ok key : CalculateKeyHash env key = Ret (key_hash key).
Proof.
  unfold CalculateKeyHash, key_hash.
  replace 20 with (zlen (SHA1 env (cstr key ++ accept_key))) by
    (unfold zlen; by rewrite SHA1_length).
  apply encode_is_rfc4648; [apply SHA1_bytes|]. unfold zlen. by rewrite SHA1_length.
Qed.

Lemma key_hash_nonempty key : key_hash key <> [].
Proof.
  intros H. pose proof (length_rfc4648 (SHA1 env (cstr key ++ accept_key))) as Hl.
  unfold key_hash in H. rewrite H in Hl. unfold zlen in Hl. rewrite SHA1_length in Hl. done.
Qed.

Lemma cstr_no_nul s : Forall (fun c => c <> 0) s -> cstr s = s.
Proof.
  induction 1 as [|c s Hc _ IH]; simpl; [done|]. replace (c =? 0) with false by lia. by rewrite IH.
Qed.

Lemma cstr_key_hash key : cstr (key_hash key) = key_hash key.
Proof. apply cstr_no_nul, rfc4648_no_nul, SHA1_bytes. Qed.

Lemma flag_or flags f : 0 <= flags < 8 -> f ∈ [1; 2; 4] ->
  u8 (Z.lor flags f) = Z.lor flags f /\ 0 <= Z.lor flags f < 8.
Proof.
  intros Hf H.
  assert ((u8 (Z.lor flags f) =? Z.lor flags f) && (0 <=? Z.lor flags f) && (Z.lor flags f <? 8)
          = true); [|lia].
  revert flags Hf. repeat (apply elem_of_cons in H as [->|H]); [..|by apply not_elem_of_nil in H];
    apply (all_below_spec 8 (fun flags => _)); reflexivity.
Qed.

Lemma clear_protocol_small flags :
  0 <= flags < 8 ->
  0 <= u8 (Z.land flags (Z.lnot WS_HAS_VALID_WS_PROTOCOL_HEADER)) < 8.
Proof.
  intros Hf.
  enough ((u8 (Z.land flags (Z.lnot WS_HAS_VALID_WS_PROTOCOL_HEADER)) =? flags) = true) by lia.
  revert flags Hf. apply (all_below_spec 8 (fun flags => _)). reflexivity.
Qed.

(** [ValidateHttpHeader] for one of the three required headers. *)
Lemma ValidateHttpHeader_rule flag name val ename eval s :
  0 <= httpHeaderFlags_ s < 8 -> flag ∈ [1; 2; 4] ->
  ValidateHttpHeader flag name val ename eval true s =
    if same_text ename name then
      if negb (Z.land (httpHeaderFlags_ s) flag =? 0) || negb (same_text eval val) then Ret (-1, s)
      else Ret (0, with_httpHeaderFlags_ (Z.lor (httpHeaderFlags_ s) flag) s)
    else Ret (0, s).
Proof.
  intros Hf Hin. unfold ValidateHttpHeader, bindS, getS. rewrite !CompareStrIgnoreCase_same.
  destruct (same_text ename name); [|done]. simpl.
  destruct (Z.land _ _ =? 0); simpl; [|done]. destruct (same_text eval val); simpl; [|done].
  by destruct (flag_or (httpHeaderFlags_ s) flag Hf Hin) as [-> _].
Qed.

Lemma ValidateHttpHeader_skip flag name val ename eval once s :
  same_text ename name = false ->
  ValidateHttpHeader flag name val ename eval once s = Ret (0, s).
Proof. unfold ValidateHttpHeader. rewrite CompareStrIgnoreCase_same. by intros ->. Qed.

Lemma with_flags_id (s : SessionImplEV) : with_httpHeaderFlags_ (httpHeaderFlags_ s) s = s.
Proof. by destruct s. Qed.

(** The rest of [ValidateHttpHeaders] for a name that matched already. *)
Ltac validate_rest name :=
  repeat (rewrite ValidateHttpHeader_skip by done; simpl); unfold getS, liftS;
  rewrite ?CalculateKeyHash_ok, ?bool_decide_false by apply key_hash_nonempty;
  repeat (rewrite ValidateHttpHeader_skip by done; simpl);
  rewrite !CompareStrIgnoreCase_same, ?(same_text_sym name);
  repeat match goal with H : same_text ?a name = false |- _ => rewrite H; clear H end.

(** [ValidateHttpHeaders] follows [header_rule]; after an error only the flags
    may have changed. *)
Lemma ValidateHttpHeaders_rule name val s :
  0 <= httpHeaderFlags_ s < 8 ->
  exists f, 0 <= f < 8 /\ match header_rule (key_hash (handshakeKeyBase64_ s)) name val (httpHeaderFlags_ s) with
  | Some f' => ValidateHttpHeaders env name val s = Ret (0, with_httpHeaderFlags_ f' s) /\ 0 <= f' < 8
  | None => ValidateHttpHeaders env name val s = Ret (-1, with_httpHeaderFlags_ f s)
  end.
Proof.
  intros Hf. unfold ValidateHttpHeaders, bindS, header_rule.
  rewrite ValidateHttpHeader_rule by (done || set_solver).
  destruct (same_text (str "Upgrade") name) eqn:H1; [name_facts H1|].
  { exists (httpHeaderFlags_ s). split; [done|]. change WS_HAS_VALID_UPGRADE_HEADER with 1.
    destruct (_ || _) eqn:?; simpl.
    - by rewrite with_flags_id.
    - destruct (flag_or (httpHeaderFlags_ s) 1 Hf ltac:(set_solver)) as [_ Hb].
      validate_rest name. done. }
  simpl. rewrite ValidateHttpHeader_rule by (done || set_solver).
  destruct (same_text (str "Connection") name) eqn:H2; [name_facts H2|].
  { exists (httpHeaderFlags_ s). split; [done|]. change WS_HAS_VALID_CONNECTION_HEADER with 2.
    destruct (_ || _) eqn:?; simpl.
    - by rewrite with_flags_id.
    - destruct (flag_or (httpHeaderFlags_ s) 2 Hf ltac:(set_solver)) as [_ Hb].
      validate_rest name. done. }
  simpl. unfold getS, liftS. rewrite CalculateKeyHash_ok. rewrite bool_decide_false by apply key_hash_nonempty.
  rewrite cstr_key_hash.
  rewrite ValidateHttpHeader_rule by (done || set_solver).
  destruct (same_text (str "Sec-WebSocket-Accept") name) eqn:H3; [name_facts H3|].
  { exists (httpHeaderFlags_ s). split; [done|]. change WS_HAS_VALID_WS_ACCEPT_HEADER with 4.
    destruct (_ || _) eqn:?; simpl.
    - by rewrite with_flags_id.
    - destruct (flag_or (httpHeaderFlags_ s) 4 Hf ltac:(set_solver)) as [_ Hb].
      validate_rest name. done. }
  simpl. rewrite !CompareStrIgnoreCase_same, (same_text_sym name).
  destruct (same_text (str "Sec-WebSocket-Extensions") name) eqn:H4.
  { exists (httpHeaderFlags_ s). split; [done|]. by rewrite with_flags_id. }
  destruct (same_text (str "Sec-WebSocket-Protocol") name) eqn:H5; simpl.
  - eexists. split; [exact (clear_protocol_small _ Hf)|]. case_match; reflexivity.
  - exists 0. split; [done|]. by rewrite with_flags_id.
Qed.

(** What reading header lines changes. *)
Definition reads (s s' : SessionImplEV) : Prop :=
  exists b h f, 0 <= f < 8 /\
    s' = with_bev_input b (with_header_ h (with_httpHeaderFlags_ f s)).

Lemma reads_flags s s' : reads s s' -> 0 <= httpHeaderFlags_ s' < 8.
Proof. intros (b & h & f & Hf & ->). exact Hf. Qed.

Lemma reads_refl s : 0 <= httpHeaderFlags_ s < 8 -> reads s s.
Proof.
  intros H. exists (bev_input s), (header_ s), (httpHeaderFlags_ s). split; [done|].
  by destruct s.
Qed.

Lemma reads_step s s1 b h f :
  0 <= f < 8 -> reads (with_httpHeaderFlags_ f (with_header_ h (with_bev_input b s))) s1 -> reads s s1.
Proof. intros Hf (b' & h' & f' & Hf' & ->). exists b', h', f'. split; [done|]. ses_eq. Qed.

Lemma reads_intro s b h f :
  0 <= f < 8 -> reads s (with_httpHeaderFlags_ f (with_header_ h (with_bev_input b s))).
Proof. intros Hf. exists b, h, f. split; [done|]. ses_eq. Qed.

(** One turn of the loop on a complete line. *)
Lemma read_header_lines_step fuel val s line b :
  evbuffer_readln_crlf (bev_input s) = Some (line, b) ->
  0 <= httpHeaderFlags_ s < 8 ->
  cstr line <> [] ->
  exists h f, 0 <= f < 8 /\
  match header_rule (key_hash (handshakeKeyBase64_ s)) (line_name line) (line_val line val)
          (httpHeaderFlags_ s) with
  | Some f' => 0 <= f' < 8 /\
      read_header_lines env (S fuel) val s =
        read_header_lines env fuel (line_val line val)
          (with_httpHeaderFlags_ f' (with_header_ h (with_bev_input b s)))
  | None => read_header_lines env (S fuel) val s =
        Ret (PARSE_ERROR, with_httpHeaderFlags_ f (with_header_ h (with_bev_input b s)))
  end.
Proof.
  intros Hr Hf Hne. unfold line_name, line_val.
  destruct (getline 58 (cstr line)) as [k r] eqn:Hg. cbn [fst snd].
  set (h := insert_or_assign k (extract r val) (header_ s)).
  assert (read_header_lines env (S fuel) val s =
    (let! r0 := ValidateHttpHeaders env k (extract r val) in
     if negb (r0 =? 0) then retS PARSE_ERROR else read_header_lines env fuel (extract r val))
      (with_header_ h (with_bev_input b s))) as ->.
  { cbn [read_header_lines]. unfold bindS at 1, input_readln. rewrite Hr.
    rewrite bool_decide_false by done. unfold bindS at 1, ParseHttpHeader. by rewrite Hg. }
  destruct (ValidateHttpHeaders_rule k (extract r val) (with_header_ h (with_bev_input b s)) Hf)
    as (f0 & Hf0 & Hv).
  exists h, f0. split; [done|]. simpl in Hv.
  unfold bindS. destruct (header_rule _ _ _ _); [destruct Hv as [-> ?]|rewrite Hv]; done.
Qed.

Lemma length_readln (b b' : evbuffer) l :
  evbuffer_readln_crlf b = Some (l, b') -> (length (contents b') < length (contents b))%nat.
Proof.
  intros [_ [->|[-> _]]]%readln_some; rewrite length_app; simpl; lia.
Qed.

(** The loop ends within the turns it is given. *)
Lemma read_header_lines_total fuel val s :
  (length (contents (bev_input s)) < fuel)%nat -> 0 <= httpHeaderFlags_ s < 8 ->
  wp (read_header_lines env fuel val)
     (fun r s' => reads s s' /\ r <> USER_ABORT) s.
Proof.
  revert val s. induction fuel as [|fuel IH]; intros val s Hlen Hf; [lia|].
  destruct (evbuffer_readln_crlf (bev_input s)) as [[line b]|] eqn:Hr.
  2: { eapply (wp_eq _ (retS NEED_MORE) _ _ s); [|split; [by apply reads_refl|done]].
       cbn [read_header_lines]. unfold bindS, input_readln. by rewrite Hr. }
  destruct (decide (cstr line = [])) as [He|He].
  { eapply (wp_eq _ (retS SUCCESS) _ _ (with_bev_input b s)).
    - cbn [read_header_lines]. unfold bindS, input_readln. rewrite Hr.
      by rewrite bool_decide_true.
    - split; [|done]. exists b, (header_ s), (httpHeaderFlags_ s). split; [done|]. by destruct s. }
  destruct (read_header_lines_step fuel val s line b Hr Hf He) as (h & f & Hfb & Hstep).
  destruct (header_rule _ _ _ _) as [f'|].
  - destruct Hstep as [Hf' Hstep]. eapply wp_eq; [exact Hstep|].
    eapply wp_mono; [apply IH|]; [|exact Hf'|].
    + apply length_readln in Hr. simpl. lia.
    + intros r s' [Hs Hn]. split; [|done]. by eapply reads_step.
  - eapply wp_eq; [exact (eq_trans Hstep eq_refl : _ = retS PARSE_ERROR _)|].
    split; [by apply reads_intro|done].
Qed.

(** On a whole block of header lines the loop computes [check_lines]. *)
Lemma read_header_lines_spec lines : forall fuel val s rest,
  Forall line_ok lines -> (length lines < fuel)%nat -> 0 <= httpHeaderFlags_ s < 8 ->
  contents (bev_input s) = on_wire lines ++ crlf ++ rest ->
  wp (read_header_lines env fuel val)
     (fun r s' => reads s s' /\
        match check_lines (key_hash (handshakeKeyBase64_ s)) lines val (httpHeaderFlags_ s) with
        | Some f => r = SUCCESS /\ httpHeaderFlags_ s' = f /\ contents (bev_input s') = rest
        | None => r = PARSE_ERROR
        end) s.
Proof.
  induction lines as [|l lines IH]; intros [|fuel] val s rest Hok Hfuel Hf Hc; simpl in Hfuel; try lia.
  - destruct (readln_crlf [] rest (bev_input s)) as (b & Hr & Hb); [set_solver|exact Hc|].
    eapply (wp_eq _ (retS SUCCESS) _ _ (with_bev_input b s)).
    + cbn [read_header_lines]. unfold bindS, input_readln. by rewrite Hr.
    + split; [|done]. exists b, (header_ s), (httpHeaderFlags_ s). split; [done|]. by destruct s.
  - apply Forall_cons in Hok as [[Hlf Hne] Hok].
    assert (contents (bev_input s) = l ++ crlf ++ on_wire lines ++ crlf ++ rest) as Hc'.
    { rewrite Hc. unfold on_wire. rewrite fmap_cons. cbn [concat]. by rewrite <- !app_assoc. }
    destruct (readln_crlf l _ (bev_input s) Hlf Hc') as (b & Hr & Hb).
    destruct (read_header_lines_step fuel val s l b Hr Hf Hne) as (h & f & Hfb & Hstep).
    cbn [check_lines]. destruct (header_rule _ _ _ _) as [f'|].
    + destruct Hstep as [Hf' Hstep]. eapply wp_eq; [exact Hstep|].
      eapply wp_mono; [apply (IH fuel _ _ rest Hok)|]; [lia|exact Hf'|exact Hb|].
      intros r s' [Hs Hn]. split; [by eapply reads_step|exact Hn].
    + eapply wp_eq; [exact (eq_trans Hstep eq_refl : _ = retS PARSE_ERROR _)|].
      split; [by apply reads_intro|done].
Qed.
End lemmas.

(** ** Which replies are accepted *)


Definition reply_accepted (hash : bytes) (lines : list bytes) : bool :=
  match check_lines hash lines [] 0 with
  | Some f => f =? 7
  | None => false
  end.

(** The values given for a header. *)
Definition values (name : string) (hs : list (bytes * bytes)) : list bytes :=
  snd <$> filter (fun h => same_text (str name) h.1 = true) hs.

Definition given_once (name : string) (expected : bytes) (hs : list (bytes * bytes)) : Prop :=
  exists v, values name hs = [v] /\ tolower <$> v = tolower <$> expected.

Definition has (f flags : Z) : bool := negb (Z.land flags f =? 0).

(** What is still to come when the headers in [flags] have been seen. *)
Definition still_needed (f flags : Z) (name : string) (expected : bytes)
  (hs : list (bytes * bytes)) : Prop :=
  if has f flags then values name hs = [] else given_once name expected hs.






Lemma still_needed_seen g flags name expected hs :
  has g flags = true -> still_needed g flags name expected hs <-> values name hs = [].
Proof. unfold still_needed. by intros ->. Qed.


Lemma has_all flags : 0 <= flags < 8 ->
  (flags =? 7) = has 1 flags && has 2 flags && has 4 flags.
Proof.
  intros Hf. apply eqb_prop. revert flags Hf.
  apply (all_below_spec 8 (fun flags => _)). reflexivity.
Qed.






(** Header lines as a server writes them: a name, a colon, blanks, a value
    without blanks and, after a blank, text that is not looked at. *)
Record HeaderText := mkHeaderText { ht_name : bytes; ht_gap : bytes; ht_value : bytes; ht_more : bytes }.

Definition text_line (h : HeaderText) : bytes :=
  ht_name h ++ [58] ++ ht_gap h ++ ht_value h ++ ht_more h.












(** ** The whole reply *)

Section reply.
Context {E : EvBuffer} {L : EvBufferLaws E} (env : Env) {EO : EnvOk env}.

Lemma has_low3 flag : 0 <= flag < 8 ->
  (Z.land flag WS_HAS_VALID_UPGRADE_HEADER =? 0) = negb (has 1 flag) /\
  (Z.land flag WS_HAS_VALID_CONNECTION_HEADER =? 0) = negb (has 2 flag) /\
  (Z.land flag WS_HAS_VALID_WS_ACCEPT_HEADER =? 0) = negb (has 4 flag).
Proof. intros _. unfold has. rewrite !negb_involutive. done. Qed.

Lemma reply_check_headers_eq s :
  0 <= httpHeaderFlags_ s < 8 ->
  reply_check_headers s =
    if httpHeaderFlags_ s =? 7 then Ret (SUCCESS, with_connectState_ HANDSHAKE_COMPLETE s)
    else Ret (PARSE_ERROR, s).
Proof.
  intros Hf. unfold reply_check_headers, bindS, getS.
  destruct (has_low3 _ Hf) as (-> & -> & ->). rewrite has_all by done.
  destruct (has 1 _), (has 2 _), (has 4 _); done.
Qed.

(** The state after the headers have been read. *)
Definition replied (s : SessionImplEV) (r : WSParseState) (s' : SessionImplEV) : Prop :=
  exists c s1, reads s s1 /\ s' = with_connectState_ c s1 /\ r <> USER_ABORT /\
    (r = SUCCESS <-> c = HANDSHAKE_COMPLETE).

Lemma reply_read_headers_total s :
  0 <= httpHeaderFlags_ s < 8 -> connectState_ s <> HANDSHAKE_COMPLETE ->
  wp (reply_read_headers env) (replied s) s.
Proof.
  intros Hf Hcs. unfold reply_read_headers, ReadHttpHeaders. do 3 wp_step.
  eapply wp_mono; [apply (read_header_lines_total env); [|done]|].
  { rewrite length_law. unfold zlen. lia. }
  intros r s1 [Hs Hr]. wp_step.
  - wp_step. exists (connectState_ s1), s1. split; [done|].
    split; [by destruct s1|]. split; [done|]. destruct Hs as (b & h & f & _ & ->).
    simpl. destruct (bool_decide_reflect (r = SUCCESS)); naive_solver.
  - do 2 wp_step. destruct Hs as (b & h & f & Hfb & ->).
    unfold wp. rewrite reply_check_headers_eq by done. simpl. destruct (f =? 7).
    + eexists HANDSHAKE_COMPLETE, _. split; [exists b, h, f; by split|]. split; [ses_eq|done].
    + eexists PARSED_HEADERS, _. split; [exists b, h, f; by split|]. split; [ses_eq|done].
Qed.

Lemma ParseHttpStatus_cases line :
  (exists v, ParseHttpStatus line = Ret v) \/
  ParseHttpStatus line = Undef "sscanf: integer out of range".
Proof. unfold ParseHttpStatus. repeat case_match; eauto. Qed.

(** Reading the status line, with the line in the buffer. *)
Lemma reply_read_status_line line b s :
  evbuffer_readln_crlf (bev_input s) = Some (line, b) ->
  reply_read_status env s =
    match ParseHttpStatus line with
    | Ret v =>
        if decide (v = Some (1, 1, 101)) then
          reply_read_headers env
            (with_connectState_ PARSED_STATUS (with_bev_input b (with_httpHeaderFlags_ 0 s)))
        else Ret (PARSE_ERROR, with_bev_input b (with_httpHeaderFlags_ 0 s))
    | Killed w => Killed w
    | Undef w => Undef w
    end.
Proof.
  intros Hr. unfold reply_read_status, ReadHttpStatus, input_readln, bindS, updS. simpl. rewrite Hr.
  unfold liftS. destruct (ParseHttpStatus line) as [[[[ma mi] st]|]|?|?]; try done.
  unfold HTTP_STATUS_SWITCHING_PROTOCOLS_101. simpl.
  destruct (Z.eqb_spec ma 1) as [->|]; simpl; [|case_decide; [congruence|done]].
  destruct (Z.eqb_spec mi 1) as [->|]; simpl; [|case_decide; [congruence|done]].
  destruct (Z.eqb_spec st 101) as [->|]; simpl; [done|case_decide; [congruence|done]].
Qed.

Lemma reply_read_status_wait s :
  evbuffer_readln_crlf (bev_input s) = None ->
  reply_read_status env s = Ret (NEED_MORE, with_httpHeaderFlags_ 0 s).
Proof.
  intros Hr. unfold reply_read_status, ReadHttpStatus, input_readln, bindS, updS. simpl.
  by rewrite Hr.
Qed.

Lemma reply_read_status_total s :
  connectState_ s = SENT_REQ ->
  wp (reply_read_status env) (replied s) s \/
  reply_read_status env s = Undef "sscanf: integer out of range".
Proof.
  intros Hcs. destruct (evbuffer_readln_crlf (bev_input s)) as [[line b]|] eqn:Hr.
  - rewrite (reply_read_status_line line b s Hr).
    destruct (ParseHttpStatus_cases line) as [[v Hv]| ->]; [|by right]. left.
    unfold wp. rewrite (reply_read_status_line line b s Hr), Hv.
    assert (replied s PARSE_ERROR (with_bev_input b (with_httpHeaderFlags_ 0 s))) as Herr.
    { exists SENT_REQ, (with_bev_input b (with_httpHeaderFlags_ 0 s)).
      split; [exists b, (header_ s), 0; split; [done|by destruct s]|].
      split; [destruct s; simpl in *; by subst|done]. }
    case_decide; [|exact Herr].
    pose proof (reply_read_headers_total (with_connectState_ PARSED_STATUS
      (with_bev_input b (with_httpHeaderFlags_ 0 s)))) as Hw. unfold wp in Hw. simpl in Hw.
    specialize (Hw ltac:(lia) ltac:(done)). case_match; [|done..]. case_match.
    destruct Hw as (c & s1 & (b' & h & f & Hf & ->) & Hrest).
    eexists c, (with_bev_input b' (with_header_ h (with_httpHeaderFlags_ f s))).
    split; [exists b', h, f; by split|]. destruct Hrest as [-> Hrest]. split; [ses_eq|exact Hrest].
  - left. unfold wp. rewrite reply_read_status_wait by done.
    exists SENT_REQ, (with_httpHeaderFlags_ 0 s).
    split; [exists (bev_input s), (header_ s), 0; split; [done|by destruct s]|].
    split; [destruct s; simpl in *; by subst|done].
Qed.

(** Every outcome of [ReadServerHandshakeReply]. *)
Lemma ReadServerHandshakeReply_replied s :
  0 <= httpHeaderFlags_ s < 8 -> connectState_ s <> HANDSHAKE_COMPLETE ->
  wp (ReadServerHandshakeReply env) (replied s) s \/
  ReadServerHandshakeReply env s = Undef "sscanf: integer out of range".
Proof.
  intros Hf Hcs. unfold wp, ReadServerHandshakeReply, bindS, getS.
  destruct (connectState_ s) eqn:Hc; try done.
  1, 2: left; exists (connectState_ s), s; split; [by apply reads_refl|];
    split; [by destruct s|]; split; [done|]; by rewrite Hc.
  - by apply reply_read_status_total.
  - left. apply reply_read_headers_total; [done|]. by rewrite Hc.
  - left. rewrite reply_check_headers_eq by done.
    destruct (_ =? 7); [exists HANDSHAKE_COMPLETE, s|exists (connectState_ s), s];
      (split; [by apply reads_refl|]); (split; [by destruct s|]); split; try done.
    split; [done|]. by rewrite Hc.
Qed.

(** The whole reply in the buffer. *)
Lemma reply_read_all status lines rest s :
  10 ∉ status -> ParseHttpStatus status = Ret (Some (1, 1, 101)) -> Forall line_ok lines ->
  contents (bev_input s) = status ++ crlf ++ on_wire lines ++ crlf ++ rest ->
  let ok := reply_accepted (key_hash env (handshakeKeyBase64_ s)) lines in
  wp (reply_read_status env)
     (fun r s' => r = (if ok then SUCCESS else PARSE_ERROR) /\
        (ok = true -> connectState_ s' = HANDSHAKE_COMPLETE /\ contents (bev_input s') = rest)) s.
Proof.
  intros Hlf Hst Hok Hc ok. destruct (readln_crlf status _ (bev_input s) Hlf Hc) as (b & Hr & Hb).
  eapply wp_eq; [rewrite (reply_read_status_line _ b) by done; rewrite Hst;
    rewrite decide_True by done; reflexivity|].
  set (s1 := with_connectState_ _ _). unfold reply_read_headers, ReadHttpHeaders. do 3 wp_step.
  eapply wp_mono; [apply (read_header_lines_spec env lines _ _ s1 rest Hok); [|done|exact Hb]|].
  { simpl. rewrite length_law, Hb. rewrite zlen_app. pose proof (zlen_nonneg (crlf ++ rest)).
    assert (length lines <= length (on_wire lines))%nat; [|unfold zlen in *; lia].
    clear. unfold on_wire. induction lines as [|l ls IH]; [done|]. rewrite fmap_cons. cbn [concat].
    rewrite !length_app. simpl in *. lia. }
  intros r s2 [Hs Hrun]. simpl in Hrun. unfold ok, reply_accepted.
  destruct (check_lines _ lines [] 0) as [f|] eqn:Hcl.
  - destruct Hrun as (-> & Hf2 & Hrest). wp_step; [done|]. do 2 wp_step.
    unfold wp. rewrite reply_check_headers_eq by exact (reads_flags _ _ Hs). simpl. rewrite Hf2.
    destruct (f =? 7); [by split_and!|done].
  - subst r. wp_step; [|done]. wp_step. done.
Qed.
End reply.

(** ** The request *)

Section request.
Context {E : EvBuffer} {L : EvBufferLaws E} (env : Env) {LO : LibOk env}.

Lemma out_printf_wp t (Q : unit -> SessionImplEV -> Prop) s :
  (forall o l, contents o = contents (bev_output s) ++ t ->
     Q tt (with_bev_output o (with_lib_calls l s))) ->
  wp (out_printf env t) Q s.
Proof.
  intros H. unfold out_printf, output_add, lib_call, wp, bindS. rewrite lib_never_fails. simpl.
  apply H, add_law.
Qed.

(** The 16 bytes drawn for the key in state [s]. *)
Definition nonce (s : SessionImplEV) : bytes := (GetRandomMask (rand_s env) (rand_calls s) 16).1.1.

Lemma nonce_bytes s : Forall is_byte (nonce s).
Proof. unfold nonce, GetRandomMask. cbn [fst]. apply Forall_fmap, Forall_true. intros. apply u8_byte. Qed.

Lemma GenerateHandshakeKey_ok s :
  GenerateHandshakeKey env s =
    Ret (0, with_handshakeKeyBase64_ (rfc4648_encode (nonce s))
              (with_rand_calls (rand_calls s + 16)%nat s)).
Proof.
  unfold GenerateHandshakeKey, random_bytes, bindS. unfold GetRandomMask at 1.
  change (EncodeBase64 _ 16) with (EncodeBase64 (nonce s) (zlen (nonce s))).
  cbn [Z.of_nat Z.ltb]. 
  rewrite encode_is_rfc4648; [|apply nonce_bytes|reflexivity].
  unfold liftS, updS. rewrite bool_decide_false; [done|].
  intros H. pose proof (length_rfc4648 (nonce s)) as Hl. by rewrite H in Hl.
Qed.

Definition request_text (uri host origin key : bytes) (port : Z) : bytes :=
  str "GET /" ++ cstr uri ++ str " HTTP/1.1" ++ crlf ++
  str "Host: " ++ cstr host ++ str ":" ++ dec port ++ crlf ++
  str "Connection: Upgrade" ++ crlf ++ str "Upgrade: websocket" ++ crlf ++
  str "Sec-Websocket-Version: 13" ++ crlf ++ str "Sec-WebSocket-Key: " ++ key ++ crlf ++
  (if bool_decide (origin = []) then [] else str "Origin: " ++ cstr origin ++ crlf) ++ crlf.

Lemma cstr_nil_if (uri : bytes) : (if bool_decide (uri = []) then [] else cstr uri) = cstr uri.
Proof. case_bool_decide; [by subst|done]. Qed.

Lemma SendHandshake_wp s :
  numSubprotocols_ s <= 0 ->
  wp (SendHandshake env)
    (fun r s' => r = 0 /\ connectState_ s' = SENT_REQ /\
       handshakeKeyBase64_ s' = rfc4648_encode (nonce s) /\
       contents (bev_output s') = contents (bev_output s) ++
         request_text (uri_ s) (host_ s) (origin_ s) (rfc4648_encode (nonce s)) (port_ s)) s.
Proof.
  intros Hn. unfold SendHandshake. wp_step.
  eapply wp_val; [apply GenerateHandshakeKey_ok|]. cbn [negb Z.eqb].
  set (key := rfc4648_encode (nonce s)).
  assert (cstr key = key) as Hkey by apply cstr_no_nul, rfc4648_no_nul, nonce_bytes.
  clearbody key. repeat first [apply out_printf_wp; intros ?o ?l ?Ho; ses_simpl | wp_step; ses_simpl];
    try lia; (split_and!; [done|done|done|]); unfold request_text;
    match goal with H : negb _ = _ |- _ => rename H into Hor end;
    repeat match goal with H : contents ?x = _ |- context [contents ?x] => rewrite H; clear H end;
    [apply negb_true_iff in Hor|apply negb_false_iff in Hor];
    rewrite Hor, ?cstr_nil_if, ?Hkey, <- ?app_assoc; done.
Qed.
End request.

(** ** Theorems *)

Section theorems.
Context {E : EvBuffer} {L : EvBufferLaws E} (env : Env).

(** C10: a complete reply in the input buffer (a status line for HTTP/1.1 101, any
    number of header lines, an empty line) is read in one call: the handshake
    succeeds exactly when the reply is accepted with the hash of the key sent,
    and what follows the reply stays in the buffer for the frame reader. *)
Theorem ReadServerHandshakeReply_refines
  (status : bytes) (lines : list bytes) (rest : bytes) (s : SessionImplEV) :
  EnvOk env -> connectState_ s = SENT_REQ ->
  10 ∉ status -> ParseHttpStatus status = Ret (Some (1, 1, 101)) -> Forall line_ok lines ->
  contents (bev_input s) = status ++ crlf ++ on_wire lines ++ crlf ++ rest ->
  let ok := reply_accepted (key_hash env (handshakeKeyBase64_ s)) lines in
  exists s', ReadServerHandshakeReply env s = Ret (if ok then SUCCESS else PARSE_ERROR, s') /\
    (ok = true -> connectState_ s' = HANDSHAKE_COMPLETE /\ contents (bev_input s') = rest).
Proof.
  intros EO Hcs Hlf Hst Hok Hc ok.
  pose proof (reply_read_all env status lines rest s Hlf Hst Hok Hc) as Hw.
  apply wp_run in Hw as (r & s' & Hr & -> & Ha). exists s'. split; [|exact Ha].
  unfold ReadServerHandshakeReply, bindS, getS. by rewrite Hcs.
Qed.


(** C24: reading a reply always ends, whatever has arrived: the process is not
    killed, the handshake is complete exactly when SUCCESS is returned, and the
    only undefined behaviour is a number out of the range of [int] in the status
    line. *)
Theorem ReadServerHandshakeReply_total (s : SessionImplEV) :
  EnvOk env -> 0 <= httpHeaderFlags_ s < 8 -> connectState_ s <> HANDSHAKE_COMPLETE ->
  (exists r s', ReadServerHandshakeReply env s = Ret (r, s') /\ r <> USER_ABORT /\
     (r = SUCCESS <-> connectState_ s' = HANDSHAKE_COMPLETE)) \/
  ReadServerHandshakeReply env s = Undef "sscanf: integer out of range".
Proof.
  intros EO Hf Hc. destruct (ReadServerHandshakeReply_replied env s Hf Hc) as [Hw|]; [left|by right].
  apply wp_run in Hw as (r & s' & Hr & c & s1 & _ & -> & Hu & Hi). eauto.
Qed.

(** C23: [SendHandshake] appends the upgrade request, with a key whose base64
    decoding gives back the 16 random bytes drawn, and leaves the session
    waiting for the reply. *)
Theorem SendHandshake_request (s : SessionImplEV) :
  LibOk env -> numSubprotocols_ s = 0 ->
  exists s' key, SendHandshake env s = Ret (0, s') /\ connectState_ s' = SENT_REQ /\
    handshakeKeyBase64_ s' = key /\ DecodeBase64 key = Ret (nonce env s) /\
    length (nonce env s) = 16%nat /\
    contents (bev_output s') = contents (bev_output s) ++
      request_text (uri_ s) (host_ s) (origin_ s) key (port_ s).
Proof.
  intros LO Hn. pose proof (SendHandshake_wp env s ltac:(lia)) as Hw.
  apply wp_run in Hw as (r & s' & Hr & -> & Hc & Hk & Ho).
  exists s', (rfc4648_encode (nonce env s)). split_and!; try done.
  apply decode_rfc4648; [done|apply nonce_bytes|reflexivity].
Qed.

End theorems.

(** A session that has sent its request and a reply to it. *)
Definition sample_key : bytes := str "dGhlIHNhbXBsZSBub25jZQ==".
Definition sample_lines : list bytes :=
  [str "Upgrade: websocket"; str "Connection: Upgrade"; str "Server: test";
   str "Sec-WebSocket-Accept: " ++ key_hash sample_env sample_key].
Definition sample_reply : bytes :=
  str "HTTP/1.1 101 Switching Protocols" ++ crlf ++ on_wire sample_lines ++ crlf ++ [0x81; 0].
Definition waiting_session : @SessionImplEV ListEvBuffer :=
  with_bev_input (sample_reply : @evbuffer ListEvBuffer)
    (with_handshakeKeyBase64_ sample_key
      (with_connectState_ SENT_REQ (with_bev_ true (with_state_ CONNECTING new_session)))).

Lemma sample_lines_ok : Forall line_ok sample_lines.
Proof.
  apply (bool_decide_unpack (Forall (fun l => (10 ∉ l) /\ cstr l <> []) sample_lines)).
  vm_compute. exact I.
Qed.

Lemma ReadServerHandshakeReply_refines_witness :
  exists s', ReadServerHandshakeReply sample_env waiting_session = Ret (SUCCESS, s') /\
    connectState_ s' = HANDSHAKE_COMPLETE /\ contents (bev_input s') = [0x81; 0].
Proof.
  destruct (ReadServerHandshakeReply_refines sample_env (str "HTTP/1.1 101 Switching Protocols")
    sample_lines [0x81; 0] waiting_session) as (s' & Hr & Hs).
  - apply sample_env_ok.
  - reflexivity.
  - apply (bool_decide_unpack (10 ∉ str "HTTP/1.1 101 Switching Protocols")). vm_compute. exact I.
  - vm_compute. reflexivity.
  - apply sample_lines_ok.
  - reflexivity.
  - exists s'. split; [exact Hr|]. apply Hs. vm_compute. reflexivity.
Defined.

(** A reply whose headers come in another order, with blanks and text after the
    values, and one that gives Upgrade twice. *)
Definition header_of (name value : bytes) : HeaderText := mkHeaderText name [32] value [].
Definition sample_headers : list HeaderText :=
  [header_of (str "sec-websocket-accept") (key_hash sample_env sample_key);
   mkHeaderText (str "Connection") [32; 9] (str "UPGRADE") [32; 33];
   header_of (str "upgrade") (str "WebSocket")].
Definition answered (hs : list HeaderText) : @SessionImplEV ListEvBuffer :=
  with_bev_input ((str "HTTP/1.1 101 ok" ++ crlf ++ on_wire (text_line <$> hs) ++ crlf ++ [])
    : @evbuffer ListEvBuffer) waiting_session.





(** With Upgrade given twice the same reply is refused. *)
Lemma upgrade_twice_refused :
  exists s', ReadServerHandshakeReply sample_env
    (answered (sample_headers ++ [header_of (str "Upgrade") (str "websocket")])) = Ret (PARSE_ERROR, s').
Proof. eexists. vm_compute. reflexivity. Qed.

Lemma ReadServerHandshakeReply_total_witness :
  (exists r s', ReadServerHandshakeReply sample_env waiting_session = Ret (r, s') /\
     r <> USER_ABORT /\ (r = SUCCESS <-> connectState_ s' = HANDSHAKE_COMPLETE)) \/
  ReadServerHandshakeReply sample_env waiting_session = Undef "sscanf: integer out of range".
Proof.
  apply (ReadServerHandshakeReply_total sample_env waiting_session);
    [apply sample_env_ok|vm_compute; split; [discriminate|reflexivity]|discriminate].
Defined.

Lemma SendHandshake_request_witness :
  exists s' key, SendHandshake sample_env waiting_session = Ret (0, s') /\
    connectState_ s' = SENT_REQ /\ handshakeKeyBase64_ s' = key /\
    DecodeBase64 key = Ret (nonce sample_env waiting_session) /\
    length (nonce sample_env waiting_session) = 16%nat /\
    contents (bev_output s') = contents (bev_output waiting_session) ++
      request_text (uri_ waiting_session) (host_ waiting_session) (origin_ waiting_session) key
        (port_ waiting_session).
Proof.
  apply (SendHandshake_request sample_env waiting_session); [apply sample_lib_ok|reflexivity].
Defined.
