(* ===== verification/WsRecv.v ===== *)
(** * Receiving frames: implement/ev/session_impl_ev.cpp

    The frame reader [ReadWebsocket] and the operations it calls.  [wsHeader_] is
    shared with the sending side, as in the class: a frame sent while another
    one is being received overwrites the header of the latter. *)

From stdpp Require Import base list numbers strings.
From Stdlib Require Import ZArith Lia.
From S2P Require Import Prelude Utf8 WsTypes WsHeader Libevent HttpHeader WsState WsSend.

Section ops.
Context {E : EvBuffer} (env : Env).

Abbreviation SM := (M SessionImplEV).

Definition ValidateHeader : SM Z :=
  let! h := getS wsHeader_ in
  if negb (rsv1 h =? 0) || negb (rsv2 h =? 0) || negb (rsv3 h =? 0) then retS (-1) else
  if IsReservedOpcode (opcode h) then retS (-1) else
  if IsControlOpcode (opcode h) && (fin h =? 0) then retS (-1) else
  let! in_msg := getS inMsgFlag_ in
  if (opcode h =? op CONTINUATION_0X0) && in_msg then retS (-1) else
  if in_msg && (negb (opcode h =? op CONTINUATION_0X0) && negb (IsControlOpcode (opcode h)))
  then retS (-1) else
  retS 0.

(** [evbuffer_new()]: null when it fails. *)
Definition new_buffer : SM (option evbuffer) :=
  let! failed := lib_call env in
  retS (if failed : bool then None else Some evbuffer_new).

Definition OnRecvMsgBegin : SM unit :=
  let! b := new_buffer in
  updS (with_msg_ b).

Definition OnMsgFrameBegin : SM unit :=
  let! b := new_buffer in
  updS (with_frameData_ b).

Definition HandleFrameBegin : SM Z :=
  do! updS (with_recvFrameLen_ 0) in
  let! h := getS wsHeader_ in
  if IsControlOpcode (opcode h) then
    do! updS (with_ctrlPayload_ (replicate 125 0)) in
    do! updS (with_ctrlLen_ 0) in
    retS 0
  else
    let! in_msg := getS inMsgFlag_ in
    do! whenS (negb in_msg)
      (do! updS (with_inMsgFlag_ true) in
       do! updS (with_utf8State_ WS_UTF8_ACCEPT) in
       do! updS (with_msgIsBinary_ (opcode h =? op BINARY_0X2)) in
       OnRecvMsgBegin) in
    do! OnMsgFrameBegin in
    retS 0.

(** The [serverReasonLen_] bytes at [serverReason_]. *)
Definition reason_bytes : SM bytes :=
  let! r := getS serverReason_ in
  let! n := getS serverReasonLen_ in
  match r with
  | RNull => if n =? 0 then retS [] else undefS "read through a null pointer"
  | REmpty => liftS (read_at [0] 0 (Z.to_nat n))
  | RCtrl => let! p := getS ctrlPayload_ in liftS (read_at p 2 (Z.to_nat n))
  end.

Definition ValidateUtf8_reason : SM unit :=
  do! updS (with_utf8State_ WS_UTF8_ACCEPT) in
  let! r := reason_bytes in
  let! q := getS utf8State_ in
  let! q := liftS (ValidateUtf8 q r) in
  updS (with_utf8State_ q).

(** The status and the reason in the payload of a close frame of [n] bytes. *)
Definition take_close_payload (n : Z) : SM unit :=
  let! p := getS ctrlPayload_ in
  let! st := liftS (read_at p 0 2) in
  do! updS (with_serverCloseStatus_ (ntohs (le_val st))) in
  do! updS (with_serverReason_ RCtrl) in
  do! updS (with_serverReasonLen_ (n - 2)) in
  let! p := liftS (write_at p (2 + Z.to_nat (n - 2)) [0]) in
  updS (with_ctrlPayload_ p).

Definition HandleCloseFrame : SM Z :=
  do! updS (with_serverCloseStatus_ NORMAL_1000) in
  do! updS (with_serverReason_ REmpty) in
  do! updS (with_closeTimeoutEvent_ false) in
  do! updS (with_state_ CLOSING) in
  do! updS (with_receivedCloseFlag_ true) in
  let! n := getS ctrlLen_ in
  let! early :=
    (if 0 <? n then
       if n <? 2 then
         do! updS (with_serverCloseStatus_ STATUS_CODE_EXPECTED_1005) in
         let! _ := CloseWithStatus env PROTOCOL_ERR_1002 in
         retS true
       else
         do! take_close_payload n in
         let! st := getS serverCloseStatus_ in
         if negb (WS_IS_PEER_CLOSE_STATUS_VALID st) then
           let! _ := CloseWithStatus env PROTOCOL_ERR_1002 in
           retS true
         else
           do! ValidateUtf8_reason in
           let! q := getS utf8State_ in
           if q =? WS_UTF8_REJECT then
             let! _ := CloseWithStatus env INCONSISTENT_DATA_1007 in
             retS true
           else retS false
     else retS false) in
  if (early : bool) then retS 0 else
  let! sent := getS sentCloseFlag_ in
  if negb sent then
    let! st := getS serverCloseStatus_ in
    let! r := reason_bytes in
    CloseWithStatusReason env st r
  else retS 0.

Definition ctrl_bytes : SM bytes := getS (fun s => take (Z.to_nat (ctrlLen_ s)) (ctrlPayload_ s)).

Definition HandlePingFrame : SM Z :=
  let! cb := getS onPing_ in
  let! p := ctrl_bytes in
  if negb cb then undefS "call through a null function pointer" else
  do! happen (Ping_cb p) in
  retS 0.

Definition HandlePongFrame : SM Z :=
  let! cb := getS onPong_ in
  let! p := ctrl_bytes in
  if negb cb then undefS "call through a null function pointer" else
  do! happen (Pong_cb p) in
  retS 0.

Definition HandleControlFrame : SM Z :=
  let! h := getS wsHeader_ in
  do! checkS (IsControlOpcode (opcode h)) "IsControlOpcode(wsHeader_.opcode)" in
  if opcode h =? op CLOSE_0X8 then HandleCloseFrame else
  if opcode h =? op PONG_0XA then HandlePongFrame else
  if opcode h =? op PING_0X9 then HandlePingFrame else
  retS (-1).

(** A buffer that must not be null. *)
Definition deref (b : SessionImplEV -> option evbuffer) : SM evbuffer :=
  let! b := getS b in liftS (or_undef "use of a null evbuffer" b).

Definition OnMsgFrame : SM unit :=
  let! m := deref msg_ in
  let! f := deref frameData_ in
  let! failed := lib_call env in
  whenS (negb failed)
    (let '(m', f') := evbuffer_add_buffer m f in
     do! updS (with_msg_ (Some m')) in
     updS (with_frameData_ (Some f'))).

Definition OnMsgFrameEnd : SM unit :=
  let! _ := deref frameData_ in
  do! OnMsgFrame in
  updS (with_frameData_ None).

Definition OnRecvMsgEnd : SM unit :=
  let! m := deref msg_ in
  let payload := evbuffer_pullup m in
  let! cb := getS onMessage_ in
  let! st := getS state_ in
  let! bin := getS msgIsBinary_ in
  do! whenS (IsValid cb && negb (bool_decide (st = CLOSING)))
    (do! happen (Message_cb payload bin) in
     run_handler env (MessageHandler_call cb payload bin)) in
  updS (with_msg_ None).

Definition HandleFrameEnd : SM Z :=
  let! h := getS wsHeader_ in
  if IsControlOpcode (opcode h) then
    do! updS (with_hasHeader_ false) in
    HandleControlFrame
  else
    do! OnMsgFrameEnd in
    let! h := getS wsHeader_ in
    do! whenS (negb (fin h =? 0))
      (do! OnRecvMsgEnd in updS (with_inMsgFlag_ false)) in
    do! updS (with_hasHeader_ false) in
    retS 0.

Definition OnMsgFrameData (payload : bytes) : SM unit :=
  let! f := deref frameData_ in
  let! failed := lib_call env in
  whenS (negb failed) (updS (with_frameData_ (Some (evbuffer_add f payload)))).

Definition HandleFrameData (buf : bytes) : SM Z :=
  let! h := getS wsHeader_ in
  if IsControlOpcode (opcode h) then
    let! n := getS ctrlLen_ in
    let total_len := n + zlen buf in
    let too_big := WS_CONTROL_MAX_PAYLOAD_LEN <? total_len in
    let len := if too_big then WS_CONTROL_MAX_PAYLOAD_LEN - n else zlen buf in
    do! whenS too_big (let! _ := CloseWithStatus env PROTOCOL_ERR_1002 in retS tt) in
    let! p := getS ctrlPayload_ in
    let! p := liftS (write_at p (Z.to_nat n) (take (Z.to_nat len) buf)) in
    do! updS (with_ctrlPayload_ p) in
    do! updS (with_ctrlLen_ (n + len)) in
    retS (if too_big then -1 else 0)
  else
    do! OnMsgFrameData buf in
    retS 0.

(** ** [ReadWebsocket] *)

Definition input_length : SM Z := getS (fun s => evbuffer_get_length (bev_input s)).

(** Reading a header; false when the function returns. *)
Definition read_header : SM bool :=
  let! copied := getS (fun s => evbuffer_copyout (bev_input s) (Z.to_nat WS_HDR_MAX_SIZE)) in
  let headerBuf := copied ++ drop (length copied) (stack_junk env) in
  let! '(state, h, headerLen) := liftS (UnpackHeader 0 headerBuf (zlen copied)) in
  do! updS (with_wsHeader_ h) in
  do! checkS (negb (bool_decide (state = USER_ABORT))) "state != WSParseState::USER_ABORT" in
  let! state :=
    (if negb (bool_decide (state = NEED_MORE)) then
       let! bad := ValidateHeader in
       retS (if negb (bad =? 0) then PARSE_ERROR else state)
     else retS state) in
  match state with
  | SUCCESS =>
      do! updS (with_hasHeader_ true) in
      do! updS (fun s => with_bev_input (evbuffer_drain (bev_input s) (Z.to_nat headerLen)) s) in
      let! _ := HandleFrameBegin in
      retS true
  | NEED_MORE => retS false
  | PARSE_ERROR =>
      let! _ := CloseWithStatus env PROTOCOL_ERR_1002 in
      retS false
  | USER_ABORT =>
      let! _ := HandleFrameBegin in
      retS true
  end.

(** The check of text payloads. *)
Definition check_utf8 (buf : bytes) : SM unit :=
  let! bin := getS msgIsBinary in
  let! h := getS wsHeader_ in
  whenS (negb bin && negb (IsControlOpcode (opcode h)))
    (let! q := getS utf8State_ in
     let! q := liftS (ValidateUtf8 q buf) in
     do! updS (with_utf8State_ q) in
     whenS ((q =? WS_UTF8_REJECT) || (negb (q =? WS_UTF8_ACCEPT) && negb (fin h =? 0)))
       (let! _ := CloseWithStatus env INCONSISTENT_DATA_1007 in retS tt)).

(** Reading payload bytes of the current frame. *)
Definition read_payload : SM unit :=
  let! recv_len := input_length in
  let! h := getS wsHeader_ in
  let! got := getS recvFrameLen_ in
  let remaining := u64 (payloadLen h - got) in
  let recv_len := if remaining <? recv_len then remaining else recv_len in
  if remaining =? 0 then
    let! _ := HandleFrameEnd in retS tt
  else
    let! b := getS bev_input in
    let '(buf, b') := evbuffer_remove b (Z.to_nat recv_len) in
    do! updS (with_bev_input b') in
    do! updS (with_recvFrameLen_ (u64 (got + zlen buf))) in
    let buf := if negb (maskBit h =? 0) then UnmaskPayload (mask h) buf else buf in
    do! check_utf8 buf in
    let! failed := HandleFrameData buf in
    if negb (failed =? 0) then retS tt else
    let! h := getS wsHeader_ in
    let! got := getS recvFrameLen_ in
    whenS (got =? payloadLen h) (let! _ := HandleFrameEnd in retS tt).

(** One turn of the loop; false when the function returns. *)
Definition read_turn : SM bool :=
  let! has := getS hasHeader_ in
  let! go_on := (if negb has then read_header else retS true) in
  if negb go_on then retS false else
  let! has := getS hasHeader_ in
  do! whenS has read_payload in
  retS true.

(** The loop.  Every turn consumes input or, on a frame without payload left,
    finishes the frame, so two turns per byte and two more are enough. *)
Fixpoint read_loop (fuel : nat) : SM unit :=
  match fuel with
  | O => undefS "read_loop: out of fuel"
  | S fuel' =>
      let! n := input_length in
      if n =? 0 then retS tt else
      let! go_on := read_turn in
      if negb go_on then retS tt else
      read_loop fuel'
  end.

Definition ReadWebsocket : SM unit :=
  let! bev := getS bev_ in
  do! checkS bev "bev_" in
  let! n := input_length in
  read_loop (2 * Z.to_nat n + 2).

End ops.
