(* ===== verification/WsRecvSafety.v ===== *)
(** * The frame reader ends and stays inside its buffers

    [recv_inv] is the invariant of a session between two callbacks of the event
    loop.  From a session that satisfies it, and while library calls succeed,
    [ReadWebsocket] ends, keeps the invariant, and is undefined only in two
    places, which the theorems of the last section show to be reachable. *)

From stdpp Require Import base list numbers strings.
From Stdlib Require Import ZArith Lia.
From S2P Require Import Prelude Utf8 WsTypes WsHeader Libevent HttpHeader WsState WsSend WsRecv.

Section inv.
Context {E : EvBuffer} {L : EvBufferLaws E}.

Record base_inv (s : SessionImplEV) : Prop := {
  bi_open : bev_ s = true;
  bi_send : sendState_ s = SEND_NONE;
  bi_ctrl : 0 <= ctrlLen_ s <= 125;
  bi_size : length (ctrlPayload_ s) = 125%nat;
  bi_bytes : Forall is_byte (ctrlPayload_ s);
  bi_utf8 : 0 <= utf8State_ s < 9;
  bi_header : wf_header (wsHeader_ s);
  bi_msg : inMsgFlag_ s = true -> is_Some (msg_ s);
  bi_input : Forall is_byte (contents (bev_input s))
}.

(** A data frame being read has its buffers. *)
Definition in_frame (s : SessionImplEV) : Prop :=
  hasHeader_ s = true -> IsControlOpcode (opcode (wsHeader_ s)) = false ->
  inMsgFlag_ s = true /\ is_Some (frameData_ s).

(** The length of the server's reason is set when a close frame has been
    answered, and only then. *)
Definition reason_ok (s : SessionImplEV) : Prop :=
  serverReasonLen_ s = 0 \/ sentCloseFlag_ s = true.

Definition recv_inv (s : SessionImplEV) : Prop := base_inv s /\ reason_ok s /\ in_frame s.

(** What handlers and closings do to an open session when nothing fails. *)
Definition calmly (P : WSHeader -> Prop) (s s' : SessionImplEV) : Prop :=
  outward P s s' /\
  (bev_ s = true -> sendState_ s = SEND_NONE -> bev_ s' = true) /\
  (sentCloseFlag_ s = true -> sentCloseFlag_ s' = true).

#[export] Instance calmly_preorder P : PreOrder (calmly P).
Proof.
  split.
  - intros s. split_and!; done.
  - intros s1 s2 s3 (H1 & H2 & H3) (H1' & H2' & H3'). split_and!.
    + by transitivity s2.
    + intros Hb Hs. apply H2'; [by apply H2|].
      destruct H1 as (h & o & rc & lc & st & sc & ct & cn & bv & tr & _ & ->). exact Hs.
    + auto.
Qed.

Lemma base_inv_calmly P s s' : base_inv s -> calmly P s s' -> base_inv s'.
Proof.
  intros H (Hout & Hb & Hf). pose proof (Hb (bi_open _ H) (bi_send _ H)) as Hb'.
  destruct Hout as (h & o & rc & lc & st & sc & ct & cn & bv & tr & Hh & ->).
  destruct H. ses_simpl. constructor; ses_simpl; try done.
  destruct Hh as [->|[? _]]; done.
Qed.

Lemma reason_ok_calmly P s s' : reason_ok s -> calmly P s s' -> reason_ok s'.
Proof.
  intros H (Hout & _ & Hf).
  destruct Hout as (h & o & rc & lc & st & sc & ct & cn & bv & tr & Hh & ->).
  unfold reason_ok in *. ses_simpl. intuition.
Qed.

Lemma in_frame_closing s s' :
  in_frame s -> calmly (fun h => opcode h = op CLOSE_0X8) s s' -> in_frame s'.
Proof.
  intros H (Hout & _ & _).
  destruct Hout as (h & o & rc & lc & st & sc & ct & cn & bv & tr & Hh & ->).
  unfold in_frame in *. ses_simpl. intros Hhas Hctl. apply H; [done|].
  destruct Hh as [->|[_ Ho]]; [done|]. rewrite Ho in Hctl. done.
Qed.

Lemma calmly_same P s s' : calmly P s s' ->
  bev_input s' = bev_input s /\ hasHeader_ s' = hasHeader_ s /\ frameData_ s' = frameData_ s /\
  msg_ s' = msg_ s /\ inMsgFlag_ s' = inMsgFlag_ s /\ recvFrameLen_ s' = recvFrameLen_ s /\
  ctrlLen_ s' = ctrlLen_ s /\ ctrlPayload_ s' = ctrlPayload_ s.
Proof.
  intros (Hout & _ & _).
  destruct Hout as (h & o & rc & lc & st & sc & ct & cn & bv & tr & Hh & ->). done.
Qed.
End inv.

Section safety.
Context {E : EvBuffer} {L : EvBufferLaws E} (env : Env) {EO : EnvOk env} {LO : LibOk env}.

(** The two places. *)
Definition recv_undef (w : string) : Prop :=
  w = "call through a null function pointer"%string \/ w = "write past the end of a buffer"%string.

Abbreviation safe := (wlp recv_undef).
Abbreviation closing := (fun h : WSHeader => opcode h = op CLOSE_0X8).

Lemma close_ok status reason s :
  bev_ s = true -> sendState_ s = SEND_NONE ->
  WS_IS_CLOSE_STATUS_NOT_USED status = false -> zlen reason <= 123 ->
  wp (CloseWithStatusReason env status reason)
     (fun r s' => calmly closing s s' /\ sentCloseFlag_ s' = true) s.
Proof.
  intros Hb Hs Hu Hr. pose proof (CloseWithStatusReason_wp env status reason s) as Hw.
  unfold wp in *. destruct (sentCloseFlag_ s) eqn:Hf.
  - rewrite CloseWithStatusReason_again in * by done. destruct Hw as (_ & _ & Ho).
    split_and!; try done.
  - rewrite CloseWithStatusReason_sent in * by done. destruct Hw as (_ & _ & Ho).
    split_and!; try done.
Qed.

Lemma CloseWithStatus_safe status s :
  base_inv s -> WS_IS_CLOSE_STATUS_NOT_USED status = false ->
  safe (CloseWithStatus env status)
    (fun _ s' => calmly closing s s' /\ sentCloseFlag_ s' = true) s.
Proof.
  intros H Hu. apply wp_wlp, close_ok; [apply H..|done|done].
Qed.

Lemma run_handler_calmly calls s :
  base_inv s ->
  safe (run_handler env calls) (fun _ s' => calmly (fun _ => True) s s') s.
Proof.
  unfold run_handler. revert s. induction calls as [|c calls IH]; intros s H; simpl.
  { by apply wlp_ret. }
  apply wlp_bind. eapply (wlp_mono _ _ (fun _ s' => calmly (fun _ => True) s s')).
  2: { intros ? s' Hc. eapply wlp_mono; [apply IH; by eapply base_inv_calmly|].
       intros ? s'' Hc'. by transitivity s'. }
  destruct c as [msg|]; simpl; wp_step.
  - eapply wlp_mono; [|intros ? ? Hx; apply wlp_ret; exact Hx].
    unfold DoSendMsg, SendMsgEx. do 6 wp_step. wp_step.
    + apply wp_wlp. eapply wp_mono; [apply (SendFrameRaw_sends env)|]. intros r s' [_ Hs].
      destruct Hs as (h & o & rc & l & Hh & ->). split_and!; try done.
      eapply outward_mono; [|apply sends_outward; exists h, o, rc, l; by split]. done.
    + unfold wlp, OnSendMsgBegin, bindS, getS. apply bool_decide_eq_true in H0 as ->. done.
  - eapply wlp_mono; [apply wp_wlp, close_ok; [apply H..|done|done]|].
    intros r s' [(Ho & ? & ?) _]. apply wlp_ret. split_and!; try done.
    by eapply outward_mono.
Qed.

(** ** The pieces of the reader *)

Lemma new_buffer_ok s :
  new_buffer env s = Ret (Some evbuffer_new, with_lib_calls (S (lib_calls s)) s).
Proof. unfold new_buffer, bindS, lib_call. by rewrite lib_never_fails. Qed.

(** [HandleFrameBegin] on a state whose header has just been taken. *)
Lemma HandleFrameBegin_safe s :
  base_inv s -> reason_ok s -> hasHeader_ s = true ->
  safe (HandleFrameBegin env)
    (fun _ s' => recv_inv s' /\ hasHeader_ s' = true /\ bev_input s' = bev_input s) s.
Proof.
  intros H Hro Hh. unfold HandleFrameBegin. do 4 wp_step. wp_step.
  - wp_steps. ses_simpl. split_and!; try done. split_and!; [|done|].
    + destruct H. constructor; ses_simpl; try done. apply Forall_replicate. unfold is_byte. lia.
    + unfold in_frame. ses_simpl. congruence.
  - do 3 wp_step. unfold OnRecvMsgBegin, OnMsgFrameBegin. wp_step.
    + wp_steps. eapply wp_wlp, wp_val; [apply new_buffer_ok|]. wp_steps.
      eapply wp_wlp, wp_val; [apply new_buffer_ok|]. wp_steps. ses_simpl.
      split_and!; try done. split_and!; [|done|unfold in_frame; ses_simpl; eauto].
      destruct H. constructor; ses_simpl; done.
    + wp_steps. eapply wp_wlp, wp_val; [apply new_buffer_ok|]. wp_steps. ses_simpl.
      split_and!; try done. apply negb_false_iff in H0.
      split_and!; [|done|unfold in_frame; ses_simpl; eauto]. destruct H. constructor; ses_simpl; done.
Qed.

(** The reason can be read when it is the one of the frame at hand, or empty. *)
Lemma read_reason s :
  base_inv s -> serverReason_ s = RCtrl \/ serverReasonLen_ s = 0 ->
  0 <= serverReasonLen_ s <= 123 ->
  exists r, reason_bytes s = Ret (r, s) /\ Forall is_byte r /\ zlen r <= 123.
Proof.
  intros H Hr Hlen. unfold reason_bytes, bindS, getS. destruct Hr as [Hp|Hp].
  - rewrite Hp. unfold liftS. rewrite read_at_ok by (rewrite (bi_size _ H); lia).
    eexists. split; [reflexivity|]. split.
    + apply Forall_take, Forall_drop, H.
    + unfold zlen. rewrite length_take. lia.
  - rewrite Hp. destruct (serverReason_ s); simpl.
    + by exists [].
    + by exists [].
    + unfold liftS. rewrite read_at_ok by (rewrite (bi_size _ H); lia). by exists [].
Qed.

Definition keeps (s s' : SessionImplEV) : Prop :=
  base_inv s' /\ reason_ok s' /\ hasHeader_ s' = hasHeader_ s /\ bev_input s' = bev_input s.

Lemma keeps_closing s s1 s' :
  base_inv s1 -> hasHeader_ s1 = hasHeader_ s -> bev_input s1 = bev_input s ->
  calmly closing s1 s' /\ sentCloseFlag_ s' = true -> keeps s s'.
Proof.
  intros H Hh Hi [Hc Hf]. destruct (calmly_same _ _ _ Hc) as (Hi' & Hh' & _).
  split_and!; [by eapply base_inv_calmly|by right|congruence|congruence].
Qed.

(** Closing in the middle of handling a close frame. *)
Lemma close_keeps status reason s s1 (Q : Z -> SessionImplEV -> Prop) :
  base_inv s1 -> hasHeader_ s1 = hasHeader_ s -> bev_input s1 = bev_input s ->
  WS_IS_CLOSE_STATUS_NOT_USED status = false -> zlen reason <= 123 ->
  (forall r s', keeps s s' -> Q r s') ->
  safe (CloseWithStatusReason env status reason) Q s1.
Proof.
  intros H Hh Hi Hu Hr HQ. apply wp_wlp. eapply wp_mono; [by apply close_ok; try apply H|].
  intros r s' Hc. by apply HQ, (keeps_closing s s1).
Qed.

(** What is known where [HandleCloseFrame] decides whether to echo. *)
Definition echo_ready (s s' : SessionImplEV) : Prop :=
  base_inv s' /\ hasHeader_ s' = hasHeader_ s /\ bev_input s' = bev_input s /\
  WS_IS_CLOSE_STATUS_NOT_USED (serverCloseStatus_ s') = false /\
  (reason_ok s' \/ serverReason_ s' = RCtrl /\ 0 <= serverReasonLen_ s' <= 123).

Lemma ValidateUtf8_reason_safe s :
  base_inv s -> serverReason_ s = RCtrl -> 0 <= serverReasonLen_ s <= 123 ->
  exists q, 0 <= q < 9 /\ ValidateUtf8_reason s = Ret (tt, with_utf8State_ q s).
Proof.
  intros H Hr Hl. unfold ValidateUtf8_reason, bindS, updS.
  destruct (read_reason (with_utf8State_ WS_UTF8_ACCEPT s)) as (r & -> & Hb & _).
  - destruct H; constructor; ses_simpl; done.
  - by left.
  - done.
  - destruct (ValidateUtf8_total r WS_UTF8_ACCEPT) as (q & Hq & Hqr); [done|done|].
    exists q. split; [done|]. unfold getS, liftS. ses_simpl. rewrite Hq. apply ret_state. ses_eq.
Qed.

Lemma echo_safe s s1 :
  echo_ready s s1 ->
  safe (let! sent := getS sentCloseFlag_ in
        if negb sent then
          let! st := getS serverCloseStatus_ in
          let! r := reason_bytes in CloseWithStatusReason env st r
        else retS 0) (fun _ s' => keeps s s') s1.
Proof.
  intros (H & Hh & Hi & Hst & Hr). do 2 wp_step. wp_step.
  - apply negb_true_iff in Heqb. do 2 wp_step.
    assert (exists r, reason_bytes s1 = Ret (r, s1) /\ Forall is_byte r /\ zlen r <= 123)
      as (r & Hrb & _ & Hrl).
    { destruct Hr as [[Hr|Hr]|[Hr Hl]]; [|congruence|].
      - apply read_reason; [done|by right|lia].
      - apply read_reason; [done|by left|lia]. }
    wp_step. eapply wp_wlp, wp_val; [exact Hrb|]. by apply (close_keeps _ _ s).
  - wp_step. apply negb_false_iff in Heqb. split_and!; try done. by right.
Qed.

Lemma take_close_payload_safe n s :
  base_inv s -> 2 <= n <= 125 ->
  safe (take_close_payload n)
    (fun _ s' => base_inv s' /\ hasHeader_ s' = hasHeader_ s /\ bev_input s' = bev_input s /\
       serverReason_ s' = RCtrl /\ serverReasonLen_ s' = n - 2) s.
Proof.
  intros H Hn. unfold take_close_payload. do 3 wp_step.
  wp_step; [|by rewrite read_at_ok in H0 by (rewrite (bi_size _ H); lia)].
  do 7 wp_step. wp_step; [|right; by eapply write_at_undef].
  apply write_at_inv in H1 as [Hsz Hby]. wp_step. ses_simpl. split_and!; try reflexivity.
  destruct H; constructor; ses_simpl; try assumption; [congruence|].
  apply Hby; [assumption|]. repeat constructor; unfold is_byte; lia.
Qed.

(** The branches of [HandleCloseFrame] on the payload, from a state in which the
    frame has been noted. *)
Lemma close_payload_safe s s1 :
  base_inv s1 -> hasHeader_ s1 = hasHeader_ s -> bev_input s1 = bev_input s ->
  2 <= ctrlLen_ s1 ->
  safe (do! take_close_payload (ctrlLen_ s1) in
        let! st := getS serverCloseStatus_ in
        if negb (WS_IS_PEER_CLOSE_STATUS_VALID st) then
          let! _ := CloseWithStatus env PROTOCOL_ERR_1002 in retS true
        else
          do! ValidateUtf8_reason in
          let! q := getS utf8State_ in
          if q =? WS_UTF8_REJECT then
            let! _ := CloseWithStatus env INCONSISTENT_DATA_1007 in retS true
          else retS false)
    (fun early s' => if (early : bool) then keeps s s' else echo_ready s s') s1.
Proof.
  intros H Hh Hi Hn. pose proof (bi_ctrl _ H) as Hc. wp_step.
  eapply wlp_mono; [apply take_close_payload_safe; [done|lia]|].
  intros [] s2 (H2 & Hh2 & Hi2 & Hr & Hl). rewrite Hh in Hh2. rewrite Hi in Hi2. do 2 wp_step.
  wp_step; [wp_step; by apply (close_keeps _ _ s)|].
  apply negb_false_iff, peer_status_sendable in Heqb.
  destruct (ValidateUtf8_reason_safe s2 H2 Hr ltac:(lia)) as (q & Hq & Hv).
  wp_step. eapply wp_wlp, wp_val; [exact Hv|]. do 2 wp_step.
  assert (base_inv (with_utf8State_ q s2)) as H3 by (destruct H2; constructor; ses_simpl; done).
  wp_step.
  - wp_step. by apply (close_keeps _ _ s).
  - wp_step. split_and!; try done. right. ses_simpl. split; [done|lia].
Qed.

Lemma HandleCloseFrame_safe s :
  base_inv s -> reason_ok s -> safe (HandleCloseFrame env) (fun _ s' => keeps s s') s.
Proof.
  intros H Hro. unfold HandleCloseFrame. do 12 wp_step.
  match goal with |- wlp _ _ _ ?st => assert (base_inv st /\ hasHeader_ st = hasHeader_ s /\
    bev_input st = bev_input s /\ reason_ok st /\
    WS_IS_CLOSE_STATUS_NOT_USED (serverCloseStatus_ st) = false) as (H1 & Hh & Hi & Hr1 & Hst) end.
  { split_and!; try reflexivity; [|done]. destruct H; constructor; ses_simpl; assumption. }
  revert H1 Hh Hi Hr1 Hst. generalize (with_receivedCloseFlag_ true (with_state_ CLOSING
    (with_closeTimeoutEvent_ false (with_serverReason_ REmpty
      (with_serverCloseStatus_ NORMAL_1000 s))))).
  intros s1 H1 Hh Hi Hr1 Hst. wp_step.
  eapply (wlp_mono _ _ (fun early s' => if (early : bool) then keeps s s' else echo_ready s s')).
  2: { intros [] s' Hs'; [by wp_step|by apply echo_safe]. }
  wp_step; [|wp_step; split_and!; try done; by left].
  wp_step.
  - do 3 wp_step. apply (close_keeps _ _ s); try done. destruct H1; constructor; ses_simpl; done.
  - apply close_payload_safe; try done. lia.
Qed.

Lemma callback_safe cb (h : bytes -> Happening) s :
  base_inv s -> reason_ok s ->
  safe (let! b := getS cb in
        let! p := ctrl_bytes in
        if negb b then undefS "call through a null function pointer" else
        do! happen (h p) in retS 0) (fun _ s' => keeps s s') s.
Proof.
  intros H Hr. unfold ctrl_bytes. do 4 wp_step. wp_step.
  - wp_step. by left.
  - unfold happen. do 3 wp_step. split_and!; try done. destruct H; constructor; ses_simpl; done.
Qed.

Lemma HandleControlFrame_safe s :
  base_inv s -> reason_ok s -> safe (HandleControlFrame env) (fun _ s' => keeps s s') s.
Proof.
  intros H Hr. unfold HandleControlFrame. do 4 wp_step.
  wp_step; [by apply HandleCloseFrame_safe|].
  wp_step; [by apply callback_safe|]. wp_step; [by apply callback_safe|].
  wp_step. by split_and!.
Qed.

(** Finishing a frame of a message. *)
Lemma OnMsgFrameEnd_safe s :
  base_inv s -> reason_ok s -> inMsgFlag_ s = true -> is_Some (frameData_ s) ->
  safe (OnMsgFrameEnd env)
    (fun _ s' => keeps s s' /\ inMsgFlag_ s' = true /\ wsHeader_ s' = wsHeader_ s) s.
Proof.
  intros H Hr Him [f Hf]. destruct (bi_msg _ H Him) as [m Hm].
  unfold wlp, OnMsgFrameEnd, OnMsgFrame, deref, lib_call, bindS, getS.
  rewrite Hf. simpl. rewrite Hm. simpl. rewrite Hf. simpl. rewrite lib_never_fails. simpl.
  destruct (evbuffer_add_buffer m f) as [m' f']. simpl. split_and!; try done.
  destruct H; constructor; ses_simpl; try done.
Qed.

Lemma OnRecvMsgEnd_safe s :
  base_inv s -> reason_ok s -> inMsgFlag_ s = true ->
  safe (do! OnRecvMsgEnd env in updS (with_inMsgFlag_ false)) (fun _ s' => keeps s s') s.
Proof.
  intros H Hr Him. destruct (bi_msg _ H Him) as [m Hm].
  wp_step. unfold OnRecvMsgEnd, deref. do 3 wp_step. rewrite Hm. cbn [or_undef liftS].
  eapply wp_wlp, wp_val; [reflexivity|]. do 7 wp_step.
  eapply (wlp_mono _ _ (fun _ s' => keeps s s')).
  - wp_step.
    + unfold happen. do 2 wp_step. eapply wlp_mono; [apply run_handler_calmly|].
      * destruct H; constructor; ses_simpl; done.
      * intros ? s' Hc. destruct (calmly_same _ _ _ Hc) as (Hi & Hh & _).
        split_and!; [|by eapply reason_ok_calmly; [exact Hr|exact Hc]|exact Hh|exact Hi].
        eapply base_inv_calmly; [|exact Hc]. destruct H; constructor; ses_simpl; done.
    + by split_and!.
  - intros ? s' (H' & Hr' & Hh & Hi). do 2 wp_step. split_and!; try done.
    destruct H'; constructor; ses_simpl; done.
Qed.

(** Whatever the frame is, its end clears [hasHeader_]. *)
Lemma HandleFrameEnd_safe s :
  recv_inv s -> hasHeader_ s = true ->
  safe (HandleFrameEnd env)
    (fun _ s' => recv_inv s' /\ hasHeader_ s' = false /\ bev_input s' = bev_input s) s.
Proof.
  intros (H & Hr & Hf) Hh. unfold HandleFrameEnd. do 2 wp_step. wp_step.
  - do 2 wp_step. eapply wlp_mono; [apply HandleControlFrame_safe|].
    + destruct H; constructor; ses_simpl; done.
    + done.
    + intros r s' (H' & Hr' & Hh' & Hi'). ses_simpl. split_and!; try done. split_and!; try done.
      intros Ht. congruence.
  - destruct (Hf Hh Heqb) as [Him Hfd]. wp_step.
    eapply wlp_mono; [by apply OnMsgFrameEnd_safe|].
    intros ? s1 ((H1 & Hr1 & Hh1 & Hi1) & Him1 & Hw1). do 2 wp_step. wp_step.
    eapply (wlp_mono _ _ (fun _ s' => keeps s1 s')).
    + apply wlp_when; intros _; [by apply OnRecvMsgEnd_safe|by split_and!].
    + intros ? s2 (H2 & Hr2 & Hh2 & Hi2). do 3 wp_step. ses_simpl.
      split_and!; try congruence. split_and!; [|done|intros Ht; ses_simpl; congruence].
      destruct H2; constructor; ses_simpl; done.
Qed.

(** The invariant, with the input and the place in the frame kept. *)
Definition in_place (s s' : SessionImplEV) : Prop :=
  recv_inv s' /\ hasHeader_ s' = hasHeader_ s /\ bev_input s' = bev_input s.

Lemma in_place_refl s : recv_inv s -> in_place s s.
Proof. intros H. split; [exact H|done]. Qed.

Lemma in_place_trans s1 s2 s3 : in_place s1 s2 -> in_place s2 s3 -> in_place s1 s3.
Proof. intros (? & ? & ?) (? & ? & ?). split; [done|split; congruence]. Qed.

Lemma in_place_closing s s' : recv_inv s -> calmly closing s s' -> in_place s s'.
Proof.
  intros (H & Hr & Hf) Hc. destruct (calmly_same _ _ _ Hc) as (Hi & Hh & _).
  split; [|done]. split_and!;
    [by eapply base_inv_calmly|by eapply reason_ok_calmly|by eapply in_frame_closing].
Qed.

Lemma CloseWithStatus_in_place status s :
  recv_inv s -> WS_IS_CLOSE_STATUS_NOT_USED status = false ->
  safe (CloseWithStatus env status)
    (fun _ s' => in_place s s' /\ ctrlLen_ s' = ctrlLen_ s /\ ctrlPayload_ s' = ctrlPayload_ s) s.
Proof.
  intros H Hu. eapply wlp_mono; [by apply CloseWithStatus_safe; [apply H|]|].
  intros r s' [Hc _]. split; [by apply in_place_closing|].
  by destruct (calmly_same _ _ _ Hc) as (_ & _ & _ & _ & _ & _ & ? & ?).
Qed.

Lemma store_ctrl_safe n len buf s :
  recv_inv s -> Forall is_byte buf -> 0 <= n -> 0 <= len <= zlen buf -> n + len <= 125 ->
  safe (let! p := getS ctrlPayload_ in
        let! p := liftS (write_at p (Z.to_nat n) (take (Z.to_nat len) buf)) in
        do! updS (with_ctrlPayload_ p) in
        updS (with_ctrlLen_ (n + len))) (fun _ s' => in_place s s') s.
Proof.
  intros (H & Hr & Hf) Hb Hn Hl Hs. do 3 wp_step.
  wp_step; [|right; by eapply write_at_undef]. apply write_at_inv in H0 as [Hsz Hby].
  do 3 wp_step. split; [|done]. split_and!; try done.
  destruct H; constructor; ses_simpl; try done; [lia|congruence|].
  apply Hby; [done|by apply Forall_take].
Qed.

Lemma HandleFrameData_safe buf s :
  recv_inv s -> hasHeader_ s = true -> Forall is_byte buf ->
  safe (HandleFrameData env buf) (fun _ s' => in_place s s') s.
Proof.
  intros H Hh Hb. unfold HandleFrameData. do 2 wp_step. wp_step.
  - pose proof (bi_ctrl _ (proj1 H)) as Hc. pose proof (zlen_nonneg buf).
    unfold WS_CONTROL_MAX_PAYLOAD_LEN. do 3 wp_step.
    eapply (wlp_mono _ _ (fun _ s' => in_place s s')).
    { apply wlp_when; intros _; [|by apply in_place_refl]. wp_step.
      eapply wlp_mono; [by apply CloseWithStatus_in_place|]. intros r s' [? _]. by wp_step. }
    intros ? s1 H1.
    eapply (wlp_mono _ _ (fun _ s' => in_place s1 s')); [|intros; by eapply in_place_trans].
    pose proof (store_ctrl_safe (ctrlLen_ s)
      (if 125 <? ctrlLen_ s + zlen buf then 125 - ctrlLen_ s else zlen buf) buf s1 (proj1 H1) Hb)
      as Hst.
    assert (0 <= (if 125 <? ctrlLen_ s + zlen buf then 125 - ctrlLen_ s else zlen buf) <= zlen buf /\
      ctrlLen_ s + (if 125 <? ctrlLen_ s + zlen buf then 125 - ctrlLen_ s else zlen buf) <= 125)
      as [Hl1 Hl2] by (destruct (125 <? ctrlLen_ s + zlen buf) eqn:?; lia).
    specialize (Hst (proj1 Hc) Hl1 Hl2). clear -Hst.
    unfold wlp, bindS in *. destruct (getS ctrlPayload_ s1) as [[p s2]| |]; try done.
    destruct (liftS _ s2) as [[p' s3]| |]; done.
  - destruct H as (H & Hr & Hf). destruct (Hf Hh Heqb) as [Him [f Hfd]].
    unfold wlp, OnMsgFrameData, deref, lib_call, bindS, getS.
    rewrite Hfd. simpl. rewrite lib_never_fails. simpl. split; [|done].
    split_and!; try done. destruct H; constructor; ses_simpl; done.
Qed.

Lemma check_utf8_safe buf s :
  recv_inv s -> Forall is_byte buf ->
  safe (check_utf8 env buf) (fun _ s' => in_place s s') s.
Proof.
  intros H Hb. unfold check_utf8. do 4 wp_step. wp_step; [|by apply in_place_refl].
  destruct (ValidateUtf8_total buf (utf8State_ s)) as (q & Hq & Hqr);
    [apply H|done|]. do 3 wp_step. eapply wp_wlp, wp_val; [by unfold liftS; rewrite Hq|].
  do 2 wp_step. destruct H as (H & Hr & Hf).
  assert (recv_inv (with_utf8State_ q s)) as H1.
  { split_and!; try done. destruct H; constructor; ses_simpl; done. }
  wp_step.
  - wp_step. eapply wlp_mono; [by apply CloseWithStatus_in_place|]. intros r s' [(? & ? & ?) _].
    wp_step. by split.
  - by split.
Qed.

(** The number of bytes still to be read. *)
Definition pending (s : SessionImplEV) : nat := length (contents (bev_input s)).

Lemma header_buffer (b : evbuffer) :
  let copied := evbuffer_copyout b (Z.to_nat WS_HDR_MAX_SIZE) in
  length (copied ++ drop (length copied) (stack_junk env)) = 14%nat.
Proof.
  simpl. rewrite copyout_law, length_app, length_drop, stack_junk_length, length_take.
  change (Z.to_nat WS_HDR_MAX_SIZE) with 14%nat. lia.
Qed.

Lemma ValidateHeader_pure s : exists r, ValidateHeader s = Ret (r, s).
Proof. unfold ValidateHeader, bindS, getS. repeat case_match; eauto. Qed.

Lemma read_header_safe s :
  recv_inv s -> hasHeader_ s = false ->
  safe (read_header env)
    (fun go s' => recv_inv s' /\ (pending s' <= pending s)%nat /\
       (go = true -> hasHeader_ s' = true /\ (pending s' < pending s \/ pending s = 0)%nat)) s.
Proof.
  intros (H & Hr & Hf) Hh. unfold read_header. do 3 wp_step.
  set (copied := evbuffer_copyout (bev_input s) (Z.to_nat WS_HDR_MAX_SIZE)).
  destruct (UnpackHeader_total 0 (copied ++ drop (length copied) (stack_junk env)) (zlen copied))
    as (st & h & n & Hu & Hwf & Hst & Hn); [apply header_buffer|].
  eapply wp_wlp, wp_val; [by unfold liftS; rewrite Hu|]. cbv beta iota.
  assert (base_inv (with_wsHeader_ h s)) as H1 by (destruct H; constructor; ses_simpl; done).
  assert (recv_inv (with_wsHeader_ h s)) as H1'.
  { split_and!; try done. intros Ht. ses_simpl. congruence. }
  do 4 wp_step. wp_step.
  eapply (wlp_mono _ _ (fun st' s' => s' = with_wsHeader_ h s /\
    (st' = st \/ st' = PARSE_ERROR) /\ (st = NEED_MORE -> st' = NEED_MORE))).
  { wp_step.
    - wp_step. destruct (ValidateHeader_pure (with_wsHeader_ h s)) as [r Hv].
      eapply wp_wlp, wp_val; [exact Hv|]. wp_step. split; [done|].
      apply negb_true_iff, bool_decide_eq_false in Heqb. destruct (negb (r =? 0)); naive_solver.
    - wp_step. auto. }
  intros st' s' (-> & Hst' & Hnm). destruct st'.
  - destruct Hst as [->| ->], Hst'; congruence.
  - wp_step. eapply wlp_mono; [by apply CloseWithStatus_in_place|]. intros r s' [(Hi' & _ & Hb') _].
    wp_step. split; [done|]. unfold pending. rewrite Hb'. done.
  - assert (st = SUCCESS) as -> by (destruct Hst as [->| ->], Hst'; congruence).
    destruct (Hn eq_refl) as [Hn1 Hn2]. do 4 wp_step. wp_step.
    eapply wlp_mono; [apply HandleFrameBegin_safe|].
    + destruct H1; constructor; ses_simpl; try done. rewrite drain_law. by apply Forall_drop.
    + done.
    + done.
    + intros r s' (Hi' & Hh' & Hb'). wp_step. unfold pending. rewrite Hb'. ses_simpl.
      rewrite drain_law, length_drop. split; [done|]. split; [lia|]. intros _. split; [done|].
      destruct (contents (bev_input s)); simpl; [by right|left; lia].
  - wp_step. by split.
Qed.

Lemma read_payload_safe s :
  recv_inv s -> hasHeader_ s = true ->
  safe (read_payload env)
    (fun _ s' => recv_inv s' /\ (pending s' <= pending s)%nat /\
       (hasHeader_ s' = false \/ pending s' < pending s \/ pending s = 0)%nat) s.
Proof.
  intros H Hh. unfold read_payload, input_length. do 6 wp_step. wp_step.
  - wp_step. eapply wlp_mono; [by apply HandleFrameEnd_safe|]. intros r s' (Hi & Hh' & Hb).
    wp_step. unfold pending. rewrite Hb. split; [done|]. auto.
  - do 2 wp_step. destruct (evbuffer_remove _ _) as [buf b'] eqn:Hrem.
    apply remove_law in Hrem as [Hbuf Hb'].
    assert (Forall is_byte buf) as Hby by (subst buf; apply Forall_take, H).
    set (d := if negb (maskBit (wsHeader_ s) =? 0) then _ else _).
    assert (Forall is_byte d) as Hd
      by (subst d; destruct (negb _); [by apply MaskPayload_bytes|done]).
    clearbody d. do 4 wp_step.
    set (s1 := with_recvFrameLen_ _ _).
    assert (recv_inv s1) as H1.
    { subst s1. destruct H as (H & Hr & Hf). split_and!; try done.
      destruct H; constructor; ses_simpl; try done. rewrite Hb'. by apply Forall_drop. }
    assert (hasHeader_ s1 = true) as Hh1 by exact Hh.
    assert ((pending s1 <= pending s)%nat /\ (pending s1 < pending s \/ pending s = 0)%nat) as Hp.
    { unfold pending, s1. ses_simpl. rewrite Hb', length_drop. split; [lia|].
      pose proof (Z.mod_pos_bound (payloadLen (wsHeader_ s) - recvFrameLen_ s) (2 ^ 64) eq_refl).
      rewrite length_law. unfold zlen, u64 in *. apply Z.eqb_neq in Heqb.
      destruct (Z.ltb_spec ((payloadLen (wsHeader_ s) - recvFrameLen_ s) mod 2 ^ 64)
        (Z.of_nat (length (contents (bev_input s))))); lia. }
    clearbody s1. wp_step. eapply wlp_mono; [by apply check_utf8_safe|]. intros ? s2 H2.
    wp_step. eapply wlp_mono; [apply HandleFrameData_safe; [apply H2| |done]|].
    { destruct H2 as (_ & -> & _). done. }
    intros r s3 H3. pose proof (in_place_trans _ _ _ H2 H3) as (Hi3 & Hh3 & Hb3).
    assert (pending s3 = pending s1) as Hp3 by (unfold pending; by rewrite Hb3).
    wp_step; [wp_step; rewrite Hp3; split; [done|]; tauto|]. do 4 wp_step.
    wp_step; [|rewrite Hp3; split; [done|]; tauto].
    wp_step. eapply wlp_mono; [apply HandleFrameEnd_safe; [done|congruence]|].
    intros r' s4 (Hi4 & Hh4 & Hb4). wp_step.
    assert (pending s4 = pending s3) as Hp4 by (unfold pending; by rewrite Hb4).
    rewrite Hp4, Hp3. split; [done|]. tauto.
Qed.

(** A turn that goes on lowers [2 * pending], plus one inside a frame. *)
Definition turns (s : SessionImplEV) : nat := 2 * pending s + (if hasHeader_ s then 1 else 0).

Lemma read_turn_safe s :
  recv_inv s -> pending s <> 0%nat ->
  safe (read_turn env)
    (fun go s' => recv_inv s' /\ (go = true -> turns s' < turns s)%nat) s.
Proof.
  intros H Hne. unfold read_turn. do 2 wp_step. wp_step.
  eapply (wlp_mono _ _ (fun go s' => recv_inv s' /\ (pending s' <= pending s)%nat /\
    (go = true -> hasHeader_ s' = true /\ (pending s' < pending s \/ hasHeader_ s = true)%nat))).
  { destruct (hasHeader_ s) eqn:Hh; simpl.
    - wp_step. auto.
    - eapply wlp_mono; [by apply read_header_safe|]. intros go s' (? & ? & Hgo).
      split_and!; try done. intros Hg. destruct (Hgo Hg). intuition. }
  intros [] s1 (H1 & Hle & Hgo); simpl; [|by wp_step].
  destruct (Hgo eq_refl) as [Hh1 Hlt]. do 3 wp_step.
  apply wlp_when; [intros _|congruence].
  eapply wlp_mono; [by apply read_payload_safe|]. intros ? s2 (H2 & Hle2 & Hlt2).
  wp_step. split; [done|]. intros _. unfold turns.
  destruct (hasHeader_ s), (hasHeader_ s2); intuition (try discriminate; lia).
Qed.

Lemma read_loop_safe fuel : forall s,
  recv_inv s -> (turns s < fuel)%nat -> safe (read_loop env fuel) (fun _ s' => recv_inv s') s.
Proof.
  induction fuel as [|fuel IH]; intros s H Hfuel; [lia|].
  cbn [read_loop]. unfold input_length. do 2 wp_step. wp_step; [by wp_step|].
  assert (pending s <> 0%nat) as Hne.
  { intros Hp. apply Z.eqb_neq in Heqb. apply Heqb. rewrite length_law. unfold zlen.
    unfold pending in Hp. by rewrite Hp. }
  wp_step. eapply wlp_mono; [by apply read_turn_safe|].
  intros [] s1 (H1 & Hlt); simpl; [|by wp_step]. apply IH; [done|]. specialize (Hlt eq_refl). lia.
Qed.

Lemma ReadWebsocket_inv s :
  recv_inv s -> safe (ReadWebsocket env) (fun _ s' => recv_inv s') s.
Proof.
  intros H. unfold ReadWebsocket, input_length. do 6 wp_step.
  apply read_loop_safe; [done|]. rewrite length_law. unfold turns, pending, zlen.
  rewrite Nat2Z.id. destruct (hasHeader_ s); lia.
Qed.
End safety.

(** ** Theorems *)

(** from a session that satisfies the invariant, with library calls that do
    not fail and whatever bytes have arrived, [ReadWebsocket] ends: it returns
    with the invariant again, or a [WTF_CHECK] fails (in a handler that sends
    while the session is not connected), or one of two undefined operations is
    reached: the call of an unset ping or pong callback, and a write past the end
    of [ctrlPayload_]. *)
Theorem ReadWebsocket_safe {E : EvBuffer} {L : EvBufferLaws E} (env : Env) (s : SessionImplEV) :
  EnvOk env -> LibOk env -> recv_inv s ->
  (exists s', ReadWebsocket env s = Ret (tt, s') /\ recv_inv s') \/
  (exists why, ReadWebsocket env s = Killed why) \/
  ReadWebsocket env s = Undef "call through a null function pointer" \/
  ReadWebsocket env s = Undef "write past the end of a buffer".
Proof.
  intros EO LO H. pose proof (ReadWebsocket_inv env s H) as Hw. unfold wlp in Hw.
  destruct (ReadWebsocket env s) as [[[] s']|w|w]; [left; eauto|right; left; eauto|].
  right. right. destruct Hw as [-> | ->]; auto.
Qed.

Lemma open_session_inv : recv_inv open_session.
Proof.
  split_and!; [|by left|done].
  constructor; simpl; try done.
  apply (Forall_replicate is_byte 125 0). unfold is_byte. lia.
Qed.

Lemma ReadWebsocket_safe_witness :
  (exists s', ReadWebsocket sample_env open_session = Ret (tt, s') /\ recv_inv s') \/
  (exists why, ReadWebsocket sample_env open_session = Killed why) \/
  ReadWebsocket sample_env open_session = Undef "call through a null function pointer" \/
  ReadWebsocket sample_env open_session = Undef "write past the end of a buffer".
Proof.
  apply (ReadWebsocket_safe sample_env open_session);
    [apply sample_env_ok|apply sample_lib_ok|apply open_session_inv].
Defined.
