(* ===== verification/WsRecvSpec.v ===== *)
(** * What the frame reader delivers

    Complete frames in the input buffer, frames cut between reads, and what control
    frames lead to.  The code delivers the unfragmented frames of at most 127 bytes
    whose payload is valid UTF-8, binary ones included, and a cut may not fall inside
    a character; the examples show what becomes of others. *)

From stdpp Require Import base list numbers strings.
From Stdlib Require Import ZArith Lia.
From S2P Require Import Prelude Utf8 WsTypes WsHeader Libevent HttpHeader WsState WsSend WsRecv.

#[local] Opaque wire_header.

(** ** [ValidateHeader] *)

(** The headers accepted: no reserved bit, an opcode in use, control frames
    whole, and inside a message only control frames. *)
Definition header_valid (in_msg : bool) (h : WSHeader) : bool :=
  (rsv1 h =? 0) && (rsv2 h =? 0) && (rsv3 h =? 0) &&
  bool_decide (opcode h ∈ [0x0; 0x1; 0x2; 0x8; 0x9; 0xA]) &&
  (negb (IsControlOpcode (opcode h)) || negb (fin h =? 0)) &&
  (negb in_msg || IsControlOpcode (opcode h)).

Section spec.
Context {E : EvBuffer} {L : EvBufferLaws E} (env : Env).

Lemma ValidateHeader_eq s :
  0 <= opcode (wsHeader_ s) < 16 ->
  ValidateHeader s = Ret ((if header_valid (inMsgFlag_ s) (wsHeader_ s) then 0 else -1), s).
Proof.
  intros Ho. unfold ValidateHeader, header_valid, bindS, getS.
  destruct (rsv1 _ =? 0), (rsv2 _ =? 0), (rsv3 _ =? 0); simpl; try done.
  assert (opcode (wsHeader_ s) = 0 \/ opcode (wsHeader_ s) = 1 \/ opcode (wsHeader_ s) = 2 \/
    opcode (wsHeader_ s) = 3 \/ opcode (wsHeader_ s) = 4 \/ opcode (wsHeader_ s) = 5 \/
    opcode (wsHeader_ s) = 6 \/ opcode (wsHeader_ s) = 7 \/ opcode (wsHeader_ s) = 8 \/
    opcode (wsHeader_ s) = 9 \/ opcode (wsHeader_ s) = 10 \/ opcode (wsHeader_ s) = 11 \/
    opcode (wsHeader_ s) = 12 \/ opcode (wsHeader_ s) = 13 \/ opcode (wsHeader_ s) = 14 \/
    opcode (wsHeader_ s) = 15) as Hc by lia.
  repeat destruct Hc as [Hc|Hc]; rewrite Hc; simpl;
    destruct (fin (wsHeader_ s) =? 0), (inMsgFlag_ s); reflexivity.
Qed.

Context {EO : EnvOk env} {LO : LibOk env}.

(** ** Taking a header *)

(** The state after the header [h] has been taken from the input. *)
Definition header_taken (h : WSHeader) (s : SessionImplEV) : SessionImplEV :=
  with_bev_input (evbuffer_drain (bev_input s) (length (wire_header h)))
    (with_hasHeader_ true (with_wsHeader_ h s)).

Lemma copied_header h rest (b : evbuffer) :
  contents b = wire_header h ++ rest ->
  exists more, evbuffer_copyout b (Z.to_nat WS_HDR_MAX_SIZE) = wire_header h ++ more.
Proof.
  intros Hc. rewrite copyout_law, Hc. change (Z.to_nat WS_HDR_MAX_SIZE) with 14%nat.
  pose proof (zlen_wire_header h). exists (take (14 - length (wire_header h)) rest).
  rewrite take_app. f_equal. apply take_ge. unfold zlen in *. lia.
Qed.

Lemma unpack_input h rest (s : SessionImplEV) :
  wf_header h -> (maskBit h = 0 -> mask h = 0) ->
  contents (bev_input s) = wire_header h ++ rest ->
  let copied := evbuffer_copyout (bev_input s) (Z.to_nat WS_HDR_MAX_SIZE) in
  UnpackHeader 0 (copied ++ drop (length copied) (stack_junk env)) (zlen copied)
    = Ret (SUCCESS, h, zlen (wire_header h)).
Proof.
  intros Hwf Hm Hc. simpl. destruct (copied_header h rest _ Hc) as [more ->].
  rewrite <- app_assoc. apply UnpackHeader_wire; [done|done|].
  rewrite zlen_app. pose proof (zlen_nonneg more). lia.
Qed.

Lemma read_header_valid h rest s :
  wf_header h -> (maskBit h = 0 -> mask h = 0) ->
  contents (bev_input s) = wire_header h ++ rest ->
  header_valid (inMsgFlag_ s) h = true ->
  read_header env s = (let! _ := HandleFrameBegin env in retS true) (header_taken h s).
Proof.
  intros Hwf Hm Hc Hv. unfold read_header. unfold bindS at 1 2, getS at 1, liftS.
  rewrite (unpack_input h rest s) by done. unfold bindS at 1 2 3, updS at 1. simpl.
  unfold bindS at 1. rewrite ValidateHeader_eq by apply Hwf. ses_simpl. rewrite Hv. simpl.
  unfold bindS at 1 2, updS, header_taken. unfold zlen. by rewrite Nat2Z.id.
Qed.

(** A header that breaks the protocol: the connection is closed with 1002 and
    nothing is taken from the input. *)
Lemma read_header_invalid h rest s :
  wf_header h -> (maskBit h = 0 -> mask h = 0) ->
  contents (bev_input s) = wire_header h ++ rest ->
  header_valid (inMsgFlag_ s) h = false ->
  read_header env s =
    (let! _ := CloseWithStatus env PROTOCOL_ERR_1002 in retS false) (with_wsHeader_ h s).
Proof.
  intros Hwf Hm Hc Hv. unfold read_header. unfold bindS at 1 2, getS at 1, liftS.
  rewrite (unpack_input h rest s) by done. unfold bindS at 1 2 3, updS at 1. simpl.
  unfold bindS at 1. rewrite ValidateHeader_eq by apply Hwf. ses_simpl. by rewrite Hv.
Qed.

(** ** Data frames *)

(** A whole message in one frame, text or binary. *)
Definition data_header (h : WSHeader) : Prop :=
  wf_header h /\ (maskBit h = 0 -> mask h = 0) /\
  fin h = 1 /\ rsv1 h = 0 /\ rsv2 h = 0 /\ rsv3 h = 0 /\
  (opcode h = op TEXT_0X1 \/ opcode h = op BINARY_0X2).

Definition is_binary (h : WSHeader) : bool := opcode h =? op BINARY_0X2.

(** A handler that is set and makes no calls of the session. *)
Definition quiet (cb : MessageHandler) : Prop :=
  IsValid cb = true /\ forall m b, MessageHandler_call cb m b = [].

Record listening (cb : MessageHandler) (tr : list Happening) (input : bytes)
  (s : SessionImplEV) : Prop := {
  li_bin : msgIsBinary s = false;
  li_cb : onMessage_ s = cb;
  li_state : state_ s <> CLOSING;
  li_open : bev_ s = true;
  li_trace : trace s = tr;
  li_input : contents (bev_input s) = input
}.

(** Between two messages. *)
Definition idle (cb : MessageHandler) (tr : list Happening) (input : bytes)
  (s : SessionImplEV) : Prop :=
  listening cb tr input s /\ hasHeader_ s = false /\ inMsgFlag_ s = false.

(** In the frame with header [h], of which the payload [got] has been read. *)
Record reading (cb : MessageHandler) (tr : list Happening) (h : WSHeader) (got input : bytes)
  (s : SessionImplEV) : Prop := {
  rd_listening : listening cb tr input s;
  rd_has : hasHeader_ s = true;
  rd_header : wsHeader_ s = h;
  rd_in : inMsgFlag_ s = true;
  rd_binary : msgIsBinary_ s = is_binary h;
  rd_len : recvFrameLen_ s = zlen got;
  rd_utf8 : utf8State_ s = WS_UTF8_ACCEPT;
  rd_frame : exists f, frameData_ s = Some f /\ contents f = got;
  rd_msg : exists m, msg_ s = Some m /\ contents m = []
}.

Lemma data_not_control h : data_header h -> IsControlOpcode (opcode h) = false.
Proof. intros (_ & _ & _ & _ & _ & _ & [-> | ->]); done. Qed.

Lemma data_valid h : data_header h -> header_valid false h = true.
Proof.
  intros (_ & _ & Hf & H1 & H2 & H3 & Ho). unfold header_valid. rewrite H1, H2, H3, Hf.
  destruct Ho as [-> | ->]; done.
Qed.

Lemma read_header_begins cb tr h rest s :
  data_header h -> idle cb tr (wire_header h ++ rest) s ->
  wp (read_header env) (fun go s' => go = true /\ reading cb tr h [] rest s') s.
Proof.
  intros Hd (Hl & Hh & Him). pose proof (li_input _ _ _ _ Hl) as Hin.
  eapply wp_eq; [apply (read_header_valid h rest); try apply Hd; [done|]|].
  { rewrite Him. by apply data_valid. }
  unfold HandleFrameBegin, OnRecvMsgBegin, OnMsgFrameBegin, new_buffer, lib_call.
  unfold wp, bindS, updS, getS, header_taken. ses_simpl. rewrite data_not_control by done.
  simpl. rewrite Him. simpl. rewrite !lib_never_fails. simpl. split; [done|].
  destruct Hl. constructor; simpl; try done.
  - constructor; simpl; try done. rewrite drain_law, Hin. by rewrite drop_app_length.
  - eexists. split; [done|]. apply contents_new.
  - eexists. split; [done|]. apply contents_new.
Qed.

(** Finishing the message. *)
Lemma HandleFrameEnd_delivers cb tr h got rest s :
  data_header h -> quiet cb -> reading cb tr h got rest s ->
  wp (HandleFrameEnd env) (fun _ s' => idle cb (Message_cb got (is_binary h) :: tr) rest s') s.
Proof.
  intros Hd [Hv Hq] Hr. destruct Hr as [[] Hh Hw Him Hb Hlen Hu (f & Hf & Hcf) (m & Hm & Hcm)].
  unfold wp, HandleFrameEnd, OnMsgFrameEnd, OnMsgFrame, deref, lib_call, bindS, getS.
  rewrite Hw, (data_not_control h Hd). simpl. rewrite Hf. simpl. rewrite Hm. simpl. rewrite Hf. simpl.
  rewrite lib_never_fails. simpl.
  destruct (evbuffer_add_buffer m f) as [m' f'] eqn:Hab. apply add_buffer_law in Hab as [Hm' Hf'].
  simpl. assert (fin (wsHeader_ s) = 1) as Hfin by (rewrite Hw; apply Hd). rewrite Hfin. simpl.
  unfold OnRecvMsgEnd, deref, bindS, getS. simpl.
  replace (onMessage_ s) with cb by done. rewrite Hv, bool_decide_false by done. simpl.
  unfold happen, run_handler, bindS. simpl. rewrite Hq. simpl.
  rewrite pullup_law, Hm', Hcm, Hcf, Hb. simpl.
  split_and!; try done. constructor; simpl; try done. congruence.
Qed.

(** The payload bytes as sent, with the mask of the standard removed: the key is
    the four octets sent in the header. *)
Definition payload_of (h : WSHeader) (p : bytes) : bytes :=
  if maskBit h =? 0 then p else rfc6455_mask (le_bytes 4 (mask h)) p.

Lemma payload_unmask h p :
  (if negb (maskBit h =? 0) then UnmaskPayload (mask h) p else p) = payload_of h p.
Proof.
  unfold payload_of, UnmaskPayload. rewrite MaskPayload_rfc6455. by destruct (maskBit h =? 0).
Qed.

Lemma zlen_payload_of h p : zlen (payload_of h p) = zlen p.
Proof.
  rewrite <- payload_unmask. unfold UnmaskPayload, zlen.
  destruct (negb _); by rewrite ?length_MaskPayload.
Qed.

(** Text that ends on a character boundary passes the check. *)
Lemma check_utf8_ok d s :
  utf8State_ s = WS_UTF8_ACCEPT -> ValidateUtf8 WS_UTF8_ACCEPT d = Ret WS_UTF8_ACCEPT ->
  check_utf8 env d s = Ret (tt, s).
Proof.
  intros Hu Hv. unfold check_utf8, bindS, getS, whenS.
  destruct (negb (msgIsBinary s) && _); [|done]. rewrite Hu. unfold liftS. rewrite Hv.
  unfold updS. simpl. apply ret_state. rewrite <- Hu. by destruct s.
Qed.

(** Reading [p] of the frame. *)
Lemma read_payload_stores cb tr h got p rest s :
  data_header h -> reading cb tr h got (p ++ rest) s -> zlen got < payloadLen h ->
  zlen got + zlen p <= payloadLen h -> (zlen got + zlen p = payloadLen h \/ rest = []) ->
  ValidateUtf8 WS_UTF8_ACCEPT (payload_of h p) = Ret WS_UTF8_ACCEPT ->
  exists s1, reading cb tr h (got ++ payload_of h p) rest s1 /\
    read_payload env s = (whenS (zlen got + zlen p =? payloadLen h)
                            (let! _ := HandleFrameEnd env in retS tt)) s1.
Proof.
  intros Hd Hr Hp Hle Hcase Hv. pose proof (zlen_nonneg got). pose proof (zlen_nonneg rest).
  pose proof (zlen_nonneg p) as Hp0.
  assert (0 <= payloadLen h < 128) as Hpl by apply Hd.
  destruct Hr as [[Hbin Hcb Hst Hop Htr Hin] Hh Hw Him Hb Hlen Hu (f & Hf & Hcf) Hm].
  unfold read_payload, input_length. unfold bindS at 1 2 3, getS at 1 2 3.
  rewrite Hw, Hlen, length_law, Hin.
  replace (u64 (payloadLen h - zlen got)) with (payloadLen h - zlen got)
    by (unfold u64; rewrite Z.mod_small; lia).
  replace (payloadLen h - zlen got =? 0) with false by lia. rewrite zlen_app.
  replace (if payloadLen h - zlen got <? zlen p + zlen rest then payloadLen h - zlen got
           else zlen p + zlen rest) with (zlen p)
    by (destruct (Z.ltb_spec (payloadLen h - zlen got) (zlen p + zlen rest));
        destruct Hcase as [?|Hnil]; [lia|rewrite Hnil in *; change (zlen []) with 0 in *; lia|lia
                                    |rewrite Hnil in *; change (zlen []) with 0 in *; lia]).
  unfold bindS at 1, getS at 1.
  replace (Z.to_nat (zlen p)) with (length p) by (unfold zlen; lia).
  destruct (evbuffer_remove (bev_input s) (length p)) as [buf b'] eqn:Hrem.
  apply remove_law in Hrem as [-> Hb']. rewrite Hin in *.
  rewrite take_app_length. rewrite drop_app_length in Hb'.
  rewrite payload_unmask.
  replace (u64 (zlen got + zlen p)) with (zlen got + zlen p)
    by (unfold u64; rewrite Z.mod_small; lia).
  unfold bindS at 1 2, updS at 1 2. set (s1 := with_recvFrameLen_ _ _).
  unfold bindS at 1. rewrite check_utf8_ok by done.
  unfold bindS at 1, HandleFrameData at 1, bindS at 1, getS at 1.
  change (wsHeader_ s1) with (wsHeader_ s). rewrite Hw, (data_not_control h Hd).
  unfold OnMsgFrameData, deref, lib_call, bindS at 1 2 3, getS at 1.
  change (frameData_ s1) with (frameData_ s). rewrite Hf. simpl. unfold bindS at 1. rewrite lib_never_fails. simpl.
  eexists. split; [|unfold bindS at 1 2, getS; simpl; by rewrite Hw].
  constructor; simpl; try done.
  - rewrite zlen_app, zlen_payload_of. done.
  - eexists. split; [done|]. rewrite add_law. by rewrite Hcf.
Qed.

(** Nothing left to read of the frame. *)
Lemma read_payload_end cb tr h got rest s :
  reading cb tr h got rest s -> zlen got = payloadLen h ->
  read_payload env s = (let! _ := HandleFrameEnd env in retS tt) s.
Proof.
  intros Hr Hlen. unfold read_payload, input_length. unfold bindS at 1 2 3, getS.
  rewrite (rd_header _ _ _ _ _ _ Hr), (rd_len _ _ _ _ _ _ Hr), Hlen, Z.sub_diag. done.
Qed.

Lemma end_delivers cb tr h got rest s :
  data_header h -> quiet cb -> reading cb tr h got rest s ->
  wp (let! _ := HandleFrameEnd env in retS tt)
    (fun _ s' => idle cb (Message_cb got (is_binary h) :: tr) rest s') s.
Proof.
  intros Hd Hq Hr. wp_step. eapply wp_mono; [by apply HandleFrameEnd_delivers|].
  intros r s' Hi. by wp_step.
Qed.

(** The rest of the payload is there. *)
Lemma read_payload_finishes cb tr h got p rest s :
  data_header h -> quiet cb -> reading cb tr h got (p ++ rest) s ->
  zlen got + zlen p = payloadLen h ->
  ValidateUtf8 WS_UTF8_ACCEPT (payload_of h p) = Ret WS_UTF8_ACCEPT ->
  wp (read_payload env)
    (fun _ s' => idle cb (Message_cb (got ++ payload_of h p) (is_binary h) :: tr) rest s') s.
Proof.
  intros Hd Hq Hr Hlen Hv. pose proof (zlen_nonneg p).
  destruct (decide (zlen got = payloadLen h)) as [He|Hne].
  - assert (p = []) as -> by (destruct p; [done|]; unfold zlen in *; simpl in *; lia).
    eapply wp_eq; [by eapply read_payload_end|].
    assert (payload_of h [] = []) as -> by (unfold payload_of; by case_match).
    rewrite app_nil_r. by apply end_delivers.
  - destruct (read_payload_stores cb tr h got p rest s) as (s1 & Hs1 & Heq); try done; [lia..|by left|].
    eapply wp_eq; [exact Heq|]. rewrite Hlen, Z.eqb_refl. simpl. by apply end_delivers.
Qed.

(** A whole frame at the front of the input takes one turn. *)
Lemma read_turn_whole cb tr h p rest s :
  data_header h -> quiet cb -> idle cb tr (wire_header h ++ p ++ rest) s ->
  zlen p = payloadLen h -> ValidateUtf8 WS_UTF8_ACCEPT (payload_of h p) = Ret WS_UTF8_ACCEPT ->
  wp (read_turn env)
    (fun go s' => go = true /\ idle cb (Message_cb (payload_of h p) (is_binary h) :: tr) rest s') s.
Proof.
  intros Hd Hq Hi Hlen Hv. unfold read_turn. do 2 wp_step.
  destruct Hi as (Hl & Hh & Him). rewrite Hh. cbn [negb]. wp_step.
  eapply wp_mono; [by apply (read_header_begins cb tr h (p ++ rest))|]. intros go s1 (-> & Hr).
  cbn [negb]. do 3 wp_step. apply wp_when; [intros _|by rewrite (rd_has _ _ _ _ _ _ Hr)].
  eapply wp_mono; [by apply (read_payload_finishes cb tr h [] p rest)|].
  intros ? s2 H2. by wp_step.
Qed.

Lemma wire_header_cons h : exists b bs, wire_header h = b :: bs.
Proof.
  pose proof (zlen_wire_header h). destruct (wire_header h); [|eauto].
  unfold zlen in *. simpl in *. lia.
Qed.

(** The frames of a stream and what they deliver. *)
Definition stream (frames : list (WSHeader * bytes)) : bytes :=
  concat ((fun f => wire_header f.1 ++ f.2) <$> frames).

Definition good_frame (f : WSHeader * bytes) : Prop :=
  data_header f.1 /\ zlen f.2 = payloadLen f.1 /\
  ValidateUtf8 WS_UTF8_ACCEPT (payload_of f.1 f.2) = Ret WS_UTF8_ACCEPT.

Definition delivery (f : WSHeader * bytes) : Happening :=
  Message_cb (payload_of f.1 f.2) (is_binary f.1).

Lemma read_loop_frames cb frames : forall fuel tr s,
  quiet cb -> Forall good_frame frames -> idle cb tr (stream frames) s ->
  (length frames < fuel)%nat ->
  wp (read_loop env fuel) (fun _ s' => idle cb (rev (delivery <$> frames) ++ tr) [] s') s.
Proof.
  induction frames as [|[h p] frames IH]; intros [|fuel] tr s Hq HF Hi Hfuel; simpl in Hfuel; try lia;
    cbn [read_loop]; unfold input_length; do 2 wp_step; rewrite length_law;
    rewrite (li_input _ _ _ _ (proj1 Hi)).
  - by wp_step.
  - apply Forall_cons in HF as [(Hd & Hlen & Hv) HF]. simpl in Hd, Hlen, Hv.
    unfold stream in *. rewrite fmap_cons in *. cbn [concat fst snd] in *.
    destruct (wire_header_cons h) as (b0 & bs & Hw).
    replace (zlen _ =? 0) with false
      by (symmetry; apply Z.eqb_neq; rewrite Hw; cbn [app]; rewrite zlen_cons;
          pose proof (zlen_nonneg ((bs ++ p) ++ stream frames)); unfold stream in *; lia).
    wp_step. rewrite <- app_assoc in Hi.
    eapply wp_mono; [by eapply (read_turn_whole cb tr h p)|]. intros go s1 (-> & H1). cbn [negb].
    eapply wp_mono; [apply (IH fuel (delivery (h, p) :: tr) s1); try done; lia|].
    intros ? s2 H2. rewrite fmap_cons. cbn [rev]. rewrite <- app_assoc. exact H2.
Qed.

Lemma ReadWebsocket_frames cb frames tr s :
  quiet cb -> Forall good_frame frames -> idle cb tr (stream frames) s ->
  wp (ReadWebsocket env) (fun _ s' => idle cb (rev (delivery <$> frames) ++ tr) [] s') s.
Proof.
  intros Hq HF Hi. unfold ReadWebsocket, input_length. do 3 wp_step. apply wp_check; [apply Hi|].
  do 2 wp_step. rewrite length_law, (li_input _ _ _ _ (proj1 Hi)).
  apply read_loop_frames; try done. unfold zlen, stream. rewrite Nat2Z.id. clear.
  induction frames as [|f frames IH]; [simpl; lia|]. rewrite fmap_cons. cbn [concat length].
  rewrite length_app. destruct (wire_header_cons f.1) as (b & bs & ->). simpl in *. lia.
Qed.

(** ** Frames cut anywhere *)

(** [ReadWebsocket] after each of a series of arrivals. *)
Fixpoint feed (chunks : list bytes) : M SessionImplEV unit :=
  match chunks with
  | [] => retS tt
  | c :: chunks' =>
      do! updS (fun s => with_bev_input (evbuffer_add (bev_input s) c) s) in
      do! ReadWebsocket env in
      feed chunks'
  end.

(** The unmasked text frame of a short message. *)
Definition text_header (m : bytes) : WSHeader := mkWSHeader 1 0 0 0 (op TEXT_0X1) 0 (zlen m) 0 0.
Definition text_frame (m : bytes) : WSHeader * bytes := (text_header m, m).

(** A frame as a server sends it: not masked. *)
Definition server_frame (f : WSHeader * bytes) : Prop := good_frame f /\ maskBit f.1 = 0.

(** A read may end where the bytes [rest] of the frames have not arrived yet: if
    that is inside a payload, what has come of it ends with a whole character. *)
Definition clean_cut (frames : list (WSHeader * bytes)) (rest : bytes) : Prop :=
  forall sent h p1 p2 later, frames = sent ++ (h, p1 ++ p2) :: later -> rest = p2 ++ stream later ->
    ValidateUtf8 WS_UTF8_ACCEPT p1 = Ret WS_UTF8_ACCEPT.

(** Every read ends so. *)
Definition clean_cuts (frames : list (WSHeader * bytes)) (chunks : list bytes) : Prop :=
  forall arrived later, chunks = arrived ++ later -> clean_cut frames (concat later).

Lemma clean_cut_tail f frames rest : clean_cut (f :: frames) rest -> clean_cut frames rest.
Proof. intros Hc sent h p1 p2 later -> Hr. by apply (Hc (f :: sent) h p1 p2 later). Qed.

Lemma clean_cuts_head frames chunks : clean_cuts frames chunks -> clean_cut frames (concat chunks).
Proof. intros Hc. by apply (Hc []). Qed.

Lemma clean_cuts_tail frames c chunks : clean_cuts frames (c :: chunks) -> clean_cuts frames chunks.
Proof. intros Hc arrived later ->. by apply (Hc (c :: arrived)). Qed.

Lemma clean_cuts_next f frames chunks : clean_cuts (f :: frames) chunks -> clean_cuts frames chunks.
Proof. intros Hc arrived later Heq. eapply clean_cut_tail, Hc, Heq. Qed.

Lemma payload_unmasked h p : maskBit h = 0 -> payload_of h p = p.
Proof. unfold payload_of. by intros ->. Qed.

(** Whole characters after whole characters are whole. *)
Lemma whole_rest a b :
  ValidateUtf8 WS_UTF8_ACCEPT (a ++ b) = Ret WS_UTF8_ACCEPT ->
  ValidateUtf8 WS_UTF8_ACCEPT a = Ret WS_UTF8_ACCEPT ->
  ValidateUtf8 WS_UTF8_ACCEPT b = Ret WS_UTF8_ACCEPT.
Proof. intros Hab Ha. by rewrite ValidateUtf8_app, Ha in Hab. Qed.

(** A part of a header is not a header yet. *)
Lemma read_header_waits h part more cb tr s :
  wf_header h -> maskBit h = 0 -> wire_header h = part ++ more -> more <> [] ->
  idle cb tr part s ->
  wp (read_header env) (fun go s' => go = false /\ idle cb tr part s') s.
Proof.
  intros Hwf Hm Hw Hne Hi. pose proof (li_input _ _ _ _ (proj1 Hi)) as Hin.
  assert (length part <= 14)%nat as Hl.
  { pose proof (zlen_wire_header h) as Hz. rewrite Hw, zlen_app in Hz.
    pose proof (zlen_nonneg more). unfold zlen in *. lia. }
  unfold wp, read_header, bindS, getS. rewrite copyout_law, Hin.
  rewrite take_ge by (change (Z.to_nat WS_HDR_MAX_SIZE) with 14%nat; lia).
  unfold liftS. destruct (UnpackHeader_part h part more (drop (length part) (stack_junk env)) 0)
    as (h' & n & ->); try done. cbn. split; [done|].
  destruct Hi as ([] & ? & ?). by split_and!.
Qed.

(** What the session waits for: [rest] has not arrived yet, [frames] have not
    been delivered. *)
Inductive awaiting (cb : MessageHandler) (tr : list Happening) (input rest : bytes)
  (frames : list (WSHeader * bytes)) (s : SessionImplEV) : Prop :=
| await_header :
    idle cb tr input s -> input ++ rest = stream frames -> awaiting cb tr input rest frames s
| await_payload h p1 p2 later :
    frames = (h, p1 ++ p2) :: later -> p2 <> [] ->
    ValidateUtf8 WS_UTF8_ACCEPT p1 = Ret WS_UTF8_ACCEPT ->
    reading cb tr h p1 input s -> input ++ rest = p2 ++ stream later ->
    awaiting cb tr input rest frames s.

Lemma stream_cons h p frames :
  stream ((h, p) :: frames) = wire_header h ++ p ++ stream frames.
Proof. unfold stream. rewrite fmap_cons. cbn [concat fst snd]. by rewrite <- app_assoc. Qed.

(** All that will have been delivered in the end. *)
Definition outlook (frames : list (WSHeader * bytes)) (tr : list Happening) : list Happening :=
  rev (delivery <$> frames) ++ tr.

Lemma outlook_cons h p frames tr :
  maskBit h = 0 -> outlook frames (Message_cb p (is_binary h) :: tr) = outlook ((h, p) :: frames) tr.
Proof.
  intros Hm. unfold outlook. rewrite fmap_cons. cbn [rev]. rewrite <- app_assoc.
  change (delivery (h, p)) with (Message_cb (payload_of h p) (is_binary h)).
  by rewrite payload_unmasked.
Qed.

(** What is known after a turn or a loop: the same frames in sight. *)
Definition progress (cb : MessageHandler) (rest : bytes) (frames : list (WSHeader * bytes))
  (tr : list Happening) (input' : bytes) (s' : SessionImplEV) : Prop :=
  exists tr' frames', awaiting cb tr' input' rest frames' s' /\ Forall server_frame frames' /\
    clean_cut frames' rest /\ outlook frames' tr' = outlook frames tr /\
    exists sent, frames = sent ++ frames'.

(** The frame is finished with [k] left in the input. *)
Lemma finish_frame cb tr h p1 p2 k rest later s :
  quiet cb -> server_frame (h, p1 ++ p2) -> Forall server_frame later ->
  clean_cut later rest -> ValidateUtf8 WS_UTF8_ACCEPT p1 = Ret WS_UTF8_ACCEPT ->
  reading cb tr h p1 (p2 ++ k) s -> k ++ rest = stream later ->
  wp (read_payload env) (fun _ s' => progress cb rest ((h, p1 ++ p2) :: later) tr k s') s.
Proof.
  intros Hq [(Hd & Hlen & Hv) Hm] HF Hc Hv1 Hr Hcat. cbn [fst snd] in *.
  rewrite payload_unmasked in Hv by done. rewrite zlen_app in Hlen.
  eapply wp_mono.
  { apply (read_payload_finishes cb tr h p1 p2 k); try done.
    rewrite payload_unmasked by done. by apply (whole_rest p1). }
  intros ? s' Hi. rewrite payload_unmasked in Hi by done.
  eexists _, later. split; [by apply await_header; [exact Hi|]|]. split_and!; try done.
  - by apply outlook_cons.
  - by exists [(h, p1 ++ p2)].
Qed.

(** Reading payload: the message is delivered or all the input is stored. *)
Lemma read_payload_some cb tr h p1 p2 input rest later s :
  quiet cb -> server_frame (h, p1 ++ p2) -> Forall server_frame later ->
  clean_cut ((h, p1 ++ p2) :: later) rest ->
  ValidateUtf8 WS_UTF8_ACCEPT p1 = Ret WS_UTF8_ACCEPT ->
  reading cb tr h p1 input s -> input ++ rest = p2 ++ stream later ->
  wp (read_payload env)
    (fun _ s' => exists input', progress cb rest ((h, p1 ++ p2) :: later) tr input' s' /\
       (length input' <= length input)%nat /\
       (input <> [] -> p2 <> [] -> (length input' < length input)%nat)) s.
Proof.
  intros Hq Hs HF Hc Hv1 Hr Hcat.
  apply app_eq_inv in Hcat as [(k & Hin & Htl)|(k & Hmk & Hrest)].
  - (* the rest of the payload is there *)
    rewrite Hin in Hr. eapply wp_mono.
    { apply (finish_frame cb tr h p1 p2 k rest later s); try done. by eapply clean_cut_tail. }
    intros ? s' Hp. exists k. split; [exact Hp|]. rewrite Hin, length_app.
    split; [lia|]. intros _ Hne. destruct p2; [done|]. simpl. lia.
  - (* only a part of it *)
    destruct (decide (k = [])) as [->|Hk].
    { rewrite app_nil_r in Hmk. subst p2. simpl in Hrest. rewrite <- (app_nil_r input) in Hr.
      eapply wp_mono.
      { apply (finish_frame cb tr h p1 input [] rest later s); try done. by eapply clean_cut_tail. }
      intros ? s' Hp. exists []. split; [exact Hp|]. simpl.
      split; [lia|]. intros Hne _. destruct input; [done|]. simpl. lia. }
    destruct Hs as [(Hd & Hlen & Hv) Hm]. cbn [fst snd] in *.
    rewrite payload_unmasked in Hv by done. subst p2. rewrite !zlen_app in Hlen.
    assert (0 < zlen k) by (destruct k; [done|rewrite zlen_cons; pose proof (zlen_nonneg k); lia]).
    pose proof (zlen_nonneg input).
    rewrite app_assoc in Hc.
    assert (ValidateUtf8 WS_UTF8_ACCEPT (p1 ++ input) = Ret WS_UTF8_ACCEPT) as Hv2
      by (by apply (Hc [] h (p1 ++ input) k later)).
    rewrite <- (app_nil_r input) in Hr.
    destruct (read_payload_stores cb tr h p1 input [] s) as (s1 & Hs1 & Heq);
      try done; [lia|lia|by right| |].
    { rewrite payload_unmasked by done. by apply (whole_rest p1). }
    eapply wp_eq; [exact Heq|]. replace (_ =? _) with false by lia. simpl.
    rewrite payload_unmasked in Hs1 by done. exists []. split.
    + exists tr, ((h, (p1 ++ input) ++ k) :: later). rewrite app_assoc in *. split_and!; try done.
      * by eapply (await_payload cb tr [] rest _ s1 h (p1 ++ input) k later).
      * constructor; [|done]. split; [|done]. split_and!; try done; cbn [fst snd].
        -- rewrite !zlen_app. lia.
        -- by rewrite payload_unmasked.
      * by exists [].
    + simpl. split; [lia|]. intros Hne _. destruct input; [done|]. simpl. lia.
Qed.

Lemma awaiting_has cb tr input rest frames s :
  awaiting cb tr input rest frames s ->
  (hasHeader_ s = false /\ idle cb tr input s /\ input ++ rest = stream frames) \/
  (hasHeader_ s = true /\ exists h p1 p2 later, frames = (h, p1 ++ p2) :: later /\ p2 <> [] /\
     ValidateUtf8 WS_UTF8_ACCEPT p1 = Ret WS_UTF8_ACCEPT /\
     reading cb tr h p1 input s /\ input ++ rest = p2 ++ stream later).
Proof.
  intros [Hi Hc|h p1 p2 later ? ? ? Hr ?]; [left|right].
  - split_and!; try done. apply Hi.
  - split; [apply Hr|]. naive_solver.
Qed.

Lemma awaiting_listening cb tr input rest frames s :
  awaiting cb tr input rest frames s -> bev_ s = true /\ contents (bev_input s) = input.
Proof. intros [[[] _] _|? ? ? ? _ _ _ [[] ? ? ? ? ? ? ? ?] _]; done. Qed.

(** At the end of a read: no part of a payload is left in the input, and less
    than a header. *)
Definition drained (frames : list (WSHeader * bytes)) (input : bytes) (s : SessionImplEV) : Prop :=
  (hasHeader_ s = true -> input = []) /\
  (hasHeader_ s = false -> forall f later, frames = f :: later ->
     (length input < length (wire_header f.1))%nat).

Definition turned (cb : MessageHandler) (rest : bytes) (frames : list (WSHeader * bytes))
  (tr : list Happening) (input : bytes) (go : bool) (s' : SessionImplEV) : Prop :=
  if go then exists input', progress cb rest frames tr input' s' /\ (length input' < length input)%nat
  else awaiting cb tr input rest frames s' /\ drained frames input s'.

(** A whole header, and what has come of the payload. *)
Lemma read_header_whole cb tr h p k input rest later s :
  quiet cb -> server_frame (h, p) -> Forall server_frame later ->
  clean_cut ((h, p) :: later) rest -> idle cb tr input s -> input = wire_header h ++ k ->
  k ++ rest = p ++ stream later ->
  wp (let! go_on := read_header env in
      if negb go_on then retS false else
      let! has := getS hasHeader_ in do! whenS has (read_payload env) in retS true)
    (turned cb rest ((h, p) :: later) tr input) s.
Proof.
  intros Hq Hs HF Hc Hi -> Hcat. wp_step. eapply wp_mono.
  { by apply (read_header_begins cb tr h k); [apply Hs|]. }
  intros go s1 (-> & Hr). cbn [negb]. do 3 wp_step.
  apply wp_when; [intros _|by rewrite (rd_has _ _ _ _ _ _ Hr)].
  eapply wp_mono; [by apply (read_payload_some cb tr h [] p k rest later s1)|].
  intros ? s2 (input' & Hpr & Hle & _). wp_step. exists input'. split; [done|].
  rewrite length_app. destruct (wire_header_cons h) as (b & bs & ->). simpl. lia.
Qed.

Lemma drained_nil frames s : drained frames [] s.
Proof.
  split; [done|]. intros _ f later _. destruct (wire_header_cons f.1) as (b & bs & ->). simpl. lia.
Qed.

(** A turn between two frames. *)
Lemma read_turn_header cb tr input rest frames s :
  quiet cb -> Forall server_frame frames -> clean_cut frames rest -> hasHeader_ s = false ->
  idle cb tr input s -> input ++ rest = stream frames -> input <> [] ->
  wp (read_turn env) (turned cb rest frames tr input) s.
Proof.
  intros Hq HF Hc Hh Hi Hcat Hne. unfold read_turn. do 2 wp_step. rewrite Hh. cbn [negb].
  destruct frames as [|[h p] frames]; [by destruct input|].
  pose proof HF as [Hs HF']%Forall_cons. rewrite stream_cons in Hcat.
  apply app_eq_inv in Hcat as [(k & Hin & Htl)|(k & Hmk & Hrest)];
    [by apply (read_header_whole cb tr h p k)|].
  destruct (decide (k = [])) as [->|Hk].
  { rewrite app_nil_r in Hmk.
    apply (read_header_whole cb tr h p []); try done. by rewrite app_nil_r. }
  wp_step. eapply wp_mono; [by apply (read_header_waits h input k cb tr); try apply Hs|].
  intros go s1 (-> & Hi1). cbn [negb]. wp_step. split.
  - apply await_header; [done|]. by rewrite stream_cons, Hmk, Hrest, <- app_assoc.
  - split; [by destruct Hi1 as (_ & -> & _)|]. intros _ f later [= <- <-]. cbn [fst].
    rewrite Hmk, length_app. destruct k; [done|]. simpl. lia.
Qed.

(** A turn inside a frame. *)
Lemma read_turn_payload cb tr h p1 p2 input rest later s :
  quiet cb -> server_frame (h, p1 ++ p2) -> Forall server_frame later ->
  clean_cut ((h, p1 ++ p2) :: later) rest ->
  ValidateUtf8 WS_UTF8_ACCEPT p1 = Ret WS_UTF8_ACCEPT -> p2 <> [] ->
  reading cb tr h p1 input s -> input ++ rest = p2 ++ stream later -> input <> [] ->
  wp (read_turn env) (turned cb rest ((h, p1 ++ p2) :: later) tr input) s.
Proof.
  intros Hq Hs HF Hc Hv Hp Hr Hcat Hne. unfold read_turn. do 2 wp_step.
  rewrite (rd_has _ _ _ _ _ _ Hr). cbn [negb]. do 2 wp_step. cbn [negb]. do 3 wp_step.
  apply wp_when; [intros _|by rewrite (rd_has _ _ _ _ _ _ Hr)].
  eapply wp_mono; [by apply (read_payload_some cb tr h p1 p2 input rest later s)|].
  intros ? s2 (input' & Hpr & _ & Hlt). wp_step. exists input'. split; [done|]. by apply Hlt.
Qed.

Lemma read_turn_some cb tr input rest frames s :
  quiet cb -> Forall server_frame frames -> clean_cut frames rest ->
  awaiting cb tr input rest frames s -> input <> [] ->
  wp (read_turn env) (turned cb rest frames tr input) s.
Proof.
  intros Hq HF Hc Ha Hne.
  apply awaiting_has in Ha as [(Hh & Hi & Hcat)|(Hh & h & p1 & p2 & later & -> & Hp & Hv & Hr & Hcat)].
  - by apply read_turn_header.
  - apply Forall_cons in HF as [Hs HF]. by apply read_turn_payload.
Qed.

Lemma read_loop_some cb rest fuel : forall tr input frames s,
  quiet cb -> Forall server_frame frames -> clean_cut frames rest ->
  awaiting cb tr input rest frames s -> (length input < fuel)%nat ->
  wp (read_loop env fuel)
    (fun _ s' => exists input' tr' frames' sent, awaiting cb tr' input' rest frames' s' /\
       Forall server_frame frames' /\ outlook frames' tr' = outlook frames tr /\
       frames = sent ++ frames' /\ drained frames' input' s') s.
Proof.
  induction fuel as [|fuel IH]; intros tr input frames s Hq HF Hc Ha Hfuel; [lia|].
  destruct (awaiting_listening _ _ _ _ _ _ Ha) as [_ Hin].
  cbn [read_loop]. unfold input_length. do 2 wp_step. rewrite length_law, Hin.
  destruct (decide (input = [])) as [->|Hne].
  { apply wp_ret. exists [], tr, frames, []. do 4 (split; [done|]). apply drained_nil. }
  replace (zlen input =? 0) with false
    by (destruct input; [done|]; rewrite zlen_cons; pose proof (zlen_nonneg input); lia).
  wp_step. eapply wp_mono; [by apply (read_turn_some cb tr input rest frames s)|].
  intros go s1 Ht. destruct go; cbn [negb].
  - destruct Ht as (input1 & (tr1 & frames1 & Ha1 & HF1 & Hc1 & Ho1 & sent1 & ->) & Hlt).
    eapply wp_mono; [apply (IH tr1 input1 frames1 s1); try done; lia|].
    intros ? s2 (input2 & tr2 & frames2 & sent2 & Ha2 & HF2 & Ho2 & -> & Hd2).
    exists input2, tr2, frames2, (sent1 ++ sent2). split_and!; try done; [congruence|].
    by rewrite app_assoc.
  - wp_step. destruct Ht as [Ha1 Hd1]. by exists input, tr, frames, [].
Qed.

Lemma clean_cuts_app sent frames chunks : clean_cuts (sent ++ frames) chunks -> clean_cuts frames chunks.
Proof. induction sent as [|f sent IH]; [done|]. intros Hc. by apply IH, (clean_cuts_next f). Qed.

(** More bytes arrive. *)
Lemma awaiting_arrival cb tr input c rest frames s :
  awaiting cb tr input (c ++ rest) frames s ->
  awaiting cb tr (input ++ c) rest frames (with_bev_input (evbuffer_add (bev_input s) c) s).
Proof.
  intros [[Hl [Hh Him]] Hc|h p1 p2 later Hf Hne Hv Hr Hc].
  - apply await_header; [|by rewrite <- app_assoc]. destruct Hl. split_and!; try done.
    constructor; try done. ses_simpl. rewrite add_law. congruence.
  - eapply await_payload; try done; [|by rewrite <- app_assoc]. destruct Hr as [[] ? ? ? ? ? ? ? ?].
    constructor; try done. constructor; try done. ses_simpl. rewrite add_law. congruence.
Qed.

(** Everything has arrived and is read. *)
Lemma awaiting_nothing cb tr input frames s :
  awaiting cb tr input [] frames s -> drained frames input s -> idle cb tr [] s /\ frames = [].
Proof.
  intros Ha [Hno Hsh].
  apply awaiting_has in Ha as [(Hh & Hi & Hc)|(Hh & h & p1 & p2 & later & -> & Hne & _ & Hr & Hc)];
    rewrite app_nil_r in Hc.
  - destruct frames as [|[h p] frames]; [by rewrite Hc in Hi|].
    specialize (Hsh Hh _ _ eq_refl). rewrite Hc, stream_cons, length_app in Hsh. simpl in Hsh. lia.
  - rewrite (Hno Hh) in Hc. by destruct p2.
Qed.

Lemma feed_awaiting cb chunks : forall tr input frames s,
  quiet cb -> Forall server_frame frames -> clean_cuts frames chunks ->
  drained frames input s -> awaiting cb tr input (concat chunks) frames s ->
  wp (feed chunks) (fun _ s' => idle cb (outlook frames tr) [] s') s.
Proof.
  induction chunks as [|c chunks IH]; intros tr input frames s Hq HF Hc Hd Ha; cbn [feed].
  - wp_step. by destruct (awaiting_nothing _ _ _ _ _ Ha Hd) as [Hi ->].
  - do 2 wp_step. apply awaiting_arrival in Ha. revert Ha. set (s1 := with_bev_input _ s). clearbody s1.
    intros Ha. apply clean_cuts_tail in Hc. destruct (awaiting_listening _ _ _ _ _ _ Ha) as [Hb Hin].
    wp_step. unfold ReadWebsocket, input_length. do 3 wp_step.
    apply wp_check; [done|]. do 2 wp_step. rewrite length_law, Hin.
    eapply wp_mono; [apply (read_loop_some cb (concat chunks) _ tr (input ++ c) frames s1); try done|].
    { by apply clean_cuts_head. }
    { unfold zlen. lia. }
    intros ? s2 (input2 & tr2 & frames2 & sent & Ha2 & HF2 & Ho2 & -> & Hd2). rewrite <- Ho2.
    apply (IH tr2 input2 frames2 s2); try done. by eapply clean_cuts_app.
Qed.
End spec.

(** ** Control frames *)

Section control.
Context {E : EvBuffer} {L : EvBufferLaws E} (env : Env) {EO : EnvOk env}.

Definition control_header (o : WSOpcode) (h : WSHeader) : Prop :=
  wf_header h /\ (maskBit h = 0 -> mask h = 0) /\
  fin h = 1 /\ rsv1 h = 0 /\ rsv2 h = 0 /\ rsv3 h = 0 /\
  o ∈ [CLOSE_0X8; PING_0X9; PONG_0XA] /\ opcode h = op o /\ payloadLen h <= 125.

Lemma control_valid o h b : control_header o h -> header_valid b h = true.
Proof.
  intros (_ & _ & Hf & H1 & H2 & H3 & Hin & Ho & _). unfold header_valid.
  rewrite H1, H2, H3, Hf, Ho.
  repeat (apply elem_of_cons in Hin as [->|Hin]); [..|by apply not_elem_of_nil in Hin]; by destruct b.
Qed.

Lemma control_is_control o h : control_header o h -> IsControlOpcode (opcode h) = true.
Proof.
  intros (_ & _ & _ & _ & _ & _ & Hin & -> & _).
  by repeat (apply elem_of_cons in Hin as [->|Hin]); [..|apply not_elem_of_nil in Hin].
Qed.

(** The session with the whole control frame read, at its end. *)
Definition control_read (h : WSHeader) (d : bytes) (b : evbuffer) (s : SessionImplEV)
  : SessionImplEV :=
  with_bev_input b (with_ctrlLen_ (zlen d) (with_ctrlPayload_ (d ++ replicate (125 - length d) 0)
    (with_recvFrameLen_ (zlen d) (with_hasHeader_ true (with_wsHeader_ h s))))).

Lemma read_header_control o h rest s :
  control_header o h -> contents (bev_input s) = wire_header h ++ rest ->
  exists b, contents b = rest /\ read_header env s = Ret (true, control_read h [] b s).
Proof.
  intros Hch Hin. exists (evbuffer_drain (bev_input s) (length (wire_header h))).
  split; [by rewrite drain_law, Hin, drop_app_length|].
  rewrite (read_header_valid env h rest s) by first [apply Hch|done|by eapply control_valid].
  unfold HandleFrameBegin, bindS, updS, getS, header_taken. ses_simpl.
  rewrite (control_is_control o h Hch). apply ret_state. unfold control_read. ses_eq.
Qed.

Lemma store_control h p b b' s :
  IsControlOpcode (opcode h) = true -> zlen p <= 125 ->
  HandleFrameData env p (with_recvFrameLen_ (zlen p) (with_bev_input b' (control_read h [] b s)))
  = Ret (0, control_read h p b' s).
Proof.
  intros Hc Hp. unfold HandleFrameData, bindS, getS. ses_simpl.
  change (wsHeader_ (control_read h [] b s)) with h. rewrite Hc. ses_simpl.
  change (ctrlLen_ (control_read h [] b s)) with 0. unfold WS_CONTROL_MAX_PAYLOAD_LEN.
  replace (125 <? 0 + zlen p) with false by lia. unfold whenS, retS. unfold liftS.
  ses_simpl.
  change (ctrlPayload_ (control_read h [] b s)) with (replicate 125 0).
  unfold write_at. change (Z.to_nat 0) with 0%nat.
  replace (take (Z.to_nat (zlen p)) p) with p by (rewrite take_ge; [done|unfold zlen; lia]).
  rewrite decide_True by (rewrite length_replicate; unfold zlen in *; lia).
  cbn [Nat.add take app]. rewrite drop_replicate. unfold updS. apply ret_state.
  unfold control_read. ses_eq.
Qed.

(** The payload is taken from the input, unmasked and handed on. *)
Lemma read_payload_takes h p rest s :
  wsHeader_ s = h -> recvFrameLen_ s = 0 -> contents (bev_input s) = p ++ rest ->
  zlen p = payloadLen h -> 0 < payloadLen h < 128 ->
  exists b', contents b' = rest /\
    read_payload env s =
      (do! check_utf8 env (payload_of h p) in
       let! failed := HandleFrameData env (payload_of h p) in
       if negb (failed =? 0) then retS tt else
       let! h := getS wsHeader_ in
       let! got := getS recvFrameLen_ in
       whenS (got =? payloadLen h) (let! _ := HandleFrameEnd env in retS tt))
        (with_recvFrameLen_ (zlen (payload_of h p)) (with_bev_input b' s)).
Proof.
  intros Hw Hg Hb Hlen Hpl. pose proof (zlen_nonneg rest) as Hrest.
  unfold read_payload, input_length. unfold bindS at 1 2 3, getS at 1 2 3. rewrite Hw, Hg, Z.sub_0_r.
  replace (u64 (payloadLen h)) with (payloadLen h) by (unfold u64; rewrite Z.mod_small; lia).
  replace (payloadLen h =? 0) with false by lia. rewrite length_law, Hb, zlen_app.
  replace (if payloadLen h <? zlen p + zlen rest then payloadLen h else zlen p + zlen rest)
    with (zlen p) by (destruct (Z.ltb_spec (payloadLen h) (zlen p + zlen rest)); lia).
  replace (Z.to_nat (zlen p)) with (length p) by (unfold zlen; lia).
  unfold bindS at 1, getS at 1.
  destruct (evbuffer_remove (bev_input s) (length p)) as [buf b'] eqn:Hrem.
  apply remove_law in Hrem as [-> Hb']. rewrite Hb in *. rewrite take_app_length.
  rewrite drop_app_length in Hb'. exists b'. split; [done|].
  rewrite payload_unmask.
  replace (u64 (0 + zlen p)) with (zlen (payload_of h p))
    by (rewrite zlen_payload_of; unfold u64; rewrite Z.mod_small; lia).
  done.
Qed.

Lemma check_utf8_control d s :
  IsControlOpcode (opcode (wsHeader_ s)) = true -> check_utf8 env d s = Ret (tt, s).
Proof.
  intros Hc. unfold check_utf8, bindS, getS. rewrite Hc. by rewrite andb_false_r.
Qed.

(** The payload is stored and complete. *)
Lemma frame_completed d s s1 :
  check_utf8 env d s = Ret (tt, s) -> HandleFrameData env d s = Ret (0, s1) ->
  recvFrameLen_ s1 = payloadLen (wsHeader_ s1) ->
  (do! check_utf8 env d in
   let! failed := HandleFrameData env d in
   if negb (failed =? 0) then retS tt else
   let! h := getS wsHeader_ in
   let! got := getS recvFrameLen_ in
   whenS (got =? payloadLen h) (let! _ := HandleFrameEnd env in retS tt)) s
  = (let! _ := HandleFrameEnd env in retS tt) s1.
Proof.
  intros Hu Hd Hl. unfold bindS at 1. rewrite Hu. unfold bindS at 1. rewrite Hd. cbn [negb Z.eqb].
  unfold bindS at 1 2, getS. by rewrite Hl, Z.eqb_refl.
Qed.

Lemma frame_empty s :
  recvFrameLen_ s = payloadLen (wsHeader_ s) ->
  read_payload env s = (let! _ := HandleFrameEnd env in retS tt) s.
Proof.
  intros Hl. unfold read_payload, input_length. unfold bindS at 1 2 3, getS.
  rewrite Hl, Z.sub_diag. done.
Qed.

Lemma read_payload_control o h p rest b s :
  control_header o h -> contents b = p ++ rest -> zlen p = payloadLen h ->
  exists b', contents b' = rest /\
    read_payload env (control_read h [] b s) =
      (let! _ := HandleFrameEnd env in retS tt) (control_read h (payload_of h p) b' s).
Proof.
  intros Hch Hb Hlen. pose proof (control_is_control o h Hch) as Hc.
  assert (0 <= payloadLen h <= 125) as Hpl by (split; apply Hch).
  destruct (decide (payloadLen h = 0)) as [H0|H0].
  { assert (p = []) as -> by (destruct p; [done|]; unfold zlen in *; simpl in *; lia).
    exists b. split; [done|]. assert (payload_of h [] = []) as -> by (unfold payload_of; by case_match).
    apply frame_empty. symmetry. exact H0. }
  destruct (read_payload_takes h p rest (control_read h [] b s)) as (b' & Hb' & Heq);
    [reflexivity|reflexivity|exact Hb|done|lia|].
  exists b'. split; [done|]. rewrite Heq. apply frame_completed.
  - apply check_utf8_control. exact Hc.
  - apply store_control; [done|rewrite zlen_payload_of; lia].
  - transitivity (zlen (payload_of h p)); [reflexivity|]. by rewrite zlen_payload_of.
Qed.

(** A whole control frame at the front of the input takes one turn. *)
Lemma read_turn_control o h p rest s :
  control_header o h -> hasHeader_ s = false ->
  contents (bev_input s) = wire_header h ++ p ++ rest -> zlen p = payloadLen h ->
  exists b, contents b = rest /\
    read_turn env s = (let! _ := HandleFrameEnd env in retS true)
                        (control_read h (payload_of h p) b s).
Proof.
  intros Hch Hh Hin Hlen. destruct (read_header_control o h (p ++ rest) s Hch Hin) as (b1 & Hb1 & Hr1).
  destruct (read_payload_control o h p rest b1 s Hch Hb1 Hlen) as (b2 & Hb2 & Hr2).
  exists b2. split; [done|]. unfold read_turn. unfold bindS at 1 2, getS at 1. rewrite Hh. cbn [negb].
  rewrite Hr1. cbn [negb]. unfold bindS at 1 2, getS at 1.
  change (hasHeader_ (control_read h [] b1 s)) with true. cbn [whenS]. rewrite Hr2.
  unfold bindS. by destruct (HandleFrameEnd env _) as [[] | |].
Qed.
End control.

(** ** Close frames *)

Section close.
Context {E : EvBuffer} {L : EvBufferLaws E} (env : Env) {EO : EnvOk env} {LO : LibOk env}.

(** The contents of [ctrlPayload_] after a frame with payload [d]. *)
Definition ctrl_block (d : bytes) : bytes := d ++ replicate (125 - length d) 0.

Lemma terminate_block d :
  (length d < 125)%nat -> write_at (ctrl_block d) (length d) [0] = Ret (ctrl_block d).
Proof.
  intros Hd. unfold write_at, ctrl_block. rewrite decide_True
    by (rewrite length_app, length_replicate; simpl; lia).
  rewrite take_app_length, drop_app_add. f_equal. f_equal.
  replace (125 - length d)%nat with (S (124 - length d)) by lia. done.
Qed.

Lemma terminate_full_block d :
  length d = 125%nat ->
  write_at (ctrl_block d) (length d) [0] = Undef "write past the end of a buffer".
Proof.
  intros Hd. unfold write_at, ctrl_block. rewrite decide_False; [done|].
  rewrite length_app, length_replicate. simpl. lia.
Qed.

Lemma read_status hi lo reason :
  (length reason <= 123)%nat -> read_at (ctrl_block (hi :: lo :: reason)) 0 2 = Ret [hi; lo].
Proof.
  intros H. rewrite read_at_ok; [done|]. unfold ctrl_block. rewrite length_app, length_replicate.
  simpl. lia.
Qed.

Lemma status_bytes status :
  0 <= status < 65536 -> ntohs (le_val [status / 256; status mod 256]) = status.
Proof. intros H. unfold ntohs, htons, u16, le_val. Z.div_mod_to_equations; lia. Qed.

Lemma take_close_payload_ok status reason s :
  0 <= status < 65536 -> zlen reason <= 122 ->
  ctrlPayload_ s = ctrl_block (status / 256 :: status mod 256 :: reason) ->
  take_close_payload (2 + zlen reason) s =
    Ret (tt, with_serverReasonLen_ (zlen reason) (with_serverReason_ RCtrl
               (with_serverCloseStatus_ status s))).
Proof.
  intros Hst Hlen Hp. unfold take_close_payload. unfold bindS at 1 2, getS, liftS. rewrite Hp.
  rewrite read_status by (unfold zlen in *; lia). rewrite status_bytes by done.
  unfold bindS, updS. replace (2 + zlen reason - 2) with (zlen reason) by lia.
  replace (2 + Z.to_nat (zlen reason))%nat with (length (status / 256 :: status mod 256 :: reason))
    by (simpl; unfold zlen; lia).
  rewrite terminate_block by (simpl; unfold zlen in *; lia). apply ret_state.
  destruct s; simpl in Hp; subst. ses_eq.
Qed.

Lemma reason_bytes_ok status reason s :
  zlen reason <= 122 ->
  ctrlPayload_ s = ctrl_block (status / 256 :: status mod 256 :: reason) ->
  serverReason_ s = RCtrl -> serverReasonLen_ s = zlen reason ->
  reason_bytes s = Ret (reason, s).
Proof.
  intros Hlen Hp Hr Hl. unfold reason_bytes, bindS, getS. rewrite Hr, Hl, Hp. unfold liftS.
  rewrite read_at_ok by (unfold ctrl_block; rewrite length_app, length_replicate; simpl;
    unfold zlen in *; lia).
  change (drop 2 (ctrl_block (?a :: ?b :: reason)))
    with (reason ++ replicate (125 - length (a :: b :: reason)) 0).
  replace (Z.to_nat (zlen reason)) with (length reason) by (unfold zlen; lia).
  by rewrite take_app_length.
Qed.

Lemma ValidateUtf8_reason_ok status reason q s :
  zlen reason <= 122 ->
  ctrlPayload_ s = ctrl_block (status / 256 :: status mod 256 :: reason) ->
  serverReason_ s = RCtrl -> serverReasonLen_ s = zlen reason ->
  ValidateUtf8 WS_UTF8_ACCEPT reason = Ret q ->
  ValidateUtf8_reason s = Ret (tt, with_utf8State_ q s).
Proof.
  intros Hlen Hp Hr Hl Hv. unfold ValidateUtf8_reason, updS. unfold bindS at 1 2.
  rewrite (reason_bytes_ok status reason) by done. unfold bindS, getS, liftS. ses_simpl.
  rewrite Hv. apply ret_state. ses_eq.
Qed.

Lemma take_close_payload_full d (s : SessionImplEV) :
  ctrlPayload_ s = ctrl_block d -> length d = 125%nat ->
  take_close_payload 125 s = Undef "write past the end of a buffer".
Proof.
  intros Hp Hd. unfold take_close_payload, updS, getS, liftS, bindS. rewrite Hp.
  rewrite read_at_ok by (unfold ctrl_block; rewrite length_app; simpl; lia).
  change (2 + Z.to_nat (125 - 2))%nat with 125%nat. rewrite <- Hd.
  by rewrite terminate_full_block.
Qed.

Lemma HandleCloseFrame_overflows d (s : SessionImplEV) :
  ctrlPayload_ s = ctrl_block d -> length d = 125%nat -> ctrlLen_ s = 125 ->
  HandleCloseFrame env s = Undef "write past the end of a buffer".
Proof.
  intros Hp Hd Hn. unfold HandleCloseFrame. rewrite !bind_upd, bind_get.
  match goal with |- _ ?t = _ => set (s1 := t) end.
  assert (ctrlLen_ s1 = 125) as -> by exact Hn.
  assert (ctrlPayload_ s1 = ctrl_block d) as Hp1 by exact Hp. clearbody s1.
  change (0 <? 125) with true. change (125 <? 2) with false. cbn iota.
  unfold bindS at 1 2. by rewrite (take_close_payload_full d).
Qed.

(** The answer to a close frame with a status and a reason. *)
Definition close_answer (status : Z) (reason : bytes) (s s' : SessionImplEV) : Prop :=
  state_ s' = CLOSING /\ receivedCloseFlag_ s' = true /\ sentCloseFlag_ s' = true /\
  closeTimeoutEvent_ s' = true /\ serverCloseStatus_ s' = status /\ bev_input s' = bev_input s /\
  hasHeader_ s' = hasHeader_ s /\
  exists frame h, contents (bev_output s') = contents (bev_output s) ++ frame /\
    peer_read frame = Ret (h, status / 256 :: status mod 256 :: reason) /\
    opcode h = op CLOSE_0X8 /\ fin h = 1.

(** The fields of the session after a closing. *)
Lemma sent_frame_fields o d (s : SessionImplEV) :
  state_ (sent_frame env o d s) = state_ s /\
  receivedCloseFlag_ (sent_frame env o d s) = receivedCloseFlag_ s /\
  serverCloseStatus_ (sent_frame env o d s) = serverCloseStatus_ s /\
  bev_input (sent_frame env o d s) = bev_input s /\ hasHeader_ (sent_frame env o d s) = hasHeader_ s.
Proof. done. Qed.

Lemma closed_answer status reason frame h n (s s1 : SessionImplEV) :
  state_ s1 = CLOSING -> receivedCloseFlag_ s1 = true -> serverCloseStatus_ s1 = status ->
  bev_input s1 = bev_input s -> hasHeader_ s1 = hasHeader_ s ->
  contents (bev_output s1) = contents (bev_output s) ++ frame ->
  peer_read frame = Ret (h, status / 256 :: status mod 256 :: reason) ->
  opcode h = op CLOSE_0X8 -> fin h = 1 ->
  close_answer status reason s
    (with_closeTimeoutEvent_ true (with_sentCloseFlag_ true (with_lib_calls n s1))).
Proof. intros. unfold close_answer. ses_simpl. split_and!; try done. by exists frame, h. Qed.

Lemma echo_answer status reason s :
  WS_IS_PEER_CLOSE_STATUS_VALID status = true -> zlen reason <= 122 ->
  bev_ s = true -> sendState_ s = SEND_NONE -> sentCloseFlag_ s = false ->
  receivedCloseFlag_ s = true -> serverCloseStatus_ s = status ->
  wp (CloseWithStatusReason env status reason) (fun _ s' => close_answer status reason s s') s.
Proof.
  intros Hv Hlen Hb Hs Hf Hrc Hst. pose proof (peer_status_sendable status Hv) as Hu.
  eapply wp_val; [apply CloseWithStatusReason_sent; [done..|lia]|].
  unfold WS_IS_CLOSE_STATUS_NOT_USED in Hu.
  destruct (sent_frame_fields CLOSE_0X8 (close_payload status reason) (with_state_ CLOSING s))
    as (H1 & H2 & H3 & H4 & H5).
  eapply (closed_answer status reason _
    (frame_header env CLOSE_0X8 (close_payload status reason) (with_state_ CLOSING s)));
    [exact H1|rewrite H2; exact Hrc|rewrite H3; exact Hst|rewrite H4; reflexivity
    |rewrite H5; reflexivity|rewrite contents_sent_frame; reflexivity| | |];
    [|reflexivity|reflexivity].
  rewrite <- (app_nil_r (frame_bytes _ _ _ _)), peer_read_frame.
  rewrite close_payload_status by lia. do 2 f_equal. apply take_ge.
  autorewrite with cpp. pose proof (zlen_nonneg reason).
  rewrite (Z.mod_small (1 + _)) by lia. cbn [length]. unfold zlen. lia.
Qed.

(** What [HandleCloseFrame] relies on. *)
Record close_pending (status : Z) (reason : bytes) (s : SessionImplEV) : Prop := {
  cp_len : ctrlLen_ s = 2 + zlen reason;
  cp_block : ctrlPayload_ s = ctrl_block (status / 256 :: status mod 256 :: reason);
  cp_open : bev_ s = true;
  cp_send : sendState_ s = SEND_NONE;
  cp_sent : sentCloseFlag_ s = false
}.

Lemma close_answer_from status reason s0 s s' :
  bev_input s = bev_input s0 -> hasHeader_ s = hasHeader_ s0 -> bev_output s = bev_output s0 ->
  close_answer status reason s s' -> close_answer status reason s0 s'.
Proof. unfold close_answer. intros -> -> ->. done. Qed.

Lemma close_pending_answer status reason q s0 s :
  close_pending status reason s -> receivedCloseFlag_ s = true ->
  bev_input s = bev_input s0 -> hasHeader_ s = hasHeader_ s0 -> bev_output s = bev_output s0 ->
  0 <= status < 65536 -> zlen reason <= 122 ->
  WS_IS_PEER_CLOSE_STATUS_VALID status = true ->
  ValidateUtf8 WS_UTF8_ACCEPT reason = Ret q -> q <> WS_UTF8_REJECT ->
  wp (let! early :=
        (do! take_close_payload (2 + zlen reason) in
         let! st := getS serverCloseStatus_ in
         if negb (WS_IS_PEER_CLOSE_STATUS_VALID st) then
           let! _ := CloseWithStatus env PROTOCOL_ERR_1002 in retS true
         else
           do! ValidateUtf8_reason in
           let! q := getS utf8State_ in
           if q =? WS_UTF8_REJECT then
             let! _ := CloseWithStatus env INCONSISTENT_DATA_1007 in retS true
           else retS false) in
      if (early : bool) then retS 0 else
      let! sent := getS sentCloseFlag_ in
      if negb sent then
        let! st := getS serverCloseStatus_ in
        let! r := reason_bytes in
        CloseWithStatusReason env st r
      else retS 0) (fun _ s' => close_answer status reason s0 s') s.
Proof.
  intros [Hn Hbl Hop Hse Hsf] Hrc Hbi Hhh Hbo Hr Hlen Hv Hu Hq. do 2 wp_step.
  eapply wp_val; [by apply take_close_payload_ok|]. do 2 wp_step. ses_simpl. rewrite Hv. cbn [negb].
  wp_step. eapply wp_val; [by apply (ValidateUtf8_reason_ok status reason q)|].
  do 2 wp_step. ses_simpl. replace (q =? WS_UTF8_REJECT) with false by (by symmetry; apply Z.eqb_neq).
  wp_step. do 2 wp_step. ses_simpl. rewrite Hsf. cbn [negb]. do 2 wp_step. ses_simpl. wp_step.
  eapply wp_val; [by apply (reason_bytes_ok status reason)|].
  eapply wp_mono; [by apply echo_answer|]. intros r s'. by apply close_answer_from.
Qed.

Lemma HandleCloseFrame_answers status reason q s :
  close_pending status reason s -> 0 <= status < 65536 -> zlen reason <= 122 ->
  WS_IS_PEER_CLOSE_STATUS_VALID status = true ->
  ValidateUtf8 WS_UTF8_ACCEPT reason = Ret q -> q <> WS_UTF8_REJECT ->
  wp (HandleCloseFrame env) (fun _ s' => close_answer status reason s s') s.
Proof.
  intros Hcp Hr Hlen Hv Hu Hq. pose proof (zlen_nonneg reason).
  unfold HandleCloseFrame. do 12 wp_step. ses_simpl. rewrite (cp_len _ _ _ Hcp).
  replace (0 <? 2 + zlen reason) with true by lia. replace (2 + zlen reason <? 2) with false by lia.
  apply (close_pending_answer status reason q s); try done. destruct Hcp. by constructor.
Qed.
End close.

Section whole_close.
Context {E : EvBuffer} {L : EvBufferLaws E} (env : Env) {EO : EnvOk env}.

(** [HandleFrameEnd] of a control frame. *)
Lemma HandleFrameEnd_control s :
  IsControlOpcode (opcode (wsHeader_ s)) = true ->
  HandleFrameEnd env s = HandleControlFrame env (with_hasHeader_ false s).
Proof. intros Hc. unfold HandleFrameEnd, bindS, getS. by rewrite Hc. Qed.

Lemma HandleControlFrame_close s :
  opcode (wsHeader_ s) = op CLOSE_0X8 -> HandleControlFrame env s = HandleCloseFrame env s.
Proof. intros Ho. unfold HandleControlFrame, bindS, getS. by rewrite Ho. Qed.

Lemma HandleControlFrame_ping s :
  opcode (wsHeader_ s) = op PING_0X9 -> onPing_ s = false ->
  HandleControlFrame env s = Undef "call through a null function pointer".
Proof.
  intros Ho Hp. unfold HandleControlFrame, bindS, getS. rewrite Ho. simpl.
  unfold HandlePingFrame, bindS, getS. by rewrite Hp.
Qed.

Lemma HandleControlFrame_pong s :
  opcode (wsHeader_ s) = op PONG_0XA -> onPong_ s = false ->
  HandleControlFrame env s = Undef "call through a null function pointer".
Proof.
  intros Ho Hp. unfold HandleControlFrame, bindS, getS. rewrite Ho. simpl.
  unfold HandlePongFrame, bindS, getS. by rewrite Hp.
Qed.

Lemma read_loop_step fuel s :
  contents (bev_input s) <> [] ->
  read_loop env (S fuel) s =
    (let! go_on := read_turn env in if negb go_on then retS tt else read_loop env fuel) s.
Proof.
  intros Hne. cbn [read_loop]. unfold bindS at 1, input_length, getS. rewrite length_law.
  replace (zlen _ =? 0) with false; [done|]. symmetry. apply Z.eqb_neq.
  destruct (contents (bev_input s)); [done|]. rewrite zlen_cons. pose proof (zlen_nonneg l). lia.
Qed.

Lemma read_loop_done fuel s :
  contents (bev_input s) = [] -> read_loop env (S fuel) s = Ret (tt, s).
Proof.
  intros Hin. cbn [read_loop]. unfold bindS at 1, input_length, getS. by rewrite length_law, Hin.
Qed.

(** The first turn of [ReadWebsocket]. *)
Lemma ReadWebsocket_turn s :
  bev_ s = true -> contents (bev_input s) <> [] ->
  ReadWebsocket env s =
    (let! go_on := read_turn env in
     if negb go_on then retS tt
     else read_loop env (2 * length (contents (bev_input s)) + 1)) s.
Proof.
  intros Hb Hne. rewrite <- read_loop_step by done.
  unfold ReadWebsocket, bindS, input_length, getS. rewrite Hb. cbn [checkS]. unfold retS.
  rewrite length_law. f_equal. unfold zlen. lia.
Qed.
End whole_close.

(** ** Theorems *)

Section theorems.
Context {E : EvBuffer} {L : EvBufferLaws E} (env : Env).

(** [ValidateHeader] accepts a header exactly when no reserved bit is set, the
    opcode is one in use, a control frame is final, and, inside a message, the
    frame is a control frame; it never changes the session. *)
Theorem ValidateHeader_spec (s : SessionImplEV) :
  wf_header (wsHeader_ s) ->
  ValidateHeader s = Ret ((if header_valid (inMsgFlag_ s) (wsHeader_ s) then 0 else -1), s).
Proof. intros Hwf. apply ValidateHeader_eq, Hwf. Qed.

(** C9: complete frames in the input, each a whole text or binary message of at
    most 127 bytes that is valid UTF-8 once the mask of RFC 6455, if it has one,
    is removed, are delivered to the message handler in order, one call each,
    with the mask removed; nothing is left in the input and the session is ready
    for the next message. *)
Theorem ReadWebsocket_delivers (cb : MessageHandler) (tr : list Happening)
  (frames : list (WSHeader * bytes)) (s : SessionImplEV) :
  EnvOk env -> LibOk env -> quiet cb -> Forall good_frame frames ->
  idle cb tr (stream frames) s ->
  exists s', ReadWebsocket env s = Ret (tt, s') /\
    trace s' = rev (delivery <$> frames) ++ tr /\ contents (bev_input s') = [] /\
    hasHeader_ s' = false /\ inMsgFlag_ s' = false.
Proof.
  intros EO LO Hq HF Hi.
  pose proof (ReadWebsocket_frames env cb frames tr s Hq HF Hi) as Hw.
  apply wp_run in Hw as ([] & s' & Hr & ([] & Hh & Him)). exists s'. by split_and!.
Qed.

(** C3: the unmasked frames of a server, each a whole text or binary message of at
    most 127 bytes of valid UTF-8, are delivered to the message handler in order,
    one call each, when their bytes arrive in any number of pieces with a read
    after each, cut anywhere inside or between headers, and inside a payload
    wherever what has come of it ends with a whole character; nothing is left in
    the input and the session is ready for the next message. *)
Theorem feed_delivers_any_chunking (cb : MessageHandler) (tr : list Happening)
  (frames : list (WSHeader * bytes)) (chunks : list bytes) (s : SessionImplEV) :
  EnvOk env -> LibOk env -> quiet cb -> Forall server_frame frames ->
  concat chunks = stream frames -> clean_cuts frames chunks -> idle cb tr [] s ->
  exists s', feed env chunks s = Ret (tt, s') /\
    trace s' = rev (delivery <$> frames) ++ tr /\ contents (bev_input s') = [] /\
    hasHeader_ s' = false /\ inMsgFlag_ s' = false.
Proof.
  intros EO LO Hq HF Hcat Hc Hi.
  assert (wp (feed env chunks) (fun _ s' => idle cb (outlook frames tr) [] s') s) as Hw.
  { apply (feed_awaiting env cb chunks tr [] frames s); try done; [|by apply await_header].
    apply drained_nil. }
  apply wp_run in Hw as ([] & s' & Hr & ([] & Hh & Him)). exists s'. by split_and!.
Qed.

(** a whole ping frame, or pong frame, when the callback of its kind was
    never set, makes the reader call through a null function pointer, whatever
    was going on and whatever follows the frame. *)
Theorem ReadWebsocket_ping_null (o : WSOpcode) (h : WSHeader) (p rest : bytes) (s : SessionImplEV) :
  EnvOk env -> o = PING_0X9 /\ onPing_ s = false \/ o = PONG_0XA /\ onPong_ s = false ->
  control_header o h -> zlen p = payloadLen h ->
  bev_ s = true -> hasHeader_ s = false -> contents (bev_input s) = wire_header h ++ p ++ rest ->
  ReadWebsocket env s = Undef "call through a null function pointer".
Proof.
  intros EO Ho Hch Hlen Hb Hh Hin.
  destruct (read_turn_control env o h p rest s Hch Hh Hin Hlen) as (b & _ & Ht).
  rewrite (ReadWebsocket_turn env) by
    (done || rewrite Hin; by destruct (wire_header_cons h) as (? & ? & ->)).
  unfold bindS at 1. rewrite Ht. unfold bindS at 1.
  rewrite HandleFrameEnd_control by exact (control_is_control o h Hch).
  assert (opcode h = op o) as Hop by apply Hch.
  destruct Ho as [[-> Hp]|[-> Hp]].
  - by rewrite HandleControlFrame_ping.
  - by rewrite HandleControlFrame_pong.
Qed.

(** C22: a close frame with a status a peer may send and a reason of at most 122
    bytes that is not invalid UTF-8 is answered with one close frame that
    carries the same status and reason; the session is closing, has recorded the
    status, waits for the close timeout and has consumed the frame. *)
Theorem ReadWebsocket_answers_close (h : WSHeader) (p : bytes) (status q : Z) (reason : bytes)
  (s : SessionImplEV) :
  EnvOk env -> LibOk env -> control_header CLOSE_0X8 h -> zlen p = payloadLen h ->
  payload_of h p = status / 256 :: status mod 256 :: reason ->
  0 <= status < 65536 -> WS_IS_PEER_CLOSE_STATUS_VALID status = true -> zlen reason <= 122 ->
  ValidateUtf8 WS_UTF8_ACCEPT reason = Ret q -> q <> WS_UTF8_REJECT ->
  bev_ s = true -> hasHeader_ s = false -> sendState_ s = SEND_NONE -> sentCloseFlag_ s = false ->
  contents (bev_input s) = wire_header h ++ p ->
  exists s', ReadWebsocket env s = Ret (tt, s') /\
    state_ s' = CLOSING /\ receivedCloseFlag_ s' = true /\ sentCloseFlag_ s' = true /\
    closeTimeoutEvent_ s' = true /\ serverCloseStatus_ s' = status /\
    contents (bev_input s') = [] /\ hasHeader_ s' = false /\
    exists frame h', contents (bev_output s') = contents (bev_output s) ++ frame /\
      peer_read frame = Ret (h', status / 256 :: status mod 256 :: reason) /\
      opcode h' = op CLOSE_0X8 /\ fin h' = 1.
Proof.
  intros EO LO Hch Hlen Hpay Hst Hv Hr Hu Hq Hb Hh Hse Hsf Hin.
  rewrite <- (app_nil_r p) in Hin.
  destruct (read_turn_control env _ h p [] s Hch Hh Hin Hlen) as (b & Hbe & Ht).
  assert (close_pending status reason (with_hasHeader_ false (control_read h (payload_of h p) b s)))
    as Hcp.
  { constructor; try done; rewrite Hpay; [|done].
    transitivity (zlen (status / 256 :: status mod 256 :: reason)); [reflexivity|].
    rewrite !zlen_cons. lia. }
  pose proof (HandleCloseFrame_answers env status reason q _ Hcp Hst Hr Hv Hu Hq) as Hans.
  apply wp_run in Hans as (r & s1 & Hrun & Hans).
  destruct Hans as (H1 & H2 & H3 & H4 & H5 & H6 & H7 & H8).
  exists s1. split; [|split_and!; try done; by rewrite H6].
  rewrite (ReadWebsocket_turn env) by
    (done || rewrite Hin; by destruct (wire_header_cons h) as (? & ? & ->)).
  unfold bindS at 1. rewrite Ht. unfold bindS at 1.
  rewrite HandleFrameEnd_control by exact (control_is_control _ h Hch).
  rewrite HandleControlFrame_close by apply Hch. rewrite Hrun. cbn [negb].
  rewrite Nat.add_1_r. unfold retS at 1. cbn [negb]. apply read_loop_done. by rewrite H6.
Qed.

(** C25: a close frame with the largest payload the protocol allows, 125 bytes,
    makes [HandleCloseFrame] write its terminating zero one byte past the end of
    [ctrlPayload_]. *)
Theorem ReadWebsocket_full_close_overflows (h : WSHeader) (p rest : bytes) (s : SessionImplEV) :
  EnvOk env -> control_header CLOSE_0X8 h -> zlen p = payloadLen h -> payloadLen h = 125 ->
  bev_ s = true -> hasHeader_ s = false -> contents (bev_input s) = wire_header h ++ p ++ rest ->
  ReadWebsocket env s = Undef "write past the end of a buffer".
Proof.
  intros EO Hch Hlen Hfull Hb Hh Hin.
  destruct (read_turn_control env _ h p rest s Hch Hh Hin Hlen) as (b & _ & Ht).
  rewrite (ReadWebsocket_turn env) by
    (done || rewrite Hin; by destruct (wire_header_cons h) as (? & ? & ->)).
  unfold bindS at 1. rewrite Ht. unfold bindS at 1.
  rewrite HandleFrameEnd_control by exact (control_is_control _ h Hch).
  rewrite HandleControlFrame_close by apply Hch.
  assert (zlen (payload_of h p) = 125) as Hz by (rewrite zlen_payload_of; lia).
  generalize dependent (payload_of h p). intros d _ Hz.
  rewrite (HandleCloseFrame_overflows env d); [done|done|unfold zlen in Hz; lia|exact Hz].
Qed.
End theorems.

(** ** Concrete sessions *)

(** A connected session whose message handler does nothing. *)
Definition listening_session : @SessionImplEV ListEvBuffer :=
  with_onMessage_ (MessageHandler_ctor (Some (fun _ _ => []))) open_session.

(** The session when [d] has arrived. *)
Definition arrived (d : bytes) (s : @SessionImplEV ListEvBuffer) : @SessionImplEV ListEvBuffer :=
  with_bev_input (evbuffer_add (bev_input s) d) s.

Lemma listening_session_idle d : idle (onMessage_ listening_session) [] d (arrived d listening_session).
Proof. split_and!; [|done..]. constructor; try done; discriminate. Qed.

Lemma listening_session_quiet : quiet (onMessage_ listening_session).
Proof. done. Qed.

Definition ping_header (n : Z) : WSHeader := mkWSHeader 1 0 0 0 (op PING_0X9) 0 n 0 0.
Definition close_header (n : Z) : WSHeader := mkWSHeader 1 0 0 0 (op CLOSE_0X8) 0 n 0 0.

Lemma ping_header_control n : 0 <= n <= 125 -> control_header PING_0X9 (ping_header n).
Proof.
  intros Hn. unfold control_header, wf_header. simpl.
  split_and!; try done; try lia; by repeat constructor.
Qed.

Lemma close_header_control n : 0 <= n <= 125 -> control_header CLOSE_0X8 (close_header n).
Proof.
  intros Hn. unfold control_header, wf_header. simpl.
  split_and!; try done; try lia; by repeat constructor.
Qed.

(** [clean_cuts] as a test. *)
Fixpoint clean_cutb (frames : list (WSHeader * bytes)) (n : nat) : bool :=
  match frames with
  | [] => true
  | (_, p) :: later =>
      let k := (length p + length (stream later) - n)%nat in
      (if bool_decide (length (stream later) <= n <= length p + length (stream later))%nat
       then outcome_eqb (ValidateUtf8 WS_UTF8_ACCEPT (take k p)) WS_UTF8_ACCEPT else true) &&
      clean_cutb later n
  end.

Fixpoint clean_cutsb (frames : list (WSHeader * bytes)) (chunks : list bytes) : bool :=
  clean_cutb frames (length (concat chunks)) &&
  match chunks with [] => true | _ :: chunks' => clean_cutsb frames chunks' end.

Lemma clean_cutb_sound frames rest : clean_cutb frames (length rest) = true -> clean_cut frames rest.
Proof.
  induction frames as [|[h0 p] frames IH]; intros Hb sent h p1 p2 later Heq Hr; [by destruct sent|].
  cbn [clean_cutb] in Hb. apply andb_prop in Hb as [Hhere Hlater].
  destruct sent as [|f sent]; simplify_eq/=; [|by eapply (IH Hlater)].
  rewrite !length_app in Hhere.
  rewrite bool_decide_true in Hhere by lia.
  replace (_ + _ + _ - _)%nat with (length p1) in Hhere by lia.
  rewrite take_app_length in Hhere. by apply outcome_eqb_true in Hhere.
Qed.

Lemma clean_cutsb_sound frames chunks : clean_cutsb frames chunks = true -> clean_cuts frames chunks.
Proof.
  induction chunks as [|c chunks IH]; intros Hb arrived later Heq; cbn [clean_cutsb] in Hb;
    apply andb_prop in Hb as [Hhere Hlater]; apply clean_cutb_sound in Hhere.
  - by destruct arrived, later.
  - destruct arrived as [|d arrived]; simplify_eq/=; [exact Hhere|by eapply (IH Hlater)].
Qed.

(** What the peer is told by the one close frame in [d]. *)
Definition close_told (d : bytes) : option Z :=
  match peer_read d with
  | Ret (h, a :: b :: _) => if opcode h =? op CLOSE_0X8 then Some (256 * a + b) else None
  | _ => None
  end.

(** the text U+00E9 in one frame is delivered when it arrives whole; when the
    two bytes of the character arrive in different reads the session answers
    with a close frame of status 1007, although the text is valid. *)
Theorem split_character_closes :
  (exists s, feed sample_env [[0x81; 2; 0xC3; 0xA9]] listening_session = Ret (tt, s) /\
     trace s = [Message_cb [0xC3; 0xA9] false] /\ contents (bev_output s) = []) /\
  (exists s, feed sample_env [[0x81; 2; 0xC3]; [0xA9]] listening_session = Ret (tt, s) /\
     trace s = [] /\ close_told (contents (bev_output s)) = Some INCONSISTENT_DATA_1007).
Proof.
  split; (eexists; split_and!; [vm_compute; reflexivity|vm_compute; reflexivity..]).
Qed.

(** a message sent while a frame is being received replaces the header of
    that frame, which the session keeps in the same member.  A close frame of
    status 1000 or 3072 cut after its third byte is answered in kind; with a
    [DoSendMsg] between the two reads the last byte of the first is taken for
    masked text and refused with 1007, and that of the second is stored through
    the null buffer [frameData_]. *)
Theorem send_corrupts_reception :
  (exists s, feed sample_env [[0x88; 2; 0x03]; [0xE8]] listening_session = Ret (tt, s) /\
     close_told (contents (bev_output s)) = Some NORMAL_1000) /\
  (exists s, feed sample_env [[0x88; 2; 0x0C]; [0x00]] listening_session = Ret (tt, s) /\
     close_told (contents (bev_output s)) = Some 3072) /\
  (exists sent frame s0 s1,
     (let! _ := feed sample_env [[0x88; 2; 0x03]] in DoSendMsg sample_env (str "hi"))
       listening_session = Ret (sent, s0) /\
     feed sample_env [[0xE8]] s0 = Ret (tt, s1) /\
     contents (bev_output s1) = contents (bev_output s0) ++ frame /\
     close_told frame = Some INCONSISTENT_DATA_1007) /\
  (let! _ := feed sample_env [[0x88; 2; 0x0C]] in
   let! _ := DoSendMsg sample_env (str "hi") in
   feed sample_env [[0x00]]) listening_session = Undef "use of a null evbuffer".
Proof.
  do 2 (split; [eexists; split; [vm_compute; reflexivity|vm_compute; reflexivity]|]).
  split; [|vm_compute; reflexivity].
  exists (0, [99; 89]), [136; 130; 159; 196; 233; 14; 156; 43]. do 2 eexists.
  do 3 (split; [vm_compute; reflexivity|]). vm_compute; reflexivity.
Qed.

Lemma ValidateHeader_spec_witness :
  ValidateHeader (with_wsHeader_ (text_header (str "hi")) open_session) =
    Ret ((if header_valid false (text_header (str "hi")) then 0 else -1),
         with_wsHeader_ (text_header (str "hi")) open_session).
Proof.
  apply (ValidateHeader_spec (with_wsHeader_ (text_header (str "hi")) open_session)).
  unfold wf_header. vm_compute. intuition discriminate.
Defined.

(** A masked text "hello" and an unmasked binary "world". *)
Definition whole_frames : list (WSHeader * bytes) :=
  [(mkWSHeader 1 0 0 0 (op TEXT_0X1) 1 5 0 0x04030201, [105; 103; 111; 104; 110]);
   (mkWSHeader 1 0 0 0 (op BINARY_0X2) 0 5 0 0, str "world")].

Lemma ReadWebsocket_delivers_witness :
  (exists s', ReadWebsocket sample_env (arrived (stream whole_frames) listening_session) = Ret (tt, s') /\
    trace s' = rev (delivery <$> whole_frames) ++ [] /\
    contents (bev_input s') = [] /\ hasHeader_ s' = false /\ inMsgFlag_ s' = false) /\
  delivery <$> whole_frames = [Message_cb (str "hello") false; Message_cb (str "world") true].
Proof.
  split; [|vm_compute; reflexivity].
  apply (ReadWebsocket_delivers sample_env (onMessage_ listening_session) [] whole_frames);
    [apply sample_env_ok|apply sample_lib_ok|apply listening_session_quiet| |apply listening_session_idle].
  constructor; [|constructor; [|done]].
  all: unfold good_frame, data_header, wf_header; vm_compute; intuition discriminate.
Defined.

(** The two characters of a text, U+00E9 and U+0021, and a binary message whose
    length takes the long form, with reads that end inside both headers, between
    the characters and inside the binary payload. *)
Definition mixed_frames : list (WSHeader * bytes) :=
  [text_frame [0xC3; 0xA9; 33];
   (mkWSHeader 1 0 0 0 (op BINARY_0X2) 0 126 0 0, replicate 126 7)].
Definition mixed_chunks : list bytes :=
  [[0x81]; [3; 0xC3; 0xA9]; [33; 0x82; 126; 0]; []; 126 :: replicate 100 7; replicate 26 7].

Lemma feed_delivers_any_chunking_witness :
  exists s', feed sample_env mixed_chunks (arrived [] listening_session) = Ret (tt, s') /\
    trace s' = rev (delivery <$> mixed_frames) ++ [] /\ contents (bev_input s') = [] /\
    hasHeader_ s' = false /\ inMsgFlag_ s' = false.
Proof.
  apply (feed_delivers_any_chunking sample_env (onMessage_ listening_session) [] mixed_frames mixed_chunks);
    [apply sample_env_ok|apply sample_lib_ok|apply listening_session_quiet| |vm_compute; reflexivity
    |apply clean_cutsb_sound; vm_compute; reflexivity|apply listening_session_idle].
  constructor; [|constructor; [|done]].
  all: unfold server_frame, good_frame, data_header, wf_header; vm_compute; intuition discriminate.
Defined.

Lemma ReadWebsocket_ping_null_witness :
  ReadWebsocket sample_env (arrived (wire_header (ping_header 2) ++ str "hi" ++ []) listening_session)
    = Undef "call through a null function pointer".
Proof.
  apply (ReadWebsocket_ping_null sample_env PING_0X9 (ping_header 2) (str "hi") []);
    [apply sample_env_ok|by left|apply ping_header_control; lia|reflexivity..].
Defined.

Lemma ReadWebsocket_answers_close_witness :
  exists s', ReadWebsocket sample_env
      (arrived (wire_header (close_header 5) ++ [3; 232] ++ str "bye") listening_session)
      = Ret (tt, s') /\
    state_ s' = CLOSING /\ receivedCloseFlag_ s' = true /\ sentCloseFlag_ s' = true /\
    closeTimeoutEvent_ s' = true /\ serverCloseStatus_ s' = 1000 /\
    contents (bev_input s') = [] /\ hasHeader_ s' = false /\
    exists frame h', contents (bev_output s') = contents (bev_output listening_session) ++ frame /\
      peer_read frame = Ret (h', 1000 / 256 :: 1000 mod 256 :: str "bye") /\
      opcode h' = op CLOSE_0X8 /\ fin h' = 1.
Proof.
  apply (ReadWebsocket_answers_close sample_env (close_header 5) ([3; 232] ++ str "bye") 1000
           WS_UTF8_ACCEPT (str "bye")
           (arrived (wire_header (close_header 5) ++ [3; 232] ++ str "bye") listening_session));
    [apply sample_env_ok|apply sample_lib_ok|apply close_header_control; lia|..];
    first [reflexivity | vm_compute; intuition discriminate].
Defined.

Lemma ReadWebsocket_full_close_overflows_witness :
  ReadWebsocket sample_env
    (arrived (wire_header (close_header 125) ++ replicate 125 3 ++ []) listening_session)
    = Undef "write past the end of a buffer".
Proof.
  apply (ReadWebsocket_full_close_overflows sample_env (close_header 125) (replicate 125 3) []);
    [apply sample_env_ok|apply close_header_control; lia|reflexivity..].
Defined.
