(* ===== verification/WsSession.v ===== *)
(** * The session and the event loop

    The callbacks of implement/ev/session_impl_ev.cpp, its connection set-up, and
    the [Session] of session.cpp.  [DoConnect] runs the event loop, so it is given
    the events the loop will see; each one is handled by the callback registered
    for it.  The connect and close timers and the bufferevent only fire while the
    session holds them. *)

From stdpp Require Import base list numbers strings relations.
From Stdlib Require Import ZArith Lia.
From S2P Require Import Prelude Utf8 WsTypes WsHeader Libevent HttpHeader WsState WsSend WsHandshake.
From S2P Require Import WsRecv.

(** libevent's flags for bufferevent events. *)
Definition BEV_EVENT_EOF : Z := 0x10.
Definition BEV_EVENT_ERROR : Z := 0x20.
Definition BEV_EVENT_CONNECTED : Z := 0x80.

(** What the event loop can report. *)
Inductive LoopEvent :=
| Arrived (d : bytes)        (* data read into the input buffer *)
| Written (n : nat)          (* data written from the output buffer *)
| Bev_event (events : Z)
| Connect_timer
| Close_timer.

Section ops.
Context {E : EvBuffer} (env : Env).

Abbreviation SM := (M SessionImplEV).

Definition BuiltinNoCopyCleanupWrapper : SM unit :=
  let! cb := getS noCopyCleanupCb_ in
  checkS cb "thiz->noCopyCleanupCb_".

(** [buf] tells whether a buffer is given; the answer is what it holds. *)
Definition GetUri (buf : bool) (bufsize : Z) : SM bytes :=
  if negb buf then retS [] else
  let! ssl := getS useSsl_ in
  let! host := getS host_ in
  let! port := getS port_ in
  let! uri := getS uri_ in
  retS (snprintf bufsize
          ((if negb ssl then str "wss" else str "ws") ++ str "://" ++ cstr host ++ str ":" ++
           dec port ++ str "/" ++ cstr uri)).1.

(** The text it logs. *)
Definition OnConnectionTimeout : SM bytes :=
  let! t := getS connectTimeout_ in
  let! uri := GetUri true 256 in
  retS (FmtString (str "Websocket connection timed out after " ++ dec t ++ str " seconds for " ++
                   cstr uri)).

Definition OnRead : SM unit :=
  let! bev := getS bev_ in
  do! checkS bev "thiz->bev_ == bev" in
  let! cs := getS connectState_ in
  let! waiting :=
    (if negb (bool_decide (cs = HANDSHAKE_COMPLETE)) then
       let! state := ReadServerHandshakeReply env in
       match state with
       | PARSE_ERROR => do! ShutDown in retS false
       | NEED_MORE => retS true
       | SUCCESS =>
           do! updS (with_state_ CONNECTED) in
           let! cb := getS onConnect_ in
           do! happen Connected_cb in
           do! run_handler env (ConnectHandler_call cb) in
           retS false
       | USER_ABORT => retS false
       end
     else retS false) in
  if (waiting : bool) then retS tt else
  ReadWebsocket env.

Definition OnWrite : SM unit := retS tt.

Definition QuitDelay (let_running_events_complete : Z) : SM Z :=
  let! failed := lib_call env in
  do! whenS (negb failed) (happen Loop_exit) in
  retS (if failed then -1 else 0).

Definition Quit (let_running_events_complete : Z) : SM Z := QuitDelay let_running_events_complete.

Definition OnEofEvent : SM unit :=
  let! bev := getS bev_ in
  if negb bev then undefS "use of a null bufferevent" else
  let! n := input_length in
  do! whenS (0 <? n) (ReadWebsocket env) in
  let! status := getS serverCloseStatus_ in
  do! ShutDown in
  let! received := getS receivedCloseFlag_ in
  do! whenS (negb received) (updS (with_state_ CLOSED_UNCLEANLY)) in
  let status := if negb received then ABNORMAL_1006 else status in
  let! cb := getS onClose_ in
  do! whenS cb (happen (Close_cb status)) in
  let! _ := Quit 1 in
  retS tt.

Definition OnConnectEvent : SM unit :=
  let! bev := getS bev_ in
  if negb bev then undefS "use of a null bufferevent" else
  let! _ := SendHandshake env in
  retS tt.

Definition OnEvent (events : Z) : SM unit :=
  if negb (Z.land events BEV_EVENT_CONNECTED =? 0) then OnConnectEvent else
  if negb (Z.land events BEV_EVENT_EOF =? 0) then OnEofEvent else
  retS tt.

Definition DoInit : SM Z :=
  let! wsa := lib_call env in
  if (wsa : bool) then retS (-1) else
  do! updS (with_state_ CLOSED_CLEANLY) in
  let! no_base := lib_call env in
  do! updS (with_evBase_ (negb no_base)) in
  if (no_base : bool) then retS (-1) else
  let! no_dns := lib_call env in
  do! updS (with_dnsBase_ (negb no_dns)) in
  if (no_dns : bool) then retS (-1) else
  retS 0.

(** [SetupTimeoutEvent(&connectTimeoutEvent_, tv)]. *)
Definition SetupTimeoutEvent (tv : Z) : SM Z :=
  do! updS (with_connectTimeoutEvent_ false) in
  let! no_timer := lib_call env in
  do! updS (with_connectTimeoutEvent_ (negb no_timer)) in
  if (no_timer : bool) then retS (-1) else
  let! not_added := lib_call env in
  if (not_added : bool) then
    do! updS (with_connectTimeoutEvent_ false) in
    retS (-1)
  else retS 0.

Definition SetupConnectionTimeout : SM Z :=
  let! t := getS connectTimeout_ in
  SetupTimeoutEvent (if 0 <? t then t else WS_DEFAULT_CONNECT_TIMEOUT).

(** ** The event loop *)

Definition enabled (e : LoopEvent) (s : SessionImplEV) : bool :=
  match e with
  | Arrived _ | Written _ | Bev_event _ => bev_ s
  | Connect_timer => connectTimeoutEvent_ s
  | Close_timer => closeTimeoutEvent_ s
  end.

Definition handle (e : LoopEvent) : SM unit :=
  match e with
  | Arrived d =>
      do! updS (fun s => with_bev_input (evbuffer_add (bev_input s) d) s) in
      OnRead
  | Written n =>
      do! updS (fun s => with_bev_output (evbuffer_drain (bev_output s) n) s) in
      OnWrite
  | Bev_event events => OnEvent events
  | Connect_timer => let! _ := OnConnectionTimeout in retS tt
  | Close_timer => OnCloseTimeout
  end.

(** [event_base_dispatch]: events that cannot occur are passed over. *)
Definition event_base_dispatch (events : list LoopEvent) : SM unit :=
  iterS (fun e => let! on := getS (enabled e) in whenS on (handle e)) events.

(** [DoConnect] up to the event loop: false when it returns before it. *)
Definition connect_start : SM bool :=
  let! st := getS state_ in
  if negb (bool_decide (st = CLOSED_CLEANLY)) && negb (bool_decide (st = CLOSED_UNCLEANLY))
  then retS false else
  do! updS (with_uri_ (str "/ajaxchattest")) in
  do! updS (with_host_ (str "123.207.136.134")) in
  do! updS (with_port_ 9091) in
  do! updS (with_receivedCloseFlag_ false) in
  do! updS (with_sentCloseFlag_ false) in
  do! updS (with_inMsgFlag_ false) in
  do! updS (fun s => with_origin_ (str "http://" ++ host_ s ++ str ":" ++ dec (port_ s)) s) in
  let! no_bev := lib_call env in
  do! updS (with_bev_ (negb no_bev)) in
  if (no_bev : bool) then undefS "use of a null bufferevent" else
  do! updS (with_bev_input evbuffer_new) in
  do! updS (with_bev_output evbuffer_new) in
  do! updS (with_state_ CONNECTING) in
  let! failed := SetupConnectionTimeout in
  retS (failed =? 0).

Definition DoConnect (events : list LoopEvent) : SM Z :=
  let! started := connect_start in
  if negb started then retS (-1) else
  do! event_base_dispatch events in
  retS 0.

(** ** Options, and session.cpp, session_impl.cpp *)

Definition SetHandler_connect (h : ConnectHandler) : SM unit := updS (with_onConnect_ h).
Definition SetHandler_message (h : MessageHandler) : SM unit := updS (with_onMessage_ h).
Definition SetUrl (url : Url) : SM unit := retS tt.

Inductive SessionOption :=
| OptConnect (h : ConnectHandler)
| OptMessage (h : MessageHandler)
| OptUrl (url : Url).

(** [SessionImpl::SetOption]. *)
Definition SetOption (o : SessionOption) : SM unit :=
  match o with
  | OptConnect h => SetHandler_connect h
  | OptMessage h => SetHandler_message h
  | OptUrl u => SetUrl u
  end.

(** [Session::SetOption] with one or more options. *)
Definition Session_SetOption (os : list SessionOption) : SM unit := iterS SetOption os.
Definition Session_Close : SM Z := DoClose env.
Definition Session_Connect (events : list LoopEvent) : SM Z := DoConnect events.
Definition Session_Init : SM bool := let! r := DoInit in retS (negb (r =? 0)).
Definition Session_SendMsg (msg : bytes) : SM (Z * bytes) := DoSendMsg env msg.

End ops.

(** ** The close timer

    [timed]: a session that holds the close timer has sent a close frame.  It is
    kept by everything that runs inside the event loop. *)

Section timed.
Context {E : EvBuffer} (env : Env).

Definition timed (s s' : SessionImplEV) : Prop :=
  (sentCloseFlag_ s = true -> sentCloseFlag_ s' = true) /\
  (closeTimeoutEvent_ s' = true -> closeTimeoutEvent_ s = true \/ sentCloseFlag_ s' = true) /\
  httpHeaderFlags_ s' = httpHeaderFlags_ s /\ numSubprotocols_ s' = numSubprotocols_ s /\
  connectState_ s' = connectState_ s.

#[export] Instance timed_preorder : PreOrder timed.
Proof.
  split; unfold timed.
  - intros s. intuition.
  - intros s1 s2 s3 (H1 & H2 & H3 & H4 & H5) (H1' & H2' & H3' & H4' & H5').
    split_and!; try congruence; [auto|]. intros [Hc|Hc]%H2'; [|by right].
    destruct (H2 Hc); auto.
Qed.

Abbreviation keeps_time := (moves (fun _ => True) timed).

Lemma timed_upd (f : SessionImplEV -> SessionImplEV) :
  (forall s, sentCloseFlag_ (f s) = sentCloseFlag_ s) ->
  (forall s, closeTimeoutEvent_ (f s) = true -> closeTimeoutEvent_ s = true) ->
  (forall s, httpHeaderFlags_ (f s) = httpHeaderFlags_ s) ->
  (forall s, numSubprotocols_ (f s) = numSubprotocols_ s) ->
  (forall s, connectState_ (f s) = connectState_ s) ->
  keeps_time (updS f).
Proof.
  intros H1 H2 H3 H4 H5. apply moves_upd. intros s.
  split_and!; [by rewrite H1|by left; apply H2|done..].
Qed.

Lemma wlp_lib_call U (Q : bool -> SessionImplEV -> Prop) s :
  Q (lib_fails env (lib_calls s)) (with_lib_calls (S (lib_calls s)) s) ->
  wlp U (lib_call env) Q s.
Proof. done. Qed.

Lemma timed_lib_call : keeps_time (lib_call env).
Proof. intros s. unfold wlp, lib_call, timed. simpl. intuition. Qed.

Lemma timed_random n : keeps_time (random_bytes env n).
Proof.
  intros s. unfold wlp, random_bytes. destruct (GetRandomMask _ _ _) as [[bs r] c].
  unfold timed. simpl. intuition.
Qed.

Lemma timed_lift {A} (o : outcome A) : keeps_time (liftS o).
Proof. apply moves_lift; [apply _|done]. Qed.
Lemma timed_undef {A} w : keeps_time (undefS w : M _ A).
Proof. done. Qed.
End timed.

Create HintDb timed.
#[export] Hint Resolve timed_lib_call timed_random timed_lift timed_undef : timed.

Ltac timed_steps :=
  repeat first
    [ solve [eauto with timed nocore]
    | apply timed_upd; solve [intros; first [reflexivity | assumption | discriminate]]
    | moves_step
    | case_match ].

Section timed_ops.
Context {E : EvBuffer} (env : Env).
Abbreviation keeps_time := (moves (fun _ => True) timed).

Lemma timed_output_add d : keeps_time (output_add env d).
Proof. unfold output_add. timed_steps. Qed.
#[local] Hint Resolve timed_output_add : timed.
Lemma timed_SendData d b : keeps_time (SendData env d b).
Proof. unfold SendData. timed_steps. Qed.
#[local] Hint Resolve timed_SendData : timed.
Lemma timed_send_header : keeps_time (send_header env).
Proof. unfold send_header. timed_steps. Qed.
#[local] Hint Resolve timed_send_header : timed.
Lemma timed_SendFrameRaw o d : keeps_time (SendFrameRaw env o d).
Proof. unfold SendFrameRaw, upd_header. timed_steps. Qed.
#[local] Hint Resolve timed_SendFrameRaw : timed.
Lemma timed_OnMsgFrameSend d n : keeps_time (OnMsgFrameSend env d n).
Proof.
  unfold OnMsgFrameSend, OnMsgFrameDataBegin, OnMsgFrameDataSend, upd_header. timed_steps.
Qed.
#[local] Hint Resolve timed_OnMsgFrameSend : timed.
Lemma timed_send_fragments fuel : forall size msg, keeps_time (send_fragments env fuel size msg).
Proof. induction fuel; intros size msg; cbn [send_fragments]; timed_steps. Qed.
#[local] Hint Resolve timed_send_fragments : timed.
Lemma timed_SendMsgEx msg b : keeps_time (SendMsgEx env msg b).
Proof.
  unfold SendMsgEx, OnSendMsgBegin, OnSendMsgEnd, upd_header. timed_steps.
Qed.
Lemma timed_SendClose st r : keeps_time (SendClose env st r).
Proof. unfold SendClose. timed_steps. Qed.
#[local] Hint Resolve timed_SendClose : timed.
Lemma timed_close_fail : keeps_time close_fail.
Proof. unfold close_fail, ShutDown, happen. timed_steps. Qed.
#[local] Hint Resolve timed_close_fail : timed.

(** The timer is set after the close frame has been sent. *)
Lemma timed_CloseWithStatusReason st r : keeps_time (CloseWithStatusReason env st r).
Proof.
  unfold CloseWithStatusReason. moves_step; [timed_steps|]. moves_step; [timed_steps|].
  moves_step; [timed_steps|]. apply moves_if; [apply timed_close_fail|].
  intros s. do 3 wp_step. apply wlp_lib_call.
  match goal with |- wlp _ _ _ ?t => set (s1 := t) end.
  assert (timed s s1 /\ sentCloseFlag_ s1 = true) as [H1 Hs] by (unfold timed; subst s1; simpl; intuition).
  clearbody s1. do 2 wp_step. set (s2 := with_closeTimeoutEvent_ _ s1).
  assert (timed s s2) as H2.
  { transitivity s1; [done|]. unfold timed. subst s2. simpl. intuition. }
  clearbody s2. eapply (moves_wlp (fun _ => True) timed); [timed_steps|].
  intros ? s3 H3. by transitivity s2.
Qed.
#[local] Hint Resolve timed_CloseWithStatusReason : timed.
Lemma timed_run_handler calls : keeps_time (run_handler env calls).
Proof.
  apply moves_iter; [apply _|]. intros [msg|]; simpl; moves_step;
    [apply timed_SendMsgEx|timed_steps|apply timed_CloseWithStatusReason|timed_steps].
Qed.
#[local] Hint Resolve timed_run_handler : timed.
Lemma timed_HandleFrameBegin : keeps_time (HandleFrameBegin env).
Proof. unfold HandleFrameBegin, OnRecvMsgBegin, OnMsgFrameBegin, new_buffer. timed_steps. Qed.
#[local] Hint Resolve timed_HandleFrameBegin : timed.
Lemma timed_HandleCloseFrame : keeps_time (HandleCloseFrame env).
Proof.
  unfold HandleCloseFrame, take_close_payload, ValidateUtf8_reason, reason_bytes, CloseWithStatus.
  timed_steps.
Qed.
#[local] Hint Resolve timed_HandleCloseFrame : timed.
Lemma timed_HandleFrameEnd : keeps_time (HandleFrameEnd env).
Proof.
  unfold HandleFrameEnd, HandleControlFrame, HandlePongFrame, HandlePingFrame, ctrl_bytes,
    OnMsgFrameEnd, OnMsgFrame, OnRecvMsgEnd, deref, happen. timed_steps.
Qed.
#[local] Hint Resolve timed_HandleFrameEnd : timed.
Lemma timed_HandleFrameData d : keeps_time (HandleFrameData env d).
Proof. unfold HandleFrameData, OnMsgFrameData, deref, CloseWithStatus. timed_steps. Qed.
#[local] Hint Resolve timed_HandleFrameData : timed.
Lemma timed_read_header : keeps_time (read_header env).
Proof. unfold read_header, ValidateHeader, CloseWithStatus. timed_steps. Qed.
#[local] Hint Resolve timed_read_header : timed.
Lemma timed_read_turn : keeps_time (read_turn env).
Proof. unfold read_turn, read_payload, check_utf8, input_length, CloseWithStatus. timed_steps. Qed.
#[local] Hint Resolve timed_read_turn : timed.
Lemma timed_ReadWebsocket : keeps_time (ReadWebsocket env).
Proof.
  unfold ReadWebsocket, input_length.
  assert (forall fuel, keeps_time (read_loop env fuel)) as Hl
    by (intros fuel; induction fuel; cbn [read_loop]; unfold input_length; timed_steps).
  timed_steps.
Qed.
End timed_ops.

(** ** The end of a connection *)

Section eof.
Context {E : EvBuffer} {L : EvBufferLaws E} (env : Env).

Section lemmas.
Context {LO : LibOk env}.

Lemma wp_lib_ok (Q : bool -> SessionImplEV -> Prop) s :
  Q false (with_lib_calls (S (lib_calls s)) s) -> wp (lib_call env) Q s.
Proof. unfold wp, lib_call. by rewrite lib_never_fails. Qed.

(** The end of the connection with nothing to read. *)
Lemma OnEofEvent_empty s :
  bev_ s = true -> contents (bev_input s) = [] ->
  wp (OnEofEvent env) (fun _ s' => bev_ s' = false /\
    connectTimeoutEvent_ s' = false /\ closeTimeoutEvent_ s' = closeTimeoutEvent_ s /\
    state_ s' = (if receivedCloseFlag_ s then state_ s else CLOSED_UNCLEANLY) /\
    trace s' = Loop_exit ::
      (if onClose_ s then
         [Close_cb (if receivedCloseFlag_ s then serverCloseStatus_ s else ABNORMAL_1006)]
       else []) ++ trace s) s.
Proof.
  intros Hb Hin. unfold OnEofEvent, input_length, ShutDown, Quit, QuitDelay, happen.
  do 2 wp_step. rewrite Hb. cbn [negb]. do 2 wp_step. rewrite length_law, Hin.
  change (0 <? zlen []) with false. cbn [whenS]. do 8 wp_step.
  set (s1 := with_bev_ false (with_connectTimeoutEvent_ false s)).
  assert (bev_ s1 = false /\ connectTimeoutEvent_ s1 = false /\
    closeTimeoutEvent_ s1 = closeTimeoutEvent_ s /\ state_ s1 = state_ s /\ trace s1 = trace s /\
    receivedCloseFlag_ s1 = receivedCloseFlag_ s /\ onClose_ s1 = onClose_ s)
    as (H1 & H2 & <- & <- & <- & <- & <-) by done.
  clearbody s1. do 3 wp_step.
  destruct (receivedCloseFlag_ s1), (onClose_ s1) eqn:Ho; cbn [negb whenS];
    (do 4 wp_step; ses_simpl; rewrite Ho; cbn [whenS];
     repeat first [apply wp_lib_ok; cbn [negb whenS] | wp_step]; ses_simpl; split_and!; done).
Qed.

End lemmas.

(** the end of the connection, with nothing left to read: the bufferevent is
    freed, the loop is told to stop, the close callback, if there is one, gets the
    status of the server's close frame or 1006, and without a close frame from
    the server the session is CLOSED_UNCLEANLY; after one it stays in the state
    it was in. *)
Theorem OnEofEvent_outcome (s : SessionImplEV) :
  LibOk env -> bev_ s = true -> contents (bev_input s) = [] ->
  exists s', OnEofEvent env s = Ret (tt, s') /\ bev_ s' = false /\
    connectTimeoutEvent_ s' = false /\ closeTimeoutEvent_ s' = closeTimeoutEvent_ s /\
    state_ s' = (if receivedCloseFlag_ s then state_ s else CLOSED_UNCLEANLY) /\
    trace s' = Loop_exit ::
      (if onClose_ s then
         [Close_cb (if receivedCloseFlag_ s then serverCloseStatus_ s else ABNORMAL_1006)]
       else []) ++ trace s.
Proof.
  intros LO Hb Hin. pose proof (OnEofEvent_empty s Hb Hin) as Hw.
  apply wp_run in Hw as ([] & s' & Hr & He). by exists s'.
Qed.
End eof.

Lemma OnEofEvent_outcome_witness :
  exists s', OnEofEvent sample_env open_session = Ret (tt, s') /\ bev_ s' = false /\
    connectTimeoutEvent_ s' = false /\ closeTimeoutEvent_ s' = closeTimeoutEvent_ open_session /\
    state_ s' = CLOSED_UNCLEANLY /\ trace s' = [Loop_exit].
Proof.
  apply (OnEofEvent_outcome sample_env open_session); [apply sample_lib_ok|reflexivity|reflexivity].
Defined.
