(* ===== verification/WsLoop.v ===== *)
(** * A connection in the event loop

    The states a session goes through from [Connect] on, as a relation on
    events, the invariant they keep, and what can stop a callback. *)

From stdpp Require Import base list numbers strings relations.
From Stdlib Require Import ZArith Lia.
From S2P Require Import Prelude Utf8 WsTypes WsHeader Libevent HttpHeader WsState WsSend WsHandshake.
From S2P Require Import WsRecv WsRecvSafety WsSession.

(** The event reports that the connection is made. *)
Definition is_connected (e : LoopEvent) : bool :=
  match e with Bev_event f => negb (Z.land f BEV_EVENT_CONNECTED =? 0) | _ => false end.

(** Arriving data is bytes. *)
Definition proper (e : LoopEvent) : Prop :=
  match e with Arrived d => Forall is_byte d | _ => True end.

Section loop.
Context {E : EvBuffer} {L : EvBufferLaws E} (env : Env).

(** [reachable made s]: a session that was initialised, given its options and
    told to connect gets to [s]; [made] tells whether the connection has been
    reported, which libevent does once. *)
Inductive reachable : bool -> SessionImplEV -> Prop :=
| reach_start opts r s0 s :
    (let! r := DoInit env in do! Session_SetOption opts in retS r) new_session = Ret (r, s0) ->
    connect_start env s0 = Ret (true, s) ->
    reachable false s
| reach_connected s e s' :
    reachable false s -> enabled e s = true -> is_connected e = true ->
    handle env e s = Ret (tt, s') -> reachable true s'
| reach_event made s e s' :
    reachable made s -> enabled e s = true -> is_connected e = false -> proper e ->
    handle env e s = Ret (tt, s') -> reachable made s'.

Record loop_inv (made : bool) (s : SessionImplEV) : Prop := {
  lv_recv : recv_inv (with_bev_ true s);
  lv_flags : 0 <= httpHeaderFlags_ s < 8;
  lv_subs : numSubprotocols_ s = 0;
  lv_timer : closeTimeoutEvent_ s = true -> sentCloseFlag_ s = true;
  lv_made : made = false -> connectState_ s = CONNECT_NONE;
  (* no frame is read before the handshake is complete *)
  lv_wait : bev_ s = true -> connectState_ s <> HANDSHAKE_COMPLETE -> hasHeader_ s = false
}.

(** Where a callback may be undefined. *)
Definition loop_undef (w : string) : Prop :=
  recv_undef w \/ w = "sscanf: integer out of range"%string.

Abbreviation safe := (wlp loop_undef).

Lemma with_bev_open s : bev_ s = true -> with_bev_ true s = s.
Proof. destruct s. simpl. by intros ->. Qed.

Lemma recv_inv_shut s : recv_inv (with_bev_ true s) -> recv_inv (with_bev_ true (with_bev_ false s)).
Proof. done. Qed.

(** Fields the invariant does not speak of have changed. *)
Ltac loop_same H :=
  destruct H as [[[] [? ?]] ? ? ? ? ?]; constructor; ses_simpl; try done;
  try (split; [by constructor|done]).

Context {EO : EnvOk env} {LO : LibOk env}.

(** Reading frames, when the handshake is complete or the connection is to be
    dropped next. *)
Lemma ReadWebsocket_loop made s :
  loop_inv made s -> connectState_ s = HANDSHAKE_COMPLETE ->
  safe (ReadWebsocket env) (fun _ s' => loop_inv made s') s.
Proof.
  intros H Hcs. destruct (bev_ s) eqn:Hb.
  2: { unfold wlp, ReadWebsocket. rewrite bind_get, Hb. done. }
  pose proof (lv_recv _ _ H) as Hr. rewrite with_bev_open in Hr by done.
  assert (safe (ReadWebsocket env) (fun _ s' => recv_inv s') s) as Hw.
  { eapply wlp_weaken; [by apply ReadWebsocket_inv|]. intros w Hw. by left. }
  eapply wlp_mono; [eapply wlp_and; [exact Hw|apply timed_ReadWebsocket]|].
  intros ? s' [Hr' (Hs & Ht & Hf & Hn & Hc)]. destruct H.
  constructor; [|congruence|congruence| | |congruence].
  - by rewrite with_bev_open by apply Hr'.
  - intros [Hct|]%Ht; auto.
  - intros Hm. rewrite Hc. auto.
Qed.

(** What a handler may do before the first frame. *)
Lemma run_handler_loop made calls s :
  loop_inv made s -> connectState_ s = HANDSHAKE_COMPLETE -> hasHeader_ s = false ->
  safe (run_handler env calls)
    (fun _ s' => loop_inv made s' /\ connectState_ s' = HANDSHAKE_COMPLETE) s.
Proof.
  intros H Hcs Hh.
  eapply wlp_mono; [eapply wlp_and; [apply (run_handler_moves env)|apply timed_run_handler]|].
  intros ? s' [Ho (Hs & Ht & Hf & Hn & Hc)].
  destruct Ho as (h & o & rc & lc & st & sc & ct & cn & bv & tr & Hhd & ->). ses_simpl.
  destruct H as [[Hb [Hre _]] ? ? Htm ? ?]. split; [|exact Hcs]. constructor; ses_simpl; try done.
  - split; [|split].
    + destruct Hb. constructor; ses_simpl; try done. destruct Hhd as [->|[? _]]; done.
    + unfold reason_ok in *. ses_simpl. intuition.
    + unfold in_frame. ses_simpl. intros Hx. congruence.
  - intros [Hct|]%Ht; auto.
Qed.

(** *** The handshake reply *)

Definition consumes (s s' : SessionImplEV) : Prop :=
  exists k, contents (bev_input s) = k ++ contents (bev_input s').

#[local] Instance consumes_preorder : PreOrder consumes.
Proof.
  split; unfold consumes.
  - intros s. by exists [].
  - intros s1 s2 s3 [k1 H1] [k2 H2]. exists (k1 ++ k2). by rewrite H1, H2, app_assoc.
Qed.

Abbreviation eats := (moves (fun _ => True) consumes).

Lemma consumes_same (f : SessionImplEV -> SessionImplEV) :
  (forall s, bev_input (f s) = bev_input s) -> eats (updS f).
Proof. intros H. apply moves_upd. intros s. exists []. by rewrite H. Qed.

Lemma input_readln_eats : eats input_readln.
Proof.
  intros s. unfold wlp, input_readln.
  destruct (evbuffer_readln_crlf (bev_input s)) as [[l b]|] eqn:Hr; [|by exists []].
  apply readln_some in Hr as [_ [Hr|[Hr _]]]; unfold consumes; ses_simpl; rewrite Hr.
  - exists (l ++ [13; 10]). by rewrite <- app_assoc.
  - exists (l ++ [10]). by rewrite <- app_assoc.
Qed.

Ltac eats_steps :=
  repeat first
    [ apply input_readln_eats
    | apply consumes_same; reflexivity
    | apply moves_lift; [apply _|done]
    | assumption
    | moves_step
    | case_match
    | done ].

Lemma ParseHttpHeader_eats line val : eats (ParseHttpHeader line val).
Proof. unfold ParseHttpHeader. eats_steps. Qed.

Lemma ValidateHttpHeader_eats f n v en ev o : eats (ValidateHttpHeader f n v en ev o).
Proof. unfold ValidateHttpHeader. eats_steps. Qed.

Lemma ValidateHttpHeaders_eats n v : eats (ValidateHttpHeaders env n v).
Proof.
  pose proof ValidateHttpHeader_eats. unfold ValidateHttpHeaders, clear_protocol_flag. eats_steps; auto.
Qed.

Lemma read_header_lines_eats fuel : forall val, eats (read_header_lines env fuel val).
Proof.
  pose proof ValidateHttpHeaders_eats. pose proof ParseHttpHeader_eats.
  induction fuel; intros val; cbn [read_header_lines]; eats_steps; auto.
Qed.

Lemma ReadServerHandshakeReply_eats : eats (ReadServerHandshakeReply env).
Proof.
  pose proof read_header_lines_eats.
  unfold ReadServerHandshakeReply, reply_read_status, reply_read_headers, reply_check_headers,
    ReadHttpHeaders, ReadHttpStatus. eats_steps; auto.
Qed.

Lemma ReadServerHandshakeReply_loop s :
  loop_inv true s -> bev_ s = true -> connectState_ s <> HANDSHAKE_COMPLETE ->
  safe (ReadServerHandshakeReply env)
    (fun r s' => loop_inv true s' /\ bev_ s' = true /\ hasHeader_ s' = false /\ r <> USER_ABORT /\
       (r = SUCCESS -> connectState_ s' = HANDSHAKE_COMPLETE)) s.
Proof.
  intros H Hb Hcs. pose proof (lv_wait _ _ H Hb Hcs) as Hh.
  assert (safe (ReadServerHandshakeReply env) (replied s) s) as Hw.
  { destruct (ReadServerHandshakeReply_replied env s (lv_flags _ _ H) Hcs) as [Hw|Hu].
    - by apply wp_wlp.
    - unfold wlp. rewrite Hu. by right. }
  eapply wlp_mono; [eapply wlp_and; [exact Hw|apply ReadServerHandshakeReply_eats]|].
  intros r s' [(c & s1 & (b & h & f & Hf & ->) & -> & Hn & Hc) [k Hk]]. ses_simpl.
  split; [|split_and!; [done..|by intros ->%Hc]].
  destruct H as [[Hbi [Hre Hfr]] ? ? ? ? ?]. constructor; ses_simpl; try done.
  split; [|split]; [|exact Hre|by unfold in_frame in *; ses_simpl].
  destruct Hbi. constructor; ses_simpl; try done.
  rewrite Hk in *. by eapply Forall_app.
Qed.

Lemma OnRead_loop made s :
  loop_inv made s -> safe (OnRead env) (fun _ s' => loop_inv made s') s.
Proof.
  intros H. unfold OnRead. do 3 wp_step. wp_step. rename H0 into Hb. do 2 wp_step.
  destruct (bool_decide_reflect (connectState_ s = HANDSHAKE_COMPLETE)) as [Hc|Hc]; cbn [negb].
  { do 2 wp_step. by apply ReadWebsocket_loop. }
  destruct made.
  - do 2 wp_step. eapply wlp_mono; [by apply ReadServerHandshakeReply_loop|].
    intros r s1 (H1 & Hb1 & Hh1 & Hn & Hs). destruct r; [done|..].
    + unfold ShutDown. wp_steps. unfold wlp, ReadWebsocket. by rewrite bind_get.
    + specialize (Hs eq_refl). do 4 wp_step. unfold happen. do 2 wp_step.
      set (s2 := with_trace _ _).
      assert (loop_inv true s2 /\ connectState_ s2 = HANDSHAKE_COMPLETE /\ hasHeader_ s2 = false)
        as (H2 & Hc2 & Hh2) by (split; [by loop_same H1|done]).
      clearbody s2. wp_step. eapply wlp_mono; [by apply run_handler_loop|].
      intros ? s3 [H3 Hc3]. wp_step. by apply ReadWebsocket_loop.
    + by wp_steps.
  - pose proof (lv_made _ _ H eq_refl) as Hn. unfold wlp, ReadServerHandshakeReply.
    unfold bindS at 1 2 3, getS. rewrite Hn. unfold ShutDown, retS, bindS, updS. ses_simpl. done.
Qed.

(** *** The other callbacks *)

(** Keeping a property of the session. *)
Definition implies (P : SessionImplEV -> Prop) (s s' : SessionImplEV) : Prop := P s -> P s'.

#[local] Instance implies_preorder P : PreOrder (implies P).
Proof. split; unfold implies; repeat intro; auto. Qed.

Lemma lib_call_implies U made : moves U (implies (loop_inv made)) (lib_call env).
Proof. intros s. apply wlp_lib_call. intros Hs. by loop_same Hs. Qed.

Lemma loop_inv_shut made s : loop_inv made s -> loop_inv made (with_bev_ false s).
Proof. by intros []. Qed.

Lemma OnEofEvent_loop made s :
  loop_inv made s -> bev_ s = true -> safe (OnEofEvent env) (fun _ s' => loop_inv made s') s.
Proof.
  intros H Hb. unfold OnEofEvent. do 2 wp_step. rewrite Hb. cbn [negb]. unfold input_length.
  do 2 wp_step. wp_step.
  eapply (wlp_mono _ _ (fun _ s' => loop_inv made (with_bev_ false s'))).
  { wp_step; [|by apply loop_inv_shut].
    assert (safe (ReadWebsocket env) (fun _ s' => recv_inv s') s) as Hw.
    { eapply wlp_weaken; [apply (ReadWebsocket_inv env)|]; [|intros w Hw; by left].
      rewrite <- (with_bev_open s) by done. apply H. }
    eapply wlp_mono; [eapply wlp_and; [exact Hw|apply timed_ReadWebsocket]|].
    intros ? s' [Hr' (Hs & Ht & Hf & Hn & Hc)]. destruct H.
    constructor; ses_simpl; [|congruence|congruence| | |done].
    - apply recv_inv_shut. by rewrite with_bev_open by apply Hr'.
    - intros [Hct|]%Ht; auto.
    - intros Hm. rewrite Hc. auto. }
  intros ? s1 H1. do 2 wp_step. unfold ShutDown. do 4 wp_step.
  set (s2 := with_bev_ false _). assert (loop_inv made s2) as H2 by by loop_same H1. clearbody s2.
  eapply (moves_wlp loop_undef (implies (loop_inv made))); [|by intros ? s' Hs; apply Hs].
  unfold Quit, QuitDelay, happen.
  repeat first [apply lib_call_implies | moves_step]; unfold implies; intros Hs; by loop_same Hs.
Qed.

(** What sending the request changes. *)
Definition requested (s s' : SessionImplEV) : Prop :=
  exists cs key o rc lc, s' = with_connectState_ cs (with_handshakeKeyBase64_ key
    (with_bev_output o (with_rand_calls rc (with_lib_calls lc s)))).

#[local] Instance requested_preorder : PreOrder requested.
Proof.
  split; unfold requested.
  - intros s. exists (connectState_ s), (handshakeKeyBase64_ s), (bev_output s), (rand_calls s),
      (lib_calls s). destruct s. ses_eq.
  - intros s1 s2 s3 (cs & k & o & rc & lc & ->) (cs' & k' & o' & rc' & lc' & ->).
    exists cs', k', o', rc', lc'. ses_eq.
Qed.

Abbreviation asks := (moves (fun _ => True) requested).

Lemma requested_intro (s : SessionImplEV) cs key o rc lc :
  requested s (with_connectState_ cs (with_handshakeKeyBase64_ key
    (with_bev_output o (with_rand_calls rc (with_lib_calls lc s))))).
Proof. unfold requested. eauto 6. Qed.

Lemma requested_each (s : SessionImplEV) :
  (forall cs, requested s (with_connectState_ cs s)) /\
  (forall key, requested s (with_handshakeKeyBase64_ key s)) /\
  (forall o lc, requested s (with_bev_output o (with_lib_calls lc s))) /\
  (forall lc, requested s (with_lib_calls lc s)) /\
  (forall rc, requested s (with_rand_calls rc s)).
Proof.
  unfold requested. split_and!; intros;
    [exists cs, (handshakeKeyBase64_ s), (bev_output s), (rand_calls s), (lib_calls s)
    |exists (connectState_ s), key, (bev_output s), (rand_calls s), (lib_calls s)
    |exists (connectState_ s), (handshakeKeyBase64_ s), o, (rand_calls s), lc
    |exists (connectState_ s), (handshakeKeyBase64_ s), (bev_output s), (rand_calls s), lc
    |exists (connectState_ s), (handshakeKeyBase64_ s), (bev_output s), rc, (lib_calls s)];
    destruct s; ses_eq.
Qed.

Lemma output_add_asks d : asks (output_add env d).
Proof.
  intros s. unfold wlp, output_add, lib_call, bindS. destruct (lib_fails _ _); simpl;
    apply (requested_each s).
Qed.

Lemma SendHandshake_asks : asks (SendHandshake env).
Proof.
  assert (forall d, asks (out_printf env d)) as Hp
    by (intros d; unfold out_printf; moves_step; [apply output_add_asks|moves_step]).
  assert (forall n i, asks (send_subprotocols env n i)) as Hn.
  { induction n; intros i; cbn [send_subprotocols]; [moves_step|].
    repeat first [apply Hp | apply IHn | apply moves_lift; [apply _|done] | moves_step]. }
  assert (asks (GenerateHandshakeKey env)) as Hg.
  { unfold GenerateHandshakeKey. moves_step.
    - intros s. unfold wlp, random_bytes. destruct (GetRandomMask _ _ _) as [[bs r] c].
      apply (requested_each s).
    - repeat first [apply moves_lift; [apply _|done] | moves_step | apply requested_each]. }
  unfold SendHandshake.
  repeat first [apply Hp | apply Hn | apply Hg | apply moves_lift; [apply _|done] | moves_step
               | apply requested_each].
Qed.

Lemma OnConnectEvent_loop s :
  loop_inv false s -> bev_ s = true ->
  wlp (fun _ => False) (OnConnectEvent env)
    (fun _ s' => loop_inv true s' /\ bev_ s' = true /\ connectState_ s' = SENT_REQ /\
                 requested s s') s.
Proof.
  intros H Hb. unfold OnConnectEvent. do 2 wp_step. rewrite Hb. cbn [negb]. wp_step.
  pose proof (lv_subs _ _ H) as Hn.
  eapply wlp_mono; [eapply wlp_and;
    [apply wp_wlp, (SendHandshake_wp env); lia|apply SendHandshake_asks]|].
  intros r s' [(_ & Hc & _) Hr]. wp_step.
  pose proof (lv_wait _ _ H Hb ltac:(by rewrite (lv_made _ _ H eq_refl))) as Hh.
  destruct Hr as (cs & key & o & rc & lc & ->). ses_simpl. subst cs.
  split; [|split_and!; [done..|apply requested_intro]].
  by loop_same H.
Qed.

(** *** Every event *)

Lemma handle_loop made e s :
  loop_inv made s -> enabled e s = true -> is_connected e = false -> proper e ->
  safe (handle env e) (fun _ s' => loop_inv made s') s.
Proof.
  intros H Hen Hnc Hp. destruct e as [d|n|f| |]; simpl in *.
  - do 2 wp_step. apply OnRead_loop.
    destruct H as [[[] [? ?]] ? ? ? ? ?]. constructor; ses_simpl; try done.
    split; [|done]. constructor; ses_simpl; try done. rewrite add_law. by apply Forall_app.
  - unfold OnWrite. wp_steps. by loop_same H.
  - apply negb_false_iff in Hnc. unfold OnEvent. rewrite Hnc. cbn [negb].
    wp_step; [by apply OnEofEvent_loop|by wp_step].
  - unfold OnConnectionTimeout, GetUri. by wp_steps.
  - unfold OnCloseTimeout, ShutDown. wp_steps. by loop_same H.
Qed.

Lemma handle_connected e s :
  loop_inv false s -> enabled e s = true -> is_connected e = true ->
  wlp (fun _ => False) (handle env e)
    (fun _ s' => loop_inv true s' /\ bev_ s' = true /\ connectState_ s' = SENT_REQ /\
                 requested s s') s.
Proof.
  intros H Hen Hc. destruct e as [| |f| |]; try done. simpl in *. unfold OnEvent. rewrite Hc.
  by apply OnConnectEvent_loop.
Qed.

(** *** The start *)

(** A session that was initialised and given its options. *)
Definition configured (s : SessionImplEV) : Prop :=
  exists c m lc, s = with_onConnect_ c (with_onMessage_ m (with_dnsBase_ true (with_evBase_ true
    (with_state_ CLOSED_CLEANLY (with_lib_calls lc new_session))))).

Lemma configured_options opts : forall s, configured s ->
  exists s', Session_SetOption opts s = Ret (tt, s') /\ configured s'.
Proof.
  induction opts as [|o opts IH]; intros s Hs; [by exists s|].
  destruct Hs as (c & m & lc & ->). unfold Session_SetOption. cbn [iterS].
  destruct o as [h|h|u]; unfold SetOption, SetHandler_connect, SetHandler_message, SetUrl.
  - rewrite bind_upd. apply (IH (with_onConnect_ h (with_onConnect_ c _))).
    exists h, m, lc. reflexivity.
  - rewrite bind_upd. apply (IH (with_onMessage_ h (with_onConnect_ c _))).
    exists c, h, lc. reflexivity.
  - rewrite bind_ret. apply IH. by exists c, m, lc.
Qed.

Lemma configured_init opts r s0 :
  (let! r := DoInit env in do! Session_SetOption opts in retS r) new_session = Ret (r, s0) ->
  r = 0 /\ configured s0.
Proof.
  assert (DoInit env new_session = Ret (0, with_dnsBase_ true (with_evBase_ true
    (with_state_ CLOSED_CLEANLY (with_lib_calls 3%nat new_session))))) as Hi.
  { unfold DoInit, lib_call, updS, bindS. rewrite lib_never_fails. ses_simpl.
    rewrite lib_never_fails. ses_simpl. rewrite lib_never_fails. reflexivity. }
  rewrite (bind_run _ _ _ _ _ Hi).
  match type of Hi with _ = Ret (_, ?t) => destruct (configured_options opts t) as (s' & Hs & Hc) end.
  { exists ConnectHandler_default, MessageHandler_default, 3%nat. reflexivity. }
  rewrite (bind_run _ _ _ _ _ Hs). intros [= <- <-]. done.
Qed.

(** The session when the loop starts. *)
Definition connecting (s : SessionImplEV) : Prop :=
  exists c m lc b o, contents b = [] /\ contents o = [] /\
    s = with_connectTimeoutEvent_ true (with_state_ CONNECTING (with_bev_output o (with_bev_input b
      (with_bev_ true (with_origin_ (str "http://123.207.136.134:9091")
        (with_port_ 9091 (with_host_ (str "123.207.136.134") (with_uri_ (str "/ajaxchattest")
          (with_onConnect_ c (with_onMessage_ m (with_dnsBase_ true (with_evBase_ true
            (with_lib_calls lc new_session))))))))))))).

Lemma connect_start_ok s :
  configured s -> exists s', connect_start env s = Ret (true, s') /\ connecting s' /\
    onConnect_ s' = onConnect_ s /\ onMessage_ s' = onMessage_ s.
Proof.
  intros (c & m & lc & ->). unfold connect_start, SetupConnectionTimeout, SetupTimeoutEvent, lib_call, updS.
  unfold bindS, getS, retS. ses_simpl. change (bool_decide (CLOSED_CLEANLY = CLOSED_CLEANLY)) with true.
  cbn [negb andb]. cbv beta iota. repeat (rewrite lib_never_fails; cbn [negb]; cbv beta iota).
  change (0 =? 0) with true. eexists. split; [reflexivity|]. split; [|done].
  exists c, m, (S (S (S lc))), evbuffer_new, evbuffer_new.
  split; [apply contents_new|]. split; [apply contents_new|]. ses_eq.
Qed.

Lemma connecting_inv s : connecting s -> loop_inv false s.
Proof.
  intros (c & m & lc & b & o & Hb & Ho & ->). constructor; ses_simpl; try done.
  split; [|split]; [|by left|done]. constructor; ses_simpl; try done.
  - apply (Forall_replicate is_byte 125 0). unfold is_byte. lia.
  - by rewrite Hb.
Qed.

Lemma reachable_inv made s : reachable made s -> loop_inv made s.
Proof.
  induction 1 as [opts r s0 s Hi Hs|s e s' _ IH Hen Hc Hh|made s e s' _ IH Hen Hc Hp Hh].
  - apply configured_init in Hi as [_ Hcf]. destruct (connect_start_ok s0 Hcf) as (s1 & Hs1 & Hcn & _).
    rewrite Hs in Hs1. injection Hs1 as <-. by apply connecting_inv.
  - pose proof (wlp_run _ _ _ _ _ _ (handle_connected e s IH Hen Hc) Hh) as Hw. apply Hw.
  - exact (wlp_run _ _ _ _ _ _ (handle_loop made e s IH Hen Hc Hp) Hh).
Qed.
End loop.

(** ** Theorems *)

Section theorems.
Context {E : EvBuffer} {L : EvBufferLaws E} (env : Env).

(** C2: in every state a connection can get to, and for every event the loop can
    report there, the callback ends: it returns to a state that is reachable
    again, or a [WTF_CHECK] kills the process, or one of three undefined
    operations is reached (the call of an unset ping or pong callback, the write
    past the end of [ctrlPayload_], and an out-of-range number in the status line
    of the reply). *)
Theorem reachable_safe (made : bool) (e : LoopEvent) (s : SessionImplEV) :
  EnvOk env -> LibOk env -> reachable env made s -> enabled e s = true -> proper e ->
  (is_connected e = true -> made = false) ->
  (exists s', handle env e s = Ret (tt, s') /\ reachable env (made || is_connected e) s') \/
  (exists why, handle env e s = Killed why) \/
  handle env e s = Undef "call through a null function pointer" \/
  handle env e s = Undef "write past the end of a buffer" \/
  handle env e s = Undef "sscanf: integer out of range".
Proof.
  intros EO LO Hr Hen Hp Hm. pose proof (reachable_inv env made s Hr) as Hi.
  destruct (is_connected e) eqn:Hc.
  - specialize (Hm eq_refl) as ->. pose proof (handle_connected env e s Hi Hen Hc) as Hw.
    unfold wlp in Hw. destruct (handle env e s) as [[[] s']|w|w] eqn:Hh; [|eauto|done].
    left. exists s'. split; [done|]. by eapply reach_connected.
  - rewrite orb_false_r. pose proof (handle_loop env made e s Hi Hen Hc Hp) as Hw.
    unfold wlp in Hw. destruct (handle env e s) as [[[] s']|w|w] eqn:Hh; [|eauto|].
    + left. exists s'. split; [done|]. by eapply reach_event.
    + do 2 right. destruct Hw as [[-> | ->] | ->]; auto.
Qed.

(** when the close timer fires in a reachable state the check that a close
    frame was sent holds, and the connection is dropped. *)
Theorem close_timer_drops (made : bool) (s : SessionImplEV) :
  EnvOk env -> LibOk env -> reachable env made s -> closeTimeoutEvent_ s = true ->
  handle env Close_timer s = Ret (tt, with_bev_ false (with_connectTimeoutEvent_ false s)).
Proof.
  intros EO LO Hr Ht. pose proof (lv_timer _ _ (reachable_inv env made s Hr) Ht) as Hs.
  unfold handle, OnCloseTimeout, bindS, getS. by rewrite Hs.
Qed.

(** a complete reply that is not accepted is not survived: [OnRead] shuts the
    connection down and goes on to [ReadWebsocket], whose check of [bev_] fails. *)
Theorem OnRead_refused_killed (status : bytes) (lines : list bytes) (rest : bytes)
  (s : SessionImplEV) :
  EnvOk env -> bev_ s = true -> connectState_ s = SENT_REQ ->
  10 ∉ status -> ParseHttpStatus status = Ret (Some (1, 1, 101)) -> Forall line_ok lines ->
  contents (bev_input s) = status ++ crlf ++ on_wire lines ++ crlf ++ rest ->
  reply_accepted (key_hash env (handshakeKeyBase64_ s)) lines = false ->
  OnRead env s = Killed "bev_".
Proof.
  intros EO Hb Hcs Hlf Hst Hok Hc Hno.
  pose proof (reply_read_all env status lines rest s Hlf Hst Hok Hc) as Hw.
  apply wp_run in Hw as (r & s' & Hr & -> & _). rewrite Hno in Hr.
  unfold OnRead. unfold bindS at 1, getS at 1. rewrite Hb. unfold bindS at 1, checkS, retS at 1.
  rewrite bind_get, Hcs. cbn [negb]. change (bool_decide _) with false. cbn [negb].
  unfold bindS at 1 2, ReadServerHandshakeReply, bindS at 1, getS at 1. rewrite Hcs, Hr. done.
Qed.

(** a session whose connection ended with a close frame from the server is
    still CLOSING, and [DoConnect] refuses to connect it again, whatever events
    would follow. *)
Theorem clean_close_blocks_reconnect (events : list LoopEvent) (s : SessionImplEV) :
  LibOk env -> bev_ s = true -> contents (bev_input s) = [] ->
  receivedCloseFlag_ s = true -> state_ s = CLOSING ->
  exists s', OnEofEvent env s = Ret (tt, s') /\ DoConnect env events s' = Ret (-1, s').
Proof.
  intros LO Hb Hin Hr Hst. pose proof (OnEofEvent_empty env s Hb Hin) as Hw.
  apply wp_run in Hw as ([] & s' & Hrun & _ & _ & _ & Hst' & _). exists s'. split; [done|].
  rewrite Hr, Hst in Hst'. unfold DoConnect, connect_start, bindS, getS. by rewrite Hst'.
Qed.
End theorems.
