(* ===== verification/WsConnection.v ===== *)
(** * Whole connections

    From [Connect] to delivered messages, and what is left over when a session
    connects a second time. *)

From stdpp Require Import base list numbers strings.
From Stdlib Require Import ZArith Lia.
From S2P Require Import Prelude Base64 Utf8 WsTypes WsHeader Libevent HttpHeader WsState WsSend.
From S2P Require Import WsHandshake WsRecv WsRecvSafety WsRecvSpec WsSession WsLoop.

#[local] Opaque wire_header.

Section connection.
Context {E : EvBuffer} {L : EvBufferLaws E} (env : Env) {EO : EnvOk env} {LO : LibOk env}.

(** The request has been sent with [key], nothing has arrived. *)
Record requesting (cb : MessageHandler) (key : bytes) (s : SessionImplEV) : Prop := {
  rq_open : bev_ s = true;
  rq_state : connectState_ s = SENT_REQ;
  rq_key : handshakeKeyBase64_ s = key;
  rq_flags : 0 <= httpHeaderFlags_ s < 8;
  rq_input : contents (bev_input s) = [];
  rq_bin : msgIsBinary s = false;
  rq_msg : onMessage_ s = cb;
  rq_connect : ConnectHandler_call (onConnect_ s) = [];
  rq_has : hasHeader_ s = false;
  rq_in : inMsgFlag_ s = false;
  rq_trace : trace s = []
}.

(** The key of the first connection of a process. *)
Definition first_key : bytes := rfc4648_encode (GetRandomMask (rand_s env) 0 16).1.1.

(** The request of the fixed server. *)
Definition first_request : bytes :=
  request_text (str "/ajaxchattest") (str "123.207.136.134") (str "http://123.207.136.134:9091")
    first_key 9091.

Lemma connecting_fields (s : SessionImplEV) : connecting s ->
  (bev_ s = true /\ numSubprotocols_ s = 0 /\ httpHeaderFlags_ s = 0 /\ rand_calls s = 0%nat /\
   contents (bev_input s) = [] /\ contents (bev_output s) = []) /\
  (msgIsBinary s = false /\ hasHeader_ s = false /\ inMsgFlag_ s = false /\ trace s = []) /\
  uri_ s = str "/ajaxchattest" /\ host_ s = str "123.207.136.134" /\
  origin_ s = str "http://123.207.136.134:9091" /\ port_ s = 9091.
Proof.
  intros (c & m & lc & b & o & Hb & Ho & ->). ses_norm. by split_and!.
Qed.

Lemma requested_requesting cb key (s s' : SessionImplEV) :
  connecting s -> onMessage_ s = cb -> ConnectHandler_call (onConnect_ s) = [] ->
  requested s s' -> connectState_ s' = SENT_REQ -> handshakeKeyBase64_ s' = key ->
  requesting cb key s'.
Proof.
  intros Hcn Hm Hh (cs & k & o & rc & lc & ->) Hst Hkey.
  apply connecting_fields in Hcn as ((H1 & H2 & H3 & H4 & H5 & H6) & (H7 & H8 & H9 & H10) & _).
  ses_simpl. constructor; ses_simpl; try done. rewrite H3. lia.
Qed.

Lemma connect_event cb s :
  connecting s -> onMessage_ s = cb -> ConnectHandler_call (onConnect_ s) = [] ->
  exists s', handle env (Bev_event BEV_EVENT_CONNECTED) s = Ret (tt, s') /\
    requesting cb first_key s' /\ contents (bev_output s') = first_request.
Proof.
  intros Hcn Hm Hh.
  destruct (connecting_fields s Hcn) as ((Hb & Hn & _ & Hrc & _ & Ho) & _ & Hu & Hho & Hor & Hpo).
  pose proof (SendHandshake_wp env s ltac:(lia)) as Hw.
  apply wp_run in Hw as (r & s' & Hrun & _ & Hst & Hkey & Hout).
  pose proof (wlp_run _ _ _ _ _ _ (SendHandshake_asks env s) Hrun) as Hrq. cbv beta in Hrq.
  assert (rfc4648_encode (nonce env s) = first_key) as Hk
    by (unfold nonce, first_key; by rewrite Hrc).
  rewrite Hk in *. rewrite Ho, Hu, Hho, Hor, Hpo in Hout.
  exists s'. split; [|split; [by eapply requested_requesting|exact Hout]].
  unfold handle, OnEvent. change (Z.land BEV_EVENT_CONNECTED BEV_EVENT_CONNECTED =? 0) with false.
  cbn [negb]. unfold OnConnectEvent. rewrite bind_get, Hb. cbn [negb].
  by rewrite (bind_run _ _ _ _ _ Hrun).
Qed.

(** The state between an accepted reply and the first frame. *)
Lemma accepted_idle cb key status lines rest s :
  requesting cb key s -> 10 ∉ status -> ParseHttpStatus status = Ret (Some (1, 1, 101)) ->
  Forall line_ok lines -> reply_accepted (key_hash env key) lines = true ->
  exists s', ReadServerHandshakeReply env
      (with_bev_input (evbuffer_add (bev_input s) (status ++ crlf ++ on_wire lines ++ crlf ++ rest)) s)
      = Ret (SUCCESS, s') /\ ConnectHandler_call (onConnect_ s') = [] /\
    idle cb [Connected_cb] rest
      (with_trace (Connected_cb :: trace (with_state_ CONNECTED s')) (with_state_ CONNECTED s')).
Proof.
  intros Hrq Hlf Hst Hok Hacc.
  set (d := status ++ _). set (s1 := with_bev_input _ s).
  assert (contents (bev_input s1) = d) as Hin
    by (subst s1; ses_simpl; by rewrite add_law, (rq_input _ _ _ Hrq)).
  assert (handshakeKeyBase64_ s1 = key) as Hk by apply Hrq.
  assert (connectState_ s1 = SENT_REQ) as Hcs by apply Hrq.
  assert (0 <= httpHeaderFlags_ s1 < 8) as Hf by apply Hrq.
  assert (ReadServerHandshakeReply env s1 = reply_read_status env s1) as Heq
    by (unfold ReadServerHandshakeReply, bindS, getS; by rewrite Hcs).
  pose proof (reply_read_all env status lines rest s1 Hlf Hst Hok Hin) as Hw.
  rewrite Hk, Hacc in Hw. apply wp_run in Hw as (r & s' & Hrun & -> & Ha).
  destruct (Ha eq_refl) as [Hc Hrest]. exists s'. rewrite Heq. split; [done|].
  destruct (ReadServerHandshakeReply_replied env s1 Hf) as [Hw|Hu]; [by rewrite Hcs| |congruence].
  apply wp_run in Hw as (r' & s'' & Hrun' & Hrep). rewrite Heq, Hrun in Hrun'.
  injection Hrun' as <- <-.
  destruct Hrep as (c & s2 & (b & h & f & _ & ->) & -> & _ & _). subst s1. ses_simpl.
  split; [apply Hrq|]. split; [|split; apply Hrq].
  destruct Hrq. constructor; ses_simpl; try done. congruence.
Qed.

Lemma arrival_delivers cb key status lines frames s :
  requesting cb key s -> quiet cb -> 10 ∉ status ->
  ParseHttpStatus status = Ret (Some (1, 1, 101)) -> Forall line_ok lines ->
  reply_accepted (key_hash env key) lines = true -> Forall good_frame frames ->
  wp (handle env (Arrived (status ++ crlf ++ on_wire lines ++ crlf ++ stream frames)))
    (fun _ s' => idle cb (rev (delivery <$> frames) ++ [Connected_cb]) [] s') s.
Proof.
  intros Hrq Hq Hlf Hst Hok Hacc HF.
  destruct (accepted_idle cb key status lines (stream frames) s Hrq Hlf Hst Hok Hacc)
    as (s' & Hrun & Hc & Hi).
  unfold handle. do 2 wp_step. set (s1 := with_bev_input _ s) in *.
  assert (bev_ s1 = true /\ connectState_ s1 = SENT_REQ) as [Hb1 Hcs1] by (split; apply Hrq).
  clearbody s1. unfold OnRead. do 3 wp_step. apply wp_check; [done|]. do 2 wp_step.
  rewrite Hcs1. change (bool_decide _) with false. cbn [negb]. wp_step. wp_step.
  eapply wp_val; [exact Hrun|]. unfold happen. do 4 wp_step. ses_simpl. rewrite Hc.
  do 3 wp_step. unfold run_handler. cbn [iterS]. do 2 wp_step.
  apply (ReadWebsocket_frames env cb frames [Connected_cb]); [done|done|exact Hi].
Qed.
End connection.

(** ** Theorems *)

(** C1: a session that was initialised and given a message handler connects and
    works: with the connection made and an accepted reply followed by whole
    messages in frames, [DoConnect] returns 0, the request of the session has
    been sent, and the application has seen the connection and then the messages,
    in order. *)
Theorem connection_delivers {E : EvBuffer} {L : EvBufferLaws E} (env : Env)
  (cb : MessageHandler) (status : bytes) (lines : list bytes)
  (frames : list (WSHeader * bytes)) (r : Z) (s0 : SessionImplEV) :
  EnvOk env -> LibOk env -> quiet cb ->
  (let! r := DoInit env in do! Session_SetOption [OptMessage cb] in retS r) new_session = Ret (r, s0) ->
  10 ∉ status -> ParseHttpStatus status = Ret (Some (1, 1, 101)) -> Forall line_ok lines ->
  reply_accepted (key_hash env (first_key env)) lines = true -> Forall good_frame frames ->
  exists s1 s', 
    (let! _ := connect_start env in handle env (Bev_event BEV_EVENT_CONNECTED)) s0 = Ret (tt, s1) /\
    contents (bev_output s1) = first_request env /\
    DoConnect env [Bev_event BEV_EVENT_CONNECTED;
                   Arrived (status ++ crlf ++ on_wire lines ++ crlf ++ stream frames)] s0
      = Ret (0, s') /\
    trace s' = rev (delivery <$> frames) ++ [Connected_cb] /\
    contents (bev_input s') = [] /\ hasHeader_ s' = false /\ inMsgFlag_ s' = false.
Proof.
  intros EO LO Hq Hinit Hlf Hst Hok Hacc HF.
  assert (configured s0 /\ onMessage_ s0 = cb /\ ConnectHandler_call (onConnect_ s0) = [])
    as (Hcf & Hm & Hc).
  { split; [by eapply (configured_init env)|]. revert Hinit.
    unfold DoInit, lib_call, updS, bindS. rewrite lib_never_fails. ses_simpl.
    rewrite lib_never_fails. ses_simpl. rewrite lib_never_fails. by intros [= <- <-]. }
  destruct (connect_start_ok env s0 Hcf) as (s1 & Hs1 & Hcn & Hcc & Hcm).
  destruct (connect_event env cb s1 Hcn) as (s2 & Hs2 & Hrq & Hout); [congruence..|].
  pose proof (arrival_delivers env cb _ status lines frames s2 Hrq Hq Hlf Hst Hok Hacc HF) as Hw.
  apply wp_run in Hw as ([] & s3 & Hs3 & [[] [Hh Him]]).
  exists s2, s3. rewrite (bind_run _ _ _ _ _ Hs1). split_and!; try done.
  unfold DoConnect. rewrite (bind_run _ _ _ _ _ Hs1). cbn [negb].
  unfold event_base_dispatch. cbn [iterS]. unfold bindS, getS, whenS.
  assert (enabled (Bev_event BEV_EVENT_CONNECTED) s1 = true) as ->
    by (destruct Hcn as (? & ? & ? & ? & ? & _ & _ & ->); done).
  rewrite Hs2. assert (enabled (Arrived []) s2 = true) as He by apply Hrq.
  unfold enabled in *. rewrite He, Hs3. done.
Qed.

(** ** Concrete connections *)

Section sample.

Abbreviation Ses := (@SessionImplEV ListEvBuffer).

(** The state after an operation that returns. *)
Definition after {A} (m : M Ses A) (s : Ses) : Ses :=
  match m s with Ret (_, s') => s' | _ => s end.

Definition sample_configured (opts : list SessionOption) : Ses :=
  after (let! r := DoInit sample_env in do! Session_SetOption opts in retS r) new_session.

(** A reply the session accepts. *)
Definition status_101 : bytes := str "HTTP/1.1 101 Switching Protocols".
Definition reply_lines (s : Ses) : list bytes :=
  [str "Upgrade: websocket"; str "Connection: Upgrade";
   str "Sec-WebSocket-Accept: " ++ key_hash sample_env (handshakeKeyBase64_ s)].
Definition reply_to (s : Ses) : bytes := status_101 ++ crlf ++ on_wire (reply_lines s) ++ crlf.

Definition connected_event : LoopEvent := Bev_event BEV_EVENT_CONNECTED.
Definition eof_event : LoopEvent := Bev_event BEV_EVENT_EOF.

(** A connection up to the request. *)
Definition request_made (s : Ses) : Ses :=
  after (let! _ := connect_start sample_env in handle sample_env connected_event) s.

(** The connections below: the request is made, the server accepts and sends
    [d], and the connection ends. *)
Definition connection (d : bytes) : M Ses unit := fun s =>
  event_base_dispatch sample_env [Arrived (reply_to (request_made s) ++ d)] (request_made s).

Definition quiet_message : SessionOption := OptMessage (MessageHandler_ctor (Some (fun _ _ => []))).
Definition close_at_once : SessionOption := OptConnect (ConnectHandler_ctor (Some [ApiClose])).

(** A connection that ends. *)
Definition ended (d : bytes) (s : Ses) : Ses :=
  after (event_base_dispatch sample_env [eof_event]) (after (connection d) s).

(** [DoConnect] does not reset [hasHeader_].  A session delivers the message
    "hi" of its first connection; when a first connection ended three bytes into
    a frame, the second one takes the frame with "hi" for the rest of the old
    payload, closes with 1007 and delivers nothing. *)
Theorem reconnect_keeps_old_frame :
  let s0 := sample_configured [quiet_message] in
  let s1 := ended [0x81; 5; 104] s0 in
  let hi := [0x81; 2; 104; 105] in
  (exists s, connection hi s0 = Ret (tt, s) /\
     trace s = [Message_cb (str "hi") false; Connected_cb]) /\
  (exists s, connection hi s1 = Ret (tt, s) /\ state_ s1 = CLOSED_UNCLEANLY /\
     trace s = [Connected_cb; Loop_exit; Connected_cb] /\
     close_told (drop (length (contents (bev_output (request_made s1)))) (contents (bev_output s)))
       = Some INCONSISTENT_DATA_1007).
Proof.
  cbv zeta. split.
  - eexists. split; [vm_compute; reflexivity|vm_compute; reflexivity].
  - eexists. split; [vm_compute; reflexivity|]. do 2 (split; [vm_compute; reflexivity|]).
    vm_compute. reflexivity.
Qed.

(** [DoConnect] clears [sentCloseFlag_] and leaves the close timer running.
    After a session closed, its server ended the connection without a close
    frame and the session connected again, the old timer fails the check of
    [sentCloseFlag_] and kills the process. *)
Theorem reconnect_killed_by_old_timer :
  let s1 := ended [] (sample_configured [close_at_once]) in
  state_ s1 = CLOSED_UNCLEANLY /\ closeTimeoutEvent_ s1 = true /\
  DoConnect sample_env [Close_timer] s1 = Killed "thiz->sentCloseFlag_".
Proof. cbv zeta. do 2 (split; [vm_compute; reflexivity|]). vm_compute. reflexivity. Qed.

(** *** Witnesses *)

Lemma start_reachable opts s :
  connect_start sample_env (sample_configured opts) = Ret (true, s) -> reachable sample_env false s.
Proof.
  intros Hs. destruct (configured_options opts
    (after (DoInit sample_env) new_session)) as (s0 & Ho & _).
  { exists ConnectHandler_default, MessageHandler_default, 3%nat. reflexivity. }
  apply (reach_start sample_env opts 0 (sample_configured opts)); [|done].
  unfold sample_configured, after in *.
  assert (DoInit sample_env new_session = Ret (0, after (DoInit sample_env) new_session)) as Hi
    by reflexivity.
  rewrite (bind_run _ _ _ _ _ Hi). unfold after. by rewrite (bind_run _ _ _ _ _ Ho).
Qed.

Definition sample_connecting (opts : list SessionOption) : Ses :=
  after (connect_start sample_env) (sample_configured opts).

Lemma sample_connecting_reachable : reachable sample_env false (sample_connecting [close_at_once]).
Proof. apply (start_reachable [close_at_once]). vm_compute. reflexivity. Qed.

Lemma request_reachable :
  reachable sample_env true (request_made (sample_configured [close_at_once])).
Proof.
  eapply (reach_connected sample_env _ connected_event _ sample_connecting_reachable);
    vm_compute; reflexivity.
Qed.

(** The connect handler has sent a close frame. *)
Definition closing_session : Ses := after (connection []) (sample_configured [close_at_once]).

Lemma closing_reachable : reachable sample_env true closing_session.
Proof.
  apply (reach_event sample_env true _
    (Arrived (reply_to (request_made (sample_configured [close_at_once])))) _ request_reachable);
    [vm_compute; reflexivity|reflexivity| |vm_compute; reflexivity].
  apply (bool_decide_unpack (Forall (fun b => 0 <= b < 256)
    (reply_to (request_made (sample_configured [close_at_once]))))). vm_compute. exact I.
Qed.

Lemma reachable_safe_witness :
  (exists s', handle sample_env connected_event (sample_connecting [close_at_once]) = Ret (tt, s') /\
     reachable sample_env (false || is_connected connected_event) s') \/
  (exists why, handle sample_env connected_event (sample_connecting [close_at_once]) = Killed why) \/
  handle sample_env connected_event (sample_connecting [close_at_once])
    = Undef "call through a null function pointer" \/
  handle sample_env connected_event (sample_connecting [close_at_once])
    = Undef "write past the end of a buffer" \/
  handle sample_env connected_event (sample_connecting [close_at_once])
    = Undef "sscanf: integer out of range".
Proof.
  apply (reachable_safe sample_env false connected_event (sample_connecting [close_at_once]));
    [apply sample_env_ok|apply sample_lib_ok|apply sample_connecting_reachable|vm_compute; reflexivity
    |exact I|reflexivity].
Defined.

Lemma close_timer_drops_witness :
  handle sample_env Close_timer closing_session =
    Ret (tt, with_bev_ false (with_connectTimeoutEvent_ false closing_session)).
Proof.
  apply (close_timer_drops sample_env true closing_session);
    [apply sample_env_ok|apply sample_lib_ok|apply closing_reachable|vm_compute; reflexivity].
Defined.

(** The request is out and a reply without the accept header is in. *)
Definition refused_session : Ses :=
  let s := request_made (sample_configured []) in
  with_bev_input (status_101 ++ crlf ++ on_wire (take 2 (reply_lines s)) ++ crlf ++ [] : bytes) s.

Lemma OnRead_refused_killed_witness : OnRead sample_env refused_session = Killed "bev_".
Proof.
  apply (OnRead_refused_killed sample_env status_101 (take 2 (reply_lines refused_session)) []
           refused_session);
    [apply sample_env_ok|vm_compute; reflexivity|vm_compute; reflexivity| |vm_compute; reflexivity
    | |vm_compute; reflexivity|vm_compute; reflexivity].
  - apply (bool_decide_unpack (10 ∉ status_101)). vm_compute. exact I.
  - apply (bool_decide_unpack (Forall (fun l => (10 ∉ l) /\ cstr l <> [])
      (take 2 (reply_lines refused_session)))). vm_compute. exact I.
Defined.

Lemma clean_close_blocks_reconnect_witness :
  exists s', OnEofEvent sample_env
      (with_receivedCloseFlag_ true (with_state_ CLOSING open_session)) = Ret (tt, s') /\
    DoConnect sample_env [Close_timer] s' = Ret (-1, s').
Proof.
  apply (clean_close_blocks_reconnect sample_env [Close_timer]
           (with_receivedCloseFlag_ true (with_state_ CLOSING open_session)));
    [apply sample_lib_ok|reflexivity..].
Defined.

Definition accepting_lines : list bytes :=
  [str "Upgrade: websocket"; str "Connection: Upgrade";
   str "Sec-WebSocket-Accept: " ++ key_hash sample_env (first_key sample_env)].

Lemma connection_delivers_witness :
  exists s1 s',
    (let! _ := connect_start sample_env in handle sample_env (Bev_event BEV_EVENT_CONNECTED))
      (sample_configured [quiet_message]) = Ret (tt, s1) /\
    contents (bev_output s1) = first_request sample_env /\
    DoConnect sample_env [Bev_event BEV_EVENT_CONNECTED;
        Arrived (status_101 ++ crlf ++ on_wire accepting_lines ++ crlf ++
                 stream [text_frame (str "hi")])] (sample_configured [quiet_message])
      = Ret (0, s') /\
    trace s' = rev (delivery <$> [text_frame (str "hi")]) ++ [Connected_cb] /\
    contents (bev_input s') = [] /\ hasHeader_ s' = false /\ inMsgFlag_ s' = false.
Proof.
  apply (connection_delivers sample_env (MessageHandler_ctor (Some (fun _ _ => []))) status_101
           accepting_lines [text_frame (str "hi")] 0 (sample_configured [quiet_message]));
    [apply sample_env_ok|apply sample_lib_ok|done|vm_compute; reflexivity| |vm_compute; reflexivity
    | |vm_compute; reflexivity|].
  - apply (bool_decide_unpack (10 ∉ status_101)). vm_compute. exact I.
  - apply (bool_decide_unpack (Forall (fun l => (10 ∉ l) /\ cstr l <> []) accepting_lines)).
    vm_compute. exact I.
  - repeat constructor; try (vm_compute; intuition discriminate); by left.
Defined.
End sample.
