(* ===== verification/Time.v ===== *)
(** * Time: wtf/time/time_delta.h, wtf/time/time_point.h

    Spans and points of time are 64-bit counts of nanoseconds.  Signed overflow
    is undefined, and so is division by zero; division truncates.  The
    conversions from and to floating point are in TimeFloat.v. *)

From stdpp Require Import base list numbers strings.
From Stdlib Require Import ZArith Lia.
From S2P Require Import Prelude.

(** The result of a signed 64-bit operation. *)
Definition i64_op (z : Z) : outcome Z :=
  if decide (in_i64 z) then Ret z else Undef "signed overflow".

Definition i64_min : Z := - 2 ^ 63.
Definition i64_max : Z := 2 ^ 63 - 1.

Module TimeDelta.
Record t := mk { delta_ : Z }.

Definition Zero : t := mk 0.
Definition Min : t := mk i64_min.
Definition Max : t := mk i64_max.

Definition FromNanoseconds (nanos : Z) : t := mk nanos.
Definition FromMicroseconds (micros : Z) : outcome t :=
  let? n := i64_op (micros * 1000) in Ret (FromNanoseconds n).
Definition FromMilliseconds (millis : Z) : outcome t :=
  let? n := i64_op (millis * 1000) in FromMicroseconds n.
Definition FromSeconds (seconds : Z) : outcome t :=
  let? n := i64_op (seconds * 1000) in FromMilliseconds n.

Definition ToNanoseconds (d : t) : Z := delta_ d.
Definition ToMicroseconds (d : t) : Z := Z.quot (ToNanoseconds d) 1000.
Definition ToMilliseconds (d : t) : Z := Z.quot (ToMicroseconds d) 1000.
Definition ToSeconds (d : t) : Z := Z.quot (ToMilliseconds d) 1000.

Definition sub (d other : t) : outcome t :=
  let? n := i64_op (delta_ d - delta_ other) in Ret (FromNanoseconds n).
Definition add (d other : t) : outcome t :=
  let? n := i64_op (delta_ d + delta_ other) in Ret (FromNanoseconds n).

(** Dividing the least value by -1 overflows. *)
Definition quot_op (a b : Z) : outcome Z :=
  if b =? 0 then Undef "division by zero" else i64_op (Z.quot a b).
Definition rem_op (a b : Z) : outcome Z :=
  if b =? 0 then Undef "division by zero" else
  let? _ := i64_op (Z.quot a b) in Ret (Z.rem a b).

Definition div (d : t) (divisor : Z) : outcome t :=
  let? n := quot_op (delta_ d) divisor in Ret (FromNanoseconds n).
Definition ratio (d other : t) : outcome Z := quot_op (delta_ d) (delta_ other).
Definition mul (d : t) (multiplier : Z) : outcome t :=
  let? n := i64_op (delta_ d * multiplier) in Ret (FromNanoseconds n).
Definition modulo (d other : t) : outcome t :=
  let? n := rem_op (delta_ d) (delta_ other) in Ret (FromNanoseconds n).

Definition eqb (d other : t) : bool := delta_ d =? delta_ other.
Definition neqb (d other : t) : bool := negb (delta_ d =? delta_ other).
Definition ltb (d other : t) : bool := delta_ d <? delta_ other.
Definition leb (d other : t) : bool := delta_ d <=? delta_ other.
Definition gtb (d other : t) : bool := delta_ other <? delta_ d.
Definition geb (d other : t) : bool := delta_ other <=? delta_ d.

(** [struct timespec]. *)
Record timespec := mkTimespec { tv_sec : Z; tv_nsec : Z }.

Definition FromTimespec (ts : timespec) : outcome t :=
  let? s := FromSeconds (tv_sec ts) in
  add s (FromNanoseconds (tv_nsec ts)).

Definition kNanosecondsPerSecond : Z := 1000000000.

Definition ToTimespec (d : t) : timespec :=
  mkTimespec (ToSeconds d) (Z.rem (delta_ d) kNanosecondsPerSecond).
End TimeDelta.

Module TimePoint.
Record t := mk { ticks_ : Z }.

Definition Min : t := mk i64_min.
Definition Max : t := mk i64_max.
Definition FromEpochDelta (ticks : TimeDelta.t) : t := mk (TimeDelta.ToNanoseconds ticks).
Definition ToEpochDelta (p : t) : TimeDelta.t := TimeDelta.FromNanoseconds (ticks_ p).

(** The difference of two points, and a point moved by a span. *)
Definition sub (p other : t) : outcome TimeDelta.t :=
  let? n := i64_op (ticks_ p - ticks_ other) in Ret (TimeDelta.FromNanoseconds n).
Definition plus (p : t) (duration : TimeDelta.t) : outcome t :=
  let? n := i64_op (ticks_ p + TimeDelta.ToNanoseconds duration) in Ret (mk n).
Definition minus (p : t) (duration : TimeDelta.t) : outcome t :=
  let? n := i64_op (ticks_ p - TimeDelta.ToNanoseconds duration) in Ret (mk n).

Definition eqb (p other : t) : bool := ticks_ p =? ticks_ other.
Definition neqb (p other : t) : bool := negb (ticks_ p =? ticks_ other).
Definition ltb (p other : t) : bool := ticks_ p <? ticks_ other.
Definition leb (p other : t) : bool := ticks_ p <=? ticks_ other.
Definition gtb (p other : t) : bool := ticks_ other <? ticks_ p.
Definition geb (p other : t) : bool := ticks_ other <=? ticks_ p.
End TimePoint.

(** ** Lemmas *)

Lemma i64_op_ok z : in_i64 z -> i64_op z = Ret z.
Proof. intros H. unfold i64_op. by rewrite decide_True. Qed.

Lemma i64_op_overflow z : ~ in_i64 z -> i64_op z = Undef "signed overflow".
Proof. intros H. unfold i64_op. by rewrite decide_False. Qed.

Lemma ToSeconds_quot d : TimeDelta.ToSeconds d = Z.quot (TimeDelta.delta_ d) 1000000000.
Proof.
  unfold TimeDelta.ToSeconds, TimeDelta.ToMilliseconds, TimeDelta.ToMicroseconds.
  rewrite !Z.quot_quot by lia. done.
Qed.

Lemma FromSeconds_eq s :
  TimeDelta.FromSeconds s =
    if decide (in_i64 (s * 1000000000)) then Ret (TimeDelta.mk (s * 1000000000))
    else Undef "signed overflow".
Proof.
  unfold TimeDelta.FromSeconds, TimeDelta.FromMilliseconds, TimeDelta.FromMicroseconds.
  case_decide as Hok.
  - rewrite (i64_op_ok (s * 1000)) by (unfold in_i64 in *; lia). simpl.
    rewrite (i64_op_ok (s * 1000 * 1000)) by (unfold in_i64 in *; lia). simpl.
    replace (s * 1000 * 1000 * 1000) with (s * 1000000000) by lia. by rewrite i64_op_ok.
  - destruct (decide (in_i64 (s * 1000))); [rewrite i64_op_ok by done|by rewrite i64_op_overflow].
    simpl. destruct (decide (in_i64 (s * 1000 * 1000)));
      [rewrite i64_op_ok by done|by rewrite i64_op_overflow].
    simpl. replace (s * 1000 * 1000 * 1000) with (s * 1000000000) by lia. by rewrite i64_op_overflow.
Qed.

(** ** Theorems *)

(** a span converted to a [timespec] and back is the span, for every 64-bit
    value: no step of the conversions overflows. *)
Theorem timespec_roundtrip (d : TimeDelta.t) :
  in_i64 (TimeDelta.delta_ d) -> TimeDelta.FromTimespec (TimeDelta.ToTimespec d) = Ret d.
Proof.
  intros Hd. unfold TimeDelta.FromTimespec, TimeDelta.ToTimespec. cbn [TimeDelta.tv_sec TimeDelta.tv_nsec].
  rewrite ToSeconds_quot, FromSeconds_eq. destruct d as [n]. cbn [TimeDelta.delta_] in *.
  pose proof (Z.quot_rem' n 1000000000) as Hqr. unfold in_i64 in *.
  rewrite decide_True.
  - simpl. unfold TimeDelta.add, TimeDelta.FromNanoseconds, TimeDelta.kNanosecondsPerSecond.
    cbn [TimeDelta.delta_].
    rewrite i64_op_ok by (unfold in_i64; lia). simpl. do 2 f_equal. lia.
  - destruct (Z.le_gt_cases 0 n);
      [pose proof (Z.rem_bound_pos n 1000000000 ltac:(lia) ltac:(lia))
      |pose proof (Z.rem_bound_pos_neg n 1000000000 ltac:(lia) ltac:(lia))]; lia.
Qed.

(** [FromSeconds] is defined exactly when the nanoseconds fit 64 bits, and
    [ToSeconds] then gives the seconds back. *)
Theorem seconds_roundtrip (s : Z) :
  (in_i64 (s * 1000000000) ->
     exists d, TimeDelta.FromSeconds s = Ret d /\ TimeDelta.delta_ d = s * 1000000000 /\
       TimeDelta.ToSeconds d = s) /\
  (~ in_i64 (s * 1000000000) -> TimeDelta.FromSeconds s = Undef "signed overflow").
Proof.
  rewrite FromSeconds_eq. split; intros Hs; [rewrite decide_True by done|by rewrite decide_False].
  eexists. split; [done|]. rewrite ToSeconds_quot. split; [done|]. simpl. by rewrite Z.quot_mul.
Qed.

(** moving a point by the span to another point gives the other point. *)
Theorem plus_sub (p q : TimePoint.t) (d : TimeDelta.t) :
  in_i64 (TimePoint.ticks_ q) -> TimePoint.sub q p = Ret d -> TimePoint.plus p d = Ret q.
Proof.
  intros Hq. unfold TimePoint.sub, TimePoint.plus, i64_op. case_decide; [|done]. simpl.
  intros [= <-]. simpl. rewrite decide_True; [|unfold in_i64 in *; lia].
  simpl. destruct q. simpl in *. do 2 f_equal. lia.
Qed.

Lemma timespec_roundtrip_witness :
  TimeDelta.FromTimespec (TimeDelta.ToTimespec (TimeDelta.mk (-1500000001))) =
    Ret (TimeDelta.mk (-1500000001)).
Proof. apply (timespec_roundtrip (TimeDelta.mk (-1500000001))). unfold in_i64; simpl; lia. Defined.

Lemma plus_sub_witness :
  TimePoint.plus (TimePoint.mk 30) (TimeDelta.mk (-20)) = Ret (TimePoint.mk 10).
Proof.
  apply (plus_sub (TimePoint.mk 30) (TimePoint.mk 10) (TimeDelta.mk (-20)));
    [unfold in_i64; simpl; lia|reflexivity].
Defined.
