(* ===== verification/Double.v ===== *)
(** * The type double: IEEE binary64, as the Standard Library specifies it

    A double is a [spec_float] of 53 bits; products and quotients are rounded to
    the nearest, ties to even.  The file proves the two facts about rounding that
    time conversions rest on: the result of an operation is within half a unit of
    its last place, so within [2^-53] of its own size, and a result that fits in 53
    bits is exact.

    There are no real numbers: a positive quantity is a fraction [N / D], and the
    value of the double [m * 2^e] is the integer [scaled m e], the value times
    [2^scale]. *)

From stdpp Require Import base list numbers strings.
From Stdlib Require Import ZArith Lia.
From Stdlib Require Import Floats.SpecFloat.
From S2P Require Import Prelude.

Abbreviation double := spec_float.

(** The conversion of an integer, and the operations. *)
Definition double_of_int (z : Z) : double := binary_normalize 53 1024 z 0 false.
Definition fmul (x y : double) : double := SFmul 53 1024 x y.
Definition fdiv (x y : double) : double := SFdiv 53 1024 x y.
Definition fgeb (x y : double) : bool := SFleb y x.

(** The value without its fraction; infinities and NaN have none. *)
Definition truncated (x : double) : option Z :=
  match x with
  | S754_zero _ => Some 0
  | S754_finite s m e => Some (cond_Zopp s (Z.shiftl (Zpos m) e))
  | S754_infinity _ | S754_nan => None
  end.

(** The conversion to [int64_t] is undefined when the truncated value does not fit. *)
Definition int64_of_double (x : double) : outcome Z :=
  match truncated x with
  | Some z => if decide (in_i64 z) then Ret z else Undef "double out of the range of int64_t"
  | None => Undef "double out of the range of int64_t"
  end.

(** ** Where a quantity lies between two integers *)

(** [N / D] has the integer part [m] and its fraction lies where [l] says. *)
Definition between (N D m : Z) (l : location) : Prop :=
  0 <= m /\ 0 < D /\
  match l with
  | loc_Exact => N = m * D
  | loc_Inexact c => m * D < N < (m + 1) * D /\ (2 * (N - m * D) ?= D) = c
  end.

Definition shr_between (N D : Z) (mrs : shr_record) : Prop := between N D (shr_m mrs) (loc_of_shr_record mrs).

Ltac cmp := repeat match goal with
  | H : (_ ?= _) = Lt |- _ => apply (proj1 (Z.compare_lt_iff _ _)) in H
  | H : (_ ?= _) = Gt |- _ => apply (proj1 (Z.compare_gt_iff _ _)) in H
  | H : (_ ?= _) = Eq |- _ => apply (proj1 (Z.compare_eq_iff _ _)) in H
  | |- (_ ?= _) = Lt => apply (proj2 (Z.compare_lt_iff _ _))
  | |- (_ ?= _) = Gt => apply (proj2 (Z.compare_gt_iff _ _))
  | |- (_ ?= _) = Eq => apply (proj2 (Z.compare_eq_iff _ _))
  end.

Lemma shr_1_between N D mrs : shr_between N D mrs -> shr_between N (2 * D) (shr_1 mrs).
Proof.
  destruct mrs as [m r s]. unfold shr_between, between. intros (Hm & HD & Hl).
  destruct m as [|[p|p|]|p]; [| | | |exfalso; cbn in Hm; clear Hl; lia];
    destruct r, s; cbn [shr_1 orb shr_m loc_of_shr_record] in *; try rewrite (Pos2Z.inj_xI p) in *; try rewrite (Pos2Z.inj_xO p) in *;
    try (revert Hm Hl; generalize (Zpos p); intros k Hm Hl); (split; [clear Hl; lia|]); (split; [clear Hl; lia|]);
    match type of Hl with _ /\ _ => destruct Hl as [Hl Hc] | _ => idtac end; cmp; try split; cmp; lia.
Qed.

Lemma iter_shr_between p N D mrs :
  shr_between N D mrs -> shr_between N (2 ^ Zpos p * D) (iter_pos shr_1 p mrs).
Proof.
  revert N D mrs. induction p as [p IH|p IH|]; intros N D mrs H; cbn [iter_pos].
  - apply shr_1_between, IH, IH in H. replace (2 ^ Zpos (xI p) * D) with (2 ^ Zpos p * (2 ^ Zpos p * (2 * D))); [done|].
    replace (Zpos (xI p)) with (Zpos p + Zpos p + 1) by lia. rewrite !Z.pow_add_r by lia. ring.
  - apply IH, IH in H. replace (2 ^ Zpos (xO p) * D) with (2 ^ Zpos p * (2 ^ Zpos p * D)); [done|].
    replace (Zpos (xO p)) with (Zpos p + Zpos p) by lia. rewrite !Z.pow_add_r by lia. ring.
  - by apply shr_1_between.
Qed.

Lemma shr_of_loc_between N D m l : between N D m l -> shr_between N D (shr_record_of_loc m l).
Proof. by destruct l as [|[]]. Qed.

(** Rounding to the nearest. *)
Lemma round_nearest N D m l :
  between N D m l ->
  let r := round_nearest_even m l in Z.abs (2 * (r * D - N)) <= D /\ (r = m \/ r = m + 1).
Proof.
  intros (Hm & HD & Hl). destruct l as [|c]; cbn [round_nearest_even]; [split; [lia|by left]|].
  destruct Hl as [Hl Hc]. destruct c; cmp; try (split; [nia|auto]).
  destruct (Z.even m); (split; [nia|auto]).
Qed.

(** ** Digits *)

Lemma digits2_bounds (p : positive) : 2 ^ (Zpos (digits2_pos p) - 1) <= Zpos p < 2 ^ Zpos (digits2_pos p).
Proof.
  induction p as [p IH|p IH|]; cbn [digits2_pos]; [| |cbn; lia];
    rewrite Pos2Z.inj_succ; replace (Z.succ (Zpos (digits2_pos p)) - 1) with (Z.succ (Zpos (digits2_pos p) - 1)) by lia;
    rewrite !Z.pow_succ_r by lia; lia.
Qed.

Lemma Zdigits2_bounds z : 0 < z -> 0 < Zdigits2 z /\ 2 ^ (Zdigits2 z - 1) <= z < 2 ^ Zdigits2 z.
Proof. destruct z as [|p|p]; [lia| |lia]. intros _. cbn [Zdigits2]. pose proof (digits2_bounds p). lia. Qed.

Lemma Zdigits2_unique z d : 0 < d -> 2 ^ (d - 1) <= z < 2 ^ d -> Zdigits2 z = d.
Proof.
  intros Hd Hz. assert (0 < z) by (pose proof (Z.pow_pos_nonneg 2 (d - 1)); lia).
  destruct (Zdigits2_bounds z) as [H0 [H1 H2]]; [done|].
  assert (d - 1 < Zdigits2 z) by (apply (Z.pow_lt_mono_r_iff 2); lia).
  assert (Zdigits2 z - 1 < d) by (apply (Z.pow_lt_mono_r_iff 2); lia). lia.
Qed.

(** ** Rounding *)

(** The double with the mantissa [m] and the unit [U] is the nearest to [N]; when the
    rounding carried over to the next power of two, the error is a quarter of it. *)
Definition nearest (N U m : Z) : Prop :=
  2 ^ 52 <= m < 2 ^ 53 /\
  (2 ^ 52 * U <= N /\ Z.abs (2 * (m * U - N)) <= U \/ m = 2 ^ 52 /\ Z.abs (4 * (m * U - N)) <= U).

Lemma shr_fexp_long N D m e l :
  let k := Zdigits2 m - 53 in
  0 < m -> 0 <= k -> -1074 <= k + e -> between N D m l ->
  exists mrs, shr_fexp 53 1024 m e l = (mrs, e + k) /\ shr_between N (2 ^ k * D) mrs /\ 2 ^ 52 <= shr_m mrs < 2 ^ 53.
Proof.
  intros k Hm Hk He Hb. pose proof Hb as (_ & HD & Hl). apply shr_of_loc_between in Hb.
  assert (HN : m * D <= N < (m + 1) * D) by (destruct l; lia).
  assert (Hs : exists mrs, shr_fexp 53 1024 m e l = (mrs, e + k) /\ shr_between N (2 ^ k * D) mrs).
  { unfold shr_fexp. replace (fexp 53 1024 (Zdigits2 m + e) - e) with k by (unfold fexp, emin; lia).
    destruct k as [|p|p] eqn:Ek; [|by eauto using iter_shr_between|lia].
    eexists. rewrite Z.add_0_r. split; [reflexivity|]. by replace (2 ^ 0 * D) with D by lia. }
  destruct Hs as (mrs & Hs & Hb'). exists mrs. split; [done|]. split; [done|].
  destruct Hb' as (H0 & _ & Hl'). destruct (Zdigits2_bounds m Hm) as [_ Hd].
  set (j := shr_m mrs) in *. assert (HN' : j * (2 ^ k * D) <= N < (j + 1) * (2 ^ k * D)).
  { destruct (loc_of_shr_record mrs); [|lia]. pose proof (Z.pow_pos_nonneg 2 k). nia. }
  replace (Zdigits2 m) with (53 + k) in Hd by lia. replace (53 + k - 1) with (52 + k) in Hd by lia.
  rewrite !Z.pow_add_r in Hd by lia. pose proof (Z.pow_pos_nonneg 2 k ltac:(lia) Hk) as Hp.
  assert (j * 2 ^ k < m + 1) by nia. assert (m < (j + 1) * 2 ^ k) by nia. nia.
Qed.

Lemma round_aux s N D m e l :
  0 < m -> 53 <= Zdigits2 m -> -1074 <= Zdigits2 m - 53 + e -> Zdigits2 m + e <= 1023 -> between N D m l ->
  exists m' k, binary_round_aux 53 1024 s m e l = S754_finite s m' (e + k) /\
    Zdigits2 m - 53 <= k <= Zdigits2 m - 52 /\ nearest N (2 ^ k * D) (Zpos m').
Proof.
  intros Hm Hd He Hmax Hb. pose proof Hb as (_ & HD & _).
  destruct (shr_fexp_long N D m e l) as (mrs & Hs & Hb' & Hj); [lia..|done|].
  unfold binary_round_aux. rewrite Hs. set (k := Zdigits2 m - 53) in *.
  destruct (round_nearest _ _ _ _ Hb') as [Hr Hr']. pose proof Hb' as (_ & HU & Hl).
  set (r := round_nearest_even _ _) in *. set (U := 2 ^ k * D) in *.
  destruct (decide (r = 2 ^ 53)) as [Er|Er].
  - rewrite Er. exists (2 ^ 52)%positive, (k + 1). split; [|split; [lia|]].
    + unfold shr_fexp. replace (fexp 53 1024 _ - _) with 1.
      2: { change (Zdigits2 (2 ^ 53)) with 54. unfold fexp, emin. lia. }
      change (shr _ _ 1) with (Build_shr_record (Zpos (2 ^ 52)) false false, e + k + 1).
      cbn [shr_m]. rewrite (proj2 (Z.leb_le _ _)) by lia. by rewrite Z.add_assoc.
    + split; [lia|]. right. split; [done|]. rewrite Z.pow_add_r by lia. unfold U in *. nia.
  - assert (Hrb : 2 ^ 52 <= r < 2 ^ 53) by lia.
    unfold shr_fexp. rewrite (Zdigits2_unique r 53) by lia. replace (fexp 53 1024 _ - _) with 0 by (unfold fexp, emin; lia).
    cbn [shr shr_record_of_loc shr_m]. destruct r as [|p|p] eqn:Ep; [lia| |lia]. exists p, k.
    rewrite (proj2 (Z.leb_le _ _)) by lia. split; [done|]. split; [lia|]. split; [done|]. left. split; [|done].
    unfold shr_between, between in *. destruct (loc_of_shr_record mrs); nia.
Qed.

Lemma nearest_scale N U m c : 0 < c -> nearest N U m -> nearest (N * c) (U * c) m.
Proof. intros Hc [Hm H]. split; [done|]. destruct H as [[H1 H2]|[H1 H2]]; [left|right]; (split; [nia|nia]). Qed.

(** The relative error. *)
Lemma nearest_relative N U m : nearest N U m -> Z.abs (m * U - N) * 2 ^ 53 <= m * U.
Proof. intros [Hm [[_ H]|[_ H]]]; nia. Qed.

(** A quantity of at most 53 significant bits is not changed. *)
Lemma nearest_exact c a b D m :
  0 < c < 2 ^ 53 -> 0 <= a -> 0 <= b -> 0 < D -> nearest (c * (2 ^ b * D)) (2 ^ a * D) m -> m * 2 ^ a = c * 2 ^ b.
Proof.
  intros Hc Ha Hb HD [Hm H]. destruct (decide (a <= b)) as [Hab|Hab].
  - replace b with (b - a + a) in H |- * by lia. rewrite Z.pow_add_r in H |- * by lia.
    pose proof (Z.pow_pos_nonneg 2 a). set (U := 2 ^ a) in *. set (j := 2 ^ (b - a)) in *. clearbody U j.
    enough (m = c * j) by lia. assert (0 < U * D) by nia. destruct H as [[_ H]|[_ H]]; nia.
  - exfalso. replace a with (a - b - 1 + b + 1) in H by lia. rewrite !Z.pow_add_r in H by lia.
    pose proof (Z.pow_pos_nonneg 2 b). pose proof (Z.pow_pos_nonneg 2 (a - b - 1)).
    set (V := 2 ^ b) in *. set (j := 2 ^ (a - b - 1)) in *. clearbody V j. change (2 ^ 1) with 2 in H.
    assert (HV : 0 < V * D) by nia. assert (HU : 2 * (V * D) <= j * V * 2 * D) by nia.
    assert (HN : c * (V * D) <= (2 ^ 53 - 1) * (V * D)) by nia. lia.
Qed.

Definition normal (m : positive) : Prop := 2 ^ 52 <= Zpos m < 2 ^ 53.

Lemma between_exact m D : 0 <= m -> 0 < D -> between (m * D) D m loc_Exact.
Proof. done. Qed.

Lemma Zdigits2_mono a b : 0 < a -> a <= b -> Zdigits2 a <= Zdigits2 b.
Proof.
  intros Ha Hab. destruct (Zdigits2_bounds a) as [H0 [H1 H2]]; [done|]. destruct (Zdigits2_bounds b) as [H3 [H4 H5]]; [lia|].
  enough (Zdigits2 a - 1 < Zdigits2 b) by lia. apply (Z.pow_lt_mono_r_iff 2); lia.
Qed.

Lemma Zdigits2_between a d d' : 0 < d -> 2 ^ (d - 1) <= a < 2 ^ d' -> d <= Zdigits2 a <= d'.
Proof.
  intros Hd [H1 H2]. pose proof (Z.pow_pos_nonneg 2 (d - 1)). destruct (Zdigits2_bounds a) as [H3 [H4 H5]]; [lia|].
  split; [enough (d - 1 < Zdigits2 a) by lia|enough (Zdigits2 a - 1 < d') by lia];
    apply (Z.pow_lt_mono_r_iff 2); try lia.
  destruct (decide (0 <= d')); [done|]. rewrite (Z.pow_neg_r 2 d') in H2; lia.
Qed.

(** Products and quotients of normal numbers far from the ends of the range. *)
Lemma fmul_nearest s1 m1 e1 s2 m2 e2 :
  normal m1 -> normal m2 -> -900 <= e1 + e2 <= 900 ->
  exists m e, fmul (S754_finite s1 m1 e1) (S754_finite s2 m2 e2) = S754_finite (xorb s1 s2) m e /\
    e1 + e2 + 52 <= e <= e1 + e2 + 54 /\ nearest (Zpos m1 * Zpos m2) (2 ^ (e - (e1 + e2))) (Zpos m).
Proof.
  unfold normal. intros H1 H2 He. pose proof (Zdigits2_between (Zpos (m1 * m2)) 105 106 ltac:(lia) ltac:(nia)) as Hd.
  destruct (round_aux (xorb s1 s2) (Zpos m1 * Zpos m2) 1 (Zpos (m1 * m2)) (e1 + e2) loc_Exact) as (m & k & Hr & Hk & Hn); [lia..| |].
  { split; lia. }
  exists m, (e1 + e2 + k). split; [exact Hr|]. split; [lia|]. rewrite Z.mul_1_r in Hn. by replace (e1 + e2 + k - (e1 + e2)) with k by lia.
Qed.

Lemma new_location_between N D q r : 0 < D -> 0 <= q -> 0 <= r < D -> N = q * D + r -> between N D q (new_location D r).
Proof.
  intros HD Hq Hr ->. split; [done|]. split; [done|]. unfold new_location.
  replace (2 * (q * D + r - q * D)) with (2 * r) by lia.
  destruct (Z.even D) eqn:Hev; unfold new_location_even, new_location_odd; (destruct (Z.eqb_spec r 0) as [->|Hr0]; [lia|split; [lia|]]);
    [done|].
  assert (2 * r <> D) by (intros <-; by rewrite Z.even_mul in Hev).
  destruct (Z.compare_spec (2 * r + 1) D); cmp; lia.
Qed.

Lemma fdiv_nearest s1 m1 e1 s2 m2 e2 :
  normal m1 -> normal m2 -> -900 <= e1 - e2 <= 900 ->
  exists m k, fdiv (S754_finite s1 m1 e1) (S754_finite s2 m2 e2) = S754_finite (xorb s1 s2) m (e1 - e2 - 53 + k) /\
    0 <= k <= 2 /\ nearest (Zpos m1 * 2 ^ 53) (2 ^ k * Zpos m2) (Zpos m).
Proof.
  unfold normal. intros H1 H2 He. unfold fdiv, SFdiv, SFdiv_core_binary.
  rewrite (Zdigits2_unique (Zpos m1) 53), (Zdigits2_unique (Zpos m2) 53) by lia.
  replace (Z.min _ _) with (e1 - e2 - 53) by (unfold fexp, emin; lia).
  replace (e1 - e2 - (e1 - e2 - 53)) with 53 by lia. rewrite Z.shiftl_mul_pow2 by lia.
  pose proof (Z_div_mod (Zpos m1 * 2 ^ 53) (Zpos m2) ltac:(lia)) as Hdiv.
  destruct (Z.div_eucl _ _) as [q r] eqn:Eq. destruct Hdiv as [HN Hr].
  assert (Hq : 2 ^ 52 <= q < 2 ^ 54) by nia. pose proof (Zdigits2_between q 53 54 ltac:(lia) Hq) as Hd.
  destruct (round_aux (xorb s1 s2) (Zpos m1 * 2 ^ 53) (Zpos m2) q (e1 - e2 - 53) (new_location (Zpos m2) r)) as (m & k & Hres & Hk & Hn);
    [lia..|apply new_location_between; lia|]. exists m, k. split; [exact Hres|]. split; [lia|done].
Qed.

Lemma iter_xO (p j : positive) : Zpos (Pos.iter xO p j) = Zpos p * 2 ^ Zpos j.
Proof.
  induction j as [|j IH] using Pos.peano_ind; [cbn; lia|].
  rewrite Pos.iter_succ, Pos2Z.inj_xO, IH, Pos2Z.inj_succ, Z.pow_succ_r by lia. ring.
Qed.

Lemma round_pos_nearest s (p : positive) :
  Zpos p <= 2 ^ 63 ->
  exists m e, binary_round 53 1024 s p 0 = S754_finite s m e /\ -52 <= e <= 12 /\
    nearest (Zpos p * 2 ^ 53) (2 ^ (e + 53)) (Zpos m).
Proof.
  intros Hp. pose proof (Zdigits2_between (Zpos p) 1 64 ltac:(lia) ltac:(lia)) as Hd. unfold binary_round.
  change (Zpos (digits2_pos p)) with (Zdigits2 (Zpos p)). set (d := Zdigits2 (Zpos p)) in *.
  replace (fexp 53 1024 (d + 0)) with (d - 53) by (unfold fexp, emin; lia). unfold shl_align. rewrite Z.sub_0_r.
  destruct (decide (53 <= d)) as [H53|H53].
  - replace (match d - 53 with Z0 | Zpos _ => _ | Zneg _ => _ end) with (p, 0) by (destruct (d - 53) eqn:?; [done..|lia]).
    destruct (round_aux s (Zpos p) 1 (Zpos p) 0 loc_Exact) as (m & k & Hr & Hk & Hn); [lia..|split; lia|]. fold d in Hk.
    exists m, k. split; [exact Hr|]. split; [lia|]. rewrite Z.mul_1_r in Hn. rewrite Z.pow_add_r by lia. by apply nearest_scale.
  - destruct (d - 53) as [|j|j] eqn:Ej; [lia..|]. pose proof (iter_xO p j) as Hsh.
    set (q := Pos.iter xO p j) in *. clearbody q.
    assert (Hq : 2 ^ 52 <= Zpos q < 2 ^ 53).
    { rewrite Hsh. destruct (Zdigits2_bounds (Zpos p)) as [_ Hb]; [lia|]. fold d in Hb.
      replace (2 ^ 52) with (2 ^ (d - 1) * 2 ^ Zpos j) by (rewrite <- Z.pow_add_r by lia; f_equal; lia).
      replace (2 ^ 53) with (2 ^ d * 2 ^ Zpos j) by (rewrite <- Z.pow_add_r by lia; f_equal; lia).
      pose proof (Z.pow_pos_nonneg 2 (Zpos j)). nia. }
    destruct (round_aux s (Zpos q) 1 (Zpos q) (Zneg j) loc_Exact) as (m & k & Hr & Hk & Hn);
      [rewrite ?(Zdigits2_unique (Zpos q) 53) by lia; lia..|split; lia|].
    rewrite (Zdigits2_unique (Zpos q) 53) in Hk by lia.
    exists m, (Zneg j + k). split; [exact Hr|]. split; [lia|]. apply (nearest_scale _ _ _ (2 ^ (53 - Zpos j))) in Hn; [|apply Z.pow_pos_nonneg; lia].
    rewrite Hsh, <- Z.mul_assoc, <- Z.pow_add_r in Hn by lia. replace (Zpos j + (53 - Zpos j)) with 53 in Hn by lia.
    rewrite Z.mul_1_r, <- Z.pow_add_r in Hn by lia. by replace (Zneg j + k + 53) with (k + (53 - Zpos j)) by lia.
Qed.

(** ** Values *)

Definition scale : Z := 2 ^ 200.
Definition value (m : positive) (e : Z) : Z := Zpos m * 2 ^ (e + 200).

Lemma scale_pos : 0 < scale.
Proof. done. Qed.

Lemma double_of_int_near s z :
  0 < z <= 2 ^ 63 ->
  exists m e, double_of_int (cond_Zopp s z) = S754_finite s m e /\ -52 <= e <= 12 /\ nearest (z * scale) (2 ^ (e + 200)) (Zpos m).
Proof.
  intros Hz. destruct z as [|p|p]; [lia| |lia]. destruct (round_pos_nearest s p) as (m & e & Hr & He & Hn); [lia|].
  exists m, e. split; [by destruct s|]. split; [done|]. apply (nearest_scale _ _ _ (2 ^ 147)) in Hn; [|done].
  rewrite <- Z.mul_assoc, <- !Z.pow_add_r in Hn by lia. by replace (e + 53 + 147) with (e + 200) in Hn by lia.
Qed.

Lemma fmul_near s1 m1 e1 s2 m2 e2 :
  normal m1 -> normal m2 -> -100 <= e1 <= 100 -> -100 <= e2 <= 100 ->
  exists m e, fmul (S754_finite s1 m1 e1) (S754_finite s2 m2 e2) = S754_finite (xorb s1 s2) m e /\
    e1 + e2 + 52 <= e <= e1 + e2 + 54 /\ nearest (value m1 e1 * value m2 e2) (2 ^ (e + 200) * scale) (Zpos m).
Proof.
  intros H1 H2 He1 He2. destruct (fmul_nearest s1 m1 e1 s2 m2 e2 H1 H2) as (m & e & Hr & He & Hn); [lia|].
  exists m, e. split; [done|]. split; [done|]. apply (nearest_scale _ _ _ (2 ^ (e1 + e2 + 400))) in Hn; [|apply Z.pow_pos_nonneg; lia].
  rewrite <- Z.pow_add_r in Hn by lia. unfold value, scale. rewrite <- Z.pow_add_r by lia.
  replace (e - (e1 + e2) + (e1 + e2 + 400)) with (e + 200 + 200) in Hn by lia.
  replace (Zpos m1 * 2 ^ (e1 + 200) * (Zpos m2 * 2 ^ (e2 + 200))) with (Zpos m1 * Zpos m2 * 2 ^ (e1 + e2 + 400)); [done|].
  replace (e1 + e2 + 400) with (e1 + 200 + (e2 + 200)) by lia. rewrite Z.pow_add_r by lia. ring.
Qed.

Lemma fdiv_near s1 m1 e1 s2 m2 e2 :
  normal m1 -> normal m2 -> -70 <= e1 <= 70 -> -70 <= e2 <= 70 ->
  exists m e, fdiv (S754_finite s1 m1 e1) (S754_finite s2 m2 e2) = S754_finite (xorb s1 s2) m e /\
    e1 - e2 - 53 <= e <= e1 - e2 - 51 /\ nearest (value m1 e1 * scale) (2 ^ (e + 200) * value m2 e2) (Zpos m).
Proof.
  intros H1 H2 He1 He2. destruct (fdiv_nearest s1 m1 e1 s2 m2 e2 H1 H2) as (m & k & Hr & Hk & Hn); [lia|].
  exists m, (e1 - e2 - 53 + k). split; [done|]. split; [lia|].
  apply (nearest_scale _ _ _ (2 ^ (e1 + 347))) in Hn; [|apply Z.pow_pos_nonneg; lia]. unfold value, scale.
  replace (Zpos m1 * 2 ^ (e1 + 200) * 2 ^ 200) with (Zpos m1 * 2 ^ 53 * 2 ^ (e1 + 347)).
  - replace (2 ^ (e1 - e2 - 53 + k + 200) * (Zpos m2 * 2 ^ (e2 + 200))) with (2 ^ k * Zpos m2 * 2 ^ (e1 + 347)); [done|].
    rewrite (Z.mul_comm (Zpos m2) (2 ^ (e2 + 200))), Z.mul_assoc, <- (Z.pow_add_r 2 _ (e2 + 200)) by lia.
    replace (e1 - e2 - 53 + k + 200 + (e2 + 200)) with (k + (e1 + 347)) by lia. rewrite (Z.pow_add_r 2 k) by lia. ring.
  - rewrite <- !Z.mul_assoc, <- !Z.pow_add_r by lia. f_equal. f_equal. lia.
Qed.

(** The truncated value. *)
Lemma truncated_value s m e : -200 <= e -> truncated (S754_finite s m e) = Some (cond_Zopp s (value m e / scale)).
Proof.
  intros He. cbn [truncated]. do 2 f_equal. unfold value, scale. destruct (decide (0 <= e)) as [H|H].
  - rewrite Z.shiftl_mul_pow2, Z.pow_add_r, Z.mul_assoc, Z.div_mul by lia. done.
  - rewrite <- (Z.opp_involutive e) at 1. rewrite Z.shiftl_opp_r, Z.shiftr_div_pow2 by lia.
    replace (2 ^ 200) with (2 ^ (- e) * 2 ^ (e + 200)) by (rewrite <- Z.pow_add_r by lia; f_equal; lia).
    rewrite Z.div_mul_cancel_r; [done| |]; pose proof (Z.pow_pos_nonneg 2 (- e)); pose proof (Z.pow_pos_nonneg 2 (e + 200)); lia.
Qed.

(** Exponents order normal numbers, whatever their mantissas. *)
Lemma value_lt m m' e e' : normal m -> normal m' -> -200 <= e -> e < e' -> value m e < value m' e'.
Proof.
  unfold normal, value. intros Hm Hm' He Hlt. pose proof (Z.pow_pos_nonneg 2 (e + 200)). pose proof (Z.pow_pos_nonneg 2 (e' - e - 1)).
  replace (e' + 200) with (e' - e - 1 + 1 + (e + 200)) by lia.
  rewrite (Z.pow_add_r 2 (e' - e - 1 + 1)), (Z.pow_add_r 2 (e' - e - 1)) by lia. change (2 ^ 1) with 2.
  rewrite Z.mul_assoc. apply Z.mul_lt_mono_pos_r; [lia|]. nia.
Qed.

(** Normal numbers of the same value are the same. *)
Lemma value_inj m e m' e' :
  normal m -> normal m' -> -200 <= e -> -200 <= e' -> value m e = value m' e' -> m = m' /\ e = e'.
Proof.
  intros H H' He He' Hv. destruct (Z.lt_trichotomy e e') as [Hl|[->|Hl]].
  - pose proof (value_lt m m' e e' H H' He Hl). lia.
  - split; [|done]. unfold value in Hv. apply Z.mul_cancel_r in Hv; [congruence|]. pose proof (Z.pow_pos_nonneg 2 (e' + 200)). lia.
  - pose proof (value_lt m' m e' e H' H He' Hl). lia.
Qed.

(** Comparing positive numbers compares their values. *)
Lemma fgeb_value m e m' e' :
  normal m -> normal m' -> -200 <= e -> -200 <= e' ->
  fgeb (S754_finite false m e) (S754_finite false m' e') = (value m' e' <=? value m e).
Proof.
  intros H H' He He'. unfold fgeb, SFleb, SFcompare. destruct (Z.compare_spec e' e) as [->|Hl|Hl].
  - change (Pos.compare_cont Eq m' m) with (Zpos m' ?= Zpos m). unfold value.
    rewrite (Zmult_compare_compat_r (Zpos m') (Zpos m) (2 ^ (e + 200))); [|apply Z.lt_gt, Z.pow_pos_nonneg; lia].
    destruct (Z.compare_spec (Zpos m' * 2 ^ (e + 200)) (Zpos m * 2 ^ (e + 200))); symmetry; apply Z.leb_le || apply Z.leb_gt; lia.
  - pose proof (value_lt m' m e' e H' H He' Hl). symmetry. apply Z.leb_le. lia.
  - pose proof (value_lt m m' e e' H H' He Hl). symmetry. apply Z.leb_gt. lia.
Qed.

(** An integer of at most 53 significant bits is converted exactly. *)
Lemma double_of_int_exact s c b :
  0 < c < 2 ^ 53 -> 0 <= b -> c * 2 ^ b <= 2 ^ 63 ->
  exists m e, double_of_int (cond_Zopp s (c * 2 ^ b)) = S754_finite s m e /\ normal m /\ -52 <= e <= 12 /\
    value m e = c * 2 ^ b * scale.
Proof.
  intros Hc Hb Hmax. pose proof (Z.pow_pos_nonneg 2 b). destruct (double_of_int_near s (c * 2 ^ b)) as (m & e & Hd & He & Hn); [nia|].
  exists m, e. split; [done|]. split; [exact (proj1 Hn)|]. split; [done|].
  replace (c * 2 ^ b * scale) with (c * (2 ^ (b + 200) * 1)) in Hn by (rewrite Z.pow_add_r by lia; unfold scale; ring).
  rewrite <- (Z.mul_1_r (2 ^ (e + 200))) in Hn. apply nearest_exact in Hn; [|lia..]. unfold value. rewrite Hn, Z.pow_add_r by lia.
  unfold scale. ring.
Qed.
