(* ===== verification/TimeFloat.v ===== *)
(** * Time in floating point: the conversions of wtf/time/time_delta.h

    [FromSecondsF] and [FromMillisecondsF] multiply a double and convert it to
    [int64_t], which truncates; [ToSecondsF] and the others divide.  A span that is
    turned into seconds and back loses at most a nanosecond as long as it is shorter
    than 26 days, and is off by at most one part in [2^51] after that; whole seconds
    are kept exactly for 146 years; and a comparison in milliseconds, which is what
    the unit tests of the message loop make, decides as one in nanoseconds does. *)

From stdpp Require Import base list numbers strings.
From Stdlib Require Import ZArith Lia.
From Stdlib Require Import Floats.SpecFloat.
From S2P Require Import Prelude Time Double.

(** [1000.0], [1000.0 * 1000.0] and [1000.0 * 1000.0 * 1000.0] *)
Definition kThousand : double := double_of_int 1000.
Definition kMillion : double := fmul kThousand kThousand.
Definition kBillion : double := fmul (fmul kThousand kThousand) kThousand.

Definition FromSecondsF (seconds : double) : outcome TimeDelta.t :=
  (let? nanos := int64_of_double (fmul seconds kBillion) in Ret (TimeDelta.FromNanoseconds nanos))%cpp.
Definition FromMillisecondsF (millis : double) : outcome TimeDelta.t :=
  (let? nanos := int64_of_double (fmul millis kMillion) in Ret (TimeDelta.FromNanoseconds nanos))%cpp.

Definition ToNanosecondsF (d : TimeDelta.t) : double := double_of_int (TimeDelta.delta_ d).
Definition ToMicrosecondsF (d : TimeDelta.t) : double := fdiv (double_of_int (TimeDelta.delta_ d)) kThousand.
Definition ToMillisecondsF (d : TimeDelta.t) : double := fdiv (double_of_int (TimeDelta.delta_ d)) kMillion.
Definition ToSecondsF (d : TimeDelta.t) : double := fdiv (double_of_int (TimeDelta.delta_ d)) kBillion.

(** [Milliseconds], a duration that counts in double; [Milliseconds(1s)] *)
Definition Milliseconds : Type := double.
Definition one_second : Milliseconds := fmul (double_of_int 1) kThousand.

Definition kDefaultFrameBudget : Milliseconds := fdiv one_second (double_of_int 60).

(** The refresh rate is an integer or a double; an integer is converted first. *)
Definition RefreshRateToFrameBudget {T} (to_double : T -> double) (refresh_rate : T) : Milliseconds :=
  fdiv one_second (to_double refresh_rate).

(** ** Conversions with a constant *)

(** The double [c] is the integer [C]. *)
Definition is_const (c : double) (C : Z) : Prop :=
  exists m e, c = S754_finite false m e /\ normal m /\ -60 <= e <= -10 /\ value m e = C * scale.

Lemma million_const : is_const kMillion (10 ^ 6).
Proof. exists 8589934592000000%positive, (-33). vm_compute. repeat split; intros [=]. Qed.

Lemma billion_const : is_const kBillion (10 ^ 9).
Proof. exists 8388608000000000%positive, (-23). vm_compute. repeat split; intros [=]. Qed.

(** The error of three roundings: [W] was converted to [X], divided to [A] and
    multiplied to [P]. *)
Lemma chain_error W X A P :
  0 < W -> Z.abs (X - W) * 2 ^ 53 <= X -> Z.abs (A - X) * 2 ^ 53 <= A -> Z.abs (P - A) * 2 ^ 53 <= P ->
  Z.abs (P - W) * 2 ^ 51 <= W.
Proof. lia. Qed.

Lemma quotient_error P S d :
  0 < S -> 0 < d -> Z.abs (P - d * S) * 2 ^ 51 <= d * S ->
  0 <= P / S /\ (Z.abs (P / S - d) - 1) * 2 ^ 51 <= d /\ (d < 2 ^ 51 -> P / S = d \/ P / S = d - 1).
Proof.
  intros HS Hd HP. pose proof (Z.div_mod P S ltac:(lia)) as HPS. pose proof (Z.mod_pos_bound P S HS) as Hr.
  set (n := P / S) in *. clearbody n. set (r := P mod S) in *. clearbody r. subst P.
  assert (Hup : (n - d) * 2 ^ 51 <= d) by nia. assert (Hlo : (d - n - 1) * 2 ^ 51 <= d) by nia. lia.
Qed.

(** A quotient [Q] of [d] by [C] that is not exact is on the right side of [n]. *)
Lemma compare_units S C n d Q :
  0 < C -> 0 < S -> d <> n * C -> 0 <= n -> 0 <= d -> n * C <= 2 ^ 52 ->
  Z.abs (Q * C - d * S) * 2 ^ 53 <= Q * C -> (n * S <=? Q) = (n * C <=? d).
Proof.
  intros HC HS Hne Hn Hd Hmax HQ. set (A := Q * C) in *. set (B := n * C) in *.
  destruct (Z.leb_spec B d) as [Hle|Hlt].
  - apply Z.leb_le, (Z.mul_le_mono_pos_r _ _ C HC). fold A. replace (n * S * C) with (B * S) by (unfold B; ring).
    assert (B * S + S <= d * S) by nia. assert (B * S <= 2 ^ 52 * S) by nia. lia.
  - apply Z.leb_gt, (Z.mul_lt_mono_pos_r C _ _ HC). fold A. replace (n * S * C) with (B * S) by (unfold B; ring).
    assert (d * S + S <= B * S) by nia. assert (B * S <= 2 ^ 52 * S) by nia. lia.
Qed.

Section constant.
Context (c : double) (C : Z) (HC : 0 < C) (Hc : is_const c C).

(** A span in units of [C], and back. *)
Lemma scale_roundtrip s d :
  0 < d <= 2 ^ 62 ->
  exists n, int64_of_double (fmul (fdiv (double_of_int (cond_Zopp s d)) c) c) = Ret (cond_Zopp s n) /\
    0 <= n /\ (Z.abs (n - d) - 1) * 2 ^ 51 <= d /\ (d < 2 ^ 51 -> n = d \/ n = d - 1).
Proof.
  intros Hd. destruct Hc as (mc & ec & -> & Hmc & Hec & HvC).
  destruct (double_of_int_near s d ltac:(lia)) as (mx & ex & -> & Hex & Hx).
  destruct (fdiv_near s mx ex false mc ec) as (mq & eq & -> & Heq & Hq); [exact (proj1 Hx)|done|lia..|].
  destruct (fmul_near (xorb s false) mq eq false mc ec) as (mp & ep & -> & Hep & Hp); [exact (proj1 Hq)|done|lia..|].
  apply nearest_relative in Hx, Hq, Hp. rewrite HvC in Hq, Hp. rewrite Z.mul_assoc in Hq, Hp.
  change (Zpos mx * 2 ^ (ex + 200)) with (value mx ex) in *. change (Zpos mq * 2 ^ (eq + 200)) with (value mq eq) in *.
  change (Zpos mp * 2 ^ (ep + 200)) with (value mp ep) in *.
  pose proof scale_pos as HS. unfold int64_of_double. rewrite truncated_value by lia. rewrite !xorb_false_r.
  set (X := value mx ex) in *. set (Q := value mq eq) in *. set (P := value mp ep) in *. set (S := scale) in *. clearbody X Q P S.
  assert (HP : Z.abs (P - d * S) * 2 ^ 51 <= d * S) by (apply (chain_error _ X (Q * C)); nia).
  destruct (quotient_error P S d HS ltac:(lia) HP) as (H0 & H1 & H2). exists (P / S). split; [|done].
  rewrite decide_True; [done|]. unfold in_i64. destruct s; cbn; lia.
Qed.

(** Whole units are exact as long as the odd part of the number of nanoseconds has 53 bits. *)
Context (F t : Z) (HF : C = F * 2 ^ t) (Ht : 0 <= t).

Lemma from_units s n :
  0 < n -> n * F < 2 ^ 53 -> n * C <= 2 ^ 63 - 1 ->
  int64_of_double (fmul (double_of_int (cond_Zopp s n)) c) = Ret (cond_Zopp s (n * C)).
Proof.
  intros Hn HnF Hmax. destruct Hc as (mc & ec & -> & Hmc & Hec & HvC). pose proof (Z.pow_pos_nonneg 2 t) as Hpt.
  assert (0 < F) by nia. destruct (double_of_int_exact s n 0) as (mx & ex & Hdx & Hmx & Hex & Hvx); [nia|done|nia|].
  rewrite Z.pow_0_r, Z.mul_1_r in Hdx, Hvx. rewrite Hdx.
  destruct (fmul_near s mx ex false mc ec) as (mp & ep & -> & Hep & Hp); [done..|lia|lia|].
  rewrite Hvx, HvC in Hp. replace (n * scale * (C * scale)) with (n * F * (2 ^ (t + 200) * scale)) in Hp.
  2: { rewrite HF, Z.pow_add_r by lia. unfold scale. ring. }
  apply nearest_exact in Hp; [|nia|lia..|done]. change (Zpos mp * 2 ^ (ep + 200)) with (value mp ep) in Hp.
  unfold int64_of_double. rewrite truncated_value by lia. rewrite xorb_false_r, Hp.
  replace (n * F * 2 ^ (t + 200) / scale) with (n * C).
  2: { rewrite Z.pow_add_r by lia. change (2 ^ 200) with scale. rewrite Z.mul_assoc, Z.div_mul by done. lia. }
  rewrite decide_True; [done|]. unfold in_i64. destruct s; cbn; lia.
Qed.

Lemma to_units s n :
  0 < n -> n * F < 2 ^ 53 -> n * C <= 2 ^ 63 ->
  fdiv (double_of_int (cond_Zopp s (n * C))) c = double_of_int (cond_Zopp s n).
Proof.
  intros Hn HnF Hmax. destruct Hc as (mc & ec & -> & Hmc & Hec & HvC). pose proof (Z.pow_pos_nonneg 2 t) as Hpt.
  assert (0 < F) by nia.
  destruct (double_of_int_exact s n 0) as (m & e & Hd & Hm & He & Hv); [nia|done|nia|].
  rewrite Z.pow_0_r, Z.mul_1_r in Hd, Hv. rewrite Hd.
  destruct (double_of_int_exact s (n * F) t) as (mx & ex & Hdx & Hmx & Hex & Hvx); [nia|done|nia|].
  replace (n * F * 2 ^ t) with (n * C) in Hdx, Hvx by lia. rewrite Hdx.
  destruct (fdiv_near s mx ex false mc ec) as (mq & eq & -> & Heq & Hq); [done..|lia|lia|]. pose proof (proj1 Hq) as Hmq.
  rewrite Hvx, HvC in Hq. replace (n * C * scale * scale) with (n * (2 ^ 200 * (C * scale))) in Hq by (unfold scale; ring).
  apply nearest_exact in Hq; [|nia|lia..|pose proof scale_pos; nia].
  destruct (value_inj mq eq m e) as [-> ->]; [done|done|lia|lia|by rewrite Hv|]. by rewrite xorb_false_r.
Qed.

(** Comparing with whole units. *)
Lemma ge_units n d :
  0 <= n -> 0 <= d <= 2 ^ 52 -> n * C <= 2 ^ 52 ->
  fgeb (fdiv (double_of_int d) c) (double_of_int n) = (n * C <=? d).
Proof.
  intros Hn Hd Hmax. pose proof to_units as Hexact. destruct Hc as (mc & ec & -> & Hmc & Hec & HvC).
  destruct (decide (n = 0)) as [->|Hn0].
  { symmetry. rewrite (proj2 (Z.leb_le _ _)) by lia. change (double_of_int 0) with (S754_zero false).
    destruct (decide (d = 0)) as [->|Hd0]; [done|].
    destruct (double_of_int_near false d ltac:(lia)) as (mx & ex & Hdx & Hex & Hx). cbn [cond_Zopp] in Hdx. rewrite Hdx.
    by destruct (fdiv_near false mx ex false mc ec) as (mq & eq & -> & Heq & Hq); [exact (proj1 Hx)|done|lia|lia|]. }
  destruct (double_of_int_exact false n 0) as (m & e & Hdn & Hm & He & Hv); [nia|done|nia|].
  cbn [cond_Zopp] in Hdn. rewrite Z.pow_0_r, Z.mul_1_r in Hdn, Hv.
  destruct (decide (d = 0)) as [->|Hd0]; [rewrite Hdn; symmetry; apply Z.leb_gt; nia|].
  destruct (decide (d = n * C)) as [->|Hne].
  { pose proof (Z.pow_pos_nonneg 2 t ltac:(lia) Ht). assert (n * F <= n * C) by (rewrite HF; nia).
    specialize (Hexact false n ltac:(lia) ltac:(lia) ltac:(lia)). cbn [cond_Zopp] in Hexact. rewrite Hexact, Hdn, fgeb_value by (done || lia).
    by rewrite !Z.leb_refl. }
  destruct (double_of_int_exact false d 0) as (mx & ex & Hdx & Hmx & Hex & Hvx); [lia|done|lia|].
  cbn [cond_Zopp] in Hdx. rewrite Z.pow_0_r, Z.mul_1_r in Hdx, Hvx. rewrite Hdx, Hdn.
  destruct (fdiv_near false mx ex false mc ec) as (mq & eq & -> & Heq & Hq); [done..|lia|lia|].
  cbn [xorb]. rewrite fgeb_value; [|exact (proj1 Hq)|done|lia|lia]. rewrite Hv.
  apply nearest_relative in Hq. rewrite Hvx, HvC, Z.mul_assoc in Hq. change (Zpos mq * 2 ^ (eq + 200)) with (value mq eq) in *.
  apply compare_units; [done|exact scale_pos|done|lia|lia|lia|]. pose proof scale_pos. nia.
Qed.
End constant.

(** ** The conversions *)

(** [n] nanoseconds are [d] but for truncation and for one part in [2^51]. *)
Definition close (d n : Z) : Prop :=
  (Z.abs (n - d) - 1) * 2 ^ 51 <= Z.abs d /\ (Z.abs d < 2 ^ 51 -> n = d \/ n = d - Z.sgn d).

Lemma const_close c C d :
  is_const c C -> Z.abs d <= 2 ^ 62 ->
  exists n, int64_of_double (fmul (fdiv (double_of_int d) c) c) = Ret n /\ close d n.
Proof.
  intros Hc Hd. destruct (decide (d = 0)) as [->|H0].
  { destruct Hc as (m & e & -> & _). exists 0. split; [done|]. split; [lia|by left]. }
  set (s := d <? 0). assert (Hs : d = cond_Zopp s (Z.abs d)) by (unfold s, cond_Zopp; destruct (Z.ltb_spec d 0); lia).
  destruct (scale_roundtrip c C Hc s (Z.abs d)) as (n & Hn & H1 & H2 & H3); [lia|]. rewrite <- Hs in Hn.
  exists (cond_Zopp s n). split; [done|]. unfold close, s, cond_Zopp in *. destruct (Z.ltb_spec d 0); lia.
Qed.

(** C40: a span of time survives floating point.  Turned into seconds or milliseconds
    and back, a span of at most 146 years gives a span again (no conversion is out of
    range), which differs by a truncated nanosecond and one part in [2^51]; below 26
    days it is the same or one nanosecond shorter. *)
Theorem spans_survive_double (d : Z) :
  Z.abs d <= 2 ^ 62 ->
  (exists n, FromSecondsF (ToSecondsF (TimeDelta.mk d)) = Ret (TimeDelta.mk n) /\ close d n) /\
  (exists n, FromMillisecondsF (ToMillisecondsF (TimeDelta.mk d)) = Ret (TimeDelta.mk n) /\ close d n).
Proof.
  intros Hd. unfold FromSecondsF, ToSecondsF, FromMillisecondsF, ToMillisecondsF. cbn [TimeDelta.delta_]. split.
  - destruct (const_close kBillion (10 ^ 9) d billion_const Hd) as (n & -> & Hn). by exists n.
  - destruct (const_close kMillion (10 ^ 6) d million_const Hd) as (n & -> & Hn). by exists n.
Qed.

Lemma spans_survive_double_witness :
  exists n, FromSecondsF (ToSecondsF (TimeDelta.mk 1000000007)) = Ret (TimeDelta.mk n) /\ close 1000000007 n.
Proof. apply (spans_survive_double 1000000007). lia. Defined.

(** whole seconds are exact.  For 146 years in either direction, [FromSecondsF] gives
    what [FromSeconds] gives, and [ToSecondsF] gives the seconds back. *)
Theorem whole_seconds_exact (s : Z) :
  Z.abs s <= 4611686018 ->
  FromSecondsF (double_of_int s) = TimeDelta.FromSeconds s /\
  ToSecondsF (TimeDelta.mk (s * 10 ^ 9)) = double_of_int s.
Proof.
  intros Hs. assert (HF : TimeDelta.FromSeconds s = Ret (TimeDelta.mk (s * 10 ^ 9))).
  { unfold TimeDelta.FromSeconds, TimeDelta.FromMilliseconds, TimeDelta.FromMicroseconds.
    do 3 (rewrite i64_op_ok by (unfold in_i64; lia); cbn [obind]). unfold TimeDelta.FromNanoseconds. do 2 f_equal. lia. }
  rewrite HF. unfold FromSecondsF, ToSecondsF. cbn [TimeDelta.delta_].
  destruct (decide (s = 0)) as [->|H0]; [done|].
  set (b := s <? 0). assert (Hb : s = cond_Zopp b (Z.abs s)) by (unfold b, cond_Zopp; destruct (Z.ltb_spec s 0); lia).
  pose proof (from_units kBillion (10 ^ 9) ltac:(lia) billion_const (5 ^ 9) 9 eq_refl ltac:(lia) b (Z.abs s) ltac:(lia) ltac:(lia) ltac:(lia)) as H1.
  pose proof (to_units kBillion (10 ^ 9) ltac:(lia) billion_const (5 ^ 9) 9 eq_refl ltac:(lia) b (Z.abs s) ltac:(lia) ltac:(lia) ltac:(lia)) as H2.
  rewrite <- Hb in H1, H2. rewrite H1. replace (cond_Zopp b (Z.abs s * 10 ^ 9)) with (s * 10 ^ 9) in *; [done|].
  rewrite Hb at 1. destruct b; cbn; lia.
Qed.

Lemma whole_seconds_exact_witness : FromSecondsF (double_of_int 86400) = TimeDelta.FromSeconds 86400.
Proof. apply (whole_seconds_exact 86400). lia. Defined.

(** a comparison in milliseconds decides as one in nanoseconds: for up to 52 days,
    [ToMillisecondsF] of a span is at least [n] exactly when the span is at least [n]
    milliseconds, although the quotient is rounded. *)
Theorem ToMillisecondsF_ge (d n : Z) :
  0 <= d <= 2 ^ 52 -> 0 <= n -> n * 10 ^ 6 <= 2 ^ 52 ->
  fgeb (ToMillisecondsF (TimeDelta.mk d)) (double_of_int n) = (n * 10 ^ 6 <=? d).
Proof.
  intros Hd Hn Hmax. unfold ToMillisecondsF. cbn [TimeDelta.delta_].
  exact (ge_units kMillion (10 ^ 6) ltac:(lia) million_const (5 ^ 6) 6 eq_refl ltac:(lia) n d Hn Hd Hmax).
Qed.

Lemma ToMillisecondsF_ge_witness : fgeb (ToMillisecondsF (TimeDelta.mk 2999999)) (double_of_int 3) = false.
Proof. rewrite (ToMillisecondsF_ge 2999999 3) by lia. reflexivity. Defined.

(** ** Examples *)

(** The truncation is real: some spans come back a nanosecond short. *)
Example nanosecond_lost : FromSecondsF (ToSecondsF (TimeDelta.mk 1000000007)) = Ret (TimeDelta.mk 1000000006).
Proof. vm_compute. reflexivity. Qed.

Example frame_budget : FromMillisecondsF kDefaultFrameBudget = Ret (TimeDelta.mk 16666666) /\
  RefreshRateToFrameBudget double_of_int 60 = kDefaultFrameBudget.
Proof. vm_compute. done. Qed.

(** A rate of zero gives an infinite budget, which is no span. *)
Example no_refresh : is_ret (FromMillisecondsF (RefreshRateToFrameBudget double_of_int 0)) = false.
Proof. vm_compute. reflexivity. Qed.
