(* ===== verification/TaskQueues.v ===== *)
(** * Task queues and message loops: wtf/task_runner

    [World] holds the process-wide [MessageLoopTaskQueues], the loops
    ([MessageLoopWin], the one implementation of [MessageLoopImpl]), the message
    loop of each thread and the steady clock.  Every operation of
    [MessageLoopTaskQueues] holds its mutex from start to end, so it is one step.
    A task is a name and the calls it makes when it runs; a loop is named by the
    id of its queue.  [debug] tells whether [WTF_DCHECK] checks anything, and
    [SetWaitableTimer] whether Windows accepts a due time. *)

From stdpp Require Import base list numbers strings gmap.
From Stdlib Require Import ZArith Lia.
From S2P Require Import Prelude Time.

Abbreviation TaskQueueId := Z.

(** [TaskQueueId::unmerged], ULONG_MAX: 32 bits wide on Windows. *)
Definition unmerged : TaskQueueId := 2 ^ 32 - 1.

(** [wtf::Task]; a null task is [None]. *)
Inductive Task :=
| mkTask (name : Z) (does : list TaskCall)
with TaskCall :=
| CallPost (runner : TaskQueueId) (task : option Task) (target : Z)
| CallTerminate (loop : TaskQueueId)
| CallTerminateCurrent
| CallObserve (loop : TaskQueueId) (key : Z) (callback : option Task)
| TakesTime (d : N).

Definition task_name (t : Task) : Z := let 'mkTask n _ := t in n.
Definition task_does (t : Task) : list TaskCall := let 'mkTask _ d := t in d.

(** ** delayed_task.h, delayed_task.cpp *)

Record DelayedTask := mkDelayedTask { order_ : Z; task_ : option Task; target_time_ : TimePoint.t }.

Definition GetTask (d : DelayedTask) : option Task := task_ d.
Definition GetTargetTime (d : DelayedTask) : TimePoint.t := target_time_ d.

(** [operator>]. *)
Definition task_gt (d other : DelayedTask) : bool :=
  if TimePoint.eqb (target_time_ d) (target_time_ other) then order_ other <? order_ d
  else TimePoint.gtb (target_time_ d) (target_time_ other).

(** [std::priority_queue] with [std::greater]: its elements, the top first. *)
Abbreviation DelayedTaskQueue := (list DelayedTask).

Fixpoint pq_push (d : DelayedTask) (q : DelayedTaskQueue) : DelayedTaskQueue :=
  match q with
  | [] => [d]
  | e :: q' => if task_gt e d then d :: q else e :: pq_push d q'
  end.

(** ** message_loop_task_queues.h *)

Record TaskQueueEntry := mkEntry {
  wakeable : option TaskQueueId;
  task_observers : list (Z * option Task);   (* std::map, by key *)
  delayed_task_queue : DelayedTaskQueue;
  owner_of : TaskQueueId
}.

Definition TaskQueueEntry_ctor (owner_of : TaskQueueId) : TaskQueueEntry :=
  mkEntry None [] [] owner_of.

Record MessageLoopTaskQueues := mkQueues {
  queue_entries_ : gmap Z TaskQueueEntry;
  task_queue_id_counter_ : Z;
  order_counter_ : Z                   (* order_, an atomic int *)
}.

(** message_loop_impl.h, message_loop_win.h: the timer is the time it fires at. *)
Record Loop := mkLoop { terminated_ : bool; running_ : bool; timer_ : option Z }.

Record World := mkWorld {
  queues : MessageLoopTaskQueues;
  loops : gmap Z Loop;
  tls_message_loop : gmap Z TaskQueueId;   (* the loop of each thread *)
  clock : Z;
  ran : list Z                             (* names of the tasks run, latest first *)
}.

Definition eta_World (w : World) : World :=
  mkWorld (queues w) (loops w) (tls_message_loop w) (clock w) (ran w).
Definition with_queues : MessageLoopTaskQueues -> World -> World :=
  ltac:(build_setter eta_World queues).
Definition with_loops : gmap Z Loop -> World -> World := ltac:(build_setter eta_World loops).
Definition with_tls : gmap Z TaskQueueId -> World -> World :=
  ltac:(build_setter eta_World tls_message_loop).
Definition with_clock : Z -> World -> World := ltac:(build_setter eta_World clock).
Definition with_ran : list Z -> World -> World := ltac:(build_setter eta_World ran).

(** A process before its first loop. *)
Definition new_world (now : Z) : World := mkWorld (mkQueues ∅ 0 0) ∅ ∅ now [].

Definition set_entry (id : TaskQueueId) (e : TaskQueueEntry) (w : World) : World :=
  with_queues (mkQueues (<[id := e]> (queue_entries_ (queues w)))
                 (task_queue_id_counter_ (queues w)) (order_counter_ (queues w))) w.

Definition set_loop (id : TaskQueueId) (l : Loop) (w : World) : World :=
  with_loops (<[id := l]> (loops w)) w.

(** [std::map::operator[]] assignment. *)
Fixpoint set_observer (key : Z) (t : option Task) (m : list (Z * option Task))
  : list (Z * option Task) :=
  match m with
  | [] => [(key, t)]
  | (k, u) :: m' =>
      if key <? k then (key, t) :: m
      else if k =? key then (key, t) :: m'
      else (k, u) :: set_observer key t m'
  end.

Inductive FlushType := Single | All.

Section ops.
Context (debug : bool) (SetWaitableTimer : Z -> bool).

Abbreviation WM := (M World).

Definition dcheck (b : bool) (why : string) : WM unit := checkS (negb debug || b) why.

(** [TimePoint::Now()]. *)
Definition Now : WM TimePoint.t := getS (fun w => TimePoint.mk (clock w)).

(** [queue_entries_.at(id)]: throws when there is no such queue. *)
Definition entry_at (id : TaskQueueId) : WM TaskQueueEntry :=
  let! w := getS (fun w => queue_entries_ (queues w)) in
  match w !! id with Some e => retS e | None => killS "std::out_of_range" end.

Definition loop_at (id : TaskQueueId) : WM Loop :=
  let! ls := getS loops in
  match ls !! id with Some l => retS l | None => undefS "use of a destroyed loop" end.

(** [MessageLoopWin::WakeUp]: a negative due time is relative, in units of 100
    nanoseconds; zero fires at once. *)
Definition WakeUp (id : TaskQueueId) (time_point : TimePoint.t) : WM unit :=
  let! now := Now in
  let! due_time :=
    (if TimePoint.gtb time_point now then
       let! d := liftS (TimePoint.sub time_point now) in
       retS (Z.quot (TimeDelta.ToNanoseconds d) (-100))
     else retS 0) in
  do! checkS (SetWaitableTimer due_time) "SetWaitableTimer" in
  let! l := loop_at id in
  updS (set_loop id (mkLoop (terminated_ l) (running_ l)
                       (Some (TimePoint.ticks_ now + 100 * - due_time)))).

(** ** message_loop_task_queues.cpp *)

Definition WakeUpUnlocked (queue_id : TaskQueueId) (time : TimePoint.t) : WM unit :=
  let! e := entry_at queue_id in
  match wakeable e with
  | Some l => WakeUp l time
  | None => retS tt
  end.

Definition HasPendingTasksUnlocked (queue_id : TaskQueueId) : WM bool :=
  let! e := entry_at queue_id in
  if owner_of e =? unmerged then retS false else
  retS (negb (bool_decide (delayed_task_queue e = []))).

Definition PeekNextTaskUnlocked (owner : TaskQueueId) : WM DelayedTask :=
  let! pending := HasPendingTasksUnlocked owner in
  do! dcheck pending "HasPendingTasksUnlocked(owner)" in
  let! e := entry_at owner in
  match delayed_task_queue e with
  | d :: _ => retS d
  | [] => undefS "top of an empty priority queue"
  end.

Definition GetNextWakeTimeUnlocked (queue_id : TaskQueueId) : WM TimePoint.t :=
  let! d := PeekNextTaskUnlocked queue_id in
  retS (GetTargetTime d).

Definition AddTaskObserver_queue (queue_id : TaskQueueId) (key : Z) (callback : option Task) : WM unit :=
  do! dcheck (bool_decide (is_Some callback)) "callback != nullptr" in
  let! e := entry_at queue_id in
  updS (set_entry queue_id (mkEntry (wakeable e) (set_observer key callback (task_observers e))
                              (delayed_task_queue e) (owner_of e))).

Definition CreateTaskQueue : WM TaskQueueId :=
  let! qs := getS queues in
  let loop_id := task_queue_id_counter_ qs in
  do! updS (with_queues (mkQueues (queue_entries_ qs) (u64 (loop_id + 1)) (order_counter_ qs))) in
  do! updS (set_entry loop_id (TaskQueueEntry_ctor loop_id)) in
  retS loop_id.

Definition erase_entry (id : TaskQueueId) : WM unit :=
  updS (fun w => with_queues (mkQueues (delete id (queue_entries_ (queues w)))
                                (task_queue_id_counter_ (queues w)) (order_counter_ (queues w))) w).

Definition Dispose (queue_id : TaskQueueId) : WM unit :=
  let! e := entry_at queue_id in
  let subsumed := owner_of e in
  do! erase_entry queue_id in
  whenS (negb (subsumed =? unmerged)) (erase_entry subsumed).

Definition DisposeTasks (queue_id : TaskQueueId) : WM unit :=
  let! e := entry_at queue_id in
  updS (set_entry queue_id (mkEntry (wakeable e) (task_observers e) [] (owner_of e))).

Definition GetObserversToNotify (queue_id : TaskQueueId) : WM (list (option Task)) :=
  let! e := entry_at queue_id in
  retS (snd <$> task_observers e).

Definition pop_task (queue_id : TaskQueueId) : WM unit :=
  let! e := entry_at queue_id in
  updS (set_entry queue_id (mkEntry (wakeable e) (task_observers e)
                              (tail (delayed_task_queue e)) (owner_of e))).

Definition GetNextTaskToRun (queue_id : TaskQueueId) (from_time : TimePoint.t) : WM (option Task) :=
  let! pending := HasPendingTasksUnlocked queue_id in
  if negb pending then retS None else
  let! top_task := PeekNextTaskUnlocked queue_id in
  let! pending := HasPendingTasksUnlocked queue_id in
  do! (if negb pending then WakeUpUnlocked queue_id TimePoint.Max
       else let! t := GetNextWakeTimeUnlocked queue_id in WakeUpUnlocked queue_id t) in
  if TimePoint.gtb (GetTargetTime top_task) from_time then retS None else
  let invocation := GetTask top_task in
  do! pop_task queue_id in
  retS invocation.

Definition Owns (owner subsumed : TaskQueueId) : WM bool :=
  if (owner =? unmerged) || (subsumed =? unmerged) then retS false else
  let! e := entry_at owner in
  retS (subsumed =? owner_of e).

(** [size_t order = order_++]: the int is widened with its sign. *)
Definition RegisterTask (queue_id : TaskQueueId) (task : option Task) (target_time : TimePoint.t)
  : WM unit :=
  let! qs := getS queues in
  let order := u64 (order_counter_ qs) in
  do! updS (with_queues (mkQueues (queue_entries_ qs) (task_queue_id_counter_ qs)
                           (i32 (order_counter_ qs + 1)))) in
  let! e := entry_at queue_id in
  do! updS (set_entry queue_id (mkEntry (wakeable e) (task_observers e)
              (pq_push (mkDelayedTask order task target_time) (delayed_task_queue e))
              (owner_of e))) in
  let! pending := HasPendingTasksUnlocked queue_id in
  whenS pending (let! t := GetNextWakeTimeUnlocked queue_id in WakeUpUnlocked queue_id t).

Definition SetWakeable (queue_id : TaskQueueId) (wk : option TaskQueueId) : WM unit :=
  let! e := entry_at queue_id in
  do! checkS (negb (bool_decide (is_Some (wakeable e)))) "!queue_entries_.at(queue_id)->wakeable" in
  updS (set_entry queue_id (mkEntry wk (task_observers e) (delayed_task_queue e) (owner_of e))).

(** ** task_runner_checker.cpp *)

Definition RunsOnTheSameThread (queue_a queue_b : TaskQueueId) : WM bool :=
  if queue_a =? queue_b then retS true else
  let! ab := Owns queue_a queue_b in
  if (ab : bool) then retS true else
  let! ba := Owns queue_b queue_a in
  if (ba : bool) then retS true else retS false.

(** ** message_loop_impl.cpp and message_loop_win.cpp *)

(** The base constructor creates the queue and registers the loop with it. *)
Definition MessageLoopImpl_ctor : WM TaskQueueId :=
  let! id := CreateTaskQueue in
  do! SetWakeable id (Some id) in
  retS id.

(** [CreateWaitableTimer]: the timer is created unset. [running_] has no initial
    value; nothing reads it before [Run] sets it. *)
Definition MessageLoopWin_ctor (id : TaskQueueId) : WM unit :=
  updS (set_loop id (mkLoop false false None)).

(** [std::make_unique<MessageLoopWin>()]. *)
Definition MessageLoopImpl_Create : WM TaskQueueId :=
  let! id := MessageLoopImpl_ctor in
  do! MessageLoopWin_ctor id in
  retS id.

Definition MessageLoopImpl_dtor (id : TaskQueueId) : WM unit :=
  do! Dispose id in
  updS (fun w => with_loops (delete id (loops w)) w).

Definition PostTask (id : TaskQueueId) (task : option Task) (target_time : TimePoint.t) : WM unit :=
  do! dcheck (bool_decide (is_Some task)) "task != nullptr" in
  let! l := loop_at id in
  if terminated_ l then retS tt else RegisterTask id task target_time.

(** [MessageLoopWin::Terminate]. *)
Definition Terminate_win (id : TaskQueueId) : WM unit :=
  let! l := loop_at id in
  do! updS (set_loop id (mkLoop (terminated_ l) false (timer_ l))) in
  let! now := Now in
  WakeUp id now.

Definition DoTerminate (id : TaskQueueId) : WM unit :=
  let! l := loop_at id in
  do! updS (set_loop id (mkLoop true (running_ l) (timer_ l))) in
  Terminate_win id.

(** [thread]: the current thread. *)
Definition AddTaskObserver_loop (thread : Z) (id : TaskQueueId) (key : Z) (callback : option Task) : WM unit :=
  do! dcheck (bool_decide (is_Some callback)) "callback != nullptr" in
  let! tls := getS tls_message_loop in
  do! (if negb debug then retS tt else
       match tls !! thread with
       | None => killS "loop != nullptr"
       | Some l => checkS (l =? id) "MessageLoop::GetCurrent().GetLoopImpl() == this"
       end) in
  match callback with
  | Some _ => AddTaskObserver_queue id key callback
  | None => retS tt
  end.

(** [MessageLoop::GetCurrent]: the loop is its queue id. *)
Definition GetCurrent (thread : Z) : WM TaskQueueId :=
  let! tls := getS tls_message_loop in
  match tls !! thread with Some l => retS l | None => killS "loop != nullptr" end.

(** Running a task on [thread]. *)
Definition run_call (thread : Z) (c : TaskCall) : WM unit :=
  match c with
  | CallPost runner task target => PostTask runner task (TimePoint.mk target)
  | CallTerminate l => DoTerminate l
  | CallTerminateCurrent => let! l := GetCurrent thread in DoTerminate l
  | CallObserve l key callback => AddTaskObserver_loop thread l key callback
  | TakesTime d => updS (fun w => with_clock (clock w + Z.of_N d) w)
  end.

Definition run_task (thread : Z) (t : Task) : WM unit :=
  do! updS (fun w => with_ran (task_name t :: ran w) w) in
  iterS (run_call thread) (task_does t).

(** Calling an empty function object throws. *)
Definition run_observer (thread : Z) (t : option Task) : WM unit :=
  match t with Some t => run_task thread t | None => killS "std::bad_function_call" end.

(** The loop of [FlushTasks]. *)
Fixpoint flush_loop (fuel : nat) (thread : Z) (id : TaskQueueId) (type : FlushType) (now : TimePoint.t) : WM unit :=
  match fuel with
  | O => undefS "flush_loop: out of fuel"
  | S fuel' =>
      let! invocation := GetNextTaskToRun id now in
      match invocation with
      | None => retS tt
      | Some t =>
          do! run_task thread t in
          let! observers := GetObserversToNotify id in
          do! iterS (run_observer thread) observers in
          match type with
          | Single => retS tt
          | All => flush_loop fuel' thread id type now
          end
      end
  end.

Definition FlushTasks (fuel : nat) (thread : Z) (id : TaskQueueId) (type : FlushType) : WM unit :=
  let! now := Now in
  flush_loop fuel thread id type now.

Definition RunExpiredTasksNow (fuel : nat) (thread : Z) (id : TaskQueueId) : WM unit := FlushTasks fuel thread id All.
Definition RunSingleExpiredTaskNow (fuel : nat) (thread : Z) (id : TaskQueueId) : WM unit := FlushTasks fuel thread id Single.

(** [WaitForSingleObject(timer_, INFINITE)]: time passes until the timer fires,
    which resets it; false when it was not set, so that only another thread can
    end the wait. *)
Definition wait_timer (id : TaskQueueId) : WM bool :=
  let! l := loop_at id in
  match timer_ l with
  | None => retS false
  | Some t =>
      do! updS (fun w => with_clock (Z.max (clock w) t) w) in
      do! updS (set_loop id (mkLoop (terminated_ l) (running_ l) None)) in
      retS true
  end.

(** The loop of [MessageLoopWin::Run]: false when it waits for another thread. *)
Fixpoint run_loop (turns fuel : nat) (thread : Z) (id : TaskQueueId) : WM bool :=
  match turns with
  | O => undefS "run_loop: out of fuel"
  | S turns' =>
      let! l := loop_at id in
      if negb (running_ l) then retS true else
      let! fired := wait_timer id in
      if negb fired then retS false else
      do! RunExpiredTasksNow fuel thread id in
      run_loop turns' fuel thread id
  end.

Definition Run_win (turns fuel : nat) (thread : Z) (id : TaskQueueId) : WM bool :=
  let! l := loop_at id in
  do! updS (set_loop id (mkLoop (terminated_ l) true (timer_ l))) in
  run_loop turns fuel thread id.

(** What [DoRun] does after [Run]. *)
Definition finish_run (fuel : nat) (thread : Z) (id : TaskQueueId) : WM unit :=
  let! l := loop_at id in
  do! updS (set_loop id (mkLoop true (running_ l) (timer_ l))) in
  do! RunExpiredTasksNow fuel thread id in
  DisposeTasks id.

Definition DoRun (turns fuel : nat) (thread : Z) (id : TaskQueueId) : WM bool :=
  let! l := loop_at id in
  if terminated_ l then retS true else
  let! ended := Run_win turns fuel thread id in
  if negb ended then retS false else
  do! finish_run fuel thread id in
  retS true.

(** ** message_loop.cpp *)

(** The loop and its task runner, both named by the queue id. *)
Definition MessageLoop_ctor : WM TaskQueueId := MessageLoopImpl_Create.

Definition IsInitializedForCurrentThread (thread : Z) : WM bool :=
  getS (fun w => bool_decide (is_Some (tls_message_loop w !! thread))).

Definition EnsureInitializedForCurrentThread (thread : Z) : WM unit :=
  let! init := IsInitializedForCurrentThread thread in
  if (init : bool) then retS tt else
  let! id := MessageLoop_ctor in
  updS (fun w => with_tls (<[thread := id]> (tls_message_loop w)) w).

Definition GetCurrentTaskQueueId (thread : Z) : WM TaskQueueId := GetCurrent thread.

Definition MessageLoop_Run (turns fuel : nat) (thread : Z) (loop : TaskQueueId) : WM bool :=
  DoRun turns fuel thread loop.
Definition MessageLoop_Terminate (loop : TaskQueueId) : WM unit := DoTerminate loop.
Definition MessageLoop_AddTaskObserver (thread : Z) (loop : TaskQueueId) (key : Z) (callback : option Task)
  : WM unit := AddTaskObserver_loop thread loop key callback.

(** ** task_runner.cpp: a runner is the id of its loop *)

Definition TaskRunner_PostTask (runner : TaskQueueId) (task : option Task) : WM unit :=
  let! now := Now in PostTask runner task now.
Definition PostTaskForTime (runner : TaskQueueId) (task : option Task) (target : TimePoint.t) : WM unit :=
  PostTask runner task target.
Definition PostDelayedTask (runner : TaskQueueId) (task : option Task) (delay : TimeDelta.t) : WM unit :=
  let! now := Now in
  let! target := liftS (TimePoint.plus now delay) in
  PostTask runner task target.
Definition RunsTasksOnCurrentThread (thread : Z) (runner : TaskQueueId) : WM bool :=
  let! init := IsInitializedForCurrentThread thread in
  if negb init then retS false else
  let! current_queue_id := GetCurrentTaskQueueId thread in
  RunsOnTheSameThread current_queue_id runner.

End ops.
