(* ===== verification/TaskQueuesSpec.v ===== *)
(** * Task queues: order, wake-ups and what a flush runs

    [step] interleaves the operations of the threads; [queues_ok] is the
    invariant of the worlds they reach: queues sorted by target time and order
    number, ids below their counter, and timers set to fire by the time of the first
    task.  [no_lost_wakeup], [queues_sorted] and [FlushTasks_runs_due] follow from
    it.  That the order numbers of a queue are below the next one, which a counter
    that wraps around does not keep, is a hypothesis where it is needed. *)

From stdpp Require Import base list numbers strings gmap sets.
From Stdlib Require Import ZArith Lia Sorted.
From S2P Require Import Prelude Time TaskQueues.

(** ** The order of delayed tasks *)

Abbreviation ticks d := (TimePoint.ticks_ (target_time_ d)).

Lemma task_gt_spec a b :
  task_gt a b = true <-> ticks b < ticks a \/ ticks a = ticks b /\ order_ b < order_ a.
Proof.
  unfold task_gt, TimePoint.eqb, TimePoint.gtb.
  destruct (Z.eqb_spec (ticks a) (ticks b)); rewrite Z.ltb_lt; lia.
Qed.

(** The order in which tasks must run, on integers: by target time, and at the same
    time by order number. *)
Definition task_le (a b : DelayedTask) : Prop :=
  ticks a < ticks b \/ ticks a = ticks b /\ order_ a <= order_ b.

Lemma task_gt_le a b : task_gt a b = false <-> task_le a b.
Proof. unfold task_le. rewrite <- not_true_iff_false, task_gt_spec. lia. Qed.

#[export] Instance task_le_trans : Transitive task_le.
Proof. intros a b c. unfold task_le. lia. Qed.

Lemma pq_push_perm d q : pq_push d q ≡ₚ d :: q.
Proof.
  induction q as [|e q IH]; simpl; [done|]. case_match; [done|]. rewrite IH. constructor.
Qed.

Lemma pq_push_sorted d q : StronglySorted task_le q -> StronglySorted task_le (pq_push d q).
Proof.
  induction 1 as [|e q Hs IH Hf]; simpl; [repeat constructor|].
  destruct (task_gt e d) eqn:Hg.
  - assert (task_le d e) as Hde by (unfold task_le; apply task_gt_spec in Hg; lia).
    constructor; [by constructor|]. constructor; [done|].
    eapply Forall_impl; [exact Hf|]. intros x Hx. by transitivity e.
  - apply task_gt_le in Hg. constructor; [done|]. rewrite pq_push_perm. by constructor.
Qed.

(** ** Rules for the lookups *)

Abbreviation entries w := (queue_entries_ (queues w)).

Lemma wlp_entry U id (Q : TaskQueueEntry -> World -> Prop) w :
  (forall e, entries w !! id = Some e -> Q e w) -> wlp U (entry_at id) Q w.
Proof.
  intros H. unfold entry_at. do 2 wp_step. destruct (entries w !! id) eqn:He; [|done].
  wp_step. by apply H.
Qed.

Lemma wlp_loop id (Q : Loop -> World -> Prop) w :
  (forall l, loops w !! id = Some l -> Q l w) -> wlp (fun _ => True) (loop_at id) Q w.
Proof.
  intros H. unfold loop_at. do 2 wp_step. destruct (loops w !! id) eqn:He; [|done].
  wp_step. by apply H.
Qed.

Lemma entry_at_ok id e w : entries w !! id = Some e -> entry_at id w = Ret (e, w).
Proof. intros He. unfold entry_at. rewrite bind_get, He. done. Qed.

Lemma loop_at_ok id l w : loops w !! id = Some l -> loop_at id w = Ret (l, w).
Proof. intros Hl. unfold loop_at. rewrite bind_get, Hl. done. Qed.

(** When the timer set by [WakeUp] fires. *)
Definition fire (target now : Z) : Z :=
  if now <? target then now + 100 * ((target - now) `quot` 100) else now.

Lemma fire_bounds target now :
  now <= fire target now <= Z.max target now /\
  (now < target -> target - 100 < fire target now).
Proof.
  unfold fire. destruct (Z.ltb_spec now target) as [H|H]; [|lia].
  pose proof (Z.quot_rem' (target - now) 100).
  pose proof (Z.rem_bound_pos (target - now) 100 ltac:(lia) ltac:(lia)). lia.
Qed.

Section spec.
Context (debug : bool) (SetWaitableTimer : Z -> bool).

Lemma WakeUp_wlp id tp (Q : unit -> World -> Prop) w :
  (forall l, loops w !! id = Some l ->
     Q tt (set_loop id (mkLoop (terminated_ l) (running_ l)
             (Some (fire (TimePoint.ticks_ tp) (clock w)))) w)) ->
  wlp (fun _ => True) (WakeUp SetWaitableTimer id tp) Q w.
Proof.
  intros H. unfold WakeUp, Now, TimePoint.gtb, fire in *. do 3 wp_step.
  cbn [TimePoint.ticks_] in *.
  eapply (wlp_mono _ _ (fun due w' => w' = w /\ 100 * - due =
    if clock w <? TimePoint.ticks_ tp then 100 * ((TimePoint.ticks_ tp - clock w) `quot` 100) else 0)).
  { destruct (clock w <? TimePoint.ticks_ tp) eqn:Hlt; [|by wp_step].
    do 2 wp_step; [|done]. wp_step. split; [done|].
    unfold TimePoint.sub, i64_op in H0. case_decide; [|done]. injection H0 as <-. simpl.
    pose proof (Z.quot_opp_r (TimePoint.ticks_ tp - clock w) 100 ltac:(lia)) as Hq.
    change (- (100)) with (-100) in Hq. lia. }
  intros due w' [-> Hdue]. do 2 wp_step. wp_step. apply wlp_loop. intros l Hl. wp_step.
  specialize (H l Hl). rewrite Hdue. cbn [TimePoint.ticks_].
  destruct (clock w <? TimePoint.ticks_ tp); [exact H|]. by rewrite Z.add_0_r.
Qed.

(** ** The invariant *)

Record queues_ok (w : World) : Prop := {
  qo_owner id e : entries w !! id = Some e -> owner_of e = id;
  qo_ids id e : entries w !! id = Some e -> 0 <= id < task_queue_id_counter_ (queues w);
  qo_count : 0 <= task_queue_id_counter_ (queues w) <= unmerged;
  qo_sorted id e : entries w !! id = Some e -> StronglySorted task_le (delayed_task_queue e);
  qo_wakes id e l : entries w !! id = Some e -> wakeable e = Some l -> l = id
}.

(** A loop with a pending task will be woken by the time of the first one, or is
    due to wake already. *)
Definition armed (id : TaskQueueId) (w : World) : Prop :=
  forall e d q, entries w !! id = Some e -> wakeable e = Some id -> delayed_task_queue e = d :: q ->
    exists l t, loops w !! id = Some l /\ timer_ l = Some t /\ (t <= ticks d \/ t <= clock w).

(** The loops in [busy] have taken their wake-up and not looked at their queue
    yet. *)
Definition world_inv (busy : gset Z) (w : World) : Prop :=
  queues_ok w /\ forall id, id ∉ busy -> armed id w.

Definition keeps {A} (P : World -> Prop) (m : M World A) : Prop :=
  forall w, P w -> wlp (fun _ => True) m (fun _ w' => P w') w.

Lemma world_inv_busy (X Y : gset Z) w : X ⊆ Y -> world_inv X w -> world_inv Y w.
Proof. intros HXY [Hq Ha]. split; [done|]. intros id Hid. apply Ha. set_solver. Qed.

Lemma queues_ok_loop id l w : queues_ok w -> queues_ok (set_loop id l w).
Proof. by intros []. Qed.

Lemma armed_other id j l w : id <> j -> armed j w -> armed j (set_loop id l w).
Proof.
  intros Hne H e d q He Hw Hd. destruct (H e d q He Hw Hd) as (l' & t & Hl & ?).
  exists l', t. simpl. by rewrite lookup_insert_ne.
Qed.

Lemma queues_ok_entry id e e' w :
  queues_ok w -> entries w !! id = Some e -> owner_of e' = owner_of e ->
  (wakeable e' = wakeable e \/ wakeable e' = Some id) ->
  StronglySorted task_le (delayed_task_queue e') -> queues_ok (set_entry id e' w).
Proof.
  intros [Ho Hi Hc Hs Hw] He Ho' Hwk Hq. constructor; simpl; [..|done| |].
  - intros j f. destruct (decide (id = j)) as [->|]; [rewrite lookup_insert_eq|rewrite lookup_insert_ne by done; apply Ho].
    intros [= <-]. rewrite Ho'. by apply Ho.
  - intros j f. destruct (decide (id = j)) as [->|]; [rewrite lookup_insert_eq|rewrite lookup_insert_ne by done; apply Hi].
    intros _. by eapply Hi.
  - intros j f. destruct (decide (id = j)) as [->|]; [rewrite lookup_insert_eq|rewrite lookup_insert_ne by done; apply Hs].
    by intros [= <-].
  - intros j f l. destruct (decide (id = j)) as [->|]; [rewrite lookup_insert_eq|rewrite lookup_insert_ne by done; apply Hw].
    intros [= <-] Hl. destruct Hwk as [Hwk|Hwk]; rewrite Hwk in Hl; [by eapply Hw|congruence].
Qed.

Lemma armed_entry_other id j e w : id <> j -> armed j w -> armed j (set_entry id e w).
Proof. intros Hne H f d q. simpl. rewrite lookup_insert_ne by done. apply H. Qed.

(** The entry of [id] changes but not its tasks. *)
Lemma world_inv_entry X id e e' w :
  world_inv X w -> entries w !! id = Some e -> owner_of e' = owner_of e ->
  wakeable e' = wakeable e -> delayed_task_queue e' = delayed_task_queue e ->
  world_inv X (set_entry id e' w).
Proof.
  intros [Hq Ha] He Ho Hw Hd. split.
  - eapply queues_ok_entry; eauto. rewrite Hd. by eapply qo_sorted.
  - intros j Hj. destruct (decide (id = j)) as [->|]; [|by apply armed_entry_other, Ha].
    intros f d q. simpl. rewrite lookup_insert_eq. intros [= <-]. rewrite Hw, Hd. by apply Ha.
Qed.

(** The loop changes but not its timer. *)
Lemma world_inv_loop X id l l' w :
  world_inv X w -> loops w !! id = Some l -> timer_ l' = timer_ l -> world_inv X (set_loop id l' w).
Proof.
  intros [Hq Ha] Hl Ht. split; [by apply queues_ok_loop|].
  intros j Hj. destruct (decide (id = j)) as [->|]; [|by apply armed_other, Ha].
  intros e d q He Hw Hd. destruct (Ha _ Hj e d q He Hw Hd) as (l0 & t & Hl0 & Htm & Hle).
  exists l', t. simpl. rewrite lookup_insert_eq. split_and!; [done| |done]. congruence.
Qed.

(** Waking a loop at the time of its first task, or at once. *)
Lemma wake_arms X id tp w :
  world_inv (X ∪ {[id]}) w ->
  (forall e d q, entries w !! id = Some e -> delayed_task_queue e = d :: q ->
     TimePoint.ticks_ tp <= ticks d \/ TimePoint.ticks_ tp <= clock w) ->
  wlp (fun _ => True) (WakeUp SetWaitableTimer id tp)
    (fun _ w' => world_inv (X ∖ {[id]}) w' /\ entries w' = entries w) w.
Proof.
  intros [Hq Ha] Hh. apply WakeUp_wlp. intros l Hl. split; [|done].
  split; [by apply queues_ok_loop|].
  intros j Hj. destruct (decide (id = j)) as [->|Hne]; [|apply armed_other; [done|apply Ha; set_solver]].
  intros e d q He Hw Hd. eexists _, _. simpl. rewrite lookup_insert_eq.
  split; [done|]. split; [done|]. pose proof (fire_bounds (TimePoint.ticks_ tp) (clock w)).
  destruct (Hh e d q He Hd); lia.
Qed.

Lemma wake_now X id w :
  world_inv X w ->
  wlp (fun _ => True) (WakeUp SetWaitableTimer id (TimePoint.mk (clock w))) (fun _ w' => world_inv X w') w.
Proof.
  intros H. eapply wlp_mono; [apply (wake_arms X)|].
  - eapply world_inv_busy; [|exact H]. set_solver.
  - intros. right. simpl. lia.
  - intros ? w' [Hw _]. eapply world_inv_busy; [|exact Hw]. set_solver.
Qed.

Lemma pending_wlp id (Q : bool -> World -> Prop) w :
  queues_ok w -> (forall e, entries w !! id = Some e ->
    Q (negb (bool_decide (delayed_task_queue e = []))) w) ->
  wlp (fun _ => True) (HasPendingTasksUnlocked id) Q w.
Proof.
  intros Hq H. unfold HasPendingTasksUnlocked. wp_step. apply wlp_entry. intros e He.
  destruct (Z.eqb_spec (owner_of e) unmerged) as [Ho|Ho]; wp_step; [|by apply H].
  exfalso. pose proof (qo_owner _ Hq _ _ He). pose proof (qo_ids _ Hq _ _ He).
  pose proof (qo_count _ Hq). lia.
Qed.

Lemma peek_wlp id e d q (Q : DelayedTask -> World -> Prop) w :
  queues_ok w -> entries w !! id = Some e -> delayed_task_queue e = d :: q -> Q d w ->
  wlp (fun _ => True) (PeekNextTaskUnlocked debug id) Q w.
Proof.
  intros Hq He Hd H. unfold PeekNextTaskUnlocked, dcheck. wp_step. apply pending_wlp; [done|].
  intros e' He'. do 2 wp_step. wp_step. apply wlp_entry. intros e'' He''.
  assert (e'' = e) as -> by congruence. rewrite Hd. by wp_step.
Qed.

(** Waking for the first task. *)
Lemma wake_first X id e d q w :
  world_inv (X ∪ {[id]}) w -> entries w !! id = Some e -> delayed_task_queue e = d :: q ->
  wlp (fun _ => True)
    (let! t := GetNextWakeTimeUnlocked debug id in WakeUpUnlocked SetWaitableTimer id t)
    (fun _ w' => world_inv (X ∖ {[id]}) w' /\ entries w' = entries w) w.
Proof.
  intros H He Hd. unfold GetNextWakeTimeUnlocked. do 2 wp_step.
  apply (peek_wlp id e d q); [apply H|done|done|]. wp_step. unfold WakeUpUnlocked.
  wp_step. apply wlp_entry. intros e' He'. assert (e' = e) as -> by congruence.
  destruct (wakeable e) as [l|] eqn:Hw.
  - pose proof (qo_wakes _ (proj1 H) _ _ _ He Hw) as ->. apply wake_arms; [done|].
    intros e1 d1 q1 He1 Hd1. left. assert (e1 = e) as -> by congruence. rewrite Hd in Hd1.
    injection Hd1 as <- _. unfold GetTargetTime. lia.
  - wp_step. split; [|done]. split; [apply H|]. intros j Hj.
    destruct (decide (id = j)) as [->|]; [|apply H; set_solver]. intros e1 d1 q1 He1. congruence.
Qed.

(** *** The operations *)

Lemma RegisterTask_inv X id task tp :
  keeps (world_inv X) (RegisterTask debug SetWaitableTimer id task tp).
Proof.
  intros w H. unfold RegisterTask. do 3 wp_step. wp_step. wp_step.
  set (w1 := with_queues _ w).
  assert (world_inv X w1) as H1 by (destruct H as [[] Ha]; split; [by constructor|exact Ha]).
  clearbody w1. apply wlp_entry. intros e He. do 2 wp_step.
  set (e' := mkEntry _ _ (pq_push _ _) _). set (w2 := set_entry id e' w1).
  assert (world_inv (X ∪ {[id]}) w2) as H2.
  { split.
    - eapply queues_ok_entry; [apply H1|done|done|by left|].
      apply pq_push_sorted. by eapply qo_sorted; [apply H1|].
    - intros j Hj. apply armed_entry_other; [set_solver|]. apply H1. set_solver. }
  assert (entries w2 !! id = Some e') as He2 by (apply lookup_insert_eq).
  clearbody w2. wp_step. apply pending_wlp; [apply H2|]. intros e2 Hex.
  assert (e2 = e') as -> by congruence.
  destruct (delayed_task_queue e') as [|d q] eqn:Hd.
  { exfalso. assert (length (delayed_task_queue e') = 0%nat) as Hl by (by rewrite Hd).
    simpl in Hl. rewrite pq_push_perm in Hl. simpl in Hl. lia. }
  rewrite bool_decide_false by done. cbn [negb whenS].
  eapply wlp_mono; [by eapply (wake_first X)|]. intros ? w3 [H3 _].
  eapply world_inv_busy; [|exact H3]. set_solver.
Qed.

(** After a look at its queue a loop is armed again, whatever it took. *)
Lemma GetNextTaskToRun_inv X id from :
  forall w, world_inv (X ∪ {[id]}) w ->
  wlp (fun _ => True) (GetNextTaskToRun debug SetWaitableTimer id from)
    (fun _ w' => world_inv (X ∖ {[id]}) w') w.
Proof.
  intros w H. unfold GetNextTaskToRun. wp_step. apply pending_wlp; [apply H|]. intros e He.
  destruct (delayed_task_queue e) as [|d q] eqn:Hd.
  { rewrite bool_decide_true by done. cbn [negb]. wp_step. split; [apply H|]. intros j Hj.
    destruct (decide (id = j)) as [->|]; [|apply H; set_solver]. intros e1 d1 q1 He1. congruence. }
  rewrite bool_decide_false by done. cbn [negb]. wp_step.
  apply (peek_wlp id e d q); [apply H|done|done|]. wp_step. apply pending_wlp; [apply H|].
  intros e1 He1. assert (e1 = e) as -> by congruence. rewrite Hd, bool_decide_false by done.
  cbn [negb]. wp_step. eapply wlp_mono; [by eapply (wake_first X)|].
  intros ? w1 [H1 Hen]. wp_step; [by wp_step|].
  wp_step. unfold pop_task. wp_step. apply wlp_entry. intros e1 He2. do 2 wp_step.
  assert (e1 = e) as -> by congruence. rewrite Hd. cbn [tail].
  pose proof (qo_sorted _ (proj1 H) _ _ He) as Hs. rewrite Hd in Hs. apply StronglySorted_inv in Hs as [Hs Hf].
  split.
  - eapply queues_ok_entry; [apply H1|done|done|by left|done].
  - intros j Hj. destruct (decide (id = j)) as [->|Hne]; [|by apply armed_entry_other, H1].
    intros f d' q' Hf1 Hwk Hq'. simpl in Hf1. rewrite lookup_insert_eq in Hf1. injection Hf1 as <-.
    simpl in Hwk, Hq'. subst q. destruct (proj2 H1 j Hj e d _ He2 Hwk Hd) as (l & t & Hl & Ht & Hle).
    exists l, t. simpl. split_and!; try done. apply Forall_cons in Hf as [Hf _].
    unfold task_le in Hf. lia.
Qed.

Lemma PostTask_inv X id task tp : keeps (world_inv X) (PostTask debug SetWaitableTimer id task tp).
Proof.
  intros w H. unfold PostTask, dcheck. do 3 wp_step. apply wlp_loop. intros l Hl.
  wp_step; [by wp_step|]. by apply RegisterTask_inv.
Qed.

Lemma DoTerminate_inv X id : keeps (world_inv X) (DoTerminate SetWaitableTimer id).
Proof.
  intros w H. unfold DoTerminate, Terminate_win, Now. wp_step. apply wlp_loop. intros l Hl. do 2 wp_step.
  set (w1 := set_loop id _ w).
  assert (world_inv X w1) as H1 by (by eapply world_inv_loop). clearbody w1.
  wp_step. apply wlp_loop. intros l1 Hl1. do 2 wp_step. set (w2 := set_loop id _ w1).
  assert (world_inv X w2) as H2 by (by eapply world_inv_loop). clearbody w2.
  do 2 wp_step. by apply wake_now.
Qed.

Lemma AddTaskObserver_inv X thread id key cb :
  keeps (world_inv X) (AddTaskObserver_loop debug thread id key cb).
Proof.
  intros w H. unfold AddTaskObserver_loop, AddTaskObserver_queue, dcheck. do 5 wp_step.
  eapply (wlp_mono _ _ (fun _ w' => w' = w)).
  { wp_step; [by wp_step|]. case_match; by wp_step. }
  intros ? w' ->. destruct cb; [|by wp_step]. do 3 wp_step. apply wlp_entry. intros e He.
  wp_step. by eapply world_inv_entry.
Qed.

Lemma run_call_inv X id c : keeps (world_inv X) (run_call debug SetWaitableTimer id c).
Proof.
  intros w H. destruct c as [r t tg|l| |l k cb|d]; simpl;
    [by apply PostTask_inv|by apply DoTerminate_inv| |by apply AddTaskObserver_inv|].
  { unfold GetCurrent. do 3 wp_step. case_match; [|done]. wp_step. by apply DoTerminate_inv. }
  wp_step. destruct H as [[] Ha]. split; [by constructor|]. intros j Hj e d' q He Hw Hd.
  destruct (Ha j Hj e d' q He Hw Hd) as (l & t & ? & ? & ?). exists l, t. simpl. split_and!; try done. lia.
Qed.

Lemma iterS_keeps {A} (P : World -> Prop) (f : A -> M World unit) l :
  (forall a, keeps P (f a)) -> keeps P (iterS f l).
Proof.
  intros Hf. induction l as [|a l IH]; intros w H; simpl; [by wp_step|].
  wp_step. eapply wlp_mono; [by apply Hf|]. intros ? w' H'. by apply IH.
Qed.

Lemma run_task_inv X id t : keeps (world_inv X) (run_task debug SetWaitableTimer id t).
Proof.
  intros w H. unfold run_task. do 2 wp_step. apply iterS_keeps; [apply run_call_inv|].
  by destruct H as [[] Ha].
Qed.

Lemma flush_loop_inv X fuel : forall thread id type now w, world_inv X w ->
  wlp (fun _ => True) (flush_loop debug SetWaitableTimer fuel thread id type now)
    (fun _ w' => world_inv X w') w.
Proof.
  induction fuel as [|fuel IH]; intros thread id type now w H; simpl; [done|].
  wp_step. eapply wlp_mono; [apply (GetNextTaskToRun_inv X)|].
  { eapply world_inv_busy; [|exact H]. set_solver. }
  intros [t|] w1 H1; [|wp_step; eapply world_inv_busy; [|exact H1]; set_solver].
  apply (world_inv_busy _ X) in H1; [|set_solver].
  wp_step. eapply wlp_mono; [by apply run_task_inv|]. intros ? w2 H2. wp_step.
  unfold GetObserversToNotify. wp_step. apply wlp_entry. intros e He. do 2 wp_step.
  eapply wlp_mono; [apply (iterS_keeps (world_inv X)); [|exact H2]|].
  { intros [o|] w' Hw'; simpl; [by apply run_task_inv|done]. }
  intros ? w3 H3. destruct type; [by wp_step|by apply IH].
Qed.

(** A flush gives the loop its wake-up back. *)
Lemma FlushTasks_inv X fuel thread id type w :
  world_inv (X ∪ {[id]}) w ->
  wlp (fun _ => True) (FlushTasks debug SetWaitableTimer fuel thread id type)
    (fun _ w' => world_inv X w') w.
Proof.
  intros H. unfold FlushTasks, Now. do 2 wp_step. destruct fuel as [|fuel]; simpl; [done|].
  wp_step. eapply wlp_mono; [by apply (GetNextTaskToRun_inv X)|].
  intros r w1 H1. apply (world_inv_busy _ X) in H1; [|set_solver]. destruct r as [t|]; [|by wp_step].
  wp_step. eapply wlp_mono; [by apply run_task_inv|]. intros ? w2 H2. wp_step.
  unfold GetObserversToNotify. wp_step. apply wlp_entry. intros e He. do 2 wp_step.
  eapply wlp_mono; [apply (iterS_keeps (world_inv X)); [|exact H2]|].
  { intros [o|] w' Hw'; simpl; [by apply run_task_inv|done]. }
  intros ? w3 H3. destruct type; [by wp_step|by apply flush_loop_inv].
Qed.

(** ** Reachable worlds *)

(** What the threads of a process do: a task that runs makes calls of its own,
    so posts of other threads during a flush are calls of its tasks. *)
Inductive step : World -> World -> Prop :=
| step_create thread w w' :
    task_queue_id_counter_ (queues w) < unmerged ->
    EnsureInitializedForCurrentThread thread w = Ret (tt, w') -> step w w'
| step_call thread c w w' :
    run_call debug SetWaitableTimer thread c w = Ret (tt, w') -> step w w'
| step_turn fuel thread id r w w' :
    (let! fired := wait_timer id in
     do! whenS fired (RunExpiredTasksNow debug SetWaitableTimer fuel thread id) in
     retS fired) w = Ret (r, w') -> step w w'
| step_run id w w' :
    (let! l := loop_at id in
     whenS (negb (terminated_ l)) (updS (set_loop id (mkLoop (terminated_ l) true (timer_ l))))) w =
    Ret (tt, w') -> step w w'
| step_finish fuel thread id w w' :
    finish_run debug SetWaitableTimer fuel thread id w = Ret (tt, w') -> step w w'
| step_exit id w w' : MessageLoopImpl_dtor id w = Ret (tt, w') -> step w w'.

Inductive reachable (now : Z) : World -> Prop :=
| reach_new : reachable now (new_world now)
| reach_step w w' : reachable now w -> step w w' -> reachable now w'.

Lemma create_inv thread w :
  task_queue_id_counter_ (queues w) < unmerged -> world_inv ∅ w ->
  wlp (fun _ => True) (EnsureInitializedForCurrentThread thread) (fun _ w' => world_inv ∅ w') w.
Proof.
  intros Hlt H. unfold EnsureInitializedForCurrentThread, IsInitializedForCurrentThread.
  do 3 wp_step; [by wp_step|]. wp_step. unfold MessageLoop_ctor, MessageLoopImpl_Create. wp_step.
  unfold MessageLoopImpl_ctor, MessageLoopWin_ctor. wp_step.
  unfold CreateTaskQueue. do 7 wp_step. destruct H as [[Ho Hi Hc Hs Hw] Ha].
  set (id := task_queue_id_counter_ (queues w)) in *.
  assert (u64 (id + 1) = id + 1) as Hu
    by (unfold u64, unmerged in *; rewrite Z.mod_small; lia).
  rewrite Hu. set (w1 := set_entry id _ _).
  assert (entries w !! id = None) as Hnew.
  { destruct (entries w !! id) eqn:He; [|done]. apply Hi in He. lia. }
  assert (world_inv ∅ w1 /\ entries w1 !! id = Some (TaskQueueEntry_ctor id)) as [H1 He1].
  { split; [|apply lookup_insert_eq]. split.
    - constructor; subst w1; simpl; [..|lia| |];
        intros j f; destruct (decide (id = j)) as [<-|];
        rewrite ?lookup_insert_eq, ?lookup_insert_ne by done; eauto.
      + by intros [= <-].
      + intros _. lia.
      + intros Hj%Hi. lia.
      + intros [= <-]. constructor.
      + by intros l [= <-].
    - intros j Hj. subst w1. intros f d q. simpl. destruct (decide (id = j)) as [<-|].
      + rewrite lookup_insert_eq. by intros [= <-].
      + rewrite lookup_insert_ne by done. apply (Ha j Hj). }
  clearbody w1. wp_step. unfold SetWakeable. wp_step. apply wlp_entry. intros e He.
  assert (e = TaskQueueEntry_ctor id) as -> by congruence. do 3 wp_step.
  do 4 wp_step. destruct H1 as [H1 Ha1]. set (e2 := mkEntry _ _ _ _).
  assert (queues_ok (set_entry id e2 w1)) as Hq2
    by (eapply queues_ok_entry; [done|done|done|by right|constructor]).
  split; [by destruct Hq2|]. intros j Hj e d q He' Hwk Hd. simpl in He'.
  destruct (decide (id = j)) as [<-|Hne].
  - rewrite lookup_insert_eq in He'. injection He' as <-. done.
  - rewrite lookup_insert_ne in He' by done. destruct (Ha1 j Hj e d q He' Hwk Hd) as (l & t & Hl & ?).
    exists l, t. simpl. by rewrite lookup_insert_ne.
Qed.

Lemma turn_inv fuel thread id w :
  world_inv ∅ w ->
  wlp (fun _ => True)
    (let! fired := wait_timer id in
     do! whenS fired (RunExpiredTasksNow debug SetWaitableTimer fuel thread id) in
     retS fired) (fun _ w' => world_inv ∅ w') w.
Proof.
  intros H. wp_step.
  eapply (wlp_mono _ _ (fun r w' => if r : bool then world_inv (∅ ∪ {[id]}) w' else world_inv ∅ w')).
  { unfold wait_timer. wp_step. apply wlp_loop. intros l Hl. destruct (timer_ l) as [t|]; [|by wp_step].
    do 5 wp_step. destruct H as [[] Ha]. split; [by constructor|].
    intros j Hj. apply armed_other; [set_solver|]. intros e d q He Hw Hd.
    destruct (Ha j ltac:(set_solver) e d q He Hw Hd) as (l' & t' & Hl' & Ht' & Hle).
    exists l', t'. simpl. split_and!; try done. lia. }
  intros [] w1 H1; cbn [whenS].
  - wp_step. unfold RunExpiredTasksNow. eapply wlp_mono; [by apply FlushTasks_inv|].
    intros ? w2 H2. by wp_step.
  - by do 2 wp_step.
Qed.

Lemma DisposeTasks_inv X id : keeps (world_inv X) (DisposeTasks id).
Proof.
  intros w H. unfold DisposeTasks. wp_step. apply wlp_entry. intros e He. wp_step. split.
  - eapply queues_ok_entry; [apply H|done|done|by left|constructor].
  - intros j Hj. destruct (decide (id = j)) as [<-|Hne]; [|by apply armed_entry_other, H].
    intros f d q Hf _ Hq. simpl in Hf. rewrite lookup_insert_eq in Hf. by injection Hf as <-.
Qed.

Lemma finish_run_inv fuel thread id : keeps (world_inv ∅) (finish_run debug SetWaitableTimer fuel thread id).
Proof.
  intros w H. unfold finish_run, RunExpiredTasksNow. wp_step. apply wlp_loop. intros l Hl. do 2 wp_step.
  wp_step. eapply wlp_mono; [apply (FlushTasks_inv ∅)|].
  - eapply world_inv_busy; [|by eapply world_inv_loop]. set_solver.
  - intros ? w1 H1. by apply DisposeTasks_inv.
Qed.

Lemma erase_inv X id w :
  world_inv X w ->
  world_inv X (with_queues (mkQueues (delete id (entries w)) (task_queue_id_counter_ (queues w))
                              (order_counter_ (queues w))) w).
Proof.
  intros [[Ho Hi Hc Hs Hw] Ha]. split.
  - constructor; simpl; try done; intros *;
      rewrite lookup_delete_Some; intros [_ Hf]; eauto.
  - intros j Hj e d q He. simpl in He. apply lookup_delete_Some in He as [_ He]. by apply Ha.
Qed.

Lemma dtor_inv id : keeps (world_inv ∅) (MessageLoopImpl_dtor id).
Proof.
  intros w H. unfold MessageLoopImpl_dtor, Dispose, erase_entry. do 2 wp_step. apply wlp_entry.
  intros e He. rewrite (qo_owner _ (proj1 H) _ _ He). do 2 wp_step.
  set (w1 := with_queues _ w). assert (world_inv ∅ w1 /\ entries w1 !! id = None) as [H1 Hn]
    by (split; [by apply erase_inv|by simpl; rewrite lookup_delete_eq]). clearbody w1.
  eapply (wlp_mono _ _ (fun _ w2 => world_inv ∅ w2 /\ entries w2 !! id = None)).
  { destruct (negb _); cbn [whenS]; wp_step; [|done].
    split; [by apply erase_inv|]. simpl. by rewrite lookup_delete_eq. }
  intros ? w2 [[[] Ha] Hn2]. wp_step. split; [by constructor|].
  intros j Hj f d q Hf Hwk Hd. destruct (Ha j Hj f d q Hf Hwk Hd) as (l & t & Hl & ?).
  exists l, t. simpl in *. rewrite lookup_delete_ne by congruence. done.
Qed.

Lemma run_start_inv id :
  keeps (world_inv ∅)
    (let! l := loop_at id in
     whenS (negb (terminated_ l)) (updS (set_loop id (mkLoop (terminated_ l) true (timer_ l))))).
Proof.
  intros w H. wp_step. apply wlp_loop. intros l Hl. destruct (negb _); cbn [whenS]; wp_step; [|done].
  by eapply world_inv_loop.
Qed.

Lemma world_reachable_inv now w : reachable now w -> world_inv ∅ w.
Proof.
  induction 1 as [|w w' _ IH Hs].
  - split; [|done]. by constructor.
  - destruct Hs as [thread w w' Hlt Hr|thread c w w' Hr|fuel thread id r w w' Hr
      |id w w' Hr|fuel thread id w w' Hr|id w w' Hr].
    + exact (wlp_run _ _ _ _ _ _ (create_inv thread w Hlt IH) Hr).
    + exact (wlp_run _ _ _ _ _ _ (run_call_inv ∅ thread c w IH) Hr).
    + exact (wlp_run _ _ _ _ _ _ (turn_inv fuel thread id w IH) Hr).
    + exact (wlp_run _ _ _ _ _ _ (run_start_inv id w IH) Hr).
    + exact (wlp_run _ _ _ _ _ _ (finish_run_inv fuel thread id w IH) Hr).
    + exact (wlp_run _ _ _ _ _ _ (dtor_inv id w IH) Hr).
Qed.
End spec.

(** ** A flush of plain tasks *)

(** Tasks that make no calls. *)
Definition plain (d : DelayedTask) : Prop := exists t, task_ d = Some t /\ task_does t = [].

Definition names (q : DelayedTaskQueue) : list Z := omap (fun d => task_name <$> task_ d) q.

Section flush.
Context (debug : bool) (SetWaitableTimer : Z -> bool) (Hset : forall d, SetWaitableTimer d = true).

Lemma WakeUp_ok id tp l w :
  loops w !! id = Some l -> 0 <= clock w -> in_i64 (TimePoint.ticks_ tp) ->
  WakeUp SetWaitableTimer id tp w =
    Ret (tt, set_loop id (mkLoop (terminated_ l) (running_ l)
               (Some (fire (TimePoint.ticks_ tp) (clock w)))) w).
Proof.
  intros Hl Hc Ht. unfold WakeUp, Now. rewrite bind_get. unfold TimePoint.gtb, fire.
  cbn [TimePoint.ticks_].
  assert (exists due, 100 * - due = (if clock w <? TimePoint.ticks_ tp
            then 100 * ((TimePoint.ticks_ tp - clock w) `quot` 100) else 0) /\
    (if clock w <? TimePoint.ticks_ tp then
       let! d := liftS (TimePoint.sub tp (TimePoint.mk (clock w))) in
       retS (Z.quot (TimeDelta.ToNanoseconds d) (-100))
     else retS 0) w = Ret (due, w)) as (due & Hdue & Hrun).
  { destruct (Z.ltb_spec (clock w) (TimePoint.ticks_ tp)) as [Hlt|Hge]; [|by exists 0].
    unfold TimePoint.sub. cbn [TimePoint.ticks_]. rewrite i64_op_ok by (unfold in_i64 in *; lia).
    eexists. split; [|reflexivity]. simpl.
    pose proof (Z.quot_opp_r (TimePoint.ticks_ tp - clock w) 100 ltac:(lia)) as Hq.
    change (- (100)) with (-100) in Hq. lia. }
  rewrite (bind_run _ _ _ _ _ Hrun), Hset. cbn [checkS].
  rewrite bind_ret, (bind_run _ _ _ _ _ (loop_at_ok _ _ _ Hl)). unfold updS. apply ret_state.
  rewrite Hdue. destruct (clock w <? TimePoint.ticks_ tp); [done|]. by rewrite Z.add_0_r.
Qed.

(** A live queue: its entry and its loop. *)
Record live (id : TaskQueueId) (q : DelayedTaskQueue) (w : World) : Prop := {
  lv_entry : exists obs, entries w !! id = Some (mkEntry (Some id) obs q id) /\ obs = [];
  lv_loop : exists l, loops w !! id = Some l;
  lv_id : id <> unmerged;
  lv_clock : 0 <= clock w;
  lv_times : Forall (fun d => in_i64 (ticks d)) q
}.

(** Nothing but queues, timers and the log of tasks changes: the clock, the
    threads and the flags of loop [id] stay. *)
Definition loop_flags (l : Loop) : bool * bool := (terminated_ l, running_ l).

Record calm (id : TaskQueueId) (w w' : World) : Prop := {
  cm_clock : clock w' = clock w;
  cm_tls : tls_message_loop w' = tls_message_loop w;
  cm_flags : loop_flags <$> loops w' !! id = loop_flags <$> loops w !! id
}.

#[export] Instance calm_preorder id : PreOrder (calm id).
Proof. split; [by split|]. intros w1 w2 w3 [] []. split; congruence. Qed.

Lemma GetNextTaskToRun_empty id from w :
  live id [] w -> GetNextTaskToRun debug SetWaitableTimer id from w = Ret (None, w).
Proof.
  intros [(obs & He & _) _ Hid _ _]. unfold GetNextTaskToRun, HasPendingTasksUnlocked.
  unfold bindS at 1 2. rewrite (entry_at_ok _ _ _ He). cbn [owner_of].
  rewrite (proj2 (Z.eqb_neq id unmerged)) by done. done.
Qed.

(** The first task, and the timer set for it. *)
Lemma GetNextTaskToRun_first id from d q w :
  live id (d :: q) w ->
  exists w1, live id (d :: q) w1 /\ ran w1 = ran w /\ calm id w w1 /\
  GetNextTaskToRun debug SetWaitableTimer id from w =
    (if TimePoint.gtb (target_time_ d) from then retS None
     else do! pop_task id in retS (task_ d)) w1.
Proof.
  intros [(obs & He & ->) (l & Hl) Hid Hc Hts]. apply Forall_cons in Hts as [Ht Hts].
  assert (HasPendingTasksUnlocked id w = Ret (true, w)) as Hp.
  { unfold HasPendingTasksUnlocked. rewrite (bind_run _ _ _ _ _ (entry_at_ok _ _ _ He)).
    cbn [owner_of]. by rewrite (proj2 (Z.eqb_neq id unmerged)). }
  assert (PeekNextTaskUnlocked debug id w = Ret (d, w)) as Hk.
  { unfold PeekNextTaskUnlocked. rewrite (bind_run _ _ _ _ _ Hp). unfold dcheck.
    rewrite orb_true_r. cbn [checkS]. rewrite bind_ret.
    by rewrite (bind_run _ _ _ _ _ (entry_at_ok _ _ _ He)). }
  eexists (set_loop id _ w). split; [|split; [|split; [|]]].
  4: { unfold GetNextTaskToRun. rewrite (bind_run _ _ _ _ _ Hp). cbn [negb].
       rewrite (bind_run _ _ _ _ _ Hk). rewrite (bind_run _ _ _ _ _ Hp). cbn [negb].
       unfold GetNextWakeTimeUnlocked. unfold bindS at 1 2 3. rewrite Hk. unfold retS at 1.
       unfold WakeUpUnlocked. rewrite (bind_run _ _ _ _ _ (entry_at_ok _ _ _ He)). cbn [wakeable].
       rewrite (WakeUp_ok _ _ l) by done. reflexivity. }
  - constructor; simpl; [by eexists|rewrite lookup_insert_eq; by eexists|done|done|by constructor].
  - done.
  - split; simpl; [done|done|]. by rewrite lookup_insert_eq, Hl.
Qed.

Lemma pop_live id d q w :
  live id (d :: q) w ->
  exists w1, live id q w1 /\ ran w1 = ran w /\ calm id w w1 /\ pop_task id w = Ret (tt, w1).
Proof.
  intros [(obs & He & ->) Hl Hid Hc Hts]. apply Forall_cons in Hts as [_ Hts].
  eexists. split; [|split; [|split; [|unfold pop_task; rewrite (bind_run _ _ _ _ _ (entry_at_ok _ _ _ He)); reflexivity]]];
    [|done|done].
  constructor; simpl; [rewrite lookup_insert_eq; by eexists|done|done|done|done].
Qed.

Lemma filter_all (P : DelayedTask -> Prop) `{!forall d, Decision (P d)} q : Forall P q -> filter P q = q.
Proof. induction 1 as [|d q Hd _ IH]; [done|]. by rewrite filter_cons_True, IH. Qed.

Lemma filter_none (P : DelayedTask -> Prop) `{!forall d, Decision (P d)} q :
  Forall (fun d => ~ P d) q -> filter P q = [].
Proof. induction 1 as [|d q Hd _ IH]; [done|]. by rewrite filter_cons_False, IH. Qed.

Lemma GetObservers_live id q w : live id q w -> GetObserversToNotify id w = Ret ([], w).
Proof.
  intros Hlv. destruct (lv_entry _ _ _ Hlv) as (obs & He & ->). unfold GetObserversToNotify.
  by rewrite (bind_run _ _ _ _ _ (entry_at_ok _ _ _ He)).
Qed.

(** A task that is due is taken from the queue and run. *)
Lemma flush_due fuel thread id now d t q w :
  live id (d :: q) w -> task_ d = Some t -> ticks d <= TimePoint.ticks_ now ->
  exists w1, live id q w1 /\ ran w1 = ran w /\ calm id w w1 /\
    flush_loop debug SetWaitableTimer (S fuel) thread id All now w =
    (do! run_task debug SetWaitableTimer thread t in
     let! observers := GetObserversToNotify id in
     do! iterS (run_observer debug SetWaitableTimer thread) observers in
     flush_loop debug SetWaitableTimer fuel thread id All now) w1.
Proof.
  intros Hlv Ht Hdue. destruct (GetNextTaskToRun_first id now d q w Hlv) as (w1 & Hlv1 & Hr1 & Hc1 & Hget).
  destruct (pop_live id d q w1 Hlv1) as (w2 & Hlv2 & Hr2 & Hc2 & Hpop).
  exists w2. split_and!; [done|congruence|by etransitivity|].
  cbn [flush_loop]. unfold bindS at 1. rewrite Hget. unfold TimePoint.gtb.
  rewrite (proj2 (Z.ltb_ge _ _) Hdue), (bind_run _ _ _ _ _ Hpop). unfold retS at 1. rewrite Ht. done.
Qed.

(** The plain tasks that are due run, one after the other. *)
Lemma flush_prefix thread id now q : forall q' fuel w,
  live id (q ++ q') w -> Forall plain q -> Forall (fun d => ticks d <= TimePoint.ticks_ now) q ->
  exists w', flush_loop debug SetWaitableTimer (length q + fuel) thread id All now w =
               flush_loop debug SetWaitableTimer fuel thread id All now w' /\
    live id q' w' /\ ran w' = rev (names q) ++ ran w /\ calm id w w'.
Proof.
  induction q as [|d q IH]; intros q' fuel w Hlv Hpl Hdue; [by exists w|].
  apply Forall_cons in Hpl as [(t & Ht & Htd) Hpl]. apply Forall_cons in Hdue as [Hd Hdue].
  cbn [length Nat.add app] in *.
  destruct (flush_due (length q + fuel) thread id now d t _ w Hlv Ht Hd) as (w1 & Hlv1 & Hr1 & Hc1 & ->).
  unfold run_task. rewrite Htd. cbn [iterS]. unfold bindS at 1 2, updS at 1, retS at 1.
  set (w2 := with_ran _ w1). assert (live id (q ++ q') w2) as Hlv2 by (by destruct Hlv1).
  assert (ran w2 = task_name t :: ran w) as Hr2 by (subst w2; simpl; congruence).
  assert (calm id w w2) as Hc2 by (etransitivity; [exact Hc1|by split]).
  clearbody w2. rewrite (bind_run _ _ _ _ _ (GetObservers_live _ _ _ Hlv2)). cbn [iterS]. rewrite bind_ret.
  destruct (IH q' fuel w2 Hlv2 Hpl Hdue) as (w' & -> & Hlv' & Hran' & Hc').
  exists w'. split_and!; [done|done| |by etransitivity].
  unfold names in *. cbn [omap list_omap]. rewrite Ht. cbn [fmap option_fmap option_map rev].
  rewrite <- app_assoc, Hran', Hr2. done.
Qed.

(** A flush stops at the first task that is not due. *)
Lemma flush_stop fuel thread id now q w :
  live id q w -> Forall (fun d => TimePoint.ticks_ now < ticks d) q ->
  exists w', flush_loop debug SetWaitableTimer (S fuel) thread id All now w = Ret (tt, w') /\
    live id q w' /\ ran w' = ran w /\ calm id w w'.
Proof.
  intros Hlv Hlate. destruct q as [|d q]; cbn [flush_loop].
  { rewrite (bind_run _ _ _ _ _ (GetNextTaskToRun_empty id now w Hlv)). by exists w. }
  destruct (GetNextTaskToRun_first id now d q w Hlv) as (w1 & Hlv1 & Hr1 & Hc1 & Hget).
  apply Forall_cons in Hlate as [Hd _]. exists w1. split_and!; try done.
  unfold bindS at 1. rewrite Hget. unfold TimePoint.gtb. by rewrite (proj2 (Z.ltb_lt _ _) Hd).
Qed.

(** A sorted queue is its due tasks and then the others. *)
Lemma sorted_split (now : Z) q :
  StronglySorted task_le q ->
  q = filter (fun d => ticks d <= now) q ++ filter (fun d => now < ticks d) q.
Proof.
  induction 1 as [|d q Hs IH Hall]; [done|]. destruct (decide (ticks d <= now)) as [Hd|Hd].
  - rewrite filter_cons_True, (filter_cons_False _ d) by lia. simpl. by rewrite <- IH.
  - assert (Forall (fun x => now < ticks x) (d :: q)) as Hlate.
    { constructor; [lia|]. eapply Forall_impl; [exact Hall|]. intros x Hx. unfold task_le in Hx. lia. }
    rewrite filter_none, filter_all; [done|done|].
    eapply Forall_impl; [exact Hlate|]. simpl. lia.
Qed.

Lemma Forall_filter_self (P : DelayedTask -> Prop) `{!forall d, Decision (P d)} q : Forall P (filter P q).
Proof. apply Forall_forall. by intros x [? _]%list_elem_of_filter. Qed.

Lemma Forall_filter_keep (P Q : DelayedTask -> Prop) `{!forall d, Decision (Q d)} q :
  Forall P q -> Forall P (filter Q q).
Proof. rewrite !Forall_forall. intros HP x [_ Hx]%list_elem_of_filter. by apply HP. Qed.

Lemma flush_plain thread id now q fuel w :
  live id q w -> Forall plain q -> (length q < fuel)%nat -> StronglySorted task_le q ->
  exists w', flush_loop debug SetWaitableTimer fuel thread id All now w = Ret (tt, w') /\
    live id (filter (fun d => TimePoint.ticks_ now < ticks d) q) w' /\
    ran w' = rev (names (filter (fun d => ticks d <= TimePoint.ticks_ now) q)) ++ ran w.
Proof.
  intros Hlv Hpl Hf Hs. pose proof (sorted_split (TimePoint.ticks_ now) q Hs) as Hq.
  set (q1 := filter _ q) in Hq. set (q2 := filter _ q) in Hq. rewrite Hq in Hlv.
  assert (Forall plain q1) as Hpl1 by (by apply Forall_filter_keep).
  assert (length q = length q1 + length q2)%nat as Hlen by (rewrite Hq at 1; apply length_app).
  replace fuel with (length q1 + S (fuel - S (length q1)))%nat by lia.
  destruct (flush_prefix thread id now q1 q2 (S (fuel - S (length q1))) w Hlv Hpl1 (Forall_filter_self _ _))
    as (w1 & -> & Hlv1 & Hr1 & _).
  destruct (flush_stop (fuel - S (length q1)) thread id now q2 w1 Hlv1 (Forall_filter_self _ _))
    as (w2 & -> & Hlv2 & Hr2 & _).
  exists w2. split_and!; [done|done|]. by rewrite Hr2.
Qed.
End flush.

(** ** First in, first out *)

(** The order numbers grow over the first 2^32 registrations: the int counter
    wraps to negative numbers, which are large as size_t. *)
Lemma order_increasing k k' :
  0 <= k < k' -> k' < 2 ^ 32 -> u64 (i32 k) < u64 (i32 k').
Proof. intros. unfold u64, i32. Z.div_mod_to_equations. lia. Qed.

Lemma pq_push_fifo d q :
  StronglySorted task_le q -> Forall (fun e => order_ e < order_ d) q ->
  pq_push d q = filter (fun e => ticks e <= ticks d) q ++ d :: filter (fun e => ticks d < ticks e) q.
Proof.
  induction 1 as [|e q Hs IH Hf]; intros Ho; simpl; [done|]. apply Forall_cons in Ho as [Hoe Ho].
  destruct (task_gt e d) eqn:Hg.
  - apply task_gt_spec in Hg. assert (ticks d < ticks e) as Hlt by lia.
    assert (Forall (fun x => ticks d < ticks x) (e :: q)) as Hall.
    { constructor; [done|]. eapply Forall_impl; [exact Hf|]. intros x Hx. unfold task_le in Hx. lia. }
    rewrite filter_none, filter_all; [done|done|]. eapply Forall_impl; [exact Hall|]. simpl. lia.
  - assert (ticks e <= ticks d) as Hle
      by (destruct (decide (ticks e <= ticks d)); [done|];
          exfalso; apply not_true_iff_false in Hg; apply Hg, task_gt_spec; lia).
    rewrite filter_cons_True by done. rewrite (filter_cons_False _ e) by lia. simpl. by rewrite IH.
Qed.

(** ** Registration *)

Section register.
Context (debug : bool) (SetWaitableTimer : Z -> bool).
Context (timer_ok : forall d, SetWaitableTimer d = true).

Lemma wake_for_first id d q l w :
  live id (d :: q) w -> loops w !! id = Some l ->
  (let! pending := HasPendingTasksUnlocked id in
   whenS pending (let! t := GetNextWakeTimeUnlocked debug id in WakeUpUnlocked SetWaitableTimer id t)) w =
  Ret (tt, set_loop id (mkLoop (terminated_ l) (running_ l) (Some (fire (ticks d) (clock w)))) w).
Proof.
  intros [(obs & He & ->) _ Hid Hc Hts] Hl. apply Forall_cons in Hts as [Ht _].
  unfold HasPendingTasksUnlocked, bindS at 1. rewrite (bind_run _ _ _ _ _ (entry_at_ok _ _ _ He)).
  cbn [owner_of]. rewrite (proj2 (Z.eqb_neq id unmerged)) by done. cbn [delayed_task_queue].
  rewrite bool_decide_false by done. unfold retS at 1. cbn [negb whenS].
  unfold GetNextWakeTimeUnlocked, PeekNextTaskUnlocked, HasPendingTasksUnlocked, dcheck.
  unfold bindS at 1 2 3 4. rewrite (entry_at_ok _ _ _ He). cbn [owner_of].
  rewrite (proj2 (Z.eqb_neq id unmerged)) by done. cbn [delayed_task_queue].
  rewrite bool_decide_false by done. unfold retS at 1. cbn [negb]. rewrite orb_true_r. cbn [checkS].
  rewrite bind_ret, (bind_run _ _ _ _ _ (entry_at_ok _ _ _ He)). cbn [delayed_task_queue].
  unfold retS at 1 2. unfold WakeUpUnlocked. rewrite (bind_run _ _ _ _ _ (entry_at_ok _ _ _ He)).
  cbn [wakeable]. by rewrite (WakeUp_ok _ timer_ok _ _ l).
Qed.

Lemma RegisterTask_ok id task target q l w :
  live id q w -> loops w !! id = Some l -> in_i64 (TimePoint.ticks_ target) ->
  StronglySorted task_le q ->
  Forall (fun e => order_ e < u64 (order_counter_ (queues w))) q ->
  let d := mkDelayedTask (u64 (order_counter_ (queues w))) task target in
  let q' := filter (fun e => ticks e <= TimePoint.ticks_ target) q ++
            d :: filter (fun e => TimePoint.ticks_ target < ticks e) q in
  exists w', RegisterTask debug SetWaitableTimer id task target w = Ret (tt, w') /\
    live id q' w' /\ ran w' = ran w /\ calm id w w' /\
    order_counter_ (queues w') = i32 (order_counter_ (queues w) + 1) /\
    exists d0 l', head q' = Some d0 /\ loops w' !! id = Some l' /\
      timer_ l' = Some (fire (ticks d0) (clock w)).
Proof.
  intros [(obs & He & ->) _ Hid Hc Hts] Hl Ht Hs Ho d q'.
  pose proof (pq_push_fifo d q Hs Ho) as Hpq. change (ticks d) with (TimePoint.ticks_ target) in Hpq.
  fold q' in Hpq.
  assert (Forall (fun x => in_i64 (ticks x)) q') as Hts'
    by (rewrite <- Hpq, pq_push_perm; by constructor).
  assert (exists d0 q0, q' = d0 :: q0) as (d0 & q0 & Hq').
  { subst q'. destruct (filter _ q); simpl; by eexists _, _. }
  clearbody q'. rewrite Hq' in Hpq, Hts' |- *. clear q' Hq'.
  unfold RegisterTask. rewrite bind_get, bind_upd. set (w1 := with_queues _ w).
  assert (entries w1 !! id = Some (mkEntry (Some id) [] q id)) as He1 by exact He.
  rewrite (bind_run _ _ _ _ _ (entry_at_ok _ _ _ He1)), bind_upd. fold d.
  cbn [wakeable task_observers delayed_task_queue owner_of]. rewrite Hpq.
  set (w2 := set_entry id _ w1).
  assert (live id (d0 :: q0) w2) as Hlv.
  { constructor; simpl; [rewrite lookup_insert_eq; by eexists|by eexists|done|done|done]. }
  assert (ran w2 = ran w /\ calm id w w2 /\ loops w2 = loops w /\
    order_counter_ (queues w2) = i32 (order_counter_ (queues w) + 1)) as (Hr2 & Hc2 & Hl2 & Ho2) by done.
  clearbody w2. rewrite <- Hl2 in Hl. rewrite (wake_for_first id d0 q0 l w2 Hlv Hl).
  eexists. split; [reflexivity|]. destruct Hlv as [He2 _ _ Hck _]. split_and!.
  - constructor; simpl; [done|rewrite lookup_insert_eq; by eexists|done|done|done].
  - done.
  - etransitivity; [exact Hc2|]. split; simpl; [done|done|]. by rewrite lookup_insert_eq, Hl.
  - exact Ho2.
  - eexists _, _. split; [done|]. simpl. rewrite lookup_insert_eq. split; [done|].
    simpl. by rewrite (cm_clock _ _ _ Hc2).
Qed.
End register.

(** ** Theorems *)

Section theorems.
Context (debug : bool) (SetWaitableTimer : Z -> bool).

(** C4: no wake-up is lost.  In every world the threads of a process can get to,
    a loop with a pending task has its timer set, to fire no later than the target
    time of its first task, or it is due to fire already. *)
Theorem no_lost_wakeup (now : Z) (id : TaskQueueId) (e : TaskQueueEntry) (d : DelayedTask)
  (q : DelayedTaskQueue) (w : World) :
  reachable debug SetWaitableTimer now w ->
  queue_entries_ (queues w) !! id = Some e -> wakeable e = Some id -> delayed_task_queue e = d :: q ->
  exists l t, loops w !! id = Some l /\ timer_ l = Some t /\
    (t <= TimePoint.ticks_ (target_time_ d) \/ t <= clock w).
Proof. intros Hr. by apply (world_reachable_inv debug SetWaitableTimer now w Hr). Qed.

(** C27: in every reachable world the queue of a loop is in the order in which its
    tasks must run, by target time and at the same time by order number, and owns
    no queue but itself.  In such a world [RegisterTask] on the queue of a live
    loop gives the task the next order number and puts it behind every task with
    the same or an earlier target time and before the others, whatever the
    clock and the target, as long as the counter has not overtaken the numbers in
    the queue by wrapping around. *)
Theorem queues_sorted (now : Z) (id : TaskQueueId) (e : TaskQueueEntry) (w : World) :
  reachable debug SetWaitableTimer now w -> queue_entries_ (queues w) !! id = Some e ->
  let q := delayed_task_queue e in
  let time d := TimePoint.ticks_ (target_time_ d) in
  StronglySorted (fun a b => time a < time b \/ time a = time b /\ order_ a <= order_ b) q /\
  owner_of e = id /\
  forall (task : option Task) (target : TimePoint.t),
    (forall d, SetWaitableTimer d = true) -> live id q w -> in_i64 (TimePoint.ticks_ target) ->
    Forall (fun e => order_ e < u64 (order_counter_ (queues w))) q ->
    let d := mkDelayedTask (u64 (order_counter_ (queues w))) task target in
    exists w', RegisterTask debug SetWaitableTimer id task target w = Ret (tt, w') /\
      order_counter_ (queues w') = i32 (order_counter_ (queues w) + 1) /\
      live id (filter (fun e => time e <= time d) q ++ d :: filter (fun e => time d < time e) q) w'.
Proof.
  intros Hr He q time. destruct (world_reachable_inv debug SetWaitableTimer now w Hr) as [[Ho _ _ Hs _] _].
  split; [by eapply Hs|]. split; [by apply Ho|]. intros task target Hset Hlv Ht Hord d.
  destruct (lv_loop _ _ _ Hlv) as (l & Hl).
  destruct (RegisterTask_ok debug SetWaitableTimer Hset id task target q l w Hlv Hl Ht (Hs _ _ He) Hord)
    as (w' & Hrun & Hlv' & _ & _ & Hct & _). by exists w'.
Qed.

(** C26: a flush runs exactly the tasks that are due, in the order of the queue,
    and leaves the others: for tasks that make no calls and a queue of a live
    loop without observers, [FlushTasks] ends after one turn more than there are
    tasks. *)
Theorem FlushTasks_runs_due (fuel : nat) (thread : Z) (id : TaskQueueId) (q : DelayedTaskQueue) (w : World) :
  (forall d, SetWaitableTimer d = true) ->
  live id q w -> Forall plain q -> StronglySorted task_le q -> (length q < fuel)%nat ->
  exists w', FlushTasks debug SetWaitableTimer fuel thread id All w = Ret (tt, w') /\
    live id (filter (fun d => clock w < TimePoint.ticks_ (target_time_ d)) q) w' /\
    ran w' = rev (names (filter (fun d => TimePoint.ticks_ (target_time_ d) <= clock w) q)) ++ ran w.
Proof.
  intros Hset Hlv Hpl Hs Hf. unfold FlushTasks, Now. rewrite bind_get.
  exact (flush_plain debug SetWaitableTimer Hset thread id (TimePoint.mk (clock w)) q fuel w Hlv Hpl Hf Hs).
Qed.

(** two live queues of a reachable world run on the same thread exactly when
    they are the same queue. *)
Theorem RunsOnTheSameThread_iff (now : Z) (a b : TaskQueueId) (ea eb : TaskQueueEntry) (w : World) :
  reachable debug SetWaitableTimer now w ->
  queue_entries_ (queues w) !! a = Some ea -> queue_entries_ (queues w) !! b = Some eb ->
  RunsOnTheSameThread a b w = Ret (bool_decide (a = b), w).
Proof.
  intros Hr Ha Hb. destruct (world_reachable_inv debug SetWaitableTimer now w Hr) as [Hq _].
  pose proof (qo_owner _ Hq _ _ Ha) as Hoa. pose proof (qo_owner _ Hq _ _ Hb) as Hob.
  pose proof (qo_ids _ Hq _ _ Ha). pose proof (qo_ids _ Hq _ _ Hb). pose proof (qo_count _ Hq).
  unfold RunsOnTheSameThread, Owns. destruct (Z.eqb_spec a b) as [->|Hne].
  { by rewrite bool_decide_true. }
  rewrite (bool_decide_false (a = b)) by done.
  rewrite (proj2 (Z.eqb_neq a unmerged)), (proj2 (Z.eqb_neq b unmerged)) by lia. cbn [orb].
  unfold bindS at 1. rewrite (bind_run _ _ _ _ _ (entry_at_ok _ _ _ Ha)). unfold retS at 1.
  rewrite Hoa, (proj2 (Z.eqb_neq b a)) by done.
  unfold bindS at 1. rewrite (bind_run _ _ _ _ _ (entry_at_ok _ _ _ Hb)). unfold retS at 1.
  rewrite Hob, (proj2 (Z.eqb_neq a b)) by done. done.
Qed.
End theorems.


(** ** A process with two loops, the first with three tasks *)

(** The world after an operation; the same world when it does not return. *)
Definition after (m : M World unit) (w : World) : World :=
  match m w with Ret (_, w') => w' | _ => w end.

Definition any_timer (_ : Z) : bool := true.
Abbreviation after_call thread c := (after (run_call true any_timer thread c)).
Abbreviation after_start thread := (after (EnsureInitializedForCurrentThread thread)).

Lemma after_call_reachable thread c w :
  reachable true any_timer 1000 w -> reachable true any_timer 1000 (after_call thread c w).
Proof.
  intros H. unfold after. destruct (run_call _ _ _ _ _) as [[[] w']| |] eqn:Hr; try done.
  eapply reach_step; [done|by eapply step_call].
Qed.

Lemma after_start_reachable thread w :
  task_queue_id_counter_ (queues w) < unmerged ->
  reachable true any_timer 1000 w -> reachable true any_timer 1000 (after_start thread w).
Proof.
  intros Hlt H. unfold after.
  destruct (EnsureInitializedForCurrentThread _ _) as [[[] w']| |] eqn:Hr; try done.
  eapply reach_step; [done|by eapply step_create].
Qed.

Definition sample_post (name time : Z) : TaskCall := CallPost 0 (Some (mkTask name [])) time.

Definition sample : World :=
  after_call 7 (TakesTime 300) (after_call 8 (sample_post 3 1500)
    (after_call 7 (sample_post 2 1200) (after_call 7 (sample_post 1 1500)
      (after_start 8 (after_start 7 (new_world 1000)))))).

Definition sample_task (order name time : Z) : DelayedTask :=
  mkDelayedTask order (Some (mkTask name [])) (TimePoint.mk time).
Definition sample_queue : DelayedTaskQueue :=
  [sample_task 1 2 1200; sample_task 0 1 1500; sample_task 2 3 1500].

Lemma sample_reachable : reachable true any_timer 1000 sample.
Proof.
  unfold sample. do 4 apply after_call_reachable.
  apply after_start_reachable; [vm_compute; reflexivity|].
  apply after_start_reachable; [vm_compute; reflexivity|]. apply reach_new.
Qed.

Lemma sample_entry : queue_entries_ (queues sample) !! 0 = Some (mkEntry (Some 0) [] sample_queue 0).
Proof. vm_compute. reflexivity. Qed.

Lemma sample_sorted : StronglySorted task_le sample_queue.
Proof. repeat (constructor; unfold task_le; simpl; try lia). Qed.

Lemma sample_live : live 0 sample_queue sample.
Proof.
  constructor.
  - exists []. exact (conj sample_entry eq_refl).
  - eexists. vm_compute. reflexivity.
  - vm_compute. congruence.
  - vm_compute. congruence.
  - repeat constructor; unfold in_i64; simpl; lia.
Qed.

Lemma no_lost_wakeup_witness :
  exists l t, loops sample !! 0 = Some l /\ timer_ l = Some t /\ (t <= 1200 \/ t <= clock sample).
Proof.
  exact (no_lost_wakeup true any_timer 1000 0 _ _ _ sample sample_reachable sample_entry eq_refl eq_refl).
Defined.

Lemma queues_sorted_witness :
  StronglySorted (fun a b => TimePoint.ticks_ (target_time_ a) < TimePoint.ticks_ (target_time_ b) \/
    TimePoint.ticks_ (target_time_ a) = TimePoint.ticks_ (target_time_ b) /\ order_ a <= order_ b) sample_queue /\
  0 = 0 /\
  exists w', RegisterTask true any_timer 0 None (TimePoint.mk 1500) sample = Ret (tt, w') /\
    order_counter_ (queues w') = 4 /\
    live 0 (sample_queue ++ [mkDelayedTask 3 None (TimePoint.mk 1500)]) w'.
Proof.
  destruct (queues_sorted true any_timer 1000 0 _ sample sample_reachable sample_entry) as (Hs & Ho & Hr).
  split; [exact Hs|]. split; [exact Ho|].
  apply (Hr None (TimePoint.mk 1500)); [done|exact sample_live|unfold in_i64; simpl; lia|].
  repeat constructor.
Defined.

Lemma FlushTasks_runs_due_witness :
  exists w', FlushTasks true any_timer 4 7 0 All sample = Ret (tt, w') /\
    live 0 [sample_task 0 1 1500; sample_task 2 3 1500] w' /\ ran w' = [2].
Proof.
  refine (FlushTasks_runs_due true any_timer 4 7 0 sample_queue sample (fun _ => eq_refl)
            sample_live _ sample_sorted _).
  - repeat constructor; by eexists.
  - simpl. lia.
Defined.

Lemma RunsOnTheSameThread_iff_witness : RunsOnTheSameThread 0 1 sample = Ret (false, sample).
Proof.
  refine (RunsOnTheSameThread_iff true any_timer 1000 0 1 _ (mkEntry (Some 1) [] [] 1) sample
            sample_reachable sample_entry _).
  vm_compute. reflexivity.
Defined.
