(* ===== verification/Thread.v ===== *)
(** * Threads with a message loop: wtf/task_runner/thread.h, thread.cpp

    A [Thread] runs the loop of a new thread until [Join] ends it.  The
    constructor waits on its latch until the new thread has made its loop, and
    [Join] waits until the thread function has returned, so both are written in
    the order in which the two threads do their parts.  The name of a thread is
    only told to a debugger ([SetCurrentThreadName]) and not part of the state. *)

From stdpp Require Import base list numbers strings gmap.
From Stdlib Require Import ZArith Lia Sorting.Sorted.
From S2P Require Import Prelude Time TaskQueues TaskQueuesSpec.

Record Thread := mkThread { thread_ : Z; task_runner_ : TaskQueueId; joined_ : bool }.

(** On Windows a thread is named by an exception that a debugger looks at, and that is
    ignored otherwise; nothing is raised for an empty name. *)
Definition kVCThreadNameException : Z := 0x406D1388.
Record THREADNAME_INFO := mkInfo { dwType : Z; szName : bytes; dwThreadID : Z; dwFlags : Z }.

Definition SetCurrentThreadName (GetCurrentThreadId : Z) (name : bytes) : option (Z * THREADNAME_INFO) :=
  match name with
  | [] => None
  | _ => Some (kVCThreadNameException, mkInfo 0x1000 name GetCurrentThreadId 0)
  end.

Section ops.
Context (debug : bool) (SetWaitableTimer : Z -> bool).

(** [Thread::Thread], up to [latch.Signal()]: [thread] is the new thread. *)
Definition Thread_ctor (thread : Z) : M World Thread :=
  do! EnsureInitializedForCurrentThread thread in
  let! runner := GetCurrent thread in
  retS (mkThread thread runner false).

(** The closure [Join] posts, under a name of its own. *)
Definition terminate_name : Z := -1.
Definition terminate_task : Task := mkTask terminate_name [CallTerminateCurrent].

(** The rest of the thread function: [loop.Run()], which it may have [entered]
    already. *)
Definition thread_rest (turns fuel : nat) (entered : bool) (th : Thread) : M World bool :=
  if entered then
    let! ended := run_loop debug SetWaitableTimer turns fuel (thread_ th) (task_runner_ th) in
    if negb ended then retS false else
    do! finish_run debug SetWaitableTimer fuel (thread_ th) (task_runner_ th) in
    retS true
  else MessageLoop_Run debug SetWaitableTimer turns fuel (thread_ th) (task_runner_ th).

(** The end of the thread destroys its message loop. *)
Definition thread_exit (th : Thread) : M World unit :=
  do! MessageLoopImpl_dtor (task_runner_ th) in
  updS (fun w => with_tls (delete (thread_ th) (tls_message_loop w)) w).

(** [Thread::Join]: false when it waits for ever. *)
Definition Join (turns fuel : nat) (entered : bool) (th : Thread) : M World (Thread * bool) :=
  if joined_ th then retS (th, true) else
  let th := mkThread (thread_ th) (task_runner_ th) true in
  do! TaskRunner_PostTask debug SetWaitableTimer (task_runner_ th) (Some terminate_task) in
  let! ended := thread_rest turns fuel entered th in
  do! whenS ended (thread_exit th) in
  retS (th, ended).

Definition Thread_dtor (turns fuel : nat) (entered : bool) (th : Thread) : M World bool :=
  let! r := Join turns fuel entered th in
  retS r.2.

Definition GetTaskRunner (th : Thread) : TaskQueueId := task_runner_ th.
End ops.

Section join.
Context (debug : bool) (SetWaitableTimer : Z -> bool).
Context (timer_ok : forall d, SetWaitableTimer d = true).

(** The loop of a live queue, with its flags. *)
Lemma live_set_loop id q l w : live id q w -> live id q (set_loop id l w).
Proof. intros []. constructor; simpl; [done|rewrite lookup_insert_eq; by eexists|done..]. Qed.

Lemma DoTerminate_ok id q l w :
  live id q w -> loops w !! id = Some l -> in_i64 (clock w) ->
  exists w', DoTerminate SetWaitableTimer id w = Ret (tt, w') /\ live id q w' /\ ran w' = ran w /\
    clock w' = clock w /\ tls_message_loop w' = tls_message_loop w /\
    loop_flags <$> loops w' !! id = Some (true, false).
Proof.
  intros Hlv Hl Hck. unfold DoTerminate. rewrite (bind_run _ _ _ _ _ (loop_at_ok _ _ _ Hl)), bind_upd.
  set (w1 := set_loop id _ w). assert (live id q w1) as Hlv1 by (by apply live_set_loop).
  assert (ran w1 = ran w /\ clock w1 = clock w /\ tls_message_loop w1 = tls_message_loop w)
    as (Hr1 & Hc1 & Ht1) by done.
  assert (loops w1 !! id = Some (mkLoop true (running_ l) (timer_ l))) as Hl1
    by (simpl; by rewrite lookup_insert_eq).
  clearbody w1. unfold Terminate_win.
  rewrite (bind_run _ _ _ _ _ (loop_at_ok _ _ _ Hl1)), bind_upd. cbn [terminated_ timer_].
  set (w2 := set_loop id _ w1). assert (live id q w2) as Hlv2 by (by apply live_set_loop).
  assert (ran w2 = ran w1 /\ clock w2 = clock w1 /\ tls_message_loop w2 = tls_message_loop w1)
    as (Hr2 & Hc2 & Ht2) by done.
  assert (loops w2 !! id = Some (mkLoop true false (timer_ l))) as Hl2
    by (simpl; by rewrite lookup_insert_eq).
  clearbody w2. unfold Now. rewrite bind_get.
  rewrite (WakeUp_ok _ timer_ok _ _ _ _ Hl2); [|apply Hlv2|simpl; congruence].
  eexists. split; [reflexivity|]. split_and!; try (simpl; congruence).
  - by apply live_set_loop.
  - simpl. by rewrite lookup_insert_eq.
Qed.

(** A flush that meets the closure of [Join] after some plain tasks. *)
Lemma flush_terminate thread id now q1 d q2 fuel w :
  live id (q1 ++ d :: q2) w -> Forall plain q1 -> task_ d = Some terminate_task ->
  Forall (fun e => TimePoint.ticks_ (target_time_ e) <= TimePoint.ticks_ now) (q1 ++ [d]) ->
  Forall (fun e => TimePoint.ticks_ now < TimePoint.ticks_ (target_time_ e)) q2 ->
  tls_message_loop w !! thread = Some id -> in_i64 (clock w) -> (length q1 + 2 <= fuel)%nat ->
  exists w', flush_loop debug SetWaitableTimer fuel thread id All now w = Ret (tt, w') /\
    live id q2 w' /\ ran w' = terminate_name :: rev (names q1) ++ ran w /\
    clock w' = clock w /\ tls_message_loop w' = tls_message_loop w /\
    loop_flags <$> loops w' !! id = Some (true, false).
Proof.
  intros Hlv Hpl Hd Hdue Hlate Htls Hck Hf. apply Forall_app in Hdue as [Hdue1 Hdue2].
  apply Forall_cons in Hdue2 as [Hdd _].
  replace fuel with (length q1 + S (S (fuel - S (S (length q1)))))%nat by lia.
  destruct (flush_prefix debug SetWaitableTimer timer_ok thread id now q1 (d :: q2)
              (S (S (fuel - S (S (length q1))))) w Hlv Hpl Hdue1) as (w1 & -> & Hlv1 & Hr1 & [Hc1 Ht1 _]).
  destruct (flush_due debug SetWaitableTimer timer_ok (S (fuel - S (S (length q1)))) thread id now d _ q2 w1
              Hlv1 Hd Hdd) as (w2 & Hlv2 & Hr2 & [Hc2 Ht2 _] & ->).
  unfold run_task. cbn [task_does terminate_task iterS run_call task_name].
  unfold bindS at 1, updS at 1. unfold bindS at 1. set (w3 := with_ran _ w2).
  assert (live id q2 w3) as Hlv3 by (by destruct Hlv2).
  assert (ran w3 = terminate_name :: rev (names q1) ++ ran w /\ clock w3 = clock w /\
          tls_message_loop w3 = tls_message_loop w) as (Hr3 & Hc3 & Ht3)
    by (subst w3; simpl; rewrite Hr2, Hr1; split_and!; congruence).
  clearbody w3. destruct (lv_loop _ _ _ Hlv3) as (l & Hl3).
  destruct (DoTerminate_ok id q2 l w3 Hlv3 Hl3 ltac:(congruence)) as (w4 & Hrun & Hlv4 & Hr4 & Hc4 & Ht4 & Hfl).
  unfold GetCurrent. unfold bindS at 1 2. rewrite bind_get, Ht3, Htls. unfold retS at 1. rewrite Hrun.
  unfold retS at 1. rewrite (bind_run _ _ _ _ _ (GetObservers_live _ _ _ Hlv4)). cbn [iterS]. rewrite bind_ret.
  destruct (flush_stop debug SetWaitableTimer timer_ok (fuel - S (S (length q1))) thread id now q2 w4 Hlv4 Hlate)
    as (w5 & -> & Hlv5 & Hr5 & [Hc5 Ht5 Hfl5]).
  exists w5. split_and!; try congruence; done.
Qed.

(** What is left of a loop that was terminated: nothing is due any more. *)
Lemma finish_ok thread id q fuel w :
  live id q w -> Forall (fun e => clock w < TimePoint.ticks_ (target_time_ e)) q ->
  exists w', finish_run debug SetWaitableTimer (S fuel) thread id w = Ret (tt, w') /\
    live id [] w' /\ ran w' = ran w /\ clock w' = clock w /\ tls_message_loop w' = tls_message_loop w.
Proof.
  intros Hlv Hlate. destruct (lv_loop _ _ _ Hlv) as (l & Hl).
  unfold finish_run. rewrite (bind_run _ _ _ _ _ (loop_at_ok _ _ _ Hl)), bind_upd.
  set (w1 := set_loop id _ w). assert (live id q w1) as Hlv1 by (by apply live_set_loop).
  assert (ran w1 = ran w /\ clock w1 = clock w /\ tls_message_loop w1 = tls_message_loop w)
    as (Hr1 & Hc1 & Ht1) by done.
  clearbody w1. unfold RunExpiredTasksNow, FlushTasks, Now. unfold bindS at 1. rewrite bind_get.
  rewrite <- Hc1 in Hlate.
  destruct (flush_stop debug SetWaitableTimer timer_ok fuel thread id (TimePoint.mk (clock w1)) q w1 Hlv1 Hlate)
    as (w2 & -> & Hlv2 & Hr2 & [Hc2 Ht2 _]).
  destruct (lv_entry _ _ _ Hlv2) as (obs & He & ->). unfold DisposeTasks.
  rewrite (bind_run _ _ _ _ _ (entry_at_ok _ _ _ He)). unfold updS. eexists. split; [reflexivity|].
  destruct Hlv2. split_and!; [|simpl; congruence..].
  constructor; simpl; [rewrite lookup_insert_eq; by eexists|done..].
Qed.

Lemma exit_ok th q w :
  live (task_runner_ th) q w ->
  exists w', thread_exit th w = Ret (tt, w') /\ ran w' = ran w /\
    queue_entries_ (queues w') !! task_runner_ th = None /\ loops w' !! task_runner_ th = None /\
    tls_message_loop w' !! thread_ th = None.
Proof.
  intros [(obs & He & ->) _ Hid _ _]. unfold thread_exit, MessageLoopImpl_dtor, Dispose, erase_entry.
  unfold bindS at 1 2. rewrite (bind_run _ _ _ _ _ (entry_at_ok _ _ _ He)), bind_upd. cbn [owner_of].
  rewrite (proj2 (Z.eqb_neq _ unmerged)) by done. cbn [negb whenS]. unfold updS.
  eexists. split; [reflexivity|]. simpl. by rewrite !lookup_delete_eq.
Qed.

(** The thread takes its wake-up, runs what is due with the closure of [Join]
    last, and leaves its loop. *)
Lemma rest_ok turns fuel entered th q1 d q2 l w :
  let id := task_runner_ th in
  live id (q1 ++ d :: q2) w -> Forall plain q1 -> task_ d = Some terminate_task ->
  Forall (fun e => TimePoint.ticks_ (target_time_ e) <= clock w) (q1 ++ [d]) ->
  Forall (fun e => clock w < TimePoint.ticks_ (target_time_ e)) q2 ->
  tls_message_loop w !! thread_ th = Some id -> in_i64 (clock w) ->
  loops w !! id = Some l -> terminated_ l = false -> (entered = true -> running_ l = true) ->
  timer_ l = Some (clock w) -> (length q1 + 2 <= fuel)%nat ->
  exists w', thread_rest debug SetWaitableTimer (S (S turns)) fuel entered th w = Ret (true, w') /\
    live id [] w' /\ ran w' = terminate_name :: rev (names q1) ++ ran w.
Proof.
  intros id Hlv Hpl Hd Hdue Hlate Htls Hck Hl Hterm Hent Htm Hf.
  assert (exists w0, thread_rest debug SetWaitableTimer (S (S turns)) fuel entered th w =
      (let! ended := run_loop debug SetWaitableTimer (S (S turns)) fuel (thread_ th) id in
       if negb ended then retS false else
       do! finish_run debug SetWaitableTimer fuel (thread_ th) id in
       retS true) w0 /\
    live id (q1 ++ d :: q2) w0 /\ ran w0 = ran w /\ clock w0 = clock w /\
    tls_message_loop w0 = tls_message_loop w /\
    loops w0 !! id = Some (mkLoop false true (Some (clock w)))) as (w0 & -> & Hlv0 & Hr0 & Hc0 & Ht0 & Hl0).
  { destruct entered; cbn [thread_rest].
    - exists w. split_and!; try done. rewrite Hl. destruct l; simpl in *. rewrite Hent by done. congruence.
    - unfold MessageLoop_Run, DoRun. rewrite (bind_run _ _ _ _ _ (loop_at_ok _ _ _ Hl)), Hterm.
      unfold Run_win. unfold bindS at 1. rewrite (bind_run _ _ _ _ _ (loop_at_ok _ _ _ Hl)), bind_upd.
      eexists. split; [reflexivity|]. split_and!; [by apply live_set_loop|done..|].
      simpl. rewrite lookup_insert_eq. congruence. }
  rewrite <- Hc0 in *. rewrite <- Hr0. rewrite <- Ht0 in Htls. clear w Hlv Hl Hr0 Hc0 Ht0 l Hterm Hent Htm.
  cbn [run_loop]. unfold bindS at 1. rewrite (bind_run _ _ _ _ _ (loop_at_ok _ _ _ Hl0)). cbn [running_ negb].
  unfold wait_timer. unfold bindS at 1. rewrite (bind_run _ _ _ _ _ (loop_at_ok _ _ _ Hl0)). cbn [timer_].
  rewrite bind_upd, bind_upd. cbn [terminated_ running_]. unfold retS at 1. cbn [negb].
  cbv beta. rewrite Z.max_id. set (w1 := set_loop id _ _).
  assert (live id (q1 ++ d :: q2) w1) as Hlv1 by (apply live_set_loop; by destruct Hlv0).
  assert (ran w1 = ran w0 /\ clock w1 = clock w0 /\ tls_message_loop w1 = tls_message_loop w0)
    as (Hr1 & Hc1 & Ht1) by done.
  clearbody w1. rewrite <- Hc1 in *. rewrite <- Hr1. rewrite <- Ht1 in Htls.
  unfold RunExpiredTasksNow, FlushTasks, Now. unfold bindS at 1. rewrite bind_get.
  destruct (flush_terminate (thread_ th) id (TimePoint.mk (clock w1)) q1 d q2 fuel w1)
    as (w2 & -> & Hlv2 & Hr2 & Hc2 & Ht2 & Hfl); try done.
  apply fmap_Some in Hfl as (l2 & Hl2 & Hfl). unfold loop_flags in Hfl. injection Hfl as Htr Hru.
  rewrite (bind_run _ _ _ _ _ (loop_at_ok _ _ _ Hl2)), <- Hru. cbn [negb]. unfold retS at 1. cbn [negb].
  destruct fuel as [|fuel]; [lia|]. rewrite <- Hc2 in Hlate.
  destruct (finish_ok (thread_ th) id q2 fuel w2 Hlv2 Hlate) as (w3 & Hfin & Hlv3 & Hr3 & _).
  rewrite (bind_run _ _ _ _ _ Hfin). exists w3. split_and!; [done|done|]. by rewrite Hr3, Hr2.
Qed.
End join.

(** C7: [Join] ends the thread and loses no task that is due: it returns, the
    plain tasks whose time has come have run in the order of the queue, the
    closure of [Join] after them, and the queue, the loop and the thread's slot
    are gone.  This holds whether or not the thread has entered its loop yet. *)
Theorem Join_runs_due (debug : bool) (SetWaitableTimer : Z -> bool) (turns fuel : nat) (entered : bool)
  (th : Thread) (q : DelayedTaskQueue) (l : Loop) (w : World) :
  (forall d, SetWaitableTimer d = true) ->
  joined_ th = false -> live (task_runner_ th) q w -> Forall plain q -> StronglySorted task_le q ->
  Forall (fun e => order_ e < u64 (order_counter_ (queues w))) q ->
  tls_message_loop w !! thread_ th = Some (task_runner_ th) -> in_i64 (clock w) ->
  loops w !! task_runner_ th = Some l -> terminated_ l = false ->
  (entered = true -> running_ l = true) -> (length q + 2 <= fuel)%nat -> (2 <= turns)%nat ->
  let due := filter (fun e => TimePoint.ticks_ (target_time_ e) <= clock w) q in
  exists w', Join debug SetWaitableTimer turns fuel entered th w =
      Ret ((mkThread (thread_ th) (task_runner_ th) true, true), w') /\
    ran w' = terminate_name :: rev (names due) ++ ran w /\
    queue_entries_ (queues w') !! task_runner_ th = None /\ loops w' !! task_runner_ th = None /\
    tls_message_loop w' !! thread_ th = None.
Proof.
  intros Hset Hj Hlv Hpl Hs Ho Htls Hck Hl Hterm Hent Hf Ht due. unfold Join. rewrite Hj.
  unfold TaskRunner_PostTask, Now. cbn [task_runner_]. unfold bindS at 1. rewrite bind_get.
  unfold PostTask, dcheck. rewrite bool_decide_true, orb_true_r by done. cbn [checkS].
  rewrite bind_ret, (bind_run _ _ _ _ _ (loop_at_ok _ _ _ Hl)), Hterm.
  destruct (RegisterTask_ok debug SetWaitableTimer Hset _ (Some terminate_task) (TimePoint.mk (clock w)) q l w
              Hlv Hl Hck Hs Ho) as (w1 & -> & Hlv1 & Hr1 & [Hc1 Ht1 Hfl1] & _ & d0 & l1 & Hd0 & Hl1 & Htm1).
  cbn [TimePoint.ticks_] in *. rewrite Hl1, Hl in Hfl1. injection Hfl1 as Hft Hfr.
  assert (TimePoint.ticks_ (target_time_ d0) <= clock w) as Hle.
  { fold due in Hd0. pose proof (Forall_filter_self
      (fun e => TimePoint.ticks_ (target_time_ e) <= clock w) q) as Hdue. fold due in Hdue.
    destruct due; simpl in Hd0; injection Hd0 as <-; [simpl; lia|by apply Forall_cons in Hdue as [? _]]. }
  destruct turns as [|[|turns]]; [lia|lia|].
  destruct (rest_ok debug SetWaitableTimer Hset turns fuel entered
              (mkThread (thread_ th) (task_runner_ th) true) due
              (mkDelayedTask (u64 (order_counter_ (queues w))) (Some terminate_task) (TimePoint.mk (clock w)))
              (filter (fun e => clock w < TimePoint.ticks_ (target_time_ e)) q) l1 w1)
    as (w2 & Hrest & Hlv2 & Hr2).
  - done.
  - by apply Forall_filter_keep.
  - done.
  - rewrite Hc1. apply Forall_app. split; [apply Forall_filter_self|]. constructor; [simpl; lia|constructor].
  - rewrite Hc1. apply Forall_filter_self.
  - by rewrite Ht1.
  - by rewrite Hc1.
  - done.
  - congruence.
  - rewrite Hfr. exact Hent.
  - rewrite Htm1, Hc1. f_equal. unfold fire. by rewrite (proj2 (Z.ltb_ge _ _) Hle).
  - assert (length due <= length q)%nat by apply length_filter. lia.
  - rewrite (bind_run _ _ _ _ _ Hrest). cbn [whenS].
    destruct (exit_ok (mkThread (thread_ th) (task_runner_ th) true) [] w2 Hlv2)
      as (w3 & Hex & Hr3 & He3 & Hl3 & Ht3).
    rewrite (bind_run _ _ _ _ _ Hex). exists w3. split_and!; try done. by rewrite Hr3, Hr2, Hr1.
Qed.

Lemma Join_runs_due_witness :
  exists w', Join true any_timer 2 5 false (mkThread 7 0 false) sample = Ret ((mkThread 7 0 true, true), w') /\
    ran w' = [terminate_name; 2] /\
    queue_entries_ (queues w') !! 0 = None /\ loops w' !! 0 = None /\ tls_message_loop w' !! 7 = None.
Proof.
  refine (Join_runs_due true any_timer 2 5 false (mkThread 7 0 false) sample_queue
            (mkLoop false false (Some 1200)) sample (fun _ => eq_refl) eq_refl sample_live _ sample_sorted
            _ _ _ _ eq_refl _ _ _).
  - repeat constructor; by eexists.
  - repeat constructor.
  - vm_compute. reflexivity.
  - vm_compute. split; congruence.
  - vm_compute. reflexivity.
  - discriminate.
  - simpl. lia.
  - lia.
Defined.
