(* ===== verification/HostCheck.v ===== *)
(** * Host names in certificates: net/http_cli/implement/ev/host_check.{h,cpp}

    A C string is the list of its characters before the NUL, and a pointer into
    it is an index.  [host_matches] is the rule of RFC 6125, section 6.4.3;
    [hostcheck_rfc6125] shows that [Curl_cert_hostcheck] decides it and stays
    inside its strings. *)

From stdpp Require Import base list numbers strings.
From Stdlib Require Import ZArith Lia.
From S2P Require Import Prelude.

(** ** host_check.h, host_check.cpp *)

Definition CURL_HOST_NOMATCH : Z := 0.
Definition CURL_HOST_MATCH : Z := 1.

Definition Curl_raw_toupper (c : Z) : Z :=
  match c with
  | 97 => 65 | 98 => 66 | 99 => 67 | 100 => 68 | 101 => 69 | 102 => 70 | 103 => 71
  | 104 => 72 | 105 => 73 | 106 => 74 | 107 => 75 | 108 => 76 | 109 => 77 | 110 => 78
  | 111 => 79 | 112 => 80 | 113 => 81 | 114 => 82 | 115 => 83 | 116 => 84 | 117 => 85
  | 118 => 86 | 119 => 87 | 120 => 88 | 121 => 89 | 122 => 90
  | _ => c
  end.

(** [*p], where [s] is what is left of the string at [p]. *)
Definition deref (s : bytes) : Z := match s with c :: _ => c | [] => 0 end.

Fixpoint Curl_raw_equal (first second : bytes) : bool :=
  match first, second with
  | a :: first', b :: second' =>
      if negb (Curl_raw_toupper a =? Curl_raw_toupper b) then
        Curl_raw_toupper (deref first) =? Curl_raw_toupper (deref second)
      else Curl_raw_equal first' second'
  | _, _ => Curl_raw_toupper (deref first) =? Curl_raw_toupper (deref second)
  end.

Fixpoint Curl_raw_nequal (first second : bytes) (max : nat) : bool :=
  match first, second, max with
  | a :: first', b :: second', S max' =>
      if negb (Curl_raw_toupper a =? Curl_raw_toupper b) then
        Curl_raw_toupper (deref first) =? Curl_raw_toupper (deref second)
      else Curl_raw_nequal first' second' max'
  | _, _, O => true
  | _, _, _ => Curl_raw_toupper (deref first) =? Curl_raw_toupper (deref second)
  end.

(** [strchr], for a character that is not NUL: the index of the first one. *)
Fixpoint strchr (s : bytes) (c : Z) : option nat :=
  match s with
  | [] => None
  | a :: s' => if a =? c then Some O else S <$> strchr s' c
  end.

Definition match_of (b : bool) : Z := if b then CURL_HOST_MATCH else CURL_HOST_NOMATCH.

(** The string at index [i]; a pointer before it is out of the object. *)
Definition str_at (s : bytes) (i : Z) : outcome bytes :=
  if decide (0 <= i <= zlen s) then Ret (drop (Z.to_nat i) s) else Undef "pointer out of the string".

(** A pattern whose wildcard counts: the indices of the wildcard and of the end
    of the first label. *)
Definition wildcard_enabled (pattern : bytes) (pattern_wildcard : nat) : option nat :=
  match strchr pattern 46 with
  | None => None
  | Some pattern_label_end =>
      if bool_decide (strchr (drop (S pattern_label_end) pattern) 46 = None)
         || bool_decide (pattern_label_end < pattern_wildcard)%nat
         || Curl_raw_nequal pattern (str "xn--") 4
      then None else Some pattern_label_end
  end.

Definition hostmatch (hostname pattern : bytes) : outcome Z :=
  match strchr pattern 42 with
  | None => Ret (match_of (Curl_raw_equal pattern hostname))
  | Some pattern_wildcard =>
      match wildcard_enabled pattern pattern_wildcard with
      | None => Ret (match_of (Curl_raw_equal pattern hostname))
      | Some pattern_label_end =>
          match strchr hostname 46 with
          | None => Ret CURL_HOST_NOMATCH
          | Some hostname_label_end =>
              if negb (Curl_raw_equal (drop pattern_label_end pattern) (drop hostname_label_end hostname))
              then Ret CURL_HOST_NOMATCH else
              if bool_decide (hostname_label_end < pattern_label_end)%nat then Ret CURL_HOST_NOMATCH else
              let prefixlen := pattern_wildcard in
              let suffixlen := u64 (Z.of_nat pattern_label_end - (Z.of_nat pattern_wildcard + 1)) in
              if negb (Curl_raw_nequal pattern hostname prefixlen) then Ret CURL_HOST_NOMATCH else
              let? tl := str_at hostname (Z.of_nat hostname_label_end - suffixlen) in
              Ret (match_of (Curl_raw_nequal (drop (S pattern_wildcard) pattern) tl (Z.to_nat suffixlen)))
          end
      end
  end.

(** A null pointer is [None]. *)
Definition Curl_cert_hostcheck (match_pattern hostname : option bytes) : outcome Z :=
  match match_pattern, hostname with
  | Some ((_ :: _) as p), Some ((_ :: _) as h) =>
      if Curl_raw_equal h p then Ret 1 else
      let? m := hostmatch h p in
      if m =? CURL_HOST_MATCH then Ret 1 else Ret 0
  | _, _ => Ret 0
  end.

(** ** The rule *)

(** Equal up to the case of ASCII letters. *)
Definition ci_same (a b : bytes) : Prop := Curl_raw_toupper <$> a = Curl_raw_toupper <$> b.

#[export] Instance ci_same_equiv : Equivalence ci_same.
Proof. unfold ci_same. split; intros ?; [done|done|]. intros b c H1 H2. congruence. Qed.

Definition no_char (c : Z) (s : bytes) : Prop := Forall (fun a => a <> c) s.

(** A wildcard in the left-most label stands for one or more characters of that
    label; there are at least two more labels, and the label is no A-label of an
    internationalised name. *)
Definition wildcard_matches (pattern host : bytes) : Prop :=
  exists pre suf rest pre' mid suf' rest',
    pattern = pre ++ [42] ++ suf ++ [46] ++ rest /\
    no_char 42 pre /\ no_char 46 pre /\ no_char 46 suf /\ 46 ∈ rest /\
    ~ ci_same (take 4 pattern) (str "xn--") /\
    host = pre' ++ mid ++ suf' ++ [46] ++ rest' /\
    ci_same pre pre' /\ ci_same suf suf' /\ ci_same rest rest' /\ mid <> [] /\ no_char 46 mid.

Definition host_matches (pattern host : bytes) : Prop :=
  pattern <> [] /\ host <> [] /\ (ci_same pattern host \/ wildcard_matches pattern host).

(** ** Lemmas *)

(** A C string. *)
Definition c_string (s : bytes) : Prop := no_char 0 s.

Lemma toupper_low v c : v < 65 -> Curl_raw_toupper c = v <-> c = v.
Proof.
  intros Hv. split; [|intros ->; unfold Curl_raw_toupper; repeat case_match; lia].
  unfold Curl_raw_toupper. repeat case_match; lia.
Qed.

Lemma ci_same_cons a b s r :
  ci_same (a :: s) (b :: r) <-> Curl_raw_toupper a = Curl_raw_toupper b /\ ci_same s r.
Proof. unfold ci_same. rewrite !fmap_cons. split; [by intros [= ? ?]|by intros [-> ->]]. Qed.

Lemma ci_same_app a b s r : length a = length b -> ci_same (a ++ s) (b ++ r) <-> ci_same a b /\ ci_same s r.
Proof.
  revert b. induction a as [|x a IH]; intros [|y b] Hl; try done; simpl.
  - split; [by split|by intros []].
  - rewrite !ci_same_cons, IH by (simpl in Hl; lia). tauto.
Qed.

Lemma ci_same_length a b : ci_same a b -> length a = length b.
Proof. intros H%(f_equal length). by rewrite !length_fmap in H. Qed.

Lemma ci_same_no_char c a b : c < 65 -> ci_same a b -> no_char c a -> no_char c b.
Proof.
  intros Hc. revert b. induction a as [|x a IH]; intros [|y b] Hs Ha; try done.
  apply ci_same_cons in Hs as [Hxy Hs]. apply Forall_cons in Ha as [Hx Ha].
  constructor; [|by apply IH]. intros ->. apply Hx. apply (toupper_low c); [done|].
  rewrite Hxy. by apply toupper_low.
Qed.

Lemma toupper_deref_nil b s : c_string (b :: s) ->
  (0 =? Curl_raw_toupper b) = false /\ (Curl_raw_toupper b =? 0) = false.
Proof.
  intros [Hb _]%Forall_cons. rewrite !Z.eqb_neq.
  assert (Curl_raw_toupper b <> 0); [|lia]. by rewrite toupper_low.
Qed.

Lemma raw_equal_spec a b : c_string a -> c_string b -> Curl_raw_equal a b = true <-> ci_same a b.
Proof.
  revert b. induction a as [|x a IH]; intros [|y b] Ha Hb; cbn [Curl_raw_equal deref];
    change (Curl_raw_toupper 0) with 0; [done|..].
  - rewrite (proj1 (toupper_deref_nil _ _ Hb)). done.
  - rewrite (proj2 (toupper_deref_nil _ _ Ha)). done.
  - apply Forall_cons in Ha as [_ Ha]. apply Forall_cons in Hb as [_ Hb].
    rewrite ci_same_cons. destruct (Z.eqb_spec (Curl_raw_toupper x) (Curl_raw_toupper y)) as [E|E]; simpl.
    + rewrite IH by done. tauto.
    + split; [done|tauto].
Qed.

Lemma raw_nequal_spec n a b :
  c_string a -> c_string b -> Curl_raw_nequal a b n = true <-> ci_same (take n a) (take n b).
Proof.
  revert a b. induction n as [|n IH]; intros [|x a] [|y b] Ha Hb; cbn [Curl_raw_nequal deref take];
    change (Curl_raw_toupper 0) with 0; try done.
  - rewrite (proj1 (toupper_deref_nil _ _ Hb)). done.
  - rewrite (proj2 (toupper_deref_nil _ _ Ha)). done.
  - apply Forall_cons in Ha as [_ Ha]. apply Forall_cons in Hb as [_ Hb].
    rewrite ci_same_cons. destruct (Z.eqb_spec (Curl_raw_toupper x) (Curl_raw_toupper y)) as [E|E]; simpl.
    + rewrite IH by done. tauto.
    + split; [done|tauto].
Qed.

Lemma strchr_app c pre post : no_char c pre -> strchr (pre ++ c :: post) c = Some (length pre).
Proof.
  induction 1 as [|a pre Ha _ IH]; simpl; [by rewrite Z.eqb_refl|].
  rewrite (proj2 (Z.eqb_neq _ _) Ha), IH. done.
Qed.

Lemma strchr_none c s : strchr s c = None <-> no_char c s.
Proof.
  unfold no_char. induction s as [|a s IH]; simpl; [done|]. rewrite Forall_cons.
  destruct (Z.eqb_spec a c); [split; [done|tauto]|]. rewrite fmap_None, IH. tauto.
Qed.

Lemma strchr_inv c s i :
  strchr s c = Some i -> exists pre post, s = pre ++ c :: post /\ no_char c pre /\ length pre = i.
Proof.
  revert i. induction s as [|a s IH]; intros i; simpl; [done|]. destruct (Z.eqb_spec a c) as [->|Ha].
  - intros [= <-]. exists [], s. split_and!; [done|constructor|done].
  - intros (j & Hj & ->)%fmap_Some. destruct (IH j Hj) as (pre & post & -> & Hn & <-).
    exists (a :: pre), post. split_and!; [done|by constructor|done].
Qed.

Lemma app_longer {A} (a b c d : list A) :
  a ++ b = c ++ d -> (length c <= length a)%nat -> exists k, a = c ++ k /\ d = k ++ b.
Proof.
  revert c. induction a as [|x a IH]; intros [|y c] H Hl; simpl in *; try lia.
  - exists []. by split.
  - exists (x :: a). by split.
  - injection H as -> H. destruct (IH c H ltac:(lia)) as (k & -> & ->). by exists k.
Qed.

(** ** Matching a wildcard *)

(** The whole comparison, on a pattern and a host that are cut at the wildcard
    and at the ends of their first labels. *)
Lemma hostmatch_cut pre suf rest hl hrest :
  let pattern := pre ++ 42 :: suf ++ 46 :: rest in
  let host := hl ++ 46 :: hrest in
  c_string pattern -> c_string host -> zlen pattern < 2 ^ 64 ->
  no_char 42 pre -> no_char 46 pre -> no_char 46 suf -> 46 ∈ rest ->
  ~ ci_same (take 4 pattern) (str "xn--") -> no_char 46 hl ->
  exists b, hostmatch host pattern = Ret (match_of b) /\
    (b = true <-> ci_same rest hrest /\ (length pre + S (length suf) <= length hl)%nat /\
       ci_same pre (take (length pre) hl) /\ ci_same suf (drop (length hl - length suf) hl)).
Proof.
  intros pattern host Hcp Hch Hlen Hp42 Hp46 Hs46 Hrest Hxn Hl46.
  assert (no_char 46 (pre ++ 42 :: suf)) as Hlab
    by (apply Forall_app; split; [done|by constructor]).
  assert (pattern = (pre ++ 42 :: suf) ++ 46 :: rest) as Hpat by (subst pattern; by rewrite <- app_assoc).
  assert (strchr pattern 42 = Some (length pre)) as Hw by (by apply strchr_app).
  assert (strchr pattern 46 = Some (length (pre ++ 42 :: suf))) as He by (rewrite Hpat; by apply strchr_app).
  assert (strchr host 46 = Some (length hl)) as Hh by (by apply strchr_app).
  set (e := length (pre ++ 42 :: suf)) in *.
  assert (e = length pre + S (length suf))%nat as Hlene by (unfold e; by rewrite length_app).
  assert (drop e pattern = 46 :: rest) as Hde by (rewrite Hpat; apply drop_app_length).
  assert (drop (S e) pattern = rest) as Hde1.
  { rewrite <- Nat.add_1_r, <- drop_drop, Hde. done. }
  assert (wildcard_enabled pattern (length pre) = Some e) as Hen.
  { unfold wildcard_enabled. rewrite He, Hde1.
    rewrite (bool_decide_false (strchr rest 46 = None)).
    2: { rewrite strchr_none. unfold no_char. rewrite Forall_forall. intros Hn. by apply (Hn 46). }
    rewrite (bool_decide_false (e < length pre)%nat) by lia. simpl.
    destruct (Curl_raw_nequal _ _ 4) eqn:Hx; [|done]. exfalso. apply Hxn.
    apply raw_nequal_spec in Hx; [done|done|]. repeat constructor; done. }
  unfold hostmatch. rewrite Hw, Hen, Hh, Hde. subst host. rewrite drop_app_length.
  assert (c_string (46 :: rest) /\ c_string (46 :: hrest)) as [Hc1 Hc2].
  { unfold c_string, no_char in *. rewrite Hpat in Hcp. apply Forall_app in Hcp as [_ ?], Hch as [_ ?]. by split. }
  pose proof (raw_equal_spec _ _ Hc1 Hc2) as Heq. rewrite ci_same_cons in Heq.
  destruct (Curl_raw_equal (46 :: rest) _); simpl negb; cbv iota;
    [|exists false; split; [done|]; split; [done|]; intros [? _]; apply Heq; tauto].
  case_bool_decide as Hlt; [exists false; split; [done|]; split; [done|]; lia|].
  pose proof (raw_nequal_spec (length pre) _ _ Hcp Hch) as Hpre.
  rewrite (take_app_le hl) in Hpre by lia. subst pattern. rewrite take_app_length in Hpre.
  destruct (Curl_raw_nequal _ _ (length pre)); simpl negb; cbv iota;
    [|exists false; split; [done|]; split; [done|]; intros (_ & _ & ? & _); apply Hpre; tauto].
  assert (u64 (Z.of_nat e - (Z.of_nat (length pre) + 1)) = Z.of_nat (length suf)) as ->.
  { unfold u64. rewrite Z.mod_small; [lia|]. unfold zlen in Hlen. rewrite Hpat, length_app in Hlen.
    fold e in Hlen. lia. }
  unfold str_at. rewrite decide_True by (unfold zlen; rewrite length_app; lia). simpl.
  rewrite Nat2Z.id. replace (Z.to_nat (Z.of_nat (length hl) - Z.of_nat (length suf)))
    with (length hl - length suf)%nat by lia.
  rewrite (drop_app_le hl) by lia. eexists. split; [reflexivity|].
  rewrite <- Nat.add_1_r, <- drop_drop, drop_app_length. change (drop 1 (42 :: suf ++ 46 :: rest)) with (suf ++ 46 :: rest).
  assert (c_string (suf ++ 46 :: rest) /\ c_string (drop (length hl - length suf) hl ++ 46 :: hrest)) as [Hc3 Hc4].
  { unfold c_string, no_char in *. apply Forall_app in Hcp as [_ Hcp]. apply Forall_cons in Hcp as [_ Hcp].
    apply Forall_app in Hch as [Hch _]. split; [done|]. apply Forall_app. split; [by apply Forall_drop|done]. }
  rewrite raw_nequal_spec, take_app_length by done.
  rewrite (take_app_length' (drop _ hl)) by (rewrite length_drop; lia).
  assert (ci_same rest hrest) by (by apply Heq). assert (ci_same pre (take (length pre) hl)) by (by apply Hpre).
  split; [intros ?; split_and!; try done; lia|tauto].
Qed.

Lemma elem_char c s : c ∈ s <-> ~ no_char c s.
Proof.
  unfold no_char. rewrite Forall_forall. split; [intros Hc Hn; by apply (Hn c)|].
  intros Hn. destruct (decide (c ∈ s)); [done|]. exfalso. apply Hn. by intros x Hx ->.
Qed.

(** A pattern whose wildcard counts, cut in its parts. *)
Lemma wildcard_enabled_inv pattern w e :
  c_string pattern -> strchr pattern 42 = Some w -> wildcard_enabled pattern w = Some e ->
  exists pre suf rest, pattern = pre ++ 42 :: suf ++ 46 :: rest /\
    no_char 42 pre /\ no_char 46 pre /\ no_char 46 suf /\ 46 ∈ rest /\
    ~ ci_same (take 4 pattern) (str "xn--").
Proof.
  intros Hc Hw He. unfold wildcard_enabled in He.
  destruct (strchr pattern 46) as [e'|] eqn:Hd; [|done].
  destruct (_ || _) eqn:Hg; [done|]. injection He as ->. rewrite !orb_false_iff in Hg.
  destruct Hg as [[Hr%bool_decide_eq_false Hlt%bool_decide_eq_false] Hxn].
  destruct (strchr_inv _ _ _ Hw) as (pre & post & Hp & Hp42 & <-).
  destruct (strchr_inv _ _ _ Hd) as (lab & rest & Hp' & Hl46 & <-).
  rewrite Hp in Hp'. destruct (app_longer lab (46 :: rest) pre (42 :: post)) as (k & -> & Hk); [done|lia|].
  apply Forall_app in Hl46 as [Hpre Hk46]. destruct k as [|a suf]; simplify_eq/=.
  apply Forall_cons in Hk46 as [_ Hs46]. exists pre, suf, rest. split_and!; try done.
  - apply elem_char. rewrite <- strchr_none. intros Hn. apply Hr. rewrite <- Hn. f_equal.
    rewrite length_app. simpl. replace (S (length pre + S (length suf)))
      with (length pre + (S (length suf) + 1))%nat by lia.
    rewrite <- !drop_drop, drop_app_length. simpl. by rewrite drop_app_length.
  - intros Hx. apply not_true_iff_false in Hxn. apply Hxn. apply raw_nequal_spec; [done| |exact Hx].
    repeat constructor; done.
Qed.

Lemma match_of_inj a b : Ret (match_of a) = Ret (match_of b) -> a = b.
Proof. by destruct a, b. Qed.

Lemma wildcard_hostmatch pattern host :
  c_string pattern -> c_string host -> zlen pattern < 2 ^ 64 ->
  wildcard_matches pattern host -> hostmatch host pattern = Ret (match_of true).
Proof.
  intros Hcp Hch Hlen (pre & suf & rest & pre' & mid & suf' & rest' & -> & Hp42 & Hp46 & Hs46 & Hr & Hxn &
    -> & Hpre & Hsuf & Hrest & Hmid & Hm46).
  pose proof (ci_same_length _ _ Hpre) as Hl1. pose proof (ci_same_length _ _ Hsuf) as Hl2.
  assert (pre' ++ mid ++ suf' ++ [46] ++ rest' = (pre' ++ mid ++ suf') ++ 46 :: rest') as Heq
    by (by rewrite <- !app_assoc).
  rewrite Heq in *. simpl app in *.
  destruct (hostmatch_cut pre suf rest (pre' ++ mid ++ suf') rest') as (b & -> & Hb); try done.
  - apply Forall_app. split; [by eapply ci_same_no_char; [|exact Hpre|]|].
    apply Forall_app. split; [done|by eapply ci_same_no_char; [|exact Hsuf|]].
  - destruct b; [done|]. exfalso. assert (false = true); [|done]. apply Hb.
    rewrite !length_app. destruct mid as [|m0 mid]; [done|]. simpl length.
    split_and!; [done|lia| |].
    + rewrite take_app_length' by done. done.
    + rewrite app_assoc, drop_app_length'; [done|]. rewrite length_app. simpl. lia.
Qed.

Lemma hostmatch_spec pattern host :
  c_string pattern -> c_string host -> zlen pattern < 2 ^ 64 ->
  exists b, hostmatch host pattern = Ret (match_of b) /\
    (b = true -> ci_same pattern host \/ wildcard_matches pattern host) /\
    (wildcard_matches pattern host -> b = true).
Proof.
  intros Hcp Hch Hlen.
  assert (exists b, hostmatch host pattern = Ret (match_of b) /\
    (b = true -> ci_same pattern host \/ wildcard_matches pattern host)) as (b & Hrun & Hb).
  { assert (Curl_raw_equal pattern host = true -> ci_same pattern host \/ wildcard_matches pattern host)
      as Heq by (rewrite raw_equal_spec by done; tauto).
    unfold hostmatch. destruct (strchr pattern 42) as [w|] eqn:Hw; [|by eexists].
    destruct (wildcard_enabled pattern w) as [e|] eqn:He; [|by eexists].
    destruct (wildcard_enabled_inv pattern w e Hcp Hw He)
      as (pre & suf & rest & -> & Hp42 & Hp46 & Hs46 & Hr & Hxn).
    destruct (strchr host 46) as [h|] eqn:Hh; [|by exists false].
    pose proof (strchr_inv _ _ _ Hh) as (hl & hrest & -> & Hl46 & <-).
    destruct (hostmatch_cut pre suf rest hl hrest) as (b & Hrun & Hb); try done.
    unfold hostmatch in Hrun. rewrite Hw, He, Hh in Hrun. exists b. split; [done|].
    intros (Hrest & Hle & Hpre & Hsuf)%Hb. right.
    exists pre, suf, rest, (take (length pre) hl),
      (take (length hl - length suf - length pre) (drop (length pre) hl)),
      (drop (length hl - length suf) hl), hrest.
    assert (take (length pre) hl ++ take (length hl - length suf - length pre) (drop (length pre) hl) ++
      drop (length hl - length suf) hl = hl) as Hhl.
    { assert (drop (length hl - length suf) hl =
        drop (length hl - length suf - length pre) (drop (length pre) hl)) as ->
        by (rewrite drop_drop; f_equal; lia).
      by rewrite !take_drop. }
    split_and!; try done.
    - rewrite <- Hhl at 1. by rewrite <- !app_assoc.
    - intros Hn%(f_equal length). rewrite length_take, length_drop in Hn. simpl in Hn. lia.
    - by apply Forall_take, Forall_drop. }
  exists b. split_and!; [done|done|]. intros Hwm.
  rewrite (wildcard_hostmatch pattern host Hcp Hch Hlen Hwm) in Hrun. by apply match_of_inj in Hrun.
Qed.

(** The check on C strings, as the rule. *)
Lemma hostcheck_spec pattern host :
  c_string pattern -> c_string host -> zlen pattern < 2 ^ 64 ->
  exists b, Curl_cert_hostcheck (Some pattern) (Some host) = Ret (match_of b) /\
    (b = true <-> host_matches pattern host).
Proof.
  intros Hcp Hch Hlen. unfold Curl_cert_hostcheck, host_matches.
  destruct pattern as [|p0 p]; [exists false; split; [done|]; split; [done|]; by intros []|].
  destruct host as [|h0 h]; [exists false; split; [done|]; split; [done|]; by intros (_ & ? & _)|].
  pose proof (raw_equal_spec _ _ Hch Hcp) as Heq. destruct (Curl_raw_equal _ _).
  - exists true. split; [done|]. split; [|done]. intros _. split_and!; [done|done|].
    left. symmetry. by apply Heq.
  - destruct (hostmatch_spec (p0 :: p) (h0 :: h) Hcp Hch Hlen) as (b & -> & Hb1 & Hb2).
    exists b. split; [by destruct b|]. split; [intros Hb; split_and!; [done|done|by apply Hb1]|].
    intros (_ & _ & [Hs|Hw]); [|by apply Hb2]. symmetry in Hs. apply Heq in Hs. done.
Qed.

(** ** Theorem *)

(** C8: [Curl_cert_hostcheck] decides the rule of RFC 6125 for every pattern and
    host name: it never reads out of its strings, and it answers 1 exactly when the
    names are equal up to case or the pattern's wildcard stands for one or more
    characters of the host's first label. *)
Theorem hostcheck_rfc6125 (pattern host : bytes) :
  c_string pattern -> c_string host -> zlen pattern < 2 ^ 64 ->
  exists r, Curl_cert_hostcheck (Some pattern) (Some host) = Ret r /\
    (r = CURL_HOST_MATCH \/ r = CURL_HOST_NOMATCH) /\
    (r = CURL_HOST_MATCH <-> host_matches pattern host).
Proof.
  intros Hp Hh Hl. destruct (hostcheck_spec pattern host Hp Hh Hl) as (b & -> & Hb).
  exists (match_of b). rewrite <- Hb. destruct b; simpl; (split; [done|]); split; tauto || done.
Qed.

Lemma hostcheck_rfc6125_witness :
  exists r, Curl_cert_hostcheck (Some (str "w*.Example.com")) (Some (str "www.example.COM")) = Ret r /\
    (r = CURL_HOST_MATCH \/ r = CURL_HOST_NOMATCH) /\
    (r = CURL_HOST_MATCH <-> host_matches (str "w*.Example.com") (str "www.example.COM")).
Proof.
  apply (hostcheck_rfc6125 (str "w*.Example.com") (str "www.example.COM")).
  - vm_compute. repeat constructor; discriminate.
  - vm_compute. repeat constructor; discriminate.
  - vm_compute. reflexivity.
Defined.

Example hostcheck_wildcard :
  Curl_cert_hostcheck (Some (str "w*.Example.com")) (Some (str "www.example.COM")) = Ret 1.
Proof. vm_compute. reflexivity. Qed.

Example hostcheck_two_labels :
  Curl_cert_hostcheck (Some (str "*.example.com")) (Some (str "a.b.example.com")) = Ret 0.
Proof. vm_compute. reflexivity. Qed.

Example hostcheck_too_wide :
  Curl_cert_hostcheck (Some (str "*.com")) (Some (str "example.com")) = Ret 0.
Proof. vm_compute. reflexivity. Qed.
