(* ===== verification/HostnameValidation.v ===== *)
(** * Checking the names of a certificate:
    net/http_cli/implement/ev/openssl_hostname_validation.{h,cpp}

    OpenSSL is a parameter: [OpenSSL] holds the functions the source calls and
    [OpenSSLLaws] that the length of an ASN.1 string is a non-negative [int].  Its
    documentation does not promise that a NUL follows the data of such a string,
    on which the source calls [strlen]: what is in memory after the data is left
    open, and [strlen] is undefined when there is no NUL in it.  A stack of names
    is the list of its elements. *)

From stdpp Require Import base list numbers strings.
From Stdlib Require Import ZArith Lia.
From S2P Require Import Prelude HostCheck.

Inductive HostnameValidationResult :=
| MatchFound | MatchNotFound | NoSANPresent | MalformedCertificate | Error.

#[export] Instance result_eq_dec : EqDecision HostnameValidationResult.
Proof. solve_decision. Defined.

(** [ASN1_STRING_get0_data] is the memory that can be read at the pointer: the
    data of the string and what follows it. *)
Class OpenSSL := {
  X509 : Type;
  X509_NAME_ENTRY : Type;
  ASN1_STRING : Type;
  GENERAL_NAME : Type;
  common_name_index : X509 -> Z;   (* X509_NAME_get_index_by_NID of the subject, NID_commonName, -1 *)
  X509_NAME_get_entry : X509 -> Z -> option X509_NAME_ENTRY;
  X509_NAME_ENTRY_get_data : X509_NAME_ENTRY -> option ASN1_STRING;
  ASN1_STRING_get0_data : ASN1_STRING -> bytes;
  ASN1_STRING_length : ASN1_STRING -> Z;
  subject_alt_names : X509 -> option (list GENERAL_NAME);   (* X509_get_ext_d2i *)
  GEN_DNS : Z;
  type : GENERAL_NAME -> Z;
  dNSName : GENERAL_NAME -> ASN1_STRING
}.

Class OpenSSLLaws (lib : OpenSSL) : Prop := {
  asn1_length a : 0 <= ASN1_STRING_length a < 2 ^ 31
}.

(** [strlen], and the C string at a pointer. *)
Definition strlen (mem : bytes) : outcome Z :=
  match strchr mem 0 with Some n => Ret (Z.of_nat n) | None => Undef "strlen: no NUL" end.
Definition c_str_at (mem : bytes) : bytes :=
  match strchr mem 0 with Some n => take n mem | None => mem end.

Section validate.
Context {lib : OpenSSL}.

Definition matches_common_name (hostname : bytes) (server_cert : X509) : outcome HostnameValidationResult :=
  let common_name_loc := common_name_index server_cert in
  if common_name_loc <? 0 then Ret Error else
  match X509_NAME_get_entry server_cert common_name_loc with
  | None => Ret Error
  | Some common_name_entry =>
      match X509_NAME_ENTRY_get_data common_name_entry with
      | None => Ret Error
      | Some common_name_asn1 =>
          let common_name_str := ASN1_STRING_get0_data common_name_asn1 in
          let? n := strlen common_name_str in
          if negb (u64 (ASN1_STRING_length common_name_asn1) =? n) then Ret MalformedCertificate else
          let? r := Curl_cert_hostcheck (Some (c_str_at common_name_str)) (Some hostname) in
          if r =? CURL_HOST_MATCH then Ret MatchFound else Ret MatchNotFound
      end
  end.

(** The loop over the names; it leaves with the first one that decides. *)
Fixpoint check_names (hostname : bytes) (names : list GENERAL_NAME) : outcome HostnameValidationResult :=
  match names with
  | [] => Ret MatchNotFound
  | current_name :: names' =>
      if type current_name =? GEN_DNS then
        let dns_name := ASN1_STRING_get0_data (dNSName current_name) in
        let? n := strlen dns_name in
        if negb (u64 (ASN1_STRING_length (dNSName current_name)) =? n) then Ret MalformedCertificate else
        let? r := Curl_cert_hostcheck (Some (c_str_at dns_name)) (Some hostname) in
        if r =? CURL_HOST_MATCH then Ret MatchFound else check_names hostname names'
      else check_names hostname names'
  end.

Definition matches_subject_alternative_name (hostname : bytes) (server_cert : X509)
  : outcome HostnameValidationResult :=
  match subject_alt_names server_cert with
  | None => Ret NoSANPresent
  | Some san_names => check_names hostname san_names
  end.

Definition ValidateHostname (hostname : option bytes) (server_cert : option X509)
  : outcome HostnameValidationResult :=
  match hostname, server_cert with
  | Some h, Some c =>
      let? result := matches_subject_alternative_name h c in
      if bool_decide (result = NoSANPresent) then matches_common_name h c else Ret result
  | _, _ => Ret Error
  end.

(** ** What counts as a match *)

Definition content (a : ASN1_STRING) : bytes :=
  take (Z.to_nat (ASN1_STRING_length a)) (ASN1_STRING_get0_data a).

(** A name is sound when no NUL hides in it and one follows it. *)
Definition sound (a : ASN1_STRING) : Prop :=
  c_string (content a) /\ ASN1_STRING_get0_data a !! Z.to_nat (ASN1_STRING_length a) = Some 0.

(** There is a NUL in the memory at a name, inside it or after it. *)
Definition terminated (a : ASN1_STRING) : Prop := 0 ∈ ASN1_STRING_get0_data a.

Definition names_host (hostname : bytes) (a : ASN1_STRING) : Prop :=
  sound a /\ host_matches (content a) hostname.

Definition common_name (cert : X509) : option ASN1_STRING :=
  if common_name_index cert <? 0 then None else
  X509_NAME_get_entry cert (common_name_index cert) ≫= X509_NAME_ENTRY_get_data.

(** One of the DNS names, with no unsound one before it. *)
Definition some_name (hostname : bytes) (names : list GENERAL_NAME) : Prop :=
  exists before n after, names = before ++ n :: after /\
    type n = GEN_DNS /\ names_host hostname (dNSName n) /\
    Forall (fun m => type m = GEN_DNS -> sound (dNSName m)) before.

Definition found (hostname : bytes) (cert : X509) : Prop :=
  match subject_alt_names cert with
  | Some names => some_name hostname names
  | None => exists a, common_name cert = Some a /\ names_host hostname a
  end.

(** The strings that are looked at. *)
Definition names_terminated (cert : X509) : Prop :=
  match subject_alt_names cert with
  | Some names => Forall (fun m => type m = GEN_DNS -> terminated (dNSName m)) names
  | None => forall a, common_name cert = Some a -> terminated a
  end.

(** ** Lemmas *)

Context {laws : OpenSSLLaws lib}.

(** Comparing the lengths finds a NUL in the content and a missing one after it,
    and otherwise the C string is the whole content. *)
Lemma strlen_content a :
  strlen (ASN1_STRING_get0_data a) = Undef "strlen: no NUL" /\ ~ terminated a /\ ~ sound a \/
  exists n, strlen (ASN1_STRING_get0_data a) = Ret n /\
    ((u64 (ASN1_STRING_length a) =? n) = true /\ sound a /\
       c_str_at (ASN1_STRING_get0_data a) = content a \/
     (u64 (ASN1_STRING_length a) =? n) = false /\ ~ sound a).
Proof.
  pose proof (asn1_length a) as Hl. unfold strlen, c_str_at, sound, content, terminated.
  set (mem := ASN1_STRING_get0_data a) in *. set (len := ASN1_STRING_length a) in *.
  destruct (strchr mem 0) as [i|] eqn:Hi.
  2: { apply strchr_none in Hi. assert (~ 0 ∈ mem) as Hm by (by intros ?%elem_char). left. split_and!; try done.
       intros [_ Hn]. by apply list_elem_of_lookup_2, Hm in Hn. }
  right. exists (Z.of_nat i). split; [done|]. destruct (strchr_inv _ _ _ Hi) as (pre & post & Hmem & Hpre & <-).
  unfold u64. rewrite Z.mod_small by lia. destruct (Z.eqb_spec len (Z.of_nat (length pre))) as [E|E].
  - left. rewrite E, Nat2Z.id, Hmem, take_app_length. split_and!; try done. by apply list_lookup_middle.
  - right. split; [done|]. intros [Hs Hn]. destruct (decide (length pre < Z.to_nat len)%nat) as [Hlt|Hge].
    + assert (take (Z.to_nat len) mem !! length pre = Some 0) as Hx.
      { rewrite lookup_take_lt by done. rewrite Hmem. by apply list_lookup_middle. }
      unfold c_string, no_char in Hs. rewrite Forall_lookup in Hs. by apply (Hs _ _ Hx).
    + rewrite Hmem, lookup_app_l in Hn by lia. unfold no_char in Hpre.
      rewrite Forall_lookup in Hpre. by apply (Hpre _ _ Hn).
Qed.

Lemma check_name hostname a :
  c_string hostname -> sound a ->
  exists r, Curl_cert_hostcheck (Some (content a)) (Some hostname) = Ret r /\
    ((r =? CURL_HOST_MATCH) = true <-> names_host hostname a).
Proof.
  intros Hh Hs. destruct (hostcheck_spec (content a) hostname) as (b & -> & Hb); [apply Hs|done| |].
  - unfold zlen, content. rewrite length_take. pose proof (asn1_length a). lia.
  - eexists. split; [reflexivity|]. unfold names_host. rewrite <- Hb. destruct b; simpl; tauto || done.
Qed.

Lemma some_name_nil hostname : ~ some_name hostname [].
Proof. intros ([|? ?] & ? & ? & [=] & _). Qed.

Lemma some_name_cons hostname m names :
  some_name hostname (m :: names) <->
  (type m = GEN_DNS /\ names_host hostname (dNSName m)) \/
  ((type m = GEN_DNS -> sound (dNSName m)) /\ some_name hostname names).
Proof.
  split.
  - intros ([|b before] & n & after & [= -> Hns] & Ht & Hn & Hb); [by left|right].
    apply Forall_cons in Hb as [Hb0 Hb]. split; [done|]. by exists before, n, after.
  - intros [[Ht Hn]|[Hs (before & n & after & -> & Ht & Hn & Hb)]].
    + by exists [], m, names.
    + exists (m :: before), n, after. split_and!; try done. by constructor.
Qed.

(** What is shown of a search: it finds a name exactly when [P], never answers that
    there are no alternative names, and answers when [T]. *)
Definition decides (o : outcome HostnameValidationResult) (P T : Prop) : Prop :=
  (o = Ret MatchFound <-> P) /\ o <> Ret NoSANPresent /\ (T -> exists r, o = Ret r).

Lemma decides_ret r (P T : Prop) :
  r <> NoSANPresent -> (r = MatchFound <-> P) -> decides (Ret r) P T.
Proof. intros Hn Hr. unfold decides. split_and!; [rewrite <- Hr; naive_solver|congruence|eauto]. Qed.

Lemma decides_undef w (P T : Prop) : ~ P -> ~ T -> decides (Undef w) P T.
Proof. intros HP HT. unfold decides. naive_solver. Qed.

Lemma check_names_spec hostname names :
  c_string hostname ->
  decides (check_names hostname names) (some_name hostname names)
    (Forall (fun m => type m = GEN_DNS -> terminated (dNSName m)) names).
Proof.
  intros Hh. induction names as [|m names IH]; cbn [check_names].
  { apply decides_ret; [done|]. split; [done|]. by intros ?%some_name_nil. }
  unfold decides. rewrite some_name_cons, Forall_cons. destruct (Z.eqb_spec (type m) GEN_DNS) as [Ht|Ht].
  2:{ destruct IH as (Hiff & Hn & Hr). split_and!; [|done|naive_solver]. rewrite Hiff.
      split; [intros ?; by right|]. intros [[? _]|[_ ?]]; done. }
  destruct (strlen_content (dNSName m)) as [(-> & Hnt & Hs)|(n & -> & [(Hl & Hs & ->)|(Hl & Hs)])];
    cbn [obind]; rewrite ?Hl; cbn [negb].
  - apply decides_undef; [|naive_solver]. intros [[_ [? _]]|[Hsd _]]; [done|]. by destruct Hs; apply Hsd.
  - destruct (check_name hostname (dNSName m) Hh Hs) as (x & -> & Hx); cbn [obind].
    destruct (x =? CURL_HOST_MATCH).
    + apply decides_ret; [done|]. split; [|done]. intros _. left. split; [done|by apply Hx].
    + destruct IH as (Hiff & Hn & Hr). split_and!; [|done|naive_solver]. rewrite Hiff.
      split; [by right|]. intros [[_ ?%Hx]|[_ ?]]; done.
  - apply decides_ret; [done|]. split; [done|].
    intros [[_ [? _]]|[Hsd _]]; [done|]. by destruct Hs; apply Hsd.
Qed.

Lemma common_name_spec hostname cert :
  c_string hostname ->
  decides (matches_common_name hostname cert)
    (exists a, common_name cert = Some a /\ names_host hostname a)
    (forall a, common_name cert = Some a -> terminated a).
Proof.
  intros Hh. unfold matches_common_name, common_name.
  assert (forall T, decides (Ret Error) (exists a, None = Some a /\ names_host hostname a) T) as Herr.
  { intros T. apply decides_ret; [done|]. split; [done|]. by intros (? & ? & _). }
  destruct (common_name_index cert <? 0); [apply Herr|].
  destruct (X509_NAME_get_entry _ _) as [e|]; cbn [mbind option_bind]; [|apply Herr].
  destruct (X509_NAME_ENTRY_get_data e) as [a|]; [|apply Herr].
  destruct (strlen_content a) as [(-> & Hnt & Hs)|(n & -> & [(Hl & Hs & ->)|(Hl & Hs)])];
    cbn [obind]; rewrite ?Hl; cbn [negb].
  - apply decides_undef; [|naive_solver]. by intros (a' & [= <-] & [? _]).
  - destruct (check_name hostname a Hh Hs) as (x & -> & Hx); cbn [obind]. destruct (x =? CURL_HOST_MATCH).
    + apply decides_ret; [done|]. split; [|done]. intros _. exists a. split; [done|by apply Hx].
    + apply decides_ret; [done|]. split; [done|]. intros (a' & [= <-] & ?%Hx). done.
  - apply decides_ret; [done|]. split; [done|]. by intros (a' & [= <-] & [? _]).
Qed.

Lemma ValidateHostname_spec (hostname : bytes) (cert : X509) :
  c_string hostname ->
  decides (ValidateHostname (Some hostname) (Some cert)) (found hostname cert) (names_terminated cert).
Proof.
  intros Hh. unfold ValidateHostname, matches_subject_alternative_name, found, names_terminated.
  destruct (subject_alt_names cert) as [names|].
  - pose proof (check_names_spec hostname names Hh) as (Hf & Hn & Hr).
    destruct (check_names hostname names) as [r| |]; cbn [obind]; try by split_and!.
    rewrite bool_decide_false by congruence. by split_and!.
  - cbn [obind]. rewrite bool_decide_true by done. apply (common_name_spec hostname cert Hh).
Qed.

(** ** Theorem *)

(** C15: [ValidateHostname] answers [MatchFound] exactly when the certificate names
    the host: when it has alternative names, one of the DNS names matches and
    neither it nor a DNS name before it has a NUL inside or lacks one right after
    it; otherwise the same of its common name.  A certificate with alternative
    names is never accepted for its common name.  And it does answer when there is
    a NUL in the memory at each name it looks at; without one [strlen] runs past
    what may be read. *)
Theorem ValidateHostname_found_iff (hostname : bytes) (cert : X509) :
  c_string hostname ->
  (ValidateHostname (Some hostname) (Some cert) = Ret MatchFound <-> found hostname cert) /\
  ValidateHostname (Some hostname) (Some cert) <> Ret NoSANPresent /\
  (names_terminated cert -> exists r, ValidateHostname (Some hostname) (Some cert) = Ret r).
Proof. apply ValidateHostname_spec. Qed.
End validate.

(** ** A concrete library: a string is its content, a certificate its names *)

(** A string is its data and what follows it in memory. *)
Definition sample_ssl : OpenSSL := {|
  X509 := option (list (Z * (bytes * bytes))) * option (bytes * bytes);
  X509_NAME_ENTRY := bytes * bytes; ASN1_STRING := bytes * bytes; GENERAL_NAME := Z * (bytes * bytes);
  common_name_index c := match snd c with Some _ => 0 | None => -1 end;
  X509_NAME_get_entry c i := snd c;
  X509_NAME_ENTRY_get_data e := Some e;
  ASN1_STRING_get0_data a := take 100 a.1 ++ a.2;
  ASN1_STRING_length a := zlen (take 100 a.1);
  subject_alt_names c := fst c;
  GEN_DNS := 2;
  type := fst;
  dNSName := snd
|}.

#[export] Instance sample_laws : OpenSSLLaws sample_ssl.
Proof. constructor; intros a; simpl. unfold zlen. rewrite length_take. lia. Qed.

(** The second DNS name matches; the common name is not looked at. *)
Definition sample_cert : @X509 sample_ssl :=
  (Some [(1, (str "admin@example.com", [])); (2, (str "example.com", [0])); (2, (str "*.example.com", [0; 7]))],
   Some (str "other", [])).

Lemma ValidateHostname_found_iff_witness :
  ((@ValidateHostname sample_ssl (Some (str "www.example.com")) (Some sample_cert) = Ret MatchFound <->
     @found sample_ssl (str "www.example.com") sample_cert) /\
   @ValidateHostname sample_ssl (Some (str "www.example.com")) (Some sample_cert) <> Ret NoSANPresent /\
   (@names_terminated sample_ssl sample_cert ->
    exists r, @ValidateHostname sample_ssl (Some (str "www.example.com")) (Some sample_cert) = Ret r)) /\
  @names_terminated sample_ssl sample_cert.
Proof.
  split.
  - apply (@ValidateHostname_found_iff sample_ssl sample_laws (str "www.example.com") sample_cert).
    vm_compute. repeat constructor; discriminate.
  - constructor; [intros [=]|constructor; [intros _|constructor; [intros _|constructor]]];
      vm_compute; repeat constructor.
Defined.

Example ValidateHostname_found :
  @ValidateHostname sample_ssl (Some (str "www.example.com")) (Some sample_cert) = Ret MatchFound.
Proof. vm_compute. reflexivity. Qed.

(** A NUL hidden in a name makes the certificate malformed. *)
Example ValidateHostname_nul :
  @ValidateHostname sample_ssl (Some (str "bank.com"))
    (Some (Some [(2, (str "bank.com" ++ [0] ++ str ".evil.org", [0]))], None)) = Ret MalformedCertificate.
Proof. vm_compute. reflexivity. Qed.

(** But not when a name before it matches: the loop leaves with the first answer. *)
Lemma malformed_after_match_accepted :
  @ValidateHostname sample_ssl (Some (str "bank.com"))
    (Some (Some [(2, (str "bank.com", [0])); (2, (str "a" ++ [0] ++ str ".evil.org", [0]))], None)) = Ret MatchFound.
Proof. vm_compute. reflexivity. Qed.

(** Data that is not followed by a NUL: read as malformed when one comes later,
    undefined when none does. *)
Lemma unterminated_name :
  @ValidateHostname sample_ssl (Some (str "h")) (Some (Some [(2, (str "h", [7; 0]))], None)) = Ret MalformedCertificate /\
  @ValidateHostname sample_ssl (Some (str "h")) (Some (Some [(2, (str "h", [7]))], None)) = Undef "strlen: no NUL".
Proof. split; vm_compute; reflexivity. Qed.
