(* ===== verification/Sync.v ===== *)
(** * Synchronisation: wtf/sync/semaphore.{h,cpp} and waitable_event.{h,cpp}

    [WinSemaphore] is what Windows offers: the functions of the source with their
    documented behaviour as the laws of [WinSemaphoreLaws].  [Semaphore] is the
    class of the source over it (the OS_WIN branch), and [SemaphoreSpec] what a
    client may rely on: a counter.

    [OneOffWaitableEvent] is a machine of threads: a step is what a thread does
    while it holds the mutex.  [no_lost_signal] shows that when a signal is
    pending while threads are blocked some thread is awake, and what its next step
    does: it ends its wait and clears the flag, as a wait let go by the signal or,
    when the wait has timed out, as one that drops it ([timeout_loses_signal]). *)

From stdpp Require Import base list numbers strings gmap.
From Stdlib Require Import ZArith Lia.
From S2P Require Import Prelude Time.

(** ** semaphore.cpp *)

Definition LONG_MAX : Z := 2 ^ 31 - 1.

(** A semaphore object of Windows. *)
Class WinSemaphore := {
  HANDLE : Type;
  CreateSemaphore : Z -> Z -> option HANDLE;       (* initial and maximum count *)
  wait_now : HANDLE -> bool * HANDLE;              (* WaitForSingleObject(h, 0) == WAIT_OBJECT_0 *)
  ReleaseSemaphore : HANDLE -> Z -> HANDLE
}.

(** The documentation: a semaphore has a count from zero to its maximum; it can
    be created with a count in that range; a wait that does not block succeeds
    when the count is positive and takes one; a release adds to the count unless
    that would exceed the maximum. *)
Class WinSemaphoreLaws (win : WinSemaphore) := {
  sem_count : HANDLE -> Z;
  sem_max : HANDLE -> Z;
  sem_range h : 0 <= sem_count h <= sem_max h;
  create_ok c m : 0 <= c <= m -> 0 < m ->
    exists h, CreateSemaphore c m = Some h /\ sem_count h = c /\ sem_max h = m;
  create_bad c m : ~ (0 <= c <= m /\ 0 < m) -> CreateSemaphore c m = None;
  wait_result h : fst (wait_now h) = bool_decide (0 < sem_count h);
  wait_count h : sem_count (snd (wait_now h)) = Z.max 0 (sem_count h - 1);
  wait_max h : sem_max (snd (wait_now h)) = sem_max h;
  release_count h n : 0 < n ->
    sem_count (ReleaseSemaphore h n) =
      if decide (sem_count h + n <= sem_max h) then sem_count h + n else sem_count h;
  release_max h n : sem_max (ReleaseSemaphore h n) = sem_max h
}.

Section semaphore.
Context {win : WinSemaphore}.

(** [PlatformSemaphore]: its handle, null when creation failed. *)
Record PlatformSemaphore := mkSem { sem_ : option HANDLE }.

(** The count is a uint32_t passed as a LONG. *)
Definition PlatformSemaphore_ctor (count : Z) : PlatformSemaphore :=
  mkSem (CreateSemaphore (i32 count) LONG_MAX).

Definition PlatformSemaphore_IsValid (s : PlatformSemaphore) : bool := bool_decide (is_Some (sem_ s)).

Definition PlatformSemaphore_TryWait (s : PlatformSemaphore) : bool * PlatformSemaphore :=
  match sem_ s with
  | None => (false, s)
  | Some h => let '(r, h') := wait_now h in (r, mkSem (Some h'))
  end.

Definition PlatformSemaphore_Signal (s : PlatformSemaphore) : PlatformSemaphore :=
  match sem_ s with
  | None => s
  | Some h => mkSem (Some (ReleaseSemaphore h 1))
  end.

(** [~PlatformSemaphore] closes the handle, if there is one, and forgets it. *)
Definition PlatformSemaphore_dtor (s : PlatformSemaphore) : PlatformSemaphore := mkSem None.

(** [Semaphore] holds one and forwards. *)
Abbreviation Semaphore := PlatformSemaphore.
Definition Semaphore_ctor (count : Z) : Semaphore := PlatformSemaphore_ctor count.
Definition Semaphore_IsValid (s : Semaphore) : bool := PlatformSemaphore_IsValid s.
Definition TryWait (s : Semaphore) : bool * Semaphore := PlatformSemaphore_TryWait s.
Definition Signal (s : Semaphore) : Semaphore := PlatformSemaphore_Signal s.
End semaphore.
Arguments PlatformSemaphore : clear implicits.
Arguments PlatformSemaphore {win}.

(** What a client relies on: [is_sem s c], a valid semaphore at count [c]. *)
Class SemaphoreSpec (S : Type) (ctor : Z -> S) (valid : S -> bool) (try : S -> bool * S) (signal : S -> S) := {
  is_sem : S -> Z -> Prop;
  is_sem_range s c : is_sem s c -> 0 <= c <= LONG_MAX;
  is_sem_unique s c c' : is_sem s c -> is_sem s c' -> c = c';
  is_sem_ctor c : 0 <= c <= LONG_MAX -> is_sem (ctor c) c;
  is_sem_valid s c : is_sem s c -> valid s = true;
  is_sem_take s c : is_sem s c -> 0 < c -> exists s', try s = (true, s') /\ is_sem s' (c - 1);
  is_sem_fail s : is_sem s 0 -> exists s', try s = (false, s') /\ is_sem s' 0;
  is_sem_signal s c : is_sem s c -> c < LONG_MAX -> is_sem (signal s) (c + 1)
}.

(** The semaphore of the source is such a counter on any Windows that keeps to
    its documentation. *)
#[export] Instance Semaphore_spec (win : WinSemaphore) (laws : WinSemaphoreLaws win) :
  SemaphoreSpec PlatformSemaphore Semaphore_ctor Semaphore_IsValid TryWait Signal.
Proof.
  unshelve eapply (Build_SemaphoreSpec _ _ _ _ _
    (fun s c => exists h, sem_ s = Some h /\ sem_count h = c /\ sem_max h = LONG_MAX)).
  - intros s c (h & _ & <- & Hm). pose proof (sem_range h). lia.
  - intros s c c' (h & Hh & <- & _) (h' & Hh' & <- & _). congruence.
  - intros c Hc. unfold Semaphore_ctor, PlatformSemaphore_ctor, i32. unfold LONG_MAX in *.
    rewrite Z.mod_small by lia. replace (c + 2 ^ 31 - 2 ^ 31) with c by lia.
    destruct (create_ok c (2 ^ 31 - 1)) as (h & -> & ? & ?); [lia|lia|]. by exists h.
  - intros s c (h & Hh & _). unfold Semaphore_IsValid, PlatformSemaphore_IsValid. rewrite Hh. done.
  - intros s c (h & Hh & <- & Hm) Hc. unfold TryWait, PlatformSemaphore_TryWait. rewrite Hh.
    pose proof (wait_result h) as Hr. pose proof (wait_count h) as Hc'. pose proof (wait_max h) as Hm'.
    destruct (wait_now h) as [r h']. simpl in *. subst r. rewrite bool_decide_true by done.
    eexists. split; [reflexivity|]. exists h'. split_and!; [done|lia|lia].
  - intros s (h & Hh & Hc & Hm). unfold TryWait, PlatformSemaphore_TryWait. rewrite Hh.
    pose proof (wait_result h) as Hr. pose proof (wait_count h) as Hc'. pose proof (wait_max h) as Hm'.
    destruct (wait_now h) as [r h']. simpl in *. subst r. rewrite bool_decide_false by lia.
    eexists. split; [reflexivity|]. exists h'. split_and!; [done|lia|lia].
  - intros s c (h & Hh & <- & Hm) Hc. unfold Signal, PlatformSemaphore_Signal. rewrite Hh.
    eexists. split; [reflexivity|]. rewrite release_count, release_max by lia.
    rewrite decide_True by lia. done.
Defined.

(** A Windows that is just counters. *)
Definition counter (h : N * positive) : Z := Z.min (Z.of_N (fst h)) (Zpos (snd h)).

Definition counting : WinSemaphore := {|
  HANDLE := N * positive;
  CreateSemaphore c m :=
    if decide (0 <= c <= m /\ 0 < m) then Some (Z.to_N c, Z.to_pos m) else None;
  wait_now h := (bool_decide (0 < counter h), (Z.to_N (counter h - 1), snd h));
  ReleaseSemaphore h n :=
    if decide (counter h + n <= Zpos (snd h)) then (Z.to_N (counter h + n), snd h) else h
|}.

Definition counting_laws : WinSemaphoreLaws counting.
Proof.
  unshelve eapply (Build_WinSemaphoreLaws counting counter (fun h => Zpos (snd h))); simpl; unfold counter.
  - intros [c m]. cbn [fst snd]. lia.
  - intros c m Hc Hm. rewrite decide_True by lia. eexists. split; [reflexivity|]. simpl.
    rewrite Z2Pos.id by lia. lia.
  - intros c m H. by rewrite decide_False.
  - done.
  - intros [c m]. cbn [fst snd]. lia.
  - done.
  - intros [c m] n Hn. simpl. case_decide; simpl; lia.
  - intros [c m] n. simpl. by case_decide.
Defined.

(** ** waitable_event.cpp *)

(** What a thread in [WaitWithTimeout] remembers. *)
Record TimedWait := mkTimed { start : TimePoint.t; timeout : TimeDelta.t; wait_remaining : TimeDelta.t }.

(** A thread inside the condition variable, or on its way out of it with the
    result [cv_status::timeout] or not; [None] for a wait without a timeout. *)
Inductive WaitPc :=
| Blocked (tw : option TimedWait)
| Woken (tw : option TimedWait) (timed_out : bool).

(** The event with the threads that wait for it.  [signals] counts the calls of
    [Signal], [released] the waits that returned because of one. *)
Record Event := mkEvent {
  signaled_ : bool;
  waiting : gmap Z WaitPc;
  time : Z;
  signals : nat;
  released : nat
}.

Definition new_event (now : Z) : Event := mkEvent false ∅ now 0 0.

Definition eta_Event (e : Event) : Event :=
  mkEvent (signaled_ e) (waiting e) (time e) (signals e) (released e).
Definition with_signaled : bool -> Event -> Event := ltac:(build_setter eta_Event signaled_).
Definition with_waiting : gmap Z WaitPc -> Event -> Event := ltac:(build_setter eta_Event waiting).
Definition with_time : Z -> Event -> Event := ltac:(build_setter eta_Event time).
Definition with_signals : nat -> Event -> Event := ltac:(build_setter eta_Event signals).
Definition with_released : nat -> Event -> Event := ltac:(build_setter eta_Event released).

(** [cv_.notify_one()] wakes thread [pick]. *)
Definition notify_one (pick : option Z) : M Event unit :=
  updS (fun e =>
    match pick ≫= fun t => waiting e !! t with
    | Some (Blocked tw) => with_waiting (<[default 0 pick := Woken tw false]> (waiting e)) e
    | _ => e
    end).

Definition Event_Signal (pick : option Z) : M Event unit :=
  do! updS (with_signaled true) in
  do! updS (fun e => with_signals (S (signals e)) e) in
  notify_one pick.

Definition Event_Reset : M Event unit := updS (with_signaled false).

Definition IsSignaled : M Event bool := getS signaled_.

(** Leaving: the scope guard clears the flag. *)
Definition leave (t : Z) (by_signal : bool) : M Event unit :=
  do! updS (with_signaled false) in
  updS (fun e => with_released (if by_signal then S (released e) else released e)
                   (with_waiting (delete t (waiting e)) e)).

Definition block (t : Z) (tw : option TimedWait) : M Event unit :=
  updS (fun e => with_waiting (<[t := Blocked tw]> (waiting e)) e).

(** [Wait] up to the next time thread [t] gives up the mutex, from its start and
    from each return of [cv_.wait]; true when it returns. *)
Definition Wait (t : Z) : M Event bool :=
  let! s := getS signaled_ in
  if (s : bool) then do! leave t true in retS true
  else do! block t None in retS false.

Definition event_now : M Event TimePoint.t := getS (fun e => TimePoint.mk (time e)).

(** [WaitWithTimeout], from its start and from each return of [cv_.wait_for]; the
    result when it returns. *)
Definition WaitWithTimeout (t : Z) (timeout : TimeDelta.t) : M Event (option bool) :=
  let! s := getS signaled_ in
  if (s : bool) then do! leave t true in retS (Some false) else
  let! start := event_now in
  do! block t (Some (mkTimed start timeout timeout)) in
  retS None.

Definition WaitWithTimeout_resume (debug : bool) (t : Z) (tw : TimedWait) (timed_out : bool)
  : M Event (option bool) :=
  if timed_out then do! leave t false in retS (Some true) else
  let! s := getS signaled_ in
  if (s : bool) then do! leave t true in retS (Some false) else
  let! now := event_now in
  do! checkS (negb debug || TimePoint.geb now (start tw)) "now >= start" in
  let! elapsed := liftS (TimePoint.sub now (start tw)) in
  if TimeDelta.geb elapsed (timeout tw) then do! leave t false in retS (Some true) else
  let! remaining := liftS (TimeDelta.sub (timeout tw) elapsed) in
  do! block t (Some (mkTimed (start tw) (timeout tw) remaining)) in
  retS None.

(** *** The machine *)

Definition is_blocked (pc : WaitPc) : bool := match pc with Blocked _ => true | _ => false end.

Inductive event_step (debug : bool) : Event -> Event -> Prop :=
| ev_signal pick e e' :
    (* a waiting thread is picked when there is one *)
    (pick = None -> forall t pc, waiting e !! t = Some pc -> is_blocked pc = false) ->
    (forall t, pick = Some t -> is_blocked <$> waiting e !! t = Some true) ->
    Event_Signal pick e = Ret (tt, e') -> event_step debug e e'
| ev_reset e e' : Event_Reset e = Ret (tt, e') -> event_step debug e e'
| ev_wait t r e e' : waiting e !! t = None -> Wait t e = Ret (r, e') -> event_step debug e e'
| ev_resume t b r e e' :
    waiting e !! t = Some (Woken None b) -> Wait t e = Ret (r, e') -> event_step debug e e'
| ev_wait_timeout t d r e e' :
    waiting e !! t = None -> WaitWithTimeout t d e = Ret (r, e') -> event_step debug e e'
| ev_resume_timeout t tw b r e e' :
    waiting e !! t = Some (Woken (Some tw) b) ->
    WaitWithTimeout_resume debug t tw b e = Ret (r, e') -> event_step debug e e'
| ev_spurious t tw e :
    waiting e !! t = Some (Blocked tw) ->
    event_step debug e (with_waiting (<[t := Woken tw false]> (waiting e)) e)
| ev_timeout t tw e :
    waiting e !! t = Some (Blocked (Some tw)) ->
    event_step debug e (with_waiting (<[t := Woken (Some tw) true]> (waiting e)) e)
| ev_time d e : event_step debug e (with_time (time e + Z.of_N d) e).

Inductive event_reachable (debug : bool) (now : Z) : Event -> Prop :=
| ev_new : event_reachable debug now (new_event now)
| ev_step e e' : event_reachable debug now e -> event_step debug e e' -> event_reachable debug now e'.

(** A pending signal with a thread that waits has a thread awake to take it; and
    every wait that was let go used up a signal of its own. *)
Record event_inv (e : Event) : Prop := {
  ei_awake t pc : signaled_ e = true -> waiting e !! t = Some pc -> is_blocked pc = true ->
    exists t' pc', waiting e !! t' = Some pc' /\ is_blocked pc' = false;
  ei_untimed t : waiting e !! t <> Some (Woken None true);
  ei_count : (released e + (if signaled_ e then 1 else 0) <= signals e)%nat
}.

Lemma untimed_insert (w : gmap Z WaitPc) t pc :
  pc <> Woken None true -> (forall u, w !! u <> Some (Woken None true)) ->
  forall u, <[t := pc]> w !! u <> Some (Woken None true).
Proof. intros Hpc Hw u. destruct (decide (u = t)) as [->|]; simplify_map_eq; [congruence|done]. Qed.

Lemma untimed_delete (w : gmap Z WaitPc) t :
  (forall u, w !! u <> Some (Woken None true)) -> forall u, delete t w !! u <> Some (Woken None true).
Proof. intros Hw u. destruct (decide (u = t)) as [->|]; simplify_map_eq; done. Qed.

Lemma signal_inv pick e e' :
  event_inv e ->
  (pick = None -> forall t pc, waiting e !! t = Some pc -> is_blocked pc = false) ->
  (forall t, pick = Some t -> is_blocked <$> waiting e !! t = Some true) ->
  Event_Signal pick e = Ret (tt, e') -> event_inv e'.
Proof.
  intros [Ha Hut Hc] Hn Hp [= <-]. destruct pick as [t|]; simpl.
  - specialize (Hp t eq_refl). destruct (waiting e !! t) as [pc|] eqn:Hpc; [|done].
    injection Hp as Hb. destruct pc as [tw|]; [|done]. split; simpl.
    + intros u pc _ Hu Hbl. exists t, (Woken tw false). split; [by simplify_map_eq|done].
    + by apply untimed_insert.
    + destruct (signaled_ e); lia.
  - split; simpl; [|done|].
    + intros u pc _ Hu Hbl. by rewrite (Hn eq_refl u pc Hu) in Hbl.
    + destruct (signaled_ e); lia.
Qed.

(** Clearing the flag keeps the invariant, as long as a release had a signal. *)
Lemma leave_inv t b e :
  event_inv e -> (b = true -> signaled_ e = true) ->
  wlp (fun _ => True) (leave t b) (fun _ e' => event_inv e') e.
Proof.
  intros [Ha Hut Hc] Hb. unfold leave. do 3 wp_step. split; simpl; [done|by apply untimed_delete|].
  destruct b; [rewrite Hb in Hc by done|destruct (signaled_ e)]; lia.
Qed.

Lemma block_inv t tw e : event_inv e -> signaled_ e = false -> 
  wlp (fun _ => True) (block t tw) (fun _ e' => event_inv e') e.
Proof.
  intros [Ha Hut Hc] Hs. unfold block. wp_step. split; simpl; [by rewrite Hs|by apply untimed_insert|done].
Qed.

Lemma wlp_then {A B} (m : M Event A) (b : B) (P : Event -> Prop) e :
  wlp (fun _ => True) m (fun _ => P) e ->
  wlp (fun _ => True) (do! m in retS b) (fun _ => P) e.
Proof. intros H. wp_step. eapply wlp_mono; [exact H|]. intros ? e' He. by wp_step. Qed.

Lemma Wait_inv t e : event_inv e -> wlp (fun _ => True) (Wait t) (fun _ e' => event_inv e') e.
Proof.
  intros H. unfold Wait. do 2 wp_step. destruct (signaled_ e) eqn:Hs; apply wlp_then.
  - by apply leave_inv.
  - by apply block_inv.
Qed.

Lemma WaitWithTimeout_inv t d e :
  event_inv e -> wlp (fun _ => True) (WaitWithTimeout t d) (fun _ e' => event_inv e') e.
Proof.
  intros H. unfold WaitWithTimeout, event_now. do 2 wp_step. destruct (signaled_ e) eqn:Hs.
  - by apply wlp_then, leave_inv.
  - do 2 wp_step. by apply wlp_then, block_inv.
Qed.

Lemma resume_inv debug t tw b e :
  event_inv e ->
  wlp (fun _ => True) (WaitWithTimeout_resume debug t tw b) (fun _ e' => event_inv e') e.
Proof.
  intros H. unfold WaitWithTimeout_resume, event_now.
  destruct b; [by apply wlp_then, leave_inv|]. do 2 wp_step. destruct (signaled_ e) eqn:Hs.
  { by apply wlp_then, leave_inv. }
  do 6 wp_step; [|done]. destruct (TimeDelta.geb _ _); [by apply wlp_then, leave_inv|].
  wp_step. wp_step; [|done]. by apply wlp_then, block_inv.
Qed.

Lemma event_reachable_inv debug now e : event_reachable debug now e -> event_inv e.
Proof.
  induction 1 as [|e e' _ IH Hs]; [by split|].
  destruct Hs as [pick e e' Hn Hp Hr|e e' Hr|t r e e' _ Hr|t b r e e' _ Hr|t d r e e' _ Hr
    |t tw b r e e' _ Hr|t tw e Hb|t tw e Hb|d e].
  - by eapply signal_inv.
  - injection Hr as <-. destruct IH. split; simpl; [done|done|]. destruct (signaled_ e); lia.
  - exact (wlp_run _ _ _ _ _ _ (Wait_inv t e IH) Hr).
  - exact (wlp_run _ _ _ _ _ _ (Wait_inv t e IH) Hr).
  - exact (wlp_run _ _ _ _ _ _ (WaitWithTimeout_inv t d e IH) Hr).
  - exact (wlp_run _ _ _ _ _ _ (resume_inv debug t tw b e IH) Hr).
  - destruct IH as [_ Hut Hc]. split; [|by apply untimed_insert|done]. intros u pc _ _ _.
    exists t, (Woken tw false). split; [apply lookup_insert_eq|done].
  - destruct IH as [_ Hut Hc]. split; [|by apply untimed_insert|done]. intros u pc _ _ _.
    exists t, (Woken (Some tw) true). split; [apply lookup_insert_eq|done].
  - by destruct IH.
Qed.

(** The next step of thread [t], on its way out of the condition variable. *)
Definition resume (debug : bool) (t : Z) (tw : option TimedWait) (timed_out : bool) : M Event unit :=
  match tw with
  | None => let! _ := Wait t in retS tt
  | Some tw => let! _ := WaitWithTimeout_resume debug t tw timed_out in retS tt
  end.

(** The event when thread [t] has left its wait. *)
Definition left_wait (t : Z) (by_signal : bool) (e : Event) : Event :=
  with_released (if by_signal then S (released e) else released e)
    (with_waiting (delete t (waiting e)) (with_signaled false e)).

(** With the flag set, the next step ends the wait. *)
Lemma resume_leaves debug t tw b e :
  signaled_ e = true -> (tw = None -> b = false) ->
  resume debug t tw b e = Ret (tt, left_wait t (negb b) e).
Proof.
  intros Hs Hb. unfold resume. destruct tw as [tw|].
  - unfold WaitWithTimeout_resume. destruct b; [done|]. unfold bindS, getS. by rewrite Hs.
  - rewrite (Hb eq_refl). unfold Wait, bindS, getS. by rewrite Hs.
Qed.

(** C16: a signal of a [OneOffWaitableEvent] is not left lying while threads sleep.
    In every reachable state with the flag set and a thread blocked in a wait,
    some thread is awake, and its next step ends its wait and clears the flag:
    the wait is let go by the signal, or, when it is a wait with a timeout that has
    timed out, returns without the signal, which is then gone.  And signals are
    not duplicated: the waits let go by one, with the pending one, are at most as
    many as the calls of [Signal]. *)
Theorem no_lost_signal (debug : bool) (now : Z) (e : Event) :
  event_reachable debug now e ->
  (forall t tw, signaled_ e = true -> waiting e !! t = Some (Blocked tw) ->
     exists t' tw' timed_out, waiting e !! t' = Some (Woken tw' timed_out) /\
       (timed_out = true -> tw' <> None) /\
       exists e', resume debug t' tw' timed_out e = Ret (tt, e') /\
         waiting e' = delete t' (waiting e) /\ signaled_ e' = false /\
         released e' = if timed_out then released e else S (released e)) /\
  (released e + (if signaled_ e then 1 else 0) <= signals e)%nat.
Proof.
  intros [Ha Hut Hc]%event_reachable_inv. split; [|done]. intros t tw Hs Ht.
  destruct (Ha t _ Hs Ht eq_refl) as (t' & [|tw' b] & Ht' & Hb'); [done|].
  assert (tw' = None -> b = false) as Hb by (intros ->; destruct b; [by apply Hut in Ht'|done]).
  exists t', tw', b. split; [done|]. split; [intros -> Hn; by specialize (Hb Hn)|].
  eexists. split; [by apply resume_leaves|]. split_and!; [done..|]. by destruct b.
Qed.

(** Threads 1 and 2 wait, thread 1 is woken by a signal. *)
Definition sample_event : Event :=
  mkEvent true (<[1 := Woken None false]> (<[2 := Blocked None]> ∅)) 0 1 0.

Lemma sample_event_reachable : event_reachable true 0 sample_event.
Proof.
  eapply ev_step; [eapply ev_step; [eapply ev_step; [apply ev_new|]|]|].
  - apply (ev_wait true 2 false); reflexivity.
  - apply (ev_wait true 1 false); reflexivity.
  - apply (ev_signal true (Some 1)); [done|by intros ? [= <-]|]. vm_compute. reflexivity.
Qed.

Lemma no_lost_signal_witness :
  (exists t' tw' timed_out, waiting sample_event !! t' = Some (Woken tw' timed_out) /\
     (timed_out = true -> tw' <> None) /\
     exists e', resume true t' tw' timed_out sample_event = Ret (tt, e') /\
       waiting e' = delete t' (waiting sample_event) /\ signaled_ e' = false /\
       released e' = if timed_out then released sample_event else S (released sample_event)) /\
  (0 + 1 <= 1)%nat.
Proof.
  destruct (no_lost_signal true 0 sample_event sample_event_reachable) as [Ha Hc].
  split; [apply (Ha 2 None); reflexivity|exact Hc].
Defined.

(** A wait that times out clears a flag that was set for another thread: thread 1
    times out, the signal is meant for thread 2, and both end without it. *)
Definition race : M Event (option bool * bool) :=
  do! WaitWithTimeout 1 (TimeDelta.mk 50) in
  do! Wait 2 in
  do! updS (fun e => with_waiting (<[1 := Woken (Some (mkTimed (TimePoint.mk 0) (TimeDelta.mk 50)
                                                   (TimeDelta.mk 50))) true]> (waiting e)) e) in
  do! Event_Signal (Some 2) in
  let! r1 := WaitWithTimeout_resume true 1 (mkTimed (TimePoint.mk 0) (TimeDelta.mk 50) (TimeDelta.mk 50)) true in
  let! r2 := Wait 2 in
  retS (r1, r2).

Lemma timeout_loses_signal :
  exists e, race (new_event 0) = Ret ((Some true, false), e) /\
    signaled_ e = false /\ signals e = 1%nat /\ released e = 0%nat /\ waiting e !! 2 = Some (Blocked None).
Proof. eexists. split; [vm_compute; reflexivity|]. vm_compute. done. Qed.
