(* ===== verification/Language.v ===== *)
(** * Helpers of the language: wtf/scope_exit.h, wtf/task_runner/thread_local.h

    A [ScopeExit] is a function that its destructor calls; [in_scope] is a block with
    one.  A [WTF_THREAD_LOCAL] unique pointer, which is what the message loop of a
    thread is kept in, is a slot per thread that starts out null, and whose object is
    destroyed when the thread ends.  The boxes and the tests are those of
    thread_local_unittests.cpp; threads may take their steps in any order. *)

From stdpp Require Import base list numbers strings gmap.
From Stdlib Require Import ZArith Lia.
From S2P Require Import Prelude Sync.

(** ** scope_exit.h *)

Record ScopeExit (S : Type) := mkScopeExit { func_ : option (M S unit) }.
Arguments mkScopeExit {S}.
Arguments func_ {S}.

Definition ScopeExit_default {S} : ScopeExit S := mkScopeExit None.
Definition ScopeExit_ctor {S} (f : M S unit) : ScopeExit S := mkScopeExit (Some f).
Definition ScopeExit_dtor {S} (g : ScopeExit S) : M S unit :=
  match func_ g with Some f => f | None => retS tt end.

(** [SCOPE_GUARD { f }; body] *)
Definition in_scope {S A} (g : ScopeExit S) (body : M S A) : M S A :=
  let! a := body in
  do! ScopeExit_dtor g in
  retS a.

(** Guards run after the body, the last one first. *)
Lemma scopes_unwind {S A} (f g : M S unit) (body : M S A) s :
  in_scope (ScopeExit_ctor f) (in_scope (ScopeExit_ctor g) body) s
  = (let! a := body in do! g in do! f in retS a) s.
Proof.
  unfold in_scope, ScopeExit_dtor, ScopeExit_ctor, bindS, retS. cbn [func_].
  destruct (body s) as [[a s1]| |]; [|done..]. by destruct (g s1) as [[[] s2]| |].
Qed.

(** The guard of [OneOffWaitableEvent::Wait] is the flag that [leave] clears. *)
Lemma leave_is_guarded t b e :
  leave t b e
  = in_scope (ScopeExit_ctor Event_Reset)
      (updS (fun e => with_released (if b then S (released e) else released e) (with_waiting (delete t (waiting e)) e))) e.
Proof. done. Qed.

(** ** thread_local.h, as thread_local_unittests.cpp uses it *)

(** [counts] is whether the box has a counter to tell about its destruction. *)
Record Box := mkBox { value_ : Z; counts : bool }.

(** The threads that run, with their slots, and the counter; [made] counts the boxes with a counter. *)
Record Locals := mkLocals { slots : gmap Z (option Box); destroys : nat; made : nat }.

Definition no_threads : Locals := mkLocals ∅ 0 0.

Abbreviation LM := (M Locals).

Definition counted (o : option Box) : nat := match o with Some b => if counts b then 1 else 0 | None => 0 end.

(** [~Box] of what the slot held *)
Definition Box_dtor (o : option Box) : LM unit :=
  updS (fun l => mkLocals (slots l) (destroys l + counted o) (made l)).

Definition slot_of (t : Z) : LM (option Box) :=
  let! s := getS slots in
  match s !! t with Some o => retS o | None => undefS "thread is not running" end.

Definition set_slot (t : Z) (o : option Box) : LM unit :=
  updS (fun l => mkLocals (<[t := o]> (slots l)) (destroys l) (made l)).

(** A thread starts; its slot is null. *)
Definition thread_start (t : Z) : LM unit :=
  let! s := getS slots in
  match s !! t with
  | Some _ => undefS "thread runs already"
  | None => set_slot t None
  end.

(** [local.get()], [local.reset(new Box(..))]: the new box is there before the old one is destroyed. *)
Definition local_get (t : Z) : LM (option Box) := slot_of t.
Definition local_reset (t : Z) (b : Box) : LM unit :=
  let! old := slot_of t in
  do! updS (fun l => mkLocals (slots l) (destroys l) (made l + counted (Some b))) in
  do! set_slot t (Some b) in
  Box_dtor old.

(** A thread ends: its slot is destroyed. *)
Definition thread_end (t : Z) : LM unit :=
  let! old := slot_of t in
  do! updS (fun l => mkLocals (delete t (slots l)) (destroys l) (made l)) in
  Box_dtor old.

Inductive local_step : Locals -> Locals -> Prop :=
| ls_start t l l' : thread_start t l = Ret (tt, l') -> local_step l l'
| ls_reset t b l l' : local_reset t b l = Ret (tt, l') -> local_step l l'
| ls_end t l l' : thread_end t l = Ret (tt, l') -> local_step l l'.

Definition local_reach : Locals -> Prop := rtc local_step no_threads.

(** The boxes with a counter that are in slots. *)
Definition held (m : gmap Z (option Box)) : nat := map_fold (fun _ o n => counted o + n)%nat 0%nat m.

Lemma held_insert t o m : m !! t = None -> held (<[t := o]> m) = (counted o + held m)%nat.
Proof. intros H. unfold held. rewrite map_fold_insert_L; [done|intros; lia|done]. Qed.

Lemma held_delete t o m : m !! t = Some o -> held m = (counted o + held (delete t m))%nat.
Proof. intros H. rewrite <- (insert_delete_id m t o H) at 1. rewrite held_insert; [done|apply lookup_delete_eq]. Qed.

Lemma held_replace t o o' m : m !! t = Some o -> (held (<[t := o']> m) + counted o = counted o' + held m)%nat.
Proof.
  intros H. rewrite (held_delete t o m H), <- insert_delete_eq, held_insert by apply lookup_delete_eq. lia.
Qed.

Lemma local_step_inv l l' :
  local_step l l' -> made l = (destroys l + held (slots l))%nat -> made l' = (destroys l' + held (slots l'))%nat.
Proof.
  intros Hs Hinv. destruct Hs as [t l l' Hr|t b l l' Hr|t l l' Hr].
  - unfold thread_start in Hr. rewrite bind_get in Hr. destruct (slots l !! t) eqn:Ht; [done|]. injection Hr as <-.
    cbn [made destroys slots]. by rewrite held_insert.
  - unfold local_reset, slot_of in Hr. unfold bindS in Hr. cbn [getS] in Hr. destruct (slots l !! t) as [o|] eqn:Ht; [|done].
    injection Hr as <-. cbn [made destroys slots]. pose proof (held_replace t o (Some b) (slots l) Ht) as Hh.
    cbn [counted] in Hh. lia.
  - unfold thread_end, slot_of in Hr. unfold bindS in Hr. cbn [getS] in Hr. destruct (slots l !! t) as [o|] eqn:Ht; [|done].
    injection Hr as <-. cbn [made destroys slots]. pose proof (held_delete t o (slots l) Ht). lia.
Qed.

(** Every box is destroyed once, and not before its thread lets go of it: in every state
    the destroyed boxes and those in slots are the boxes that were made, so that when
    no thread runs any more all of them are destroyed. *)
Theorem boxes_destroyed_once (l : Locals) :
  local_reach l -> made l = (destroys l + held (slots l))%nat /\ (slots l = ∅ -> destroys l = made l).
Proof.
  intros Hr. assert (H : made l = (destroys l + held (slots l))%nat).
  { assert (H0 : made no_threads = (destroys no_threads + held (slots no_threads))%nat) by done. revert H0.
    unfold local_reach in Hr. induction Hr as [|x y z Hs _ IH]; [done|]. intros Hx. by apply IH, (local_step_inv x). }
  split; [done|]. intros He. rewrite He in H. unfold held in H. rewrite map_fold_empty in H. lia.
Qed.

(** Threads do not see the slots of others. *)
Lemma locals_apart t u b l l' : local_reset t b l = Ret (tt, l') -> u <> t -> slots l' !! u = slots l !! u.
Proof.
  unfold local_reset, slot_of. unfold bindS. cbn [getS]. destruct (slots l !! t) as [o|] eqn:Ht; [|done]. intros [= <-] Hne.
  cbn [slots]. by rewrite lookup_insert_ne.
Qed.

(** *** thread_local_unittests.cpp *)

Definition assert_local (t : Z) (v : option Z) : LM unit :=
  let! o := local_get t in checkS (bool_decide (value_ <$> o = v)) "ASSERT_EQ(local.get()...)".
Definition assert_destroys (n : nat) : LM unit :=
  let! d := getS destroys in checkS (bool_decide (d = n)) "ASSERT_EQ(destroys.load()...)".

Definition SimpleInitialization : LM unit :=
  do! thread_start 1 in
  do! assert_local 1 None in
  do! local_reset 1 (mkBox 100 false) in
  do! assert_local 1 (Some 100) in
  thread_end 1.

Definition SimpleInitializationCheckInAnother : LM unit :=
  do! thread_start 1 in
  do! assert_local 1 None in
  do! local_reset 1 (mkBox 100 false) in
  do! assert_local 1 (Some 100) in
  do! thread_start 2 in
  do! assert_local 2 None in
  do! thread_end 2 in
  thread_end 1.

Definition DestroyCallback : LM unit :=
  do! thread_start 1 in
  do! assert_local 1 None in
  do! local_reset 1 (mkBox 100 true) in
  do! assert_local 1 (Some 100) in
  do! assert_destroys 0 in
  do! thread_end 1 in
  assert_destroys 1.

(** The body of a thread that puts two boxes into its slot. *)
Definition two_boxes (t : Z) : LM unit :=
  do! local_reset t (mkBox 100 true) in
  do! assert_local t (Some 100) in
  do! assert_destroys 0 in
  do! local_reset t (mkBox 200 true) in
  do! assert_local t (Some 200) in
  assert_destroys 1.

Definition DestroyCallback2 : LM unit :=
  do! thread_start 1 in
  do! two_boxes 1 in
  do! thread_end 1 in
  assert_destroys 2.

Definition DestroyThreadTimeline : LM unit :=
  do! thread_start 1 in
  do! thread_start 2 in
  do! two_boxes 2 in
  do! assert_local 1 None in
  do! thread_end 2 in
  do! assert_local 1 None in
  do! assert_destroys 2 in
  do! thread_end 1 in
  assert_destroys 2.

Example thread_local_tests_pass :
  forallb (fun test : LM unit => is_ret (test no_threads))
    [SimpleInitialization; SimpleInitializationCheckInAnother; DestroyCallback; DestroyCallback2; DestroyThreadTimeline] = true.
Proof. vm_compute. reflexivity. Qed.

Lemma boxes_destroyed_once_witness : destroys (mkLocals ∅ 1 1) = made (mkLocals ∅ 1 1).
Proof.
  apply (boxes_destroyed_once (mkLocals ∅ 1 1)); [|done].
  apply (rtc_l _ _ (mkLocals {[1 := None]} 0 0)); [by apply (ls_start 1)|].
  apply (rtc_l _ _ (mkLocals {[1 := Some (mkBox 7 true)]} 0 1)); [by apply (ls_reset 1 (mkBox 7 true))|].
  apply rtc_once. by apply (ls_end 1).
Defined.
