(* ===== verification/Pipeline.v ===== *)
(** * The resource pipeline: pipeline/pipeline.h, pipeline.cpp

    A bounded queue between producers and consumers, guarded by two semaphores.
    The semaphores are used through [SemaphoreSpec] only.  The operations are
    built from the actions other threads cannot interrupt ([take_empty], [push],
    ...); [pipe_step] interleaves the same actions for any number of operations
    that are under way.  [pipeline_safe] is the invariant of all interleavings,
    and [Pipeline_refines] shows that the operations of one thread are those of a
    bounded first-in first-out queue. *)

From stdpp Require Import base list numbers strings.
From Stdlib Require Import ZArith Lia.
From S2P Require Import Prelude Sync.

Inductive PipelineConsumeResult := NoneAvailable | Done | MoreAvailable.

(** The two functions a continuation can be bound to. *)
Inductive Continuation := Commit | CommitIfEmpty.

Record ProducerContinuation := mkCont { continuation_ : option Continuation; trace_id_ : Z }.

Definition empty_continuation : ProducerContinuation := mkCont None 0.

(** The move constructor and the move assignment: the new value of each side. *)
Definition move_ctor (other : ProducerContinuation) : ProducerContinuation * ProducerContinuation :=
  (mkCont (continuation_ other) (trace_id_ other), mkCont None 0).
Definition move_assign (this other : ProducerContinuation) : ProducerContinuation * ProducerContinuation :=
  (other, this).
Definition continuation_bool (c : ProducerContinuation) : bool := bool_decide (is_Some (continuation_ c)).

Section pipeline.
Context {S : Type} {ctor : Z -> S} {valid : S -> bool} {try : S -> bool * S} {signal : S -> S}.
Context {R : Type}.

(** A null resource is [None].  [PipelineLastTraceID] is global; the last three
    fields record what happened: what was pushed and popped, in order, and how
    often a conditional commit gave up. *)
Record Pipeline := mkPipe {
  depth_ : Z; empty_ : S; available_ : S; inflight_ : Z; queue_ : list (option R * Z);
  PipelineLastTraceID : Z;
  pushed : list (option R); popped : list (option R); bailed : nat
}.

Definition eta_Pipeline (p : Pipeline) : Pipeline :=
  mkPipe (depth_ p) (empty_ p) (available_ p) (inflight_ p) (queue_ p) (PipelineLastTraceID p)
    (pushed p) (popped p) (bailed p).
Definition with_empty : S -> Pipeline -> Pipeline := ltac:(build_setter eta_Pipeline empty_).
Definition with_available : S -> Pipeline -> Pipeline := ltac:(build_setter eta_Pipeline available_).
Definition with_inflight : Z -> Pipeline -> Pipeline := ltac:(build_setter eta_Pipeline inflight_).
Definition with_queue : list (option R * Z) -> Pipeline -> Pipeline :=
  ltac:(build_setter eta_Pipeline queue_).
Definition with_trace : Z -> Pipeline -> Pipeline := ltac:(build_setter eta_Pipeline PipelineLastTraceID).
Definition with_pushed : list (option R) -> Pipeline -> Pipeline := ltac:(build_setter eta_Pipeline pushed).
Definition with_popped : list (option R) -> Pipeline -> Pipeline := ltac:(build_setter eta_Pipeline popped).
Definition with_bailed : nat -> Pipeline -> Pipeline := ltac:(build_setter eta_Pipeline bailed).

Definition Pipeline_ctor (depth : Z) : Pipeline :=
  mkPipe depth (ctor depth) (ctor 0) 0 [] 0 [] [] 0.

Definition Pipeline_IsValid (p : Pipeline) : bool := valid (empty_ p) && valid (available_ p).

(** ** The uninterrupted actions *)

Abbreviation PM := (M Pipeline).

Definition take_empty : PM bool :=
  fun p => let '(r, s) := try (empty_ p) in Ret (r, with_empty s p).
Definition take_available : PM bool :=
  fun p => let '(r, s) := try (available_ p) in Ret (r, with_available s p).
Definition signal_empty : PM unit := updS (fun p => with_empty (signal (empty_ p)) p).
Definition signal_available : PM unit := updS (fun p => with_available (signal (available_ p)) p).
Definition add_inflight (n : Z) : PM unit := updS (fun p => with_inflight (i32 (inflight_ p + n)) p).

Definition GetNextPipelineTraceID : PM Z :=
  do! updS (fun p => with_trace (u64 (PipelineLastTraceID p + 1)) p) in
  getS PipelineLastTraceID.

Definition push (resource : option R) (trace_id : Z) : PM unit :=
  updS (fun p => with_queue (queue_ p ++ [(resource, trace_id)])
                   (with_pushed (pushed p ++ [resource]) p)).

(** [front] and [pop_front] under the mutex; the resource and the items left. *)
Definition pop : PM (option R * nat) :=
  let! q := getS queue_ in
  match q with
  | [] => undefS "front of an empty deque"
  | (resource, trace_id) :: q' =>
      do! updS (fun p => with_queue q' (with_popped (popped p ++ [resource]) p)) in
      retS (resource, length q')
  end.

(** ** The operations *)

Definition reserve (k : Continuation) : PM ProducerContinuation :=
  do! add_inflight 1 in
  let! id := GetNextPipelineTraceID in
  retS (mkCont (Some k) id).

Definition Produce : PM ProducerContinuation :=
  let! ok := take_empty in
  if negb ok then retS empty_continuation else reserve Commit.

Definition ProduceIfEmpty : PM ProducerContinuation :=
  let! ok := take_empty in
  if negb ok then retS empty_continuation else reserve CommitIfEmpty.

Definition ProducerCommit (resource : option R) (trace_id : Z) : PM bool :=
  do! push resource trace_id in
  do! signal_available in
  retS true.

(** The part of a conditional commit under the mutex: whether it pushed. *)
Definition push_if_empty (resource : option R) (trace_id : Z) : PM bool :=
  let! q := getS queue_ in
  match q with
  | _ :: _ => do! signal_empty in do! updS (fun p => with_bailed (Datatypes.S (bailed p)) p) in retS false
  | [] => do! push resource trace_id in retS true
  end.

Definition ProducerCommitIfEmpty (resource : option R) (trace_id : Z) : PM bool :=
  let! did := push_if_empty resource trace_id in
  if negb did then retS false else
  do! signal_available in
  retS true.

Definition call_continuation (k : Continuation) (resource : option R) (trace_id : Z) : PM bool :=
  match k with
  | Commit => ProducerCommit resource trace_id
  | CommitIfEmpty => ProducerCommitIfEmpty resource trace_id
  end.

Definition Complete (c : ProducerContinuation) (resource : option R) : PM (bool * ProducerContinuation) :=
  match continuation_ c with
  | None => retS (false, c)
  | Some k =>
      let! result := call_continuation k resource (trace_id_ c) in
      retS (result, mkCont None (trace_id_ c))
  end.

(** A continuation that was not used commits a null resource. *)
Definition ProducerContinuation_dtor (c : ProducerContinuation) : PM unit :=
  match continuation_ c with
  | None => retS tt
  | Some k => do! call_continuation k None (trace_id_ c) in retS tt
  end.

(** [has_consumer]: the function object is not empty.  The call of the consumer
    gets the resource, which is the second result here. *)
Definition Consume (has_consumer : bool) : PM (PipelineConsumeResult * option (option R)) :=
  if negb has_consumer then retS (NoneAvailable, None) else
  let! ok := take_available in
  if negb ok then retS (NoneAvailable, None) else
  let! '(resource, items_count) := pop in
  do! signal_empty in
  do! add_inflight (-1) in
  retS (if (0 <? Z.of_nat items_count) then MoreAvailable else Done, Some resource).

(** ** Interleavings *)

(** An operation under way, by the last action it did: a producer that has taken
    a place, counted itself, holds a continuation, or has pushed; a consumer that
    has taken an item, popped it, called its consumer, or given the place back. *)
Inductive Slot :=
| Idle
| Reserved (k : Continuation)
| Counted (k : Continuation)
| Holding (k : Continuation) (trace_id : Z)
| Pushed
| Taken
| Using (resource : option R) (items_count : nat)
| Used (items_count : nat)
| Released (items_count : nat).

(** What the program chooses where it has a choice. *)
Inductive Choice := StartProduce (k : Continuation) | CompleteWith (resource : option R) | StartConsume | Go.

(** The next action of an operation. *)
Definition advance (s : Slot) (c : Choice) : PM Slot :=
  match s, c with
  | Idle, StartProduce k => let! ok := take_empty in retS (if (ok : bool) then Reserved k else Idle)
  | Idle, StartConsume => let! ok := take_available in retS (if (ok : bool) then Taken else Idle)
  | Reserved k, Go => do! add_inflight 1 in retS (Counted k)
  | Counted k, Go => let! id := GetNextPipelineTraceID in retS (Holding k id)
  | Holding Commit id, CompleteWith r => do! push r id in retS Pushed
  | Holding CommitIfEmpty id, CompleteWith r =>
      let! did := push_if_empty r id in retS (if (did : bool) then Pushed else Idle)
  | Pushed, Go => do! signal_available in retS Idle
  | Taken, Go => let! '(r, n) := pop in retS (Using r n)
  | Using _ n, Go => retS (Used n)
  | Used n, Go => do! signal_empty in retS (Released n)
  | Released _, Go => do! add_inflight (-1) in retS Idle
  | s, _ => retS s
  end.

Inductive pipe_step : Pipeline * list Slot -> Pipeline * list Slot -> Prop :=
| pipe_advance i s c s' p p' l :
    l !! i = Some s -> advance s c p = Ret (s', p') -> pipe_step (p, l) (p', <[i := s']> l).

(** From a new pipeline, with [n] operations under way at most. *)
Inductive pipe_reachable (depth : Z) (n : nat) : Pipeline * list Slot -> Prop :=
| pipe_new : pipe_reachable depth n (Pipeline_ctor depth, replicate n Idle)
| pipe_next x y : pipe_reachable depth n x -> pipe_step x y -> pipe_reachable depth n y.

(** How many operations hold a place of the queue that is not in the queue, an
    item of the queue that is not announced or not free, and a count of
    [inflight_]. *)
Definition place (s : Slot) : Z :=
  match s with Reserved _ | Counted _ | Holding _ _ | Using _ _ | Used _ => 1 | _ => 0 end.
Definition item (s : Slot) : Z := match s with Pushed | Taken => 1 | _ => 0 end.
Definition flight (s : Slot) : Z :=
  match s with Counted _ | Holding _ _ | Using _ _ | Used _ | Released _ => 1 | _ => 0 end.

Fixpoint total (f : Slot -> Z) (l : list Slot) : Z :=
  match l with [] => 0 | s :: l' => f s + total f l' end.

Lemma total_insert f l i s s' :
  l !! i = Some s -> total f (<[i := s']> l) = total f l - f s + f s'.
Proof.
  revert i. induction l as [|x l IH]; intros [|i]; simpl; try done.
  - intros [= ->]. lia.
  - intros Hi. rewrite (IH i Hi). lia.
Qed.

Lemma total_idle f n : f Idle = 0 -> total f (replicate n Idle) = 0.
Proof. intros H. induction n; simpl; lia. Qed.

Lemma total_ge f l i s : (forall x, 0 <= f x) -> l !! i = Some s -> f s <= total f l.
Proof.
  intros Hf. assert (forall l, 0 <= total f l) as H0 by (induction l0; simpl; [lia|specialize (Hf a); lia]).
  revert i. induction l as [|x l IH]; intros [|i]; simpl; try done.
  - intros [= ->]. specialize (H0 l). lia.
  - intros Hi. specialize (IH i Hi). specialize (Hf x). lia.
Qed.

Context `{spec : !SemaphoreSpec S ctor valid try signal}.

Record pipe_inv (depth : Z) (p : Pipeline) (l : list Slot) : Prop := {
  pi_depth : 0 <= depth <= LONG_MAX;
  pi_places : exists e, is_sem (empty_ p) e /\ e + total place l + zlen (queue_ p) = depth;
  pi_items : exists a, is_sem (available_ p) a /\ a + total item l = zlen (queue_ p);
  pi_flight : inflight_ p = i32 (total flight l + zlen (queue_ p) + Z.of_nat (bailed p));
  pi_fifo : pushed p = popped p ++ (fst <$> queue_ p)
}.

Lemma i32_add x n : i32 (i32 x + n) = i32 (x + n).
Proof. unfold i32. Z.div_mod_to_equations. lia. Qed.

(** The totals after a step, in the goal. *)
Ltac totals Hi := rewrite ?(total_insert _ _ _ _ _ Hi); cbn [place item flight]; unfold zlen in *;
  rewrite ?length_app; cbn [length]; try lia.

(** An action that leaves both the queue and the semaphores alone. *)
Lemma pipe_inv_slot depth p p' l i s s' k :
  pipe_inv depth p l -> l !! i = Some s -> place s' = place s -> item s' = item s ->
  flight s' = flight s + k ->
  empty_ p' = empty_ p -> available_ p' = available_ p -> queue_ p' = queue_ p ->
  pushed p' = pushed p -> popped p' = popped p -> bailed p' = bailed p ->
  inflight_ p' = i32 (inflight_ p + k) \/ k = 0 /\ inflight_ p' = inflight_ p ->
  pipe_inv depth p' (<[i := s']> l).
Proof.
  intros [Hd (e & He & Hpl) (a & Ha & Hit) Hf Hq] Hi Hp Hm Hfl E1 E2 E3 E4 E5 E6 Hin.
  split; rewrite ?E1, ?E2, ?E3, ?E4, ?E5, ?E6; [done|..|done].
  - exists e. split; [done|]. totals Hi.
  - exists a. split; [done|]. totals Hi.
  - destruct Hin as [->|[-> ->]]; rewrite Hf, ?i32_add; f_equal; totals Hi.
Qed.

Lemma pipe_inv_id depth p l i s : pipe_inv depth p l -> l !! i = Some s -> pipe_inv depth p (<[i := s]> l).
Proof. intros H Hi. by rewrite list_insert_id. Qed.

Lemma take_empty_inv depth p l i k :
  pipe_inv depth p l -> l !! i = Some Idle ->
  exists ok p', take_empty p = Ret (ok, p') /\
    pipe_inv depth p' (<[i := if (ok : bool) then Reserved k else Idle]> l).
Proof.
  intros [Hd (e & He & Hpl) Hit Hf Hq] Hi. unfold take_empty. pose proof (is_sem_range _ _ He).
  destruct (decide (0 < e)) as [Hpos|Hz].
  - destruct (is_sem_take _ _ He Hpos) as (s' & -> & Hs'). eexists _, _. split; [reflexivity|].
    split; simpl; [done|..|done].
    + exists (e - 1). split; [done|]. totals Hi.
    + destruct Hit as (a & Ha & Hit). exists a. split; [done|]. totals Hi.
    + rewrite Hf. f_equal. totals Hi.
  - assert (e = 0) as -> by lia. destruct (is_sem_fail _ He) as (s' & -> & Hs').
    eexists _, _. split; [reflexivity|]. rewrite list_insert_id by done.
    split; simpl; [done|by exists 0|done..].
Qed.

Lemma take_available_inv depth p l i :
  pipe_inv depth p l -> l !! i = Some Idle ->
  exists ok p', take_available p = Ret (ok, p') /\
    pipe_inv depth p' (<[i := if (ok : bool) then Taken else Idle]> l).
Proof.
  intros [Hd (e & He & Hpl) (a & Ha & Hit) Hf Hq] Hi. unfold take_available. pose proof (is_sem_range _ _ Ha).
  destruct (decide (0 < a)) as [Hpos|Hz].
  - destruct (is_sem_take _ _ Ha Hpos) as (s' & -> & Hs'). eexists _, _. split; [reflexivity|].
    split; simpl; [done|..|done].
    + exists e. split; [done|]. totals Hi.
    + exists (a - 1). split; [done|]. totals Hi.
    + rewrite Hf. f_equal. totals Hi.
  - assert (a = 0) as -> by lia. destruct (is_sem_fail _ Ha) as (s' & -> & Hs').
    eexists _, _. split; [reflexivity|]. rewrite list_insert_id by done.
    split; simpl; [done|by exists e|by exists 0|done..].
Qed.

Lemma push_inv depth p l i k id r :
  pipe_inv depth p l -> l !! i = Some (Holding k id) ->
  exists p', push r id p = Ret (tt, p') /\ pipe_inv depth p' (<[i := Pushed]> l).
Proof.
  intros [Hd (e & He & Hpl) (a & Ha & Hit) Hf Hq] Hi. eexists. split; [reflexivity|].
  split; simpl; [done|..].
  - exists e. split; [done|]. totals Hi.
  - exists a. split; [done|]. totals Hi.
  - rewrite Hf. f_equal. totals Hi.
  - by rewrite Hq, fmap_app, app_assoc.
Qed.

Lemma bail_inv depth p l i k id q0 q :
  pipe_inv depth p l -> l !! i = Some (Holding k id) -> queue_ p = q0 :: q ->
  pipe_inv depth (with_bailed (Datatypes.S (bailed p)) (with_empty (signal (empty_ p)) p)) (<[i := Idle]> l).
Proof.
  intros [Hd (e & He & Hpl) (a & Ha & Hit) Hf Hq] Hi Hne.
  assert (1 <= total place l) as H1.
  { change 1 with (place (Holding k id)). by apply (total_ge _ _ i); [intros []; simpl; lia|]. }
  split; simpl; [done|..|done].
  - exists (e + 1). split; [|totals Hi]. apply is_sem_signal; [done|]. unfold zlen in *. lia.
  - exists a. split; [done|]. totals Hi.
  - rewrite Hf. f_equal. totals Hi.
Qed.

Lemma signal_available_inv depth p l i :
  pipe_inv depth p l -> l !! i = Some Pushed ->
  exists p', signal_available p = Ret (tt, p') /\ pipe_inv depth p' (<[i := Idle]> l).
Proof.
  intros [Hd (e & He & Hpl) (a & Ha & Hit) Hf Hq] Hi.
  assert (1 <= total item l) as H1
    by (change 1 with (item Pushed); by apply (total_ge _ _ i); [intros []; simpl; lia|]).
  assert (0 <= total place l) as H2.
  { change 0 with (place Pushed). by apply (total_ge _ _ i); [intros []; simpl; lia|]. }
  pose proof (is_sem_range _ _ He). eexists. split; [reflexivity|]. split; simpl; [done|..|done].
  - exists e. split; [done|]. totals Hi.
  - exists (a + 1). split; [apply is_sem_signal; [done|lia]|]. totals Hi.
  - rewrite Hf. f_equal. totals Hi.
Qed.

(** An item that was taken is there to be popped. *)
Lemma pop_inv depth p l i :
  pipe_inv depth p l -> l !! i = Some Taken ->
  exists r n p', pop p = Ret ((r, n), p') /\ pipe_inv depth p' (<[i := Using r n]> l).
Proof.
  intros [Hd (e & He & Hpl) (a & Ha & Hit) Hf Hq] Hi.
  assert (1 <= total item l) as H1
    by (change 1 with (item Taken); by apply (total_ge _ _ i); [intros []; simpl; lia|]).
  pose proof (is_sem_range _ _ Ha). unfold pop. rewrite bind_get.
  destruct (queue_ p) as [|[r id] q] eqn:Hqu; [unfold zlen in Hit; simpl in Hit; lia|].
  eexists r, (length q), _. split; [reflexivity|]. split; simpl; [done|..].
  - exists e. split; [done|]. totals Hi. simpl in Hpl. lia.
  - exists a. split; [done|]. totals Hi. simpl in Hit. lia.
  - rewrite Hf. f_equal. totals Hi.
  - rewrite Hq, <- app_assoc. done.
Qed.

Lemma signal_empty_inv depth p l i n :
  pipe_inv depth p l -> l !! i = Some (Used n) ->
  exists p', signal_empty p = Ret (tt, p') /\ pipe_inv depth p' (<[i := Released n]> l).
Proof.
  intros [Hd (e & He & Hpl) (a & Ha & Hit) Hf Hq] Hi.
  assert (1 <= total place l) as H1
    by (change 1 with (place (Used n)); by apply (total_ge _ _ i); [intros []; simpl; lia|]).
  eexists. split; [reflexivity|]. split; simpl; [done|..|done].
  - exists (e + 1). split; [apply is_sem_signal; [done|unfold zlen in *; lia]|]. totals Hi.
  - exists a. split; [done|]. totals Hi.
  - rewrite Hf. f_equal. totals Hi.
Qed.

(** Every action of every operation is defined and keeps the invariant. *)
Lemma advance_inv depth p l i s c :
  pipe_inv depth p l -> l !! i = Some s ->
  exists s' p', advance s c p = Ret (s', p') /\ pipe_inv depth p' (<[i := s']> l).
Proof.
  intros H Hi. pose proof (pipe_inv_id _ _ _ _ _ H Hi) as Hid.
  destruct s as [|k|k|[] id| | |r n|n|n], c as [k'|r'| |]; cbn [advance]; try (by eexists _, _).
  - destruct (take_empty_inv depth p l i k' H Hi) as (ok & p' & Hr & Hp').
    rewrite (bind_run _ _ _ _ _ Hr). by eexists _, _.
  - destruct (take_available_inv depth p l i H Hi) as (ok & p' & Hr & Hp').
    rewrite (bind_run _ _ _ _ _ Hr). by eexists _, _.
  - eexists _, _. split; [reflexivity|]. eapply (pipe_inv_slot _ p); eauto.
  - eexists _, _. split; [reflexivity|]. eapply (pipe_inv_slot _ p _ _ _ _ _ 0); eauto.
  - destruct (push_inv depth p l i Commit id r' H Hi) as (p' & Hr & Hp').
    rewrite (bind_run _ _ _ _ _ Hr). by eexists _, _.
  - unfold push_if_empty. unfold bindS at 1. rewrite bind_get. destruct (queue_ p) as [|q0 q] eqn:Hq.
    + destruct (push_inv depth p l i CommitIfEmpty id r' H Hi) as (p' & Hr & Hp').
      rewrite (bind_run _ _ _ _ _ Hr). by eexists _, _.
    + eexists _, _. split; [reflexivity|]. exact (bail_inv _ _ _ _ _ _ _ _ H Hi Hq).
  - destruct (signal_available_inv depth p l i H Hi) as (p' & Hr & Hp').
    rewrite (bind_run _ _ _ _ _ Hr). by eexists _, _.
  - destruct (pop_inv depth p l i H Hi) as (r & n & p' & Hr & Hp').
    rewrite (bind_run _ _ _ _ _ Hr). by eexists _, _.
  - eexists _, _. split; [reflexivity|]. eapply (pipe_inv_slot _ p _ _ _ _ _ 0); eauto.
  - destruct (signal_empty_inv depth p l i n H Hi) as (p' & Hr & Hp').
    rewrite (bind_run _ _ _ _ _ Hr). by eexists _, _.
  - eexists _, _. split; [reflexivity|]. eapply (pipe_inv_slot _ p _ _ _ _ _ (-1)); eauto.
Qed.

Lemma pipe_new_inv depth n : 0 <= depth <= LONG_MAX -> pipe_inv depth (Pipeline_ctor depth) (replicate n Idle).
Proof.
  intros Hd. split; simpl; rewrite ?total_idle by done; unfold zlen; simpl; [done|..|done].
  - exists depth. split; [by apply is_sem_ctor|lia].
  - exists 0. split; [|lia]. apply is_sem_ctor. unfold LONG_MAX. lia.
  - done.
Qed.

Lemma pipe_reachable_inv depth n x :
  0 <= depth <= LONG_MAX -> pipe_reachable depth n x -> pipe_inv depth (fst x) (snd x).
Proof.
  intros Hd. induction 1 as [|x y _ IH Hs]; [by apply pipe_new_inv|].
  destruct Hs as [i s c s' p p' l Hi Ha]. destruct (advance_inv depth p l i s c IH Hi) as (s2 & p2 & Ha2 & H2).
  rewrite Ha2 in Ha. by injection Ha as -> ->.
Qed.

(** C5: the pipeline is safe in every interleaving of any number of producers and
    consumers: every action is defined (no consumer pops an empty queue), at most
    [depth_] items are queued, what was popped is in the order it was pushed, and
    [inflight_] counts the operations under way and the queued items, plus one for
    every conditional commit that gave up. *)
Theorem pipeline_safe (depth : Z) (n i : nat) (s : Slot) (c : Choice) (p : Pipeline) (l : list Slot) :
  0 <= depth <= LONG_MAX -> pipe_reachable depth n (p, l) -> l !! i = Some s ->
  (exists s' p', advance s c p = Ret (s', p')) /\
  zlen (queue_ p) <= depth /\
  pushed p = popped p ++ (fst <$> queue_ p) /\
  inflight_ p = i32 (total flight l + zlen (queue_ p) + Z.of_nat (bailed p)).
Proof.
  intros Hd Hr Hi. pose proof (pipe_reachable_inv depth n _ Hd Hr) as H. simpl in H.
  destruct (advance_inv depth p l i s c H Hi) as (s' & p' & Ha & _).
  destruct H as [_ (e & He & Hpl) _ Hf Hq]. split_and!; [by eexists _, _| |done|done].
  pose proof (is_sem_range _ _ He).
  assert (0 <= total place l); [|lia].
  clear. induction l as [|x l IH]; simpl; [lia|]. destruct x; simpl; lia.
Qed.

(** ** One thread: a bounded queue *)

Inductive Command := Put (r : R) | PutIfEmpty (r : R) | Abandon | Get.
Inductive Reply := Accepted (b : bool) | Abandoned | Got (res : PipelineConsumeResult) (r : option (option R)).

(** A command on the pipeline; a continuation is destroyed at the end of its scope. *)
Definition run_command (c : Command) : PM Reply :=
  match c with
  | Put r =>
      let! k := Produce in
      let! '(b, k') := Complete k (Some r) in
      do! ProducerContinuation_dtor k' in
      retS (Accepted b)
  | PutIfEmpty r =>
      let! k := ProduceIfEmpty in
      let! '(b, k') := Complete k (Some r) in
      do! ProducerContinuation_dtor k' in
      retS (Accepted b)
  | Abandon =>
      let! k := Produce in
      do! ProducerContinuation_dtor k in
      retS Abandoned
  | Get => let! '(res, r) := Consume true in retS (Got res r)
  end.

(** The bounded queue. *)
Definition queue_command (depth : Z) (c : Command) (q : list (option R)) : Reply * list (option R) :=
  match c with
  | Put r => if zlen q <? depth then (Accepted true, q ++ [Some r]) else (Accepted false, q)
  | PutIfEmpty r =>
      match q with
      | [] => if 0 <? depth then (Accepted true, [Some r]) else (Accepted false, [])
      | _ => (Accepted false, q)
      end
  | Abandon => (Abandoned, if zlen q <? depth then q ++ [None] else q)
  | Get =>
      match q with
      | [] => (Got NoneAvailable None, [])
      | r :: q' => (Got (match q' with [] => Done | _ => MoreAvailable end) (Some r), q')
      end
  end.

Fixpoint run_commands (cs : list Command) : PM (list Reply) :=
  match cs with
  | [] => retS []
  | c :: cs' => let! r := run_command c in let! rs := run_commands cs' in retS (r :: rs)
  end.

Fixpoint queue_commands (depth : Z) (cs : list Command) (q : list (option R)) : list Reply * list (option R) :=
  match cs with
  | [] => ([], q)
  | c :: cs' =>
      let '(r, q1) := queue_command depth c q in
      let '(rs, q2) := queue_commands depth cs' q1 in (r :: rs, q2)
  end.

Record rep (depth : Z) (p : Pipeline) (q : list (option R)) : Prop := {
  rp_depth : zlen q <= depth <= LONG_MAX;
  rp_empty : is_sem (empty_ p) (depth - zlen q);
  rp_available : is_sem (available_ p) (zlen q);
  rp_queue : fst <$> queue_ p = q
}.

(** A producer that gets a place: the place is taken and the rest unchanged. *)
Lemma produce_room depth p q k (m : PM ProducerContinuation) :
  m = (let! ok := take_empty in if negb ok then retS empty_continuation else reserve k) ->
  rep depth p q ->
  exists c p', m p = Ret (c, p') /\ fst <$> queue_ p' = q /\ is_sem (available_ p') (zlen q) /\
    if decide (zlen q < depth)
    then continuation_ c = Some k /\ is_sem (empty_ p') (depth - zlen q - 1)
    else continuation_ c = None /\ rep depth p' q.
Proof.
  intros -> [Hd He Ha Hq]. unfold take_empty. unfold bindS at 1. case_decide as Hr.
  - destruct (is_sem_take _ _ He ltac:(lia)) as (s' & -> & Hs'). eexists _, _. split; [reflexivity|]. done.
  - assert (depth - zlen q = 0) as Hz by lia. rewrite Hz in He.
    destruct (is_sem_fail _ He) as (s' & -> & Hs'). eexists _, _. split; [reflexivity|].
    split_and!; try done. split; simpl; [lia|by rewrite Hz|done|done].
Qed.

(** A commit into a place that was taken. *)
Lemma commit_rep depth p q r id :
  zlen q < depth <= LONG_MAX -> fst <$> queue_ p = q -> is_sem (available_ p) (zlen q) ->
  is_sem (empty_ p) (depth - zlen q - 1) ->
  exists p', ProducerCommit r id p = Ret (true, p') /\ rep depth p' (q ++ [r]).
Proof.
  intros Hd Hq Ha He. eexists. split; [reflexivity|].
  assert (zlen (q ++ [r]) = zlen q + 1) as Hl by (unfold zlen; rewrite length_app; simpl; lia).
  split; simpl; rewrite ?Hl; [lia|by replace (depth - (zlen q + 1)) with (depth - zlen q - 1) by lia| |].
  - apply is_sem_signal; [done|lia].
  - by rewrite fmap_app, Hq.
Qed.

Lemma commit_if_rep depth p q r id :
  zlen q < depth <= LONG_MAX -> fst <$> queue_ p = q -> is_sem (available_ p) (zlen q) ->
  is_sem (empty_ p) (depth - zlen q - 1) ->
  exists p', ProducerCommitIfEmpty r id p = Ret (bool_decide (q = []), p') /\
    rep depth p' (if decide (q = []) then [r] else q).
Proof.
  intros Hd Hq Ha He. destruct q as [|q0 q].
  - destruct (commit_rep depth p [] r id Hd Hq Ha He) as (p' & Hr & Hp'). exists p'. split; [|done].
    apply fmap_nil_inv in Hq. unfold ProducerCommitIfEmpty, push_if_empty. unfold bindS at 1.
    rewrite bind_get, Hq. exact Hr.
  - apply fmap_cons_inv in Hq as (x & q' & -> & -> & Hqu).
    unfold ProducerCommitIfEmpty, push_if_empty. unfold bindS at 1. rewrite bind_get, Hqu.
    eexists. split; [reflexivity|]. unfold zlen in *. simpl length in *. rewrite length_fmap in *.
    split; simpl; unfold zlen; simpl length; rewrite ?length_fmap; [lia| |done|by rewrite Hqu].
    replace (depth - Z.of_nat (Datatypes.S (length q')))
      with (depth - Z.of_nat (Datatypes.S (length q')) - 1 + 1) by lia.
    apply is_sem_signal; [done|lia].
Qed.

Lemma consume_rep depth p q :
  rep depth p q ->
  exists p', Consume true p =
      Ret (match q with
           | [] => (NoneAvailable, None)
           | r :: q' => (match q' with [] => Done | _ => MoreAvailable end, Some r)
           end, p') /\ rep depth p' (tail q).
Proof.
  intros [Hd He Ha Hq]. unfold Consume, take_available. cbn [negb]. unfold bindS at 1. destruct q as [|r q].
  - destruct (is_sem_fail _ Ha) as (s' & -> & Hs'). eexists. split; [reflexivity|]. by split.
  - destruct (is_sem_take _ _ Ha ltac:(unfold zlen; simpl; lia)) as (s' & -> & Hs'). cbn [negb].
    apply fmap_cons_inv in Hq as ([x id] & q' & -> & -> & Hqu).
    unfold pop. unfold bindS at 1. rewrite bind_get.
    cbn [queue_ with_available]. rewrite Hqu. eexists. split.
    { cbn. destruct q'; reflexivity. }
    unfold zlen in *. simpl length in *. rewrite length_fmap in *.
    split; simpl; unfold zlen; rewrite ?length_fmap; [lia| | |done].
    + replace (depth - Z.of_nat (length q')) with (depth - Z.of_nat (Datatypes.S (length q')) + 1) by lia.
      apply is_sem_signal; [done|lia].
    + by replace (Z.of_nat (length q')) with (Z.of_nat (Datatypes.S (length q')) - 1) by lia.
Qed.

Lemma run_command_rep depth p q c :
  rep depth p q ->
  exists p', run_command c p = Ret (fst (queue_command depth c q), p') /\
    rep depth p' (snd (queue_command depth c q)).
Proof.
  intros Hrep. pose proof (rp_depth _ _ _ Hrep) as Hd. destruct c as [r|r| |]; cbn [run_command queue_command].
  - destruct (produce_room depth p q Commit Produce eq_refl Hrep) as (k & p1 & Hr & Hq & Ha & Hk).
    rewrite (bind_run _ _ _ _ _ Hr). unfold Complete, ProducerContinuation_dtor.
    destruct (Z.ltb_spec (zlen q) depth); case_decide; try lia; destruct Hk as [Hkc Hk]; rewrite Hkc.
    + destruct (commit_rep depth p1 q (Some r) (trace_id_ k) ltac:(lia) Hq Ha Hk) as (p2 & Hc & Hp2).
      cbn [call_continuation]. unfold bindS at 1. rewrite (bind_run _ _ _ _ _ Hc). by exists p2.
    + unfold bindS at 1. unfold retS at 1. rewrite Hkc. by exists p1.
  - destruct (produce_room depth p q CommitIfEmpty ProduceIfEmpty eq_refl Hrep) as (k & p1 & Hr & Hq & Ha & Hk).
    rewrite (bind_run _ _ _ _ _ Hr). unfold Complete, ProducerContinuation_dtor.
    case_decide as Hlt; destruct Hk as [Hkc Hk]; rewrite Hkc.
    + destruct (commit_if_rep depth p1 q (Some r) (trace_id_ k) ltac:(lia) Hq Ha Hk) as (p2 & Hc & Hp2).
      cbn [call_continuation]. unfold bindS at 1. rewrite (bind_run _ _ _ _ _ Hc). exists p2.
      destruct q; [|done]. unfold zlen in Hlt. simpl in Hlt. rewrite (proj2 (Z.ltb_lt 0 depth)) by lia. done.
    + unfold bindS at 1. unfold retS at 1. rewrite Hkc. exists p1. destruct q; [|done].
      unfold zlen in Hlt. simpl in Hlt. by rewrite (proj2 (Z.ltb_ge 0 depth)) by lia.
  - destruct (produce_room depth p q Commit Produce eq_refl Hrep) as (k & p1 & Hr & Hq & Ha & Hk).
    rewrite (bind_run _ _ _ _ _ Hr). unfold ProducerContinuation_dtor.
    destruct (Z.ltb_spec (zlen q) depth); case_decide; try lia; destruct Hk as [Hkc Hk]; rewrite Hkc.
    + destruct (commit_rep depth p1 q None (trace_id_ k) ltac:(lia) Hq Ha Hk) as (p2 & Hc & Hp2).
      cbn [call_continuation]. unfold bindS at 1. rewrite (bind_run _ _ _ _ _ Hc). by exists p2.
    + by exists p1.
  - destruct (consume_rep depth p q Hrep) as (p1 & Hr & Hp1). rewrite (bind_run _ _ _ _ _ Hr).
    exists p1. by destruct q.
Qed.

Lemma run_commands_rep depth cs : forall p q,
  rep depth p q ->
  exists p', run_commands cs p = Ret (fst (queue_commands depth cs q), p') /\
    rep depth p' (snd (queue_commands depth cs q)).
Proof.
  induction cs as [|c cs IH]; intros p q Hrep; cbn [run_commands queue_commands]; [by exists p|].
  destruct (run_command_rep depth p q c Hrep) as (p1 & Hr & Hp1). rewrite (bind_run _ _ _ _ _ Hr).
  destruct (queue_command depth c q) as [r q1]. simpl in Hp1.
  destruct (IH p1 q1 Hp1) as (p2 & Hrs & Hp2). rewrite (bind_run _ _ _ _ _ Hrs).
  destruct (queue_commands depth cs q1) as [rs q2]. by exists p2.
Qed.

(** C6: seen from one thread the pipeline is a bounded first-in first-out queue:
    any sequence of productions, conditional productions, abandoned productions
    and consumptions gives the answers of that queue, and leaves its contents.  A
    production that is abandoned puts a null resource in the queue. *)
Theorem Pipeline_refines (depth : Z) (cs : list Command) :
  0 <= depth <= LONG_MAX ->
  exists p, run_commands cs (Pipeline_ctor depth) = Ret (fst (queue_commands depth cs []), p) /\
    fst <$> queue_ p = snd (queue_commands depth cs []).
Proof.
  intros Hd. destruct (run_commands_rep depth cs (Pipeline_ctor depth) []) as (p & Hr & Hp).
  - split; simpl; unfold zlen; simpl; [lia| |apply is_sem_ctor; unfold LONG_MAX; lia|done].
    rewrite Z.sub_0_r. by apply is_sem_ctor.
  - exists p. split; [done|]. by destruct Hp.
Qed.
End pipeline.
Arguments Pipeline : clear implicits.

(** ** On counting semaphores *)

#[local] Instance counting_spec : SemaphoreSpec (@PlatformSemaphore counting) Semaphore_ctor Semaphore_IsValid
  TryWait Sync.Signal := Semaphore_spec counting counting_laws.

Lemma pipeline_safe_witness :
  (exists s' p', advance (S := @PlatformSemaphore counting) (try := TryWait) (signal := Sync.Signal)
     (R := Z) Idle StartConsume (Pipeline_ctor (ctor := Semaphore_ctor) 2) = Ret (s', p')) /\ 0 <= 2.
Proof.
  destruct (pipeline_safe (spec := counting_spec) (R := Z) 2 1 0 Idle StartConsume _ _
              ltac:(unfold LONG_MAX; lia) (pipe_new 2 1) eq_refl) as (Ha & Hl & _).
  split; [exact Ha|exact Hl].
Defined.

Lemma Pipeline_refines_witness :
  exists p, run_commands (S := @PlatformSemaphore counting) (try := TryWait) (signal := Sync.Signal)
      [Put 1; PutIfEmpty 5; Abandon; Put 7; Get; Get; Get] (Pipeline_ctor (ctor := Semaphore_ctor) 2) =
    Ret ([Accepted true; Accepted false; Abandoned; Accepted false;
          Got MoreAvailable (Some (Some 1)); Got Done (Some None); Got NoneAvailable None], p) /\
    fst <$> queue_ p = [].
Proof.
  exact (Pipeline_refines (spec := counting_spec) 2 [Put 1; PutIfEmpty 5; Abandon; Put 7; Get; Get; Get]
           ltac:(unfold LONG_MAX; lia)).
Defined.

(** A conditional commit that gives up leaves [inflight_] one too high. *)
Lemma bail_leaks_inflight :
  exists rs p, run_commands (S := @PlatformSemaphore counting) (try := TryWait) (signal := Sync.Signal)
      [Put 1; PutIfEmpty 5; Get] (Pipeline_ctor (ctor := Semaphore_ctor) 2) = Ret (rs, p) /\
    queue_ p = [] /\ inflight_ p = 1.
Proof. eexists _, _. split; [vm_compute; reflexivity|]. vm_compute. done. Qed.
