(* ===== verification/Logging.v ===== *)
(** * Logging: wtf/logging/{log_level.h, log_setting.h, log_setting.cpp,
    log_settings_state.cpp, logging.h, logging.cpp}

    [LogState] is the process-wide settings and what was written to the error
    stream.  A macro takes the text its [<<] chain adds as an argument.  In the
    other files a failed [WTF_CHECK] is [killS] and log lines are left out;
    [WTF_CHECK_kills] shows that the macro does that. *)

From stdpp Require Import base list numbers strings pretty.
From Stdlib Require Import ZArith Lia.
From S2P Require Import Prelude HttpHeader.

(** ** log_level.h *)

Definition LOG_INFO : Z := 0.
Definition LOG_DEBUG : Z := 1.
Definition LOG_WARNING : Z := 2.
Definition LOG_ERROR : Z := 3.
Definition LOG_FATAL : Z := 4.
Definition LOG_NUM_SEVERITIES : Z := 5.

(** [debug]: NDEBUG is not defined. *)
Definition LOG_DFATAL (debug : bool) : Z := if debug then LOG_FATAL else LOG_ERROR.

(** ** log_setting.h, log_setting.cpp *)

Record LogSettings := mkSettings { min_log_level : Z; max_log_size : Z }.

Record LogState := mkLogState { g_log_settings : LogSettings; cerr : list bytes }.

Definition initial_log_state : LogState := mkLogState (mkSettings LOG_INFO 4096) [].

Abbreviation LM := (M LogState).

Definition SetLogSettings (settings : LogSettings) : LM unit :=
  updS (fun s => mkLogState (mkSettings (Z.min LOG_FATAL (min_log_level settings))
                               (max_log_size (g_log_settings s))) (cerr s)).

Definition GetLogSettings : LM LogSettings := getS g_log_settings.

Definition GetMinLogLevel : LM Z := getS (fun s => Z.min (min_log_level (g_log_settings s)) LOG_FATAL).

(** The constructor returns the settings the destructor restores. *)
Definition ScopedSetLogSettings_ctor (settings : LogSettings) : LM LogSettings :=
  let! old_settings_ := GetLogSettings in
  do! SetLogSettings settings in
  retS old_settings_.
Definition ScopedSetLogSettings_dtor (old_settings_ : LogSettings) : LM unit := SetLogSettings old_settings_.

(** ** logging.cpp *)

Definition kLogSeverityNames : list bytes :=
  [str "INFO"; str "DEBUG"; str "WARNING"; str "ERROR"; str "FATAL"].

Definition GetNameForLogSeverity (severity : Z) : bytes :=
  if (LOG_INFO <=? severity) && (severity <? LOG_NUM_SEVERITIES)
  then default (str "UNKNOWN") (at_Z kLogSeverityNames severity)
  else str "UNKNOWN".

Fixpoint StripDots (path : bytes) : bytes :=
  match path with
  | 46 :: 46 :: 47 :: path' => StripDots path'
  | _ => path
  end.

(** [strrchr]: the rest after the last [c]. *)
Fixpoint after_last (c : Z) (path : bytes) : option bytes :=
  match path with
  | [] => None
  | a :: path' =>
      match after_last c path' with
      | Some r => Some r
      | None => if a =? c then Some path' else None
      end
  end.

Definition StripPath (path : bytes) : bytes := default path (after_last 47 path).

(** The text of a new [LogMessage]; [thread] is [GetCurrentThreadId()]. *)
Definition LogMessage_ctor (thread severity : Z) (file : bytes) (line : Z) (condition : option bytes)
  : outcome bytes :=
  let? name :=
    (if LOG_INFO <=? severity then Ret (GetNameForLogSeverity severity)
     else if severity =? - 2 ^ 31 then Undef "negation overflows"
     else Ret (str "VERBOSE" ++ dec (- severity))) in
  Ret (str "[" ++ dec thread ++ str "] [" ++ name ++ str ":" ++
       (if LOG_INFO <? severity then StripDots file else StripPath file) ++
       str "(" ++ dec line ++ str ")] " ++
       match condition with Some c => str "Check failed: " ++ c ++ str ". " | None => [] end).

Definition KillProcess {A} : LM A := killS "abort".

(** The destructor writes the line, and aborts after a fatal one. *)
Definition LogMessage_dtor (severity : Z) (stream : bytes) : LM unit :=
  do! updS (fun s => mkLogState (g_log_settings s) (cerr s ++ [stream ++ [10]])) in
  if LOG_FATAL <=? severity then KillProcess else retS tt.

Definition GetVlogVerbosity : LM Z :=
  let! l := GetMinLogLevel in retS (Z.max (-1) (LOG_INFO - l)).

Definition ShouldCreateLogMessage (severity : Z) : LM bool :=
  let! l := GetMinLogLevel in retS (l <=? severity).

(** ** logging.h *)

(** [WTF_LAZY_STREAM]: the message is made only when the condition holds. *)
Definition WTF_LAZY_STREAM (thread severity : Z) (file : bytes) (line : Z) (condition : option bytes)
  (text : bytes) (on : bool) : LM unit :=
  if negb on then retS tt else
  let! stream := liftS (LogMessage_ctor thread severity file line condition) in
  LogMessage_dtor severity (stream ++ text).

Definition WTF_LOG (thread severity : Z) (file : bytes) (line : Z) (text : bytes) : LM unit :=
  let! on := ShouldCreateLogMessage severity in
  WTF_LAZY_STREAM thread severity file line None text on.

Definition WTF_CHECK (thread : Z) (file : bytes) (line : Z) (spelling : bytes) (condition : bool)
  (text : bytes) : LM unit :=
  WTF_LAZY_STREAM thread LOG_FATAL file line (Some spelling) text (negb condition).

Definition CORE_VLOG (thread verbose_level : Z) (file : bytes) (line : Z) (text : bytes) : LM unit :=
  let! v := GetVlogVerbosity in
  WTF_LAZY_STREAM thread (- verbose_level) file line None text (verbose_level <=? v).

Definition WTF_DLOG (debug : bool) (thread severity : Z) (file : bytes) (line : Z) (text : bytes) : LM unit :=
  if debug then WTF_LOG thread severity file line text else retS tt.
Definition WTF_DCHECK (debug : bool) (thread : Z) (file : bytes) (line : Z) (spelling : bytes)
  (condition : bool) (text : bytes) : LM unit :=
  if debug then WTF_CHECK thread file line spelling condition text else retS tt.

Definition WTF_UNREACHABLE {A} (thread : Z) (file : bytes) (line : Z) : LM A :=
  do! WTF_LOG thread LOG_ERROR file line (str "Reached unreachable code.") in KillProcess.

(** ** Lemmas *)

(** A failed check aborts, one that holds does nothing: [WTF_CHECK] is the
    [checkS] of the other components. *)
Lemma WTF_CHECK_kills thread file line spelling b text s :
  WTF_CHECK thread file line spelling b text s = checkS b "abort" s.
Proof. by destruct b. Qed.

Lemma WTF_DCHECK_kills debug thread file line spelling b text s :
  WTF_DCHECK debug thread file line spelling b text s = checkS (negb debug || b) "abort" s.
Proof. by destruct debug, b. Qed.

Lemma after_last_spec c path :
  match after_last c path with
  | Some r => exists d, path = d ++ c :: r /\ (c ∉ r)
  | None => c ∉ path
  end.
Proof.
  induction path as [|a path IH]; simpl; [by apply not_elem_of_nil|].
  destruct (after_last c path) as [r|].
  - destruct IH as (d & -> & Hr). by exists (a :: d).
  - destruct (Z.eqb_spec a c) as [->|Ha]; [by exists []|].
    rewrite not_elem_of_cons. split; [congruence|done].
Qed.

(** What [StripPath] leaves is a suffix without a slash. *)
Lemma StripPath_spec path : (47 ∉ StripPath path) /\ exists d, path = d ++ StripPath path.
Proof.
  unfold StripPath. pose proof (after_last_spec 47 path) as H.
  destruct (after_last 47 path) as [r|]; simpl.
  - destruct H as (d & -> & Hr). split; [done|]. exists (d ++ [47]). by rewrite <- app_assoc.
  - split; [done|by exists []].
Qed.

(** ** Theorem *)

(** C33: what a log statement does, for any settings: below the minimum level
    nothing; otherwise one line is written that ends with the text of the
    statement, and the process is aborted exactly for a fatal message.  A fatal
    message is never below the minimum level, whatever was set. *)
Theorem WTF_LOG_outcome (thread severity : Z) (file : bytes) (line : Z) (text : bytes) (s : LogState) :
  - 2 ^ 31 < severity ->
  let min := min_log_level (g_log_settings s) in
  (severity < LOG_FATAL -> severity < min -> WTF_LOG thread severity file line text s = Ret (tt, s)) /\
  (severity < LOG_FATAL -> min <= severity -> exists prefix,
     WTF_LOG thread severity file line text s =
       Ret (tt, mkLogState (g_log_settings s) (cerr s ++ [prefix ++ text ++ [10]]))) /\
  (LOG_FATAL <= severity -> WTF_LOG thread severity file line text s = Killed "abort").
Proof.
  intros Hsev min. unfold WTF_LOG.
  assert (ShouldCreateLogMessage severity s = Ret (Z.min min LOG_FATAL <=? severity, s)) as Hon by done.
  rewrite (bind_run _ _ _ _ _ Hon). unfold LOG_FATAL in *.
  assert (exists prefix, LogMessage_ctor thread severity file line None = Ret prefix) as (prefix & Hp).
  { unfold LogMessage_ctor. destruct (LOG_INFO <=? severity); [by eexists|].
    rewrite (proj2 (Z.eqb_neq _ _)) by lia. by eexists. }
  unfold WTF_LAZY_STREAM, LogMessage_dtor, liftS, LOG_FATAL. split_and!.
  - intros Hf Hm. by rewrite (proj2 (Z.leb_gt (Z.min min 4) severity)) by lia.
  - intros Hf Hm. rewrite (proj2 (Z.leb_le (Z.min min 4) severity)) by lia. cbn [negb].
    rewrite (proj2 (Z.leb_gt 4 severity)) by lia. exists prefix. unfold bindS at 1. rewrite Hp.
    rewrite bind_upd. unfold retS. by rewrite <- app_assoc.
  - intros Hf. rewrite (proj2 (Z.leb_le (Z.min min 4) severity)) by lia. cbn [negb].
    rewrite (proj2 (Z.leb_le 4 severity)) by lia. unfold bindS at 1. by rewrite Hp.
Qed.

Lemma WTF_LOG_outcome_witness :
  WTF_LOG 7 LOG_WARNING (str "../src/a.cpp") 12 (str "late") (mkLogState (mkSettings 9 4096) []) =
  Ret (tt, mkLogState (mkSettings 9 4096) []) /\
  WTF_LOG 7 LOG_FATAL (str "../src/a.cpp") 12 (str "late") (mkLogState (mkSettings 9 4096) []) = Killed "abort".
Proof.
  split.
  - apply (WTF_LOG_outcome 7 LOG_WARNING (str "../src/a.cpp") 12 (str "late") (mkLogState (mkSettings 9 4096) []));
      unfold LOG_WARNING, LOG_FATAL; simpl; lia.
  - apply (WTF_LOG_outcome 7 LOG_FATAL (str "../src/a.cpp") 12 (str "late") (mkLogState (mkSettings 9 4096) []));
      unfold LOG_FATAL; lia.
Defined.

(** The settings a scope changed are restored, for a level that can be set. *)
Lemma ScopedSetLogSettings_restores settings s :
  min_log_level (g_log_settings s) <= LOG_FATAL ->
  (let! old := ScopedSetLogSettings_ctor settings in ScopedSetLogSettings_dtor old) s = Ret (tt, s).
Proof.
  intros Hl. destruct s as [[m n] c]. simpl in Hl.
  unfold ScopedSetLogSettings_ctor, ScopedSetLogSettings_dtor, SetLogSettings, GetLogSettings.
  unfold bindS at 1. rewrite bind_get, bind_upd. unfold retS. unfold updS. apply ret_state. simpl.
  by rewrite Z.min_r.
Qed.

(** Only the level is set: the size limit of the new settings is dropped. *)
Lemma SetLogSettings_drops_size settings s s' :
  SetLogSettings settings s = Ret (tt, s') ->
  max_log_size (g_log_settings s') = max_log_size (g_log_settings s).
Proof. by intros [= <-]. Qed.
