(* ===== verification/HttpSession.v ===== *)
(** * The HTTP client over libuv: net/http_cli/session.{h,cpp},
    session_impl.{h,cpp}, response.{h,cpp}, error.{h,cpp} and
    implement/uv/session_impl_uv.{h,cpp}, the default build

    libuv, http-parser and OpenSSL are parameters: [HttpParser] is the parser
    with the callbacks it makes for some input, [Tls] the connection with its two
    memory BIOs.  The event loop is the list of events it reports.  What was
    written to the socket and which responses the handler got are fields of the
    state.  [moved] is what a moved-from string holds, which the language leaves
    open.  [exchange_delivers] is the life of a plain request; the last section
    shows what the client loses. *)

From stdpp Require Import base list numbers strings pretty.
From Stdlib Require Import ZArith Lia.
From S2P Require Import Prelude HttpHeader.

(** ** error.h, error.cpp *)

Inductive ErrorCode :=
| OK | TIMEDOUT | CONNECTION_FAILURE | EMPTY_RESPONSE | HOST_RESOLUTION_FAILURE | INTERNAL_ERROR
| INVALID_URL_FORMAT | NETWORK_RECEIVE_ERROR | NETWORK_SEND_FAILURE | PROXY_RESOLUTION_FAILURE
| SSL_CONNECT_ERROR | SSL_LOCAL_CERTIFICATE_ERROR | SSL_REMOTE_CERTIFICATE_ERROR | SSL_CACERT_ERROR
| GENERIC_SSL_ERROR | UNSUPPORTED_PROTOCOL | UNKNOWN_ERROR.

#[export] Instance ErrorCode_eq_dec : EqDecision ErrorCode.
Proof. solve_decision. Defined.

Definition error_value (c : ErrorCode) : Z :=
  match c with
  | OK => 0 | TIMEDOUT => 1 | CONNECTION_FAILURE => 2 | EMPTY_RESPONSE => 3
  | HOST_RESOLUTION_FAILURE => 4 | INTERNAL_ERROR => 5 | INVALID_URL_FORMAT => 6
  | NETWORK_RECEIVE_ERROR => 7 | NETWORK_SEND_FAILURE => 8 | PROXY_RESOLUTION_FAILURE => 9
  | SSL_CONNECT_ERROR => 10 | SSL_LOCAL_CERTIFICATE_ERROR => 11 | SSL_REMOTE_CERTIFICATE_ERROR => 12
  | SSL_CACERT_ERROR => 13 | GENERIC_SSL_ERROR => 14 | UNSUPPORTED_PROTOCOL => 15 | UNKNOWN_ERROR => 1000
  end.

Record HttpError := mkError { code_ : ErrorCode }.
Definition Error_default : HttpError := mkError OK.
Definition Error_bool (e : HttpError) : bool := negb (bool_decide (code_ e = OK)).
Definition Error_eq (e : HttpError) (code : ErrorCode) : bool := bool_decide (code_ e = code).
Definition Error_string (e : HttpError) : bytes := str "error:" ++ dec (error_value (code_ e)).

(** ** response.h, response.cpp *)

(** cookies.h, cookies.cpp: parsing a cookie string is an empty function. *)
Record Cookies := mkCookies { map_ : list (bytes * bytes) }.
Definition Cookies_default : Cookies := mkCookies [].
Definition ParseCookieString (cookie_str : bytes) (c : Cookies) : Cookies := c.

Record Response := mkResponse {
  statusCode : Z; status : bytes; error : HttpError; body : bytes; header : Header; resp_url : Url;
  cookies : Cookies
}.

Definition Response_ctor (status_code : Z) (e : HttpError) (b : bytes) (h : Header) (u : Url) (c : Cookies) : Response :=
  mkResponse status_code [] e b h u c.

(** [ResponseHandler]: whether it holds a function. *)
Record ResponseHandler := mkHandler { handler_ : bool }.

(** ** The libraries *)

(** What http-parser calls back. *)
Inductive ParserEvent :=
| on_status (status_code : Z) (at_ : bytes)
| on_header_field (at_ : bytes)
| on_header_value (at_ : bytes)
| on_headers_complete
| on_body (at_ : bytes)
| on_message_complete.

Inductive UrlField := UF_SCHEMA | UF_HOST | UF_PORT | UF_PATH | UF_QUERY | UF_FRAGMENT.

(** [struct http_parser_url]: offset and length of the fields that are set. *)
Record UrlParts := mkParts { field_data : UrlField -> option (nat * nat); parts_port : Z }.

Class HttpParser := {
  http_parser : Type;
  http_parser_init : http_parser;                    (* HTTP_RESPONSE *)
  http_parser_execute : http_parser -> bytes -> list ParserEvent * Z * http_parser;
  http_parser_parse_url : bytes -> UrlParts
}.

(** The SSL object with [read_bio_] and [write_bio_]. *)
Class Tls := {
  SSL : Type;
  SSL_new : SSL;
  BIO_write : SSL -> bytes -> SSL;
  SSL_do_handshake : SSL -> Z * SSL;
  SSL_is_init_finished : SSL -> bool;
  SSL_connect : SSL -> Z * SSL;
  SSL_write : SSL -> bytes -> Z * SSL;
  SSL_read : SSL -> Z -> Z * bytes * SSL;            (* result, bytes read *)
  SSL_get_error : SSL -> Z -> Z;
  BIO_read : SSL -> Z -> bytes * SSL;                (* nothing: the result was not positive *)
  BIO_pending : SSL -> nat
}.

(** A read of a memory BIO takes what it returns. *)
Class TlsLaws (T : Tls) : Prop := {
  BIO_read_takes s n c s' : BIO_read s n = (c, s') -> c <> [] -> (BIO_pending s' < BIO_pending s)%nat
}.

Definition SSL_ERROR_WANT_READ : Z := 2.

(** What the loop reports: the result of the name resolution, of the connection,
    and a read with its result and data. *)
Inductive UvEvent := UvResolved (status : Z) | UvConnected (status : Z) | UvRead (nread : Z) (data : bytes).

Section session.
Context {P : HttpParser} {T : Tls} (moved : bytes -> bytes).

(** ** session_impl_uv.h *)

Record HttpSession := mkHttpSession {
  field_ : bytes;
  request_ : Request;
  bodyStream_ : bytes;
  response_ : Response;
  responseHandler_ : ResponseHandler;
  ssl_ : SSL;
  parser_ : http_parser;
  resolving : bool; connecting : bool; reading : bool;   (* requests of the loop *)
  written : list bytes;
  delivered : list Response
}.

Definition eta_Session (s : HttpSession) : HttpSession :=
  mkHttpSession (field_ s) (request_ s) (bodyStream_ s) (response_ s) (responseHandler_ s) (ssl_ s)
    (parser_ s) (resolving s) (connecting s) (reading s) (written s) (delivered s).
Definition with_field : bytes -> HttpSession -> HttpSession := ltac:(build_setter eta_Session field_).
Definition with_request : Request -> HttpSession -> HttpSession := ltac:(build_setter eta_Session request_).
Definition with_body : bytes -> HttpSession -> HttpSession := ltac:(build_setter eta_Session bodyStream_).
Definition with_response : Response -> HttpSession -> HttpSession := ltac:(build_setter eta_Session response_).
Definition with_handler : ResponseHandler -> HttpSession -> HttpSession :=
  ltac:(build_setter eta_Session responseHandler_).
Definition with_ssl : SSL -> HttpSession -> HttpSession := ltac:(build_setter eta_Session ssl_).
Definition with_parser : http_parser -> HttpSession -> HttpSession := ltac:(build_setter eta_Session parser_).
Definition with_resolving : bool -> HttpSession -> HttpSession := ltac:(build_setter eta_Session resolving).
Definition with_connecting : bool -> HttpSession -> HttpSession := ltac:(build_setter eta_Session connecting).
Definition with_reading : bool -> HttpSession -> HttpSession := ltac:(build_setter eta_Session reading).
Definition with_written : list bytes -> HttpSession -> HttpSession := ltac:(build_setter eta_Session written).
Definition with_delivered : list Response -> HttpSession -> HttpSession :=
  ltac:(build_setter eta_Session delivered).

Definition set_req_url (u : Url) (r : Request) : Request :=
  mkRequest (req_header r) (req_method r) u (httpMajor r) (httpMinor r) (raw r).
Definition set_req_header (h : Header) (r : Request) : Request :=
  mkRequest h (req_method r) (req_url r) (httpMajor r) (httpMinor r) (raw r).
Definition set_req_method (m : bytes) (r : Request) : Request :=
  mkRequest (req_header r) m (req_url r) (httpMajor r) (httpMinor r) (raw r).

Abbreviation HM := (M HttpSession).

(** ** session_impl_uv.cpp

    [OnAlloc], [OnWrite] and [OnClose] only allocate and log.  The [data] of a
    read are the [nread] bytes of its buffer.  The handler gets [response_] by
    reference: what it moves out of it is not used again. *)

(** [uv_write] of a buffer. *)
Definition Write (buffer : bytes) : HM unit := updS (fun s => with_written (written s ++ [buffer]) s).

(** The loop of [FlushReadBio]; a memory BIO runs empty. *)
Fixpoint flush_bio (fuel : nat) : HM unit :=
  match fuel with
  | O => undefS "FlushReadBio: out of fuel"
  | S fuel' =>
      let! ssl := getS ssl_ in
      let '(buf, ssl') := BIO_read ssl (1024 * 16) in
      do! updS (with_ssl ssl') in
      match buf with
      | [] => retS tt
      | _ => do! Write buf in flush_bio fuel'
      end
  end.

Definition FlushReadBio : HM unit :=
  let! ssl := getS ssl_ in flush_bio (Datatypes.S (BIO_pending ssl)).

(** Any error but [SSL_ERROR_WANT_READ] is logged as fatal. *)
Definition HandleError (result : Z) : HM unit :=
  let! ssl := getS ssl_ in
  if SSL_get_error ssl result =? SSL_ERROR_WANT_READ then FlushReadBio
  else killS "Need to specify more error code.".

Definition OnRecvBody (p : bytes) : HM unit := updS (fun s => with_body (bodyStream_ s ++ p) s).

(** [insert_or_assign(std::move(field_), value)]: the key is moved from only when
    a new entry is made. *)
Definition OnHttpParserHeaderValue (value : bytes) : HM unit :=
  updS (fun s =>
    let h := req_header (request_ s) in
    let left := match header_find h (field_ s) with Some _ => field_ s | None => moved (field_ s) end in
    with_field left (with_request (set_req_header (insert_or_assign (field_ s) value h) (request_ s)) s)).

Definition OnHttpParserHeaderField (field : bytes) : HM unit := updS (with_field field).

Definition OnHttpParserStatus (code : Z) (text : bytes) : HM unit :=
  updS (fun s => let r := response_ s in
    with_response (mkResponse code text (error r) (body r) (header r) (resp_url r) (cookies r)) s).

Definition OnHttpParserBody (p : bytes) : HM unit := OnRecvBody p.
Definition OnHttpParserHeaderComplete : HM unit := retS tt.
Definition OnHttpParserMessageComplete : HM unit := retS tt.

(** The callbacks registered in [DoInit]. *)
Definition settings_ (e : ParserEvent) : HM unit :=
  match e with
  | on_status c t => OnHttpParserStatus c t
  | on_header_field f => OnHttpParserHeaderField f
  | on_header_value v => OnHttpParserHeaderValue v
  | on_headers_complete => OnHttpParserHeaderComplete
  | on_body p => OnHttpParserBody p
  | on_message_complete => OnHttpParserMessageComplete
  end.

(** [http_parser_execute] with its callbacks, and the check after it. *)
Definition execute (data : bytes) : HM unit :=
  let! p := getS parser_ in
  let '(events, nparsed, p') := http_parser_execute p data in
  do! iterS settings_ events in
  do! updS (with_parser p') in
  checkS (nparsed =? zlen data) "nparsed == nread".

Definition ResponseHandler_call (response : Response) : HM unit :=
  let! h := getS responseHandler_ in
  whenS (handler_ h) (updS (fun s => with_delivered (delivered s ++ [response]) s)).

Definition OnResponse (response : Response) : HM unit := ResponseHandler_call response.

(** [std::move] of the url and the header leaves them unspecified; here the
    strings are [moved] and the map is empty, as after a move construction. *)
Definition moved_url (u : Url) : Url :=
  mkUrl (moved (url u)) (moved (schema u)) (moved (host u)) (port u) (moved (path u)) (moved (query u))
    (moved (fragment u)).

Definition OnRecvComplete : HM unit :=
  do! updS (fun s =>
    let r := response_ s in
    let q := request_ s in
    with_request (set_req_header [] (set_req_url (moved_url (req_url q)) q))
      (with_response (mkResponse (statusCode r) (status r) (error r) (bodyStream_ s) (req_header q) (req_url q) (cookies r)) s)) in
  let! r := getS response_ in
  OnResponse r.

Definition PrepareAndTake : HM bytes :=
  do! updS (fun s => with_request (PreparePayload (request_ s)) s) in
  getS (fun s => raw (request_ s)).

Definition ReadFromSSL (buf : bytes) : HM unit :=
  do! updS (fun s => with_ssl (BIO_write (ssl_ s) buf) s) in
  let! finished := getS (fun s => SSL_is_init_finished (ssl_ s)) in
  if negb finished then
    let! ssl := getS ssl_ in
    let '(ret, ssl') := SSL_connect ssl in
    do! updS (with_ssl ssl') in
    if ret <? 0 then HandleError ret else
    let! text := PrepareAndTake in
    let! ssl := getS ssl_ in
    let '(ret, ssl') := SSL_write ssl text in
    do! updS (with_ssl ssl') in
    do! whenS (ret <=? 0) (HandleError ret) in
    FlushReadBio
  else
    let! ssl := getS ssl_ in
    let '(size, data, ssl') := SSL_read ssl (zlen buf) in
    do! updS (with_ssl ssl') in
    if size =? -1 then retS tt
    else if size <? 0 then undefS "http_parser_execute of a negative size"
    else execute (take (Z.to_nat size) data).

Definition OnConnect (status : Z) : HM unit :=
  do! updS (with_reading true) in
  let! https := getS (fun s => IsHttps (req_url (request_ s))) in
  if (https : bool) then
    let! ssl := getS ssl_ in
    let '(ret, ssl') := SSL_do_handshake ssl in
    do! updS (with_ssl ssl') in
    whenS (ret <? 0) (HandleError ret)
  else
    let! text := PrepareAndTake in
    Write text.

Definition OnRead (nread : Z) (buf : bytes) : HM unit :=
  if 0 <? nread then
    let! https := getS (fun s => IsHttps (req_url (request_ s))) in
    if (https : bool) then ReadFromSSL buf else execute buf
  else
    do! OnRecvComplete in
    updS (with_reading false).

Definition Connect : HM unit := updS (with_connecting true).

Definition OnResolved (status : Z) : HM unit :=
  if status <? 0 then retS tt else Connect.

(** [uv_getaddrinfo] may fail to start. *)
Definition Resolve (started : bool) : HM Z :=
  if negb started then retS 1 else
  do! updS (with_resolving true) in
  retS 0.

(** A callback runs when its request is under way. *)
Definition handle (e : UvEvent) : HM unit :=
  match e with
  | UvResolved st =>
      let! r := getS resolving in
      whenS r (do! updS (with_resolving false) in OnResolved st)
  | UvConnected st =>
      let! r := getS connecting in
      whenS r (do! updS (with_connecting false) in OnConnect st)
  | UvRead n data => let! r := getS reading in whenS r (OnRead n data)
  end.

Definition DoRequest (started : bool) (events : list UvEvent) : HM unit :=
  let! _ := Resolve started in
  iterS handle events.

Definition DoInit : HM Z :=
  do! updS (with_parser http_parser_init) in
  do! updS (with_ssl SSL_new) in
  retS 0.

(** A field of the parsed url; a slice out of the string is undefined. *)
Definition url_part (buf : bytes) (parts : UrlParts) (f : UrlField) (old : bytes) : outcome bytes :=
  match field_data parts f with
  | None => Ret old
  | Some (off, len) =>
      if decide (off + len <= length buf)%nat then Ret (take len (drop off buf)) else Undef "read out of the url"
  end.

Definition SetUrl (u : Url) : HM unit :=
  let buf := url u in
  let parts := http_parser_parse_url buf in
  let! schema := liftS (url_part buf parts UF_SCHEMA (schema u)) in
  let! host := liftS (url_part buf parts UF_HOST (host u)) in
  let port := match field_data parts UF_PORT with
              | Some _ => parts_port parts
              | None => if bool_decide (schema = str "http") then 80 else 443
              end in
  let! path := liftS (url_part buf parts UF_PATH (path u)) in
  let! query := liftS (url_part buf parts UF_QUERY (query u)) in
  let! fragment := liftS (url_part buf parts UF_FRAGMENT (fragment u)) in
  updS (fun s => with_request (set_req_url (mkUrl buf schema host port path query fragment) (request_ s)) s).

Definition SetMethod (method : bytes) : HM unit :=
  updS (fun s => with_request (set_req_method method (request_ s)) s).
Definition SetHandler (h : ResponseHandler) : HM unit := updS (with_handler h).

(** The setters the client has no use for are empty. *)
Definition SetParameters (content : bytes) : HM unit := retS tt.
Definition SetHeader (h : Header) : HM unit := retS tt.
Definition SetTimeout (timeout : Z) : HM unit := retS tt.
Definition SetAuth : HM unit := retS tt.
Definition SetDigest : HM unit := retS tt.
Definition SetMultipart : HM unit := retS tt.
Definition SetRedirect (redirect : bool) : HM unit := retS tt.
Definition SetRetries (retries : Z) : HM unit := retS tt.
Definition SetMaxRedirects : HM unit := retS tt.
Definition SetCookies (c : Cookies) : HM unit := retS tt.
Definition SetBody : HM unit := retS tt.

(** ** session_impl.cpp: one overload per type of option *)
Inductive HttpOption :=
| OptUrl (u : Url) | OptMethod (m : bytes) | OptHandler (h : ResponseHandler)
| OptHeader (h : Header) | OptParameters (content : bytes) | OptTimeout (ns : Z) | OptRetries (n : Z)
| OptRedirect (b : bool) | OptAuth | OptDigest | OptMultipart | OptMaxRedirects | OptCookies (c : Cookies)
| OptBody.

Definition SetOption (o : HttpOption) : HM unit :=
  match o with
  | OptUrl u => SetUrl u
  | OptParameters content => SetParameters content
  | OptHeader h => SetHeader h
  | OptTimeout ns => SetTimeout ns
  | OptAuth => SetAuth
  | OptDigest => SetDigest
  | OptMethod m => SetMethod m
  | OptMultipart => SetMultipart
  | OptRedirect b => SetRedirect b
  | OptRetries n => SetRetries n
  | OptMaxRedirects => SetMaxRedirects
  | OptCookies c => SetCookies c
  | OptBody => SetBody
  | OptHandler h => SetHandler h
  end.

(** ** session.h, session.cpp *)
Definition Session_SetOption (os : list HttpOption) : HM unit := iterS SetOption os.
Definition Session_Init : HM Z := DoInit.
Definition Session_Request (started : bool) (events : list UvEvent) : HM unit := DoRequest started events.
Definition Get (os : list HttpOption) (started : bool) (events : list UvEvent) : HM unit :=
  do! Session_SetOption (OptMethod (str "GET") :: os) in
  DoRequest started events.
Definition Head (os : list HttpOption) (started : bool) (events : list UvEvent) : HM unit :=
  do! Session_SetOption (OptMethod (str "HEAD") :: os) in
  DoRequest started events.

(** ** main.cpp: a request whose response nobody asked for *)
Definition main (port0 : Z) (started : bool) (events : list UvEvent) : HM unit :=
  do! Session_Init in
  Get [OptUrl (Url_ctor (str "http://www.baidu.com") port0)] started events.

(** ** What a response amounts to *)

(** What the callbacks tell, in whatever pieces they come: the last status, the
    pieces of the body in order, and the callbacks of the headers. *)
Definition status_of (old : Z * bytes) (e : ParserEvent) : Z * bytes :=
  match e with on_status c t => (c, t) | _ => old end.
Definition body_of (e : ParserEvent) : bytes := match e with on_body p => p | _ => [] end.
Definition is_header_event (e : ParserEvent) : bool :=
  match e with on_header_field _ | on_header_value _ => true | _ => false end.
Definition header_events (evs : list ParserEvent) : list ParserEvent := List.filter is_header_event evs.

(** The callbacks of headers each told in one piece. *)
Definition whole_headers (hs : list (bytes * bytes)) : list ParserEvent :=
  hs ≫= fun kv => [on_header_field kv.1; on_header_value kv.2].

(** Parsing a stream in chunks: the callbacks made, when all input is used. *)
Fixpoint parse_all (p : http_parser) (chunks : list bytes) : option (list ParserEvent * http_parser) :=
  match chunks with
  | [] => Some ([], p)
  | c :: chunks' =>
      let '(evs, n, p') := http_parser_execute p c in
      if n =? zlen c then
        match parse_all p' chunks' with
        | Some (evs', p'') => Some (evs ++ evs', p'')
        | None => None
        end
      else None
  end.

Definition add_headers (hs : list (bytes * bytes)) (h : Header) : Header :=
  foldl (fun h kv => insert_or_assign kv.1 kv.2 h) h hs.

(** What a callback does to the session. *)
Definition effect (s : HttpSession) (e : ParserEvent) : HttpSession :=
  match settings_ e s with Ret (_, s') => s' | _ => s end.

Lemma settings_effect e s : settings_ e s = Ret (tt, effect s e).
Proof. by destruct e. Qed.

Lemma iter_settings evs s : iterS settings_ evs s = Ret (tt, foldl effect s evs).
Proof.
  revert s. induction evs as [|e evs IH]; intros s; [done|]. cbn [iterS foldl].
  unfold bindS at 1. rewrite settings_effect. apply IH.
Qed.

Lemma effect_parser p s e : effect (with_parser p s) e = with_parser p (effect s e).
Proof. by destruct e. Qed.

Lemma effects_parser p s evs : foldl effect (with_parser p s) evs = with_parser p (foldl effect s evs).
Proof. revert s. induction evs as [|e evs IH]; intros s; [done|]. cbn [foldl]. by rewrite effect_parser, IH. Qed.

(** The fields no callback touches. *)
Record framed (s s' : HttpSession) : Prop := {
  fr_url : req_url (request_ s') = req_url (request_ s);
  fr_handler : responseHandler_ s' = responseHandler_ s;
  fr_parser : parser_ s' = parser_ s;
  fr_reading : reading s' = reading s;
  fr_written : written s' = written s;
  fr_delivered : delivered s' = delivered s
}.

#[local] Instance framed_preorder : PreOrder framed.
Proof. split; [by split|]. intros s1 s2 s3 [] []. split; congruence. Qed.

Lemma effects_framed s evs : framed s (foldl effect s evs).
Proof.
  revert s. induction evs as [|e evs IH]; intros s; [done|]. cbn [foldl].
  etransitivity; [|apply IH]. by destruct e.
Qed.

(** The body and the status do not depend on how they are cut, and the headers only
    on the callbacks of headers. *)
Lemma body_effects evs s : bodyStream_ (foldl effect s evs) = bodyStream_ s ++ concat (body_of <$> evs).
Proof.
  revert s. induction evs as [|e evs IH]; intros s; [by rewrite app_nil_r|].
  rewrite fmap_cons. cbn [foldl concat]. rewrite IH, app_assoc. f_equal.
  destruct e; simpl; rewrite ?app_nil_r; done.
Qed.

Lemma response_effects evs s :
  response_ (foldl effect s evs) =
    mkResponse (foldl status_of (statusCode (response_ s), status (response_ s)) evs).1
      (foldl status_of (statusCode (response_ s), status (response_ s)) evs).2
      (error (response_ s)) (body (response_ s)) (header (response_ s)) (resp_url (response_ s)) (cookies (response_ s)).
Proof.
  revert s. induction evs as [|e evs IH]; intros s; [simpl; by destruct (response_ s)|].
  cbn [foldl]. rewrite IH. by destruct e.
Qed.

Lemma header_effects evs : forall s s0,
  field_ s = field_ s0 -> req_header (request_ s) = req_header (request_ s0) ->
  req_header (request_ (foldl effect s evs)) = req_header (request_ (foldl effect s0 (header_events evs))).
Proof.
  induction evs as [|e evs IH]; intros s s0 Hf Hq; [done|].
  destruct e; cbn [header_events List.filter is_header_event foldl]; apply IH; simpl; rewrite ?Hf, ?Hq; done.
Qed.

Lemma whole_headers_effect hs s :
  req_header (request_ (foldl effect s (whole_headers hs))) = add_headers hs (req_header (request_ s)).
Proof.
  revert s. induction hs as [|[k v] hs IH]; intros s; [done|].
  unfold whole_headers in *. cbn [mbind list_bind app foldl fst snd]. by rewrite IH.
Qed.

(** *** Reading *)

Definition read_of (c : bytes) : UvEvent := UvRead (zlen c) c.

Lemma execute_ok data evs p' s :
  http_parser_execute (parser_ s) data = (evs, zlen data, p') ->
  execute data s = Ret (tt, with_parser p' (foldl effect s evs)).
Proof.
  intros Hx. unfold execute. rewrite bind_get, Hx. unfold bindS at 1. rewrite iter_settings, bind_upd.
  by rewrite Z.eqb_refl.
Qed.

(** The reads of a plain session, however the stream is cut. *)
Lemma reads_run chunks : forall evs p' s,
  reading s = true -> IsHttps (req_url (request_ s)) = false -> Forall (fun c => c <> []) chunks ->
  parse_all (parser_ s) chunks = Some (evs, p') ->
  iterS handle (read_of <$> chunks) s = Ret (tt, with_parser p' (foldl effect s evs)).
Proof.
  induction chunks as [|c chunks IH]; intros evs p' s Hrd Hs Hne Hp.
  { injection Hp as <- <-. simpl. unfold retS. apply ret_state. by destruct s. }
  apply Forall_cons in Hne as [Hc Hne]. cbn [parse_all] in Hp. rewrite fmap_cons. cbn [iterS].
  destruct (http_parser_execute (parser_ s) c) as [[evs1 n] p1] eqn:Hx.
  destruct (Z.eqb_spec n (zlen c)) as [->|]; [|done].
  destruct (parse_all p1 chunks) as [[evs2 p2]|] eqn:Hp2; [|done]. injection Hp as <- <-.
  unfold handle, read_of at 1. unfold bindS at 1. rewrite bind_get, Hrd. cbn [whenS]. unfold OnRead.
  rewrite (proj2 (Z.ltb_lt 0 (zlen c))) by (destruct c; [done|unfold zlen; simpl; lia]).
  rewrite bind_get, Hs, (execute_ok c evs1 p1 s Hx).
  pose proof (effects_framed s evs1) as Hfr.
  rewrite (IH evs2 p2); [|..].
  - apply ret_state. rewrite foldl_app, effects_parser. by destruct (foldl effect (foldl effect s evs1) evs2).
  - simpl. by rewrite (fr_reading _ _ Hfr).
  - simpl. by rewrite (fr_url _ _ Hfr).
  - done.
  - done.
Qed.

(** A parser that stops inside a read ends the process. *)
Lemma reads_killed chunks : forall s,
  reading s = true -> IsHttps (req_url (request_ s)) = false -> Forall (fun c => c <> []) chunks ->
  parse_all (parser_ s) chunks = None ->
  iterS handle (read_of <$> chunks) s = Killed "nparsed == nread".
Proof.
  induction chunks as [|c chunks IH]; intros s Hrd Hs Hne Hp; [done|].
  apply Forall_cons in Hne as [Hc Hne]. cbn [parse_all] in Hp. rewrite fmap_cons. cbn [iterS].
  destruct (http_parser_execute (parser_ s) c) as [[evs1 n] p1] eqn:Hx.
  unfold handle, read_of at 1. unfold bindS at 1. rewrite bind_get, Hrd. cbn [whenS]. unfold OnRead.
  rewrite (proj2 (Z.ltb_lt 0 (zlen c))) by (destruct c; [done|unfold zlen; simpl; lia]).
  rewrite bind_get, Hs. destruct (Z.eqb_spec n (zlen c)) as [->|Hn].
  - rewrite (execute_ok c evs1 p1 s Hx). pose proof (effects_framed s evs1) as Hfr.
    destruct (parse_all p1 chunks) as [[evs2 p2]|] eqn:Hp2; [done|]. apply IH; try done.
    + simpl. by rewrite (fr_reading _ _ Hfr).
    + simpl. by rewrite (fr_url _ _ Hfr).
  - unfold execute. rewrite bind_get, Hx. unfold bindS at 1. rewrite iter_settings, bind_upd.
    by rewrite (proj2 (Z.eqb_neq _ _) Hn).
Qed.

(** ** Theorems *)

(** The events of an exchange: the name is resolved, the connection made, the
    reply read in chunks, and the stream ends. *)
Definition exchange (chunks : list bytes) (last : Z) : list UvEvent :=
  [UvResolved 0; UvConnected 0] ++ (read_of <$> chunks) ++ [UvRead last []].

(** The session after the request was written. *)
Definition asked (s : HttpSession) : HttpSession :=
  with_written (written s ++ [raw (PreparePayload (request_ s))])
    (with_request (PreparePayload (request_ s))
       (with_reading true (with_connecting false (with_connecting true (with_resolving false
          (with_resolving true s)))))).

Lemma request_written evs s :
  IsHttps (req_url (request_ s)) = false ->
  DoRequest true ([UvResolved 0; UvConnected 0] ++ evs) s = iterS handle evs (asked s).
Proof.
  intros Hs. unfold DoRequest, Resolve. cbn [negb]. unfold bindS at 1. rewrite bind_upd. unfold retS at 1.
  cbn [app iterS handle]. unfold bindS at 1. rewrite bind_get. cbn [resolving with_resolving whenS].
  rewrite bind_upd. unfold OnResolved. cbn [Z.ltb Z.compare]. unfold Connect, updS at 1.
  unfold bindS at 1. rewrite bind_get. cbn [connecting with_connecting whenS]. rewrite bind_upd.
  unfold OnConnect. rewrite bind_upd, bind_get.
  cbn [request_ with_reading with_connecting with_resolving]. rewrite Hs.
  unfold PrepareAndTake. unfold bindS at 1. rewrite bind_upd. unfold getS at 1. unfold Write, updS. done.
Qed.

Lemma stream_end last s :
  reading s = true -> last <= 0 -> handler_ (responseHandler_ s) = true ->
  exists s', iterS handle [UvRead last []] s = Ret (tt, s') /\ written s' = written s /\
    bodyStream_ s' = bodyStream_ s /\
    delivered s' = delivered s ++ [mkResponse (statusCode (response_ s)) (status (response_ s))
      (error (response_ s)) (bodyStream_ s) (req_header (request_ s)) (req_url (request_ s))
      (cookies (response_ s))].
Proof.
  intros Hrd Hl Hh. cbn [iterS handle]. unfold bindS at 1. rewrite bind_get, Hrd. cbn [whenS].
  unfold OnRead. rewrite (proj2 (Z.ltb_ge 0 last)) by lia. unfold OnRecvComplete, OnResponse, ResponseHandler_call.
  unfold whenS, bindS, updS, getS, retS.
  cbn [responseHandler_ with_request with_response]. rewrite Hh.
  eexists. split; [reflexivity|]. done.
Qed.

(** C28: a plain request and its response, for any parser and any reads.  The client
    writes exactly the prepared request.  If the parser leaves bytes of a read, the
    process is killed by the check after it.  Otherwise the handler gets one
    response at the end of the stream: with the status told last, and with the
    body told in all pieces, in order, after whatever [bodyStream_] held before.
    Its headers are the map of the names and values told, if each name and each
    value was told in one callback; http-parser does not promise that, and pieces
    of them are lost ([split_field_loses], [split_value_loses]). *)
Theorem exchange_delivers (chunks : list bytes) (last : Z) (s : HttpSession) :
  IsHttps (req_url (request_ s)) = false -> handler_ (responseHandler_ s) = true ->
  Forall (fun c => c <> []) chunks -> last <= 0 ->
  match parse_all (parser_ s) chunks with
  | None => DoRequest true (exchange chunks last) s = Killed "nparsed == nread"
  | Some (evs, _) =>
      exists s' r, DoRequest true (exchange chunks last) s = Ret (tt, s') /\
        written s' = written s ++ [raw (PreparePayload (request_ s))] /\
        delivered s' = delivered s ++ [r] /\
        (statusCode r, status r) = foldl status_of (statusCode (response_ s), status (response_ s)) evs /\
        body r = bodyStream_ s ++ concat (body_of <$> evs) /\ bodyStream_ s' = body r /\
        resp_url r = req_url (request_ s) /\
        forall hs, header_events evs = whole_headers hs -> header r = add_headers hs (req_header (request_ s))
  end.
Proof.
  intros Hs Hh Hne Hl. unfold exchange. rewrite request_written by done.
  assert (forall es fs t, iterS handle (es ++ fs) t = (do! iterS handle es in iterS handle fs) t) as Happ.
  { induction es as [|e es IH]; intros fs t; [done|]. cbn [app iterS]. unfold bindS.
    by destruct (handle e t) as [[? t1]| |]. }
  rewrite Happ. unfold bindS at 1. destruct (parse_all (parser_ s) chunks) as [[evs p']|] eqn:Hp.
  2: { unfold bindS. by rewrite (reads_killed chunks (asked s)). }
  rewrite (reads_run chunks evs p' (asked s)) by done.
  pose proof (body_effects evs (asked s)) as Hb. pose proof (response_effects evs (asked s)) as Hr.
  pose proof (header_effects evs (asked s) (asked s) eq_refl eq_refl) as Hhd.
  pose proof (effects_framed (asked s) evs) as [F1 F2 F3 F4 F5 F6].
  set (s1 := foldl effect _ _) in *.
  destruct (stream_end last (with_parser p' s1)) as (s' & Hrun & Hw & Hbs & Hd);
    [simpl; by rewrite F4|done|simpl; by rewrite F2|].
  eexists s', _. split; [exact Hrun|]. rewrite Hw, Hd, Hbs. simpl. rewrite F5, F6, Hb, F1, Hr.
  split_and!; try done; [simpl; by destruct (foldl status_of _ _)|].
  intros hs Hhs. by rewrite Hhd, Hhs, whole_headers_effect.
Qed.

(** The parts of a url are slices of it. *)
Definition slices (buf : bytes) (parts : UrlParts) : Prop :=
  forall f off len, field_data parts f = Some (off, len) -> (off + len <= length buf)%nat.

Definition part_or (buf : bytes) (parts : UrlParts) (f : UrlField) (old : bytes) : bytes :=
  match field_data parts f with Some (off, len) => take len (drop off buf) | None => old end.

Lemma url_part_ok buf parts f old :
  slices buf parts -> url_part buf parts f old = Ret (part_or buf parts f old).
Proof.
  intros H. unfold url_part, part_or. destruct (field_data parts f) as [[off len]|] eqn:Hf; [|done].
  rewrite decide_True; [done|]. by apply (H f).
Qed.

(** Setting a url takes its parts from the parser, and a default port. *)
Lemma SetUrl_parts u s :
  let parts := http_parser_parse_url (url u) in
  slices (url u) parts ->
  exists s', SetUrl u s = Ret (tt, s') /\
    schema (req_url (request_ s')) = part_or (url u) parts UF_SCHEMA (schema u) /\
    host (req_url (request_ s')) = part_or (url u) parts UF_HOST (host u) /\
    path (req_url (request_ s')) = part_or (url u) parts UF_PATH (path u) /\
    (field_data parts UF_PORT = None ->
       port (req_url (request_ s')) =
         if bool_decide (part_or (url u) parts UF_SCHEMA (schema u) = str "http") then 80 else 443).
Proof.
  intros parts Hsl. unfold SetUrl. fold parts. rewrite !(url_part_ok _ _ _ _ Hsl).
  eexists. split; [reflexivity|]. split_and!; try done. intros Hn. simpl. by rewrite Hn.
Qed.

(** *** The encrypted connection *)

Lemma flush_bio_run {laws : TlsLaws T} fuel : forall s,
  (BIO_pending (ssl_ s) < fuel)%nat ->
  exists s' bufs, flush_bio fuel s = Ret (tt, s') /\ written s' = written s ++ bufs /\
    Forall (fun b => b <> []) bufs /\ fst (BIO_read (ssl_ s) (1024 * 16)) = default [] (head bufs) /\
    request_ s' = request_ s /\ delivered s' = delivered s.
Proof.
  induction fuel as [|fuel IH]; intros s Hf; [lia|]. cbn [flush_bio]. rewrite bind_get.
  destruct (BIO_read (ssl_ s) (1024 * 16)) as [buf ssl'] eqn:Hr. rewrite bind_upd.
  destruct buf as [|b buf].
  - exists (with_ssl ssl' s), []. simpl. by rewrite app_nil_r.
  - pose proof (BIO_read_takes _ _ _ _ Hr ltac:(done)) as Hlt. unfold Write. rewrite bind_upd.
    set (s1 := with_written _ _). destruct (IH s1) as (s' & bufs & Hrun & Hw & Hne & _ & Hq & Hd).
    { subst s1. simpl. lia. }
    exists s', ((b :: buf) :: bufs). split_and!; [done| |by constructor|done|done|done].
    rewrite Hw. subst s1. simpl. by rewrite <- app_assoc.
Qed.

(** flushing the output of the TLS connection ends: the loop of [FlushReadBio]
    writes what the BIO holds in pieces that are not empty, the first read first,
    and touches neither the request nor the responses. *)
Theorem FlushReadBio_ends {laws : TlsLaws T} (s : HttpSession) :
  exists s' bufs, FlushReadBio s = Ret (tt, s') /\ written s' = written s ++ bufs /\
    Forall (fun b => b <> []) bufs /\ fst (BIO_read (ssl_ s) (1024 * 16)) = default [] (head bufs) /\
    request_ s' = request_ s /\ delivered s' = delivered s.
Proof. unfold FlushReadBio. rewrite bind_get. apply flush_bio_run. lia. Qed.

(** ** What the client loses *)

(** The query of the url is not part of the request. *)
Lemma request_drops_query r q :
  raw (PreparePayload (set_req_url
    (mkUrl (url (req_url r)) (schema (req_url r)) (host (req_url r)) (port (req_url r)) (path (req_url r)) q
       (fragment (req_url r))) r)) = raw (PreparePayload r).
Proof. done. Qed.

(** A header name that comes in two callbacks keeps its last part only. *)
Lemma split_field_loses a b v s :
  req_header (request_ (foldl effect s [on_header_field a; on_header_field b; on_header_value v])) =
  insert_or_assign b v (req_header (request_ s)).
Proof. done. Qed.

(** A new header's value that comes in two callbacks ends up under what the moved
    name holds. *)
Lemma split_value_loses k v w s :
  header_find (req_header (request_ s)) k = None ->
  req_header (request_ (foldl effect s [on_header_field k; on_header_value v; on_header_value w])) =
  insert_or_assign (moved k) w (insert_or_assign k v (req_header (request_ s))).
Proof. intros Hk. simpl. by rewrite Hk. Qed.

(** A read of zero bytes, which libuv reports when there is nothing to read yet,
    ends the response. *)
Lemma empty_read_ends s :
  reading s = true -> handler_ (responseHandler_ s) = true ->
  exists s', handle (UvRead 0 []) s = Ret (tt, s') /\ reading s' = false /\
    length (delivered s') = S (length (delivered s)).
Proof.
  intros Hrd Hh. cbn [handle]. rewrite bind_get, Hrd. cbn [whenS]. unfold OnRead. cbn [Z.ltb Z.compare].
  unfold OnRecvComplete, OnResponse, ResponseHandler_call, whenS, bindS, updS, getS, retS.
  cbn [responseHandler_ with_request with_response]. rewrite Hh. eexists. split; [reflexivity|].
  split; [done|]. simpl. rewrite length_app. simpl. lia.
Qed.
End session.

(** ** A concrete parser: a piece of a message for each read *)

Definition sample_events (n : nat) : list ParserEvent :=
  match n with
  | O => [on_status 200 (str "OK")]
  | 1%nat => [on_header_field (str "Content-Length"); on_header_value (str "5"); on_headers_complete; on_body (str "hel")]
  | 2%nat => [on_body (str "lo"); on_message_complete]
  | _ => []
  end.

Definition sample_parser : HttpParser := {|
  http_parser := nat;
  http_parser_init := O;
  http_parser_execute p data := (sample_events p, zlen data, S p);
  http_parser_parse_url u := mkParts (fun _ => None) 0
|}.

Definition sample_tls : Tls := {|
  SSL := unit; SSL_new := tt; BIO_write s _ := s; SSL_do_handshake s := (1, s); SSL_is_init_finished _ := true;
  SSL_connect s := (1, s); SSL_write s b := (zlen b, s); SSL_read s _ := (-1, [], s); SSL_get_error _ _ := 2;
  BIO_read s _ := ([], s); BIO_pending _ := O
|}.

Definition sample_url : Url := mkUrl (str "http://h/p?q") (str "http") (str "h") 80 (str "/p") (str "q") [].

Definition sample_session : @HttpSession sample_parser sample_tls :=
  @mkHttpSession sample_parser sample_tls [] (mkRequest [] (str "GET") sample_url 1 1 []) []
    (mkResponse 0 [] Error_default [] [] sample_url Cookies_default) (mkHandler true) tt O false false false [] [].

Definition three_reads : list bytes := [str "HTTP/1.1 200 OK"; str "Content-Length: 5..hel"; str "lo"].

Lemma exchange_delivers_witness :
  exists s' r, @DoRequest sample_parser sample_tls (fun _ => []) true (exchange three_reads (-4095)) sample_session
      = Ret (tt, s') /\
    written s' = [str "GET /p HTTP/1.1" ++ crlf ++ str "Host: h" ++ crlf ++ crlf] /\
    delivered s' = [r] /\ (statusCode r, status r) = (200, str "OK") /\ body r = str "hello" /\
    bodyStream_ s' = body r /\ resp_url r = sample_url /\
    forall hs, [on_header_field (str "Content-Length"); on_header_value (str "5")] = whole_headers hs ->
      header r = add_headers hs [].
Proof.
  refine (@exchange_delivers sample_parser sample_tls (fun _ => []) three_reads (-4095) sample_session eq_refl eq_refl _ _).
  - repeat constructor; discriminate.
  - lia.
Defined.

(** The body of a second response starts with the first one. *)
Lemma second_body_accumulates :
  exists s', (do! @DoRequest sample_parser sample_tls (fun _ => []) true (exchange three_reads 0) in
              do! updS (with_parser (P := sample_parser) (T := sample_tls) O) in
              DoRequest (fun _ => []) true (exchange three_reads 0)) sample_session = Ret (tt, s') /\
    (body <$> delivered s') = [str "hello"; str "hellohello"].
Proof. eexists. split; [vm_compute; reflexivity|]. vm_compute. reflexivity. Qed.

(** A TLS connection with bytes to send. *)
Definition pending_tls : Tls := {|
  SSL := bytes; SSL_new := []; BIO_write s _ := s; SSL_do_handshake s := (1, s); SSL_is_init_finished _ := true;
  SSL_connect s := (1, s); SSL_write s b := (zlen b, s ++ b); SSL_read s _ := (-1, [], s); SSL_get_error _ _ := 2;
  BIO_read s n := (take (Z.to_nat n) s, drop (Z.to_nat n) s); BIO_pending s := length s
|}.

#[local] Instance pending_laws : TlsLaws pending_tls.
Proof.
  constructor. intros s n c s' [= <- <-] Hc. simpl. rewrite length_drop.
  assert (length (take (Z.to_nat n) s) <> O) as Hl by (by destruct (take _ s)).
  rewrite length_take in Hl. lia.
Qed.

Definition pending_session : @HttpSession sample_parser pending_tls :=
  @mkHttpSession sample_parser pending_tls [] (mkRequest [] (str "GET") sample_url 1 1 []) []
    (mkResponse 0 [] Error_default [] [] sample_url Cookies_default) (mkHandler true) (replicate 3 7) O false false false [] [].

Lemma FlushReadBio_ends_witness :
  exists s' bufs, @FlushReadBio sample_parser pending_tls pending_session = Ret (tt, s') /\
    written s' = [] ++ bufs /\ Forall (fun b => b <> []) bufs /\ [7; 7; 7] = default [] (head bufs) /\
    request_ s' = request_ pending_session /\ delivered s' = [].
Proof. exact (@FlushReadBio_ends sample_parser pending_tls pending_laws pending_session). Defined.
