(* ===== verification/TraceEvent.v ===== *)
(** * Trace events: wtf/trace_event.h, trace_event.cpp

    The functions that hand an event to the timeline handler, the scoped macros
    and the flows.  The handler is whatever the embedder sets: here the events it
    is called with are recorded.  Two things come from outside the repository:
    [AsciiTrie] (the allow list of labels) and the clock of the timeline.
    [scopes_nest] shows that the begin and end events of the scoped macros nest
    under any allow list, [flow_discipline] that a flow is begun once, stepped
    while it is open and ended once, however its objects are moved around. *)

From stdpp Require Import base list numbers strings gmap pretty.
From Stdlib Require Import ZArith Lia.
From S2P Require Import Prelude HttpHeader Time.

(** ** What comes from outside *)

Class TraceEnv := {
  AsciiTrie : Type;
  AsciiTrie_default : AsciiTrie;
  Fill : AsciiTrie -> list bytes -> AsciiTrie;
  Query : AsciiTrie -> bytes -> bool;
  micros : nat -> Z                           (* Dart_TimelineGetMicros, by the number of the call *)
}.

(** The enumerators of [Dart_Timeline_Event_Type] the source names. *)
Inductive Dart_Timeline_Event_Type :=
| Event_Begin | Event_End | Event_Instant | Event_Async_Begin | Event_Async_End | Event_Counter
| Event_Flow_Begin | Event_Flow_Step | Event_Flow_End.

#[export] Instance Dart_Timeline_Event_Type_eq_dec : EqDecision Dart_Timeline_Event_Type.
Proof. solve_decision. Defined.

(** A call of the handler. *)
Record TimelineEvent := mkTimelineEvent {
  ev_label : bytes; timestamp0 : Z; timestamp1_or_async_id : Z; ev_type : Dart_Timeline_Event_Type;
  argument_names : list bytes; argument_values : list bytes
}.

Section tracing.
(** [FLUTTER_TIMELINE_ENABLED] picks one of two versions of every function; in
    the other one they do nothing. *)
Context {env : TraceEnv} (FLUTTER_TIMELINE_ENABLED : bool).

Record Tracing := mkTracing {
  gAllowlist : AsciiTrie;
  gTimelineEventHandler : bool;               (* whether a handler is set *)
  gLastItem : Z;
  micros_calls : nat;
  events : list TimelineEvent                 (* in the order of the calls *)
}.

Definition eta_Tracing (s : Tracing) : Tracing :=
  mkTracing (gAllowlist s) (gTimelineEventHandler s) (gLastItem s) (micros_calls s) (events s).
Definition with_allowlist : AsciiTrie -> Tracing -> Tracing := ltac:(build_setter eta_Tracing gAllowlist).
Definition with_event_handler : bool -> Tracing -> Tracing := ltac:(build_setter eta_Tracing gTimelineEventHandler).
Definition with_last_item : Z -> Tracing -> Tracing := ltac:(build_setter eta_Tracing gLastItem).
Definition with_micros_calls : nat -> Tracing -> Tracing := ltac:(build_setter eta_Tracing micros_calls).
Definition with_events : list TimelineEvent -> Tracing -> Tracing := ltac:(build_setter eta_Tracing events).

Definition initial_tracing : Tracing := mkTracing AsciiTrie_default false 0 O [].

Abbreviation TM := (M Tracing).

(** ** trace_event.cpp *)

Definition Dart_TimelineGetMicros : TM Z :=
  let! n := getS micros_calls in
  do! updS (with_micros_calls (S n)) in
  retS (micros n).

Definition FlutterTimelineEvent (label : bytes) (ts0 ts1_or_async_id : Z) (type : Dart_Timeline_Event_Type)
  (argument_count : nat) (names values : list bytes) : TM unit :=
  let! handler := getS gTimelineEventHandler in
  let! allowlist := getS gAllowlist in
  whenS (handler && Query allowlist label)
    (updS (fun s => with_events (events s ++
       [mkTimelineEvent label ts0 ts1_or_async_id type (take argument_count names) (take argument_count values)]) s)).

Definition TraceSetAllowlist (allowlist : list bytes) : TM unit :=
  whenS FLUTTER_TIMELINE_ENABLED (updS (fun s => with_allowlist (Fill (gAllowlist s) allowlist) s)).

Definition TraceSetTimelineEventHandler (handler : bool) : TM unit :=
  whenS FLUTTER_TIMELINE_ENABLED (updS (with_event_handler handler)).

(** [++gLastItem] of an atomic [size_t]. *)
Definition TraceNonce : TM Z :=
  if FLUTTER_TIMELINE_ENABLED then
    do! updS (fun s => with_last_item (u64 (gLastItem s + 1)) s) in
    getS gLastItem
  else retS 0.

(** [TraceTimelineEvent] with a time stamp. *)
Definition TraceTimelineEvent (category_group name : bytes) (timestamp_micros identifier : Z)
  (type : Dart_Timeline_Event_Type) (c_names values : list bytes) : TM unit :=
  whenS FLUTTER_TIMELINE_ENABLED
    (let argument_count := Nat.min (length c_names) (length values) in
     let c_values := take argument_count values in
     FlutterTimelineEvent name timestamp_micros identifier type argument_count c_names c_values).

(** [TraceTimelineEvent] without one. *)
Definition TraceTimelineEvent_now (category_group name : bytes) (identifier : Z)
  (type : Dart_Timeline_Event_Type) (c_names values : list bytes) : TM unit :=
  whenS FLUTTER_TIMELINE_ENABLED
    (let! now := Dart_TimelineGetMicros in
     TraceTimelineEvent category_group name now identifier type c_names values).

(** The common shape of the functions below: an event of the current time. *)
Definition emit (name : bytes) (id : Z) (type : Dart_Timeline_Event_Type) (names values : list bytes) : TM unit :=
  whenS FLUTTER_TIMELINE_ENABLED
    (let! now := Dart_TimelineGetMicros in
     FlutterTimelineEvent name now id type (length names) names values).

Definition TraceEvent0 (category_group name : bytes) : TM unit := emit name 0 Event_Begin [] [].
Definition TraceEvent1 (category_group name arg1_name arg1_val : bytes) : TM unit :=
  emit name 0 Event_Begin [arg1_name] [arg1_val].
Definition TraceEvent2 (category_group name arg1_name arg1_val arg2_name arg2_val : bytes) : TM unit :=
  emit name 0 Event_Begin [arg1_name; arg2_name] [arg1_val; arg2_val].
Definition TraceEventEnd (name : bytes) : TM unit := emit name 0 Event_End [] [].
Definition TraceEventAsyncBegin0 (category_group name : bytes) (id : Z) : TM unit :=
  emit name id Event_Async_Begin [] [].
Definition TraceEventAsyncEnd0 (category_group name : bytes) (id : Z) : TM unit :=
  emit name id Event_Async_End [] [].
Definition TraceEventAsyncBegin1 (category_group name : bytes) (id : Z) (arg1_name arg1_val : bytes) : TM unit :=
  emit name id Event_Async_Begin [arg1_name] [arg1_val].
Definition TraceEventAsyncEnd1 (category_group name : bytes) (id : Z) (arg1_name arg1_val : bytes) : TM unit :=
  emit name id Event_Async_End [arg1_name] [arg1_val].
Definition TraceEventInstant0 (category_group name : bytes) : TM unit := emit name 0 Event_Instant [] [].
Definition TraceEventInstant1 (category_group name arg1_name arg1_val : bytes) : TM unit :=
  emit name 0 Event_Instant [arg1_name] [arg1_val].
Definition TraceEventInstant2 (category_group name arg1_name arg1_val arg2_name arg2_val : bytes) : TM unit :=
  emit name 0 Event_Instant [arg1_name; arg2_name] [arg1_val; arg2_val].
Definition TraceEventFlowBegin0 (category_group name : bytes) (id : Z) : TM unit :=
  emit name id Event_Flow_Begin [] [].
Definition TraceEventFlowStep0 (category_group name : bytes) (id : Z) : TM unit :=
  emit name id Event_Flow_Step [] [].
Definition TraceEventFlowEnd0 (category_group name : bytes) (id : Z) : TM unit :=
  emit name id Event_Flow_End [] [].

(** ** trace_event.h *)

(** An argument is a key and a value of one of the types [TraceToString] takes;
    floating point is left out. *)
Inductive TraceValue := VString (s : bytes) | VTimePoint (p : TimePoint.t) | VInteger (z : Z).

Definition TraceToString (v : TraceValue) : bytes :=
  match v with
  | VString s => s
  | VTimePoint p => dec (TimeDelta.ToNanoseconds (TimePoint.ToEpochDelta p))
  | VInteger z => dec z
  end.

Fixpoint SplitArgumentsCollect (keys values : list bytes) (args : list (bytes * TraceValue)) : list bytes * list bytes :=
  match args with
  | [] => (keys, values)
  | (key, value) :: args' => SplitArgumentsCollect (keys ++ [key]) (values ++ [TraceToString value]) args'
  end.

Definition SplitArguments (args : list (bytes * TraceValue)) : list bytes * list bytes :=
  SplitArgumentsCollect [] [] args.

Definition TraceCounter (category name : bytes) (identifier : Z) (args : list (bytes * TraceValue)) : TM unit :=
  whenS FLUTTER_TIMELINE_ENABLED
    (let split := SplitArguments args in
     TraceTimelineEvent_now category name identifier Event_Counter split.1 split.2).

Definition TraceEvent (category name : bytes) (args : list (bytes * TraceValue)) : TM unit :=
  whenS FLUTTER_TIMELINE_ENABLED
    (let split := SplitArguments args in
     TraceTimelineEvent_now category name 0 Event_Begin split.1 split.2).

(** A [size_t] passed as an [int64_t]. *)
Definition TraceEventAsyncComplete (category_group name : bytes) (begin_ end_ : TimePoint.t)
  (args : list (bytes * TraceValue)) : TM unit :=
  whenS FLUTTER_TIMELINE_ENABLED
    (let! identifier := TraceNonce in
     let split := SplitArguments args in
     let '(begin_, end_) := if TimePoint.gtb begin_ end_ then (end_, begin_) else (begin_, end_) in
     let begin_micros := TimeDelta.ToMicroseconds (TimePoint.ToEpochDelta begin_) in
     let end_micros := TimeDelta.ToMicroseconds (TimePoint.ToEpochDelta end_) in
     do! TraceTimelineEvent category_group name begin_micros (i64 identifier) Event_Async_Begin split.1 split.2 in
     TraceTimelineEvent category_group name end_micros (i64 identifier) Event_Async_End split.1 split.2).

(** *** The scoped macros: [ScopedInstantEnd] ends the event at the end of the
    scope. *)
Record ScopedInstantEnd := mkScopedInstantEnd { scoped_label : bytes }.
Definition ScopedInstantEnd_dtor (e : ScopedInstantEnd) : TM unit := TraceEventEnd (scoped_label e).

Inductive ScopedMacro :=
| FML_TRACE_EVENT (category_group name : bytes) (args : list (bytes * TraceValue))
| TRACE_EVENT0 (category_group name : bytes)
| TRACE_EVENT1 (category_group name arg1_name arg1_val : bytes)
| TRACE_EVENT2 (category_group name arg1_name arg1_val arg2_name arg2_val : bytes).

Definition open_scope (m : ScopedMacro) : TM ScopedInstantEnd :=
  match m with
  | FML_TRACE_EVENT c n args => do! TraceEvent c n args in retS (mkScopedInstantEnd n)
  | TRACE_EVENT0 c n => do! TraceEvent0 c n in retS (mkScopedInstantEnd n)
  | TRACE_EVENT1 c n a v => do! TraceEvent1 c n a v in retS (mkScopedInstantEnd n)
  | TRACE_EVENT2 c n a v b w => do! TraceEvent2 c n a v b w in retS (mkScopedInstantEnd n)
  end.

(** *** Flows *)

Record TraceFlow := mkTraceFlow { label_ : bytes; nonce_ : Z }.

Definition TraceFlow_ctor (label : bytes) : TM TraceFlow :=
  let! nonce := TraceNonce in
  do! TraceEventFlowBegin0 (str "flutter") label (i64 nonce) in
  retS (mkTraceFlow label nonce).

(** The moved-to and the moved-from flow. *)
Definition TraceFlow_move (other : TraceFlow) : TraceFlow * TraceFlow :=
  (mkTraceFlow (label_ other) (nonce_ other), mkTraceFlow (label_ other) 0).

Definition Step (f : TraceFlow) (label : bytes) : TM unit :=
  TraceEventFlowStep0 (str "flutter") label (i64 (nonce_ f)).

Definition End (f : TraceFlow) (label : option bytes) : TM TraceFlow :=
  if negb (nonce_ f =? 0) then
    do! TraceEventFlowEnd0 (str "flutter") (match label with None => label_ f | Some l => l end) (i64 (nonce_ f)) in
    retS (mkTraceFlow (label_ f) 0)
  else retS f.

Definition TraceFlow_dtor (f : TraceFlow) : TM TraceFlow := End f (Some (label_ f)).
(** ** The events of a program

    A program is a tree of scopes with other calls in them. *)
Inductive TraceCall :=
| CAsyncBegin0 (c n : bytes) (id : Z) | CAsyncEnd0 (c n : bytes) (id : Z)
| CAsyncBegin1 (c n : bytes) (id : Z) (a v : bytes) | CAsyncEnd1 (c n : bytes) (id : Z) (a v : bytes)
| CInstant0 (c n : bytes) | CInstant1 (c n a v : bytes) | CInstant2 (c n a v b w : bytes)
| CCounter (c n : bytes) (id : Z) (args : list (bytes * TraceValue))
| CAsyncComplete (c n : bytes) (b e : TimePoint.t) (args : list (bytes * TraceValue))
| CFlowBegin (l : bytes) | CFlowStep (f : TraceFlow) (l : bytes) | CFlowEnd (f : TraceFlow) (l : option bytes).

Definition run_call (c : TraceCall) : TM unit :=
  match c with
  | CAsyncBegin0 c n id => TraceEventAsyncBegin0 c n id
  | CAsyncEnd0 c n id => TraceEventAsyncEnd0 c n id
  | CAsyncBegin1 c n id a v => TraceEventAsyncBegin1 c n id a v
  | CAsyncEnd1 c n id a v => TraceEventAsyncEnd1 c n id a v
  | CInstant0 c n => TraceEventInstant0 c n
  | CInstant1 c n a v => TraceEventInstant1 c n a v
  | CInstant2 c n a v b w => TraceEventInstant2 c n a v b w
  | CCounter c n id args => TraceCounter c n id args
  | CAsyncComplete c n b e args => TraceEventAsyncComplete c n b e args
  | CFlowBegin l => let! _ := TraceFlow_ctor l in retS tt
  | CFlowStep f l => Step f l
  | CFlowEnd f l => let! _ := End f l in retS tt
  end.

Inductive traced :=
| TScope (m : ScopedMacro) (body : list traced)
| TCall (c : TraceCall).

Fixpoint run_traced (t : traced) : TM unit :=
  match t with
  | TScope m body =>
      let! e := open_scope m in
      do! iterS run_traced body in
      ScopedInstantEnd_dtor e
  | TCall c => run_call c
  end.

(** The nesting of begin and end events, with the labels that are open. *)
Fixpoint nest (es : list TimelineEvent) (open : list bytes) : option (list bytes) :=
  match es with
  | [] => Some open
  | e :: es' =>
      match ev_type e with
      | Event_Begin => nest es' (ev_label e :: open)
      | Event_End =>
          match open with
          | l :: open' => if decide (l = ev_label e) then nest es' open' else None
          | [] => None
          end
      | _ => nest es' open
      end
  end.

(** *** What an operation logs *)

(** Whether an event with this label reaches the handler. *)
Definition passes (s : Tracing) (label : bytes) : bool :=
  FLUTTER_TIMELINE_ENABLED && (gTimelineEventHandler s && Query (gAllowlist s) label).

Definition when_passes (s : Tracing) (label : bytes) (e : TimelineEvent) : list TimelineEvent :=
  if passes s label then [e] else [].

(** From [s] to [s'] the events [es] were logged, and the filter is the same. *)
Record logged (s s' : Tracing) (es : list TimelineEvent) : Prop := {
  lg_events : events s' = events s ++ es;
  lg_passes : forall l, passes s' l = passes s l
}.

Lemma logged_nil s s' : events s' = events s -> (forall l, passes s' l = passes s l) -> logged s s' [].
Proof. intros. split; [by rewrite app_nil_r|done]. Qed.

Lemma logged_app s1 s2 s3 es1 es2 : logged s1 s2 es1 -> logged s2 s3 es2 -> logged s1 s3 (es1 ++ es2).
Proof.
  intros [H1 H1'] [H2 H2']. split; [by rewrite H2, H1, app_assoc|]. intros l. by rewrite H2'.
Qed.

Lemma emit_logged name id ty ns vs s :
  exists s' now, emit name id ty ns vs s = Ret (tt, s') /\ gLastItem s' = gLastItem s /\
    logged s s' (when_passes s name (mkTimelineEvent name now id ty ns (take (length ns) vs))).
Proof.
  unfold emit, whenS, when_passes, passes, FlutterTimelineEvent, Dart_TimelineGetMicros, whenS, bindS, getS, updS, retS.
  destruct FLUTTER_TIMELINE_ENABLED; [|eexists s, 0; by split_and!; [..|apply logged_nil]].
  cbn [gTimelineEventHandler gAllowlist with_micros_calls].
  destruct (gTimelineEventHandler s && Query (gAllowlist s) name) eqn:Hg; simpl.
  - eexists _, _. split; [reflexivity|]. split; [done|]. split; [|done]. simpl. by rewrite firstn_all.
  - eexists _, 0. split; [reflexivity|]. split; [done|]. by apply logged_nil.
Qed.
Lemma TimelineEvent_logged c name ts id ty ns vs s :
  exists s', TraceTimelineEvent c name ts id ty ns vs s = Ret (tt, s') /\ gLastItem s' = gLastItem s /\
    let n := Nat.min (length ns) (length vs) in
    logged s s' (when_passes s name (mkTimelineEvent name ts id ty (take n ns) (take n vs))).
Proof.
  unfold TraceTimelineEvent, whenS, when_passes, passes, FlutterTimelineEvent, whenS, bindS, getS, updS, retS.
  destruct FLUTTER_TIMELINE_ENABLED; [|exists s; by split_and!; [..|apply logged_nil]]. cbn [andb].
  destruct (gTimelineEventHandler s && Query (gAllowlist s) name); eexists; (split; [reflexivity|]); (split; [done|]).
  - split; [|done]. simpl. by rewrite take_take, Nat.min_id.
  - by apply logged_nil.
Qed.

Lemma TimelineEvent_now_logged c name id ty ns vs s :
  exists s' now, TraceTimelineEvent_now c name id ty ns vs s = Ret (tt, s') /\
    let n := Nat.min (length ns) (length vs) in
    logged s s' (when_passes s name (mkTimelineEvent name now id ty (take n ns) (take n vs))).
Proof.
  unfold TraceTimelineEvent_now. destruct FLUTTER_TIMELINE_ENABLED eqn:He.
  - unfold whenS, Dart_TimelineGetMicros, bindS, getS, updS, retS.
    destruct (TimelineEvent_logged c name (micros (micros_calls s)) id ty ns vs
                (with_micros_calls (S (micros_calls s)) s)) as (s' & Hrun & _ & [Hl1 Hl2]).
    exists s', (micros (micros_calls s)). split; [exact Hrun|]. split; [exact Hl1|exact Hl2].
  - exists s, 0. split; [done|]. unfold when_passes, passes. rewrite He. by apply logged_nil.
Qed.

(** *** Scopes *)

(** Types that neither begin nor end a scope. *)
Definition neutral (ty : Dart_Timeline_Event_Type) : Prop := ty <> Event_Begin /\ ty <> Event_End.

Lemma nest_neutral es open : Forall (fun e => neutral (ev_type e)) es -> nest es open = Some open.
Proof.
  induction 1 as [|e es [H1 H2] _ IH]; [done|]. cbn [nest]. by destruct (ev_type e).
Qed.

Lemma nest_app es1 es2 open :
  nest (es1 ++ es2) open = match nest es1 open with Some o => nest es2 o | None => None end.
Proof.
  revert open. induction es1 as [|e es1 IH]; intros open; [done|]. cbn [app nest].
  destruct (ev_type e); try apply IH. destruct open as [|l open]; [done|]. case_decide; [apply IH|done].
Qed.

(** A program that logs only events of some types. *)
Definition logs_only (T : Dart_Timeline_Event_Type -> Prop) {A} (m : TM A) : Prop :=
  forall s, exists a s' es, m s = Ret (a, s') /\ logged s s' es /\ Forall (fun e => T (ev_type e)) es.

Section logs_only.
Context (T : Dart_Timeline_Event_Type -> Prop).

Lemma only_one s name e : T (ev_type e) -> Forall (fun e => T (ev_type e)) (when_passes s name e).
Proof. intros. unfold when_passes. destruct (passes s name); by repeat constructor. Qed.

Lemma only_bind {A B} (m : TM A) (k : A -> TM B) :
  logs_only T m -> (forall a, logs_only T (k a)) -> logs_only T (bindS m k).
Proof.
  intros Hm Hk s. destruct (Hm s) as (a & s1 & es1 & H1 & L1 & N1).
  destruct (Hk a s1) as (b & s2 & es2 & H2 & L2 & N2).
  exists b, s2, (es1 ++ es2). rewrite (bind_run _ _ _ _ _ H1).
  split_and!; [done|by eapply logged_app|by apply Forall_app].
Qed.

Lemma only_ret {A} (a : A) : logs_only T (retS a).
Proof. intros s. exists a, s, []. split_and!; [done|by apply logged_nil|constructor]. Qed.

Lemma only_emit name id ty ns vs : T ty -> logs_only T (emit name id ty ns vs).
Proof.
  intros Ht s. destruct (emit_logged name id ty ns vs s) as (s' & now & Hr & _ & Hl).
  eexists tt, s', _. split_and!; [done|exact Hl|by apply only_one].
Qed.

Lemma only_nonce : logs_only T TraceNonce.
Proof.
  unfold TraceNonce. destruct FLUTTER_TIMELINE_ENABLED; [|apply only_ret].
  intros s. eexists _, _, []. split; [reflexivity|]. split; [|constructor]. by apply logged_nil.
Qed.

Lemma only_timed c name ts id ty ns vs : T ty -> logs_only T (TraceTimelineEvent c name ts id ty ns vs).
Proof.
  intros Ht s. destruct (TimelineEvent_logged c name ts id ty ns vs s) as (s' & Hr & _ & Hl).
  eexists tt, s', _. split_and!; [done|exact Hl|by apply only_one].
Qed.

Lemma only_now c name id ty ns vs : T ty -> logs_only T (TraceTimelineEvent_now c name id ty ns vs).
Proof.
  intros Ht s. destruct (TimelineEvent_now_logged c name id ty ns vs s) as (s' & now & Hr & Hl).
  eexists tt, s', _. split_and!; [done|exact Hl|by apply only_one].
Qed.

Hint Resolve only_emit only_ret only_nonce only_timed only_now : core.

(** The types of the events a call logs. *)
Definition call_types (c : TraceCall) : list Dart_Timeline_Event_Type :=
  match c with
  | CAsyncBegin0 _ _ _ | CAsyncBegin1 _ _ _ _ _ => [Event_Async_Begin]
  | CAsyncEnd0 _ _ _ | CAsyncEnd1 _ _ _ _ _ => [Event_Async_End]
  | CInstant0 _ _ | CInstant1 _ _ _ _ | CInstant2 _ _ _ _ _ _ => [Event_Instant]
  | CCounter _ _ _ _ => [Event_Counter]
  | CAsyncComplete _ _ _ _ _ => [Event_Async_Begin; Event_Async_End]
  | CFlowBegin _ => [Event_Flow_Begin]
  | CFlowStep _ _ => [Event_Flow_Step]
  | CFlowEnd _ _ => [Event_Flow_End]
  end.

Lemma run_call_only c : Forall T (call_types c) -> logs_only T (run_call c).
Proof.
  intros HT. destruct c; cbn [run_call call_types] in *; unfold TraceFlow_ctor, End, TraceCounter, TraceEventAsyncComplete, whenS;
    apply Forall_cons in HT as [Ht HT]; try (by apply only_emit).
  - destruct FLUTTER_TIMELINE_ENABLED; [by apply only_now|done].
  - apply Forall_cons in HT as [Ht' _]. destruct FLUTTER_TIMELINE_ENABLED; [|done]. apply only_bind; [done|intros id].
    destruct (TimePoint.gtb b e); (apply only_bind; intros; by apply only_timed).
  - repeat (apply only_bind; intros); try done. by apply only_emit.
  - destruct (negb _); repeat (apply only_bind; intros); try done. by apply only_emit.
Qed.
End logs_only.

(** Opening and closing a scope log matching events, or both are filtered. *)
Definition macro_name (m : ScopedMacro) : bytes :=
  match m with FML_TRACE_EVENT _ n _ | TRACE_EVENT0 _ n | TRACE_EVENT1 _ n _ _ | TRACE_EVENT2 _ n _ _ _ _ => n end.

Lemma open_scope_logged m s :
  exists s' e, open_scope m s = Ret (mkScopedInstantEnd (macro_name m), s') /\
    logged s s' (when_passes s (macro_name m) e) /\ ev_type e = Event_Begin /\ ev_label e = macro_name m.
Proof.
  destruct m as [c n args|c n|c n a v|c n a v b w]; cbn [open_scope macro_name].
  - unfold TraceEvent. destruct FLUTTER_TIMELINE_ENABLED eqn:He; cbn [whenS].
    + set (sp := SplitArguments args).
      destruct (TimelineEvent_now_logged c n 0 Event_Begin sp.1 sp.2 s) as (s' & now & Hr & Hl).
      eexists s', _. rewrite (bind_run _ _ _ _ _ Hr).
      split; [reflexivity|]. split; [exact Hl|]. done.
    + exists s, (mkTimelineEvent n 0 0 Event_Begin [] []). split; [done|]. split; [|done].
      unfold when_passes, passes. rewrite He. by apply logged_nil.
  - destruct (emit_logged n 0 Event_Begin [] [] s) as (s' & now & Hr & _ & Hl).
    eexists s', _. unfold TraceEvent0. rewrite (bind_run _ _ _ _ _ Hr). by split; [|split; [exact Hl|]].
  - destruct (emit_logged n 0 Event_Begin [a] [v] s) as (s' & now & Hr & _ & Hl).
    eexists s', _. unfold TraceEvent1. rewrite (bind_run _ _ _ _ _ Hr). by split; [|split; [exact Hl|]].
  - destruct (emit_logged n 0 Event_Begin [a; b] [v; w] s) as (s' & now & Hr & _ & Hl).
    eexists s', _. unfold TraceEvent2. rewrite (bind_run _ _ _ _ _ Hr). by split; [|split; [exact Hl|]].
Qed.

Definition nests {A} (m : TM A) : Prop :=
  forall s, exists a s' es, m s = Ret (a, s') /\ logged s s' es /\ forall open, nest es open = Some open.

Lemma nests_iter {A} (f : A -> TM unit) l : Forall (fun x => nests (f x)) l -> nests (iterS f l).
Proof.
  induction 1 as [|x l Hx _ IH]; intros s.
  - exists tt, s, []. split_and!; [done|by apply logged_nil|done].
  - destruct (Hx s) as (a & s1 & es1 & H1 & L1 & N1). destruct (IH s1) as (b & s2 & es2 & H2 & L2 & N2).
    exists b, s2, (es1 ++ es2). cbn [iterS]. rewrite (bind_run _ _ _ _ _ H1).
    split_and!; [done|by eapply logged_app|]. intros open. by rewrite nest_app, N1, N2.
Qed.

Lemma scope_nests m (body : TM unit) :
  nests body -> nests (let! e := open_scope m in do! body in ScopedInstantEnd_dtor e).
Proof.
  intros Hb s. destruct (open_scope_logged m s) as (s1 & e1 & H1 & L1 & T1 & E1).
  destruct (Hb s1) as (u & s2 & es & H2 & L2 & N2).
  destruct (emit_logged (macro_name m) 0 Event_End [] [] s2) as (s3 & now & H3 & _ & L3).
  eexists tt, s3, _. rewrite (bind_run _ _ _ _ _ H1), (bind_run _ _ _ _ _ H2). split; [exact H3|].
  split; [exact (logged_app _ _ _ _ _ L1 (logged_app _ _ _ _ _ L2 L3))|].
  intros open. unfold when_passes. rewrite (lg_passes _ _ _ L2), (lg_passes _ _ _ L1).
  destruct (passes s (macro_name m)).
  - cbn [app nest]. rewrite T1, E1, nest_app, N2. cbn [nest ev_type ev_label]. by rewrite decide_True.
  - cbn [app]. by rewrite app_nil_r, N2.
Qed.

Section traced_ind.
Variable P : traced -> Prop.
Hypothesis Hscope : forall m body, Forall P body -> P (TScope m body).
Hypothesis Hcall : forall c, P (TCall c).

Fixpoint traced_rect_nested (t : traced) : P t :=
  match t with
  | TScope m body =>
      Hscope m body ((fix go l : Forall P l :=
        match l with [] => Forall_nil_2 P | x :: l' => Forall_cons_2 P x l' (traced_rect_nested x) (go l') end) body)
  | TCall c => Hcall c
  end.
End traced_ind.

(** the scoped macros nest.  Whatever the allow list and the handler, running
    any tree of scopes, with any other trace calls in them, returns, and the begin
    and end events it logs match like brackets with equal labels. *)
Theorem scopes_nest (ts : list traced) (s : Tracing) :
  exists s' es, iterS run_traced ts s = Ret (tt, s') /\ events s' = events s ++ es /\
    forall open, nest es open = Some open.
Proof.
  assert (forall t, nests (run_traced t)) as H.
  { apply traced_rect_nested.
    - intros m body Hb. by apply scope_nests, nests_iter.
    - intros c s0. destruct (run_call_only neutral c ltac:(by destruct c; repeat constructor) s0)
        as (a & s' & es & Hr & Hl & Hn).
      exists a, s', es. split_and!; [done|done|]. intros open. by apply nest_neutral. }
  destruct (nests_iter run_traced ts ltac:(by apply Forall_forall) s) as ([] & s' & es & Hr & Hl & Hn).
  exists s', es. split_and!; [done|apply Hl|done].
Qed.
(** ** Flows

    The flow objects that exist, by the name of their variable.  A step is one
    operation of one of them, or any other trace call. *)
Record FlowWorld := mkFlowWorld { tracing : Tracing; flows : gmap nat TraceFlow }.

Definition flow_type (ty : Dart_Timeline_Event_Type) : bool :=
  match ty with Event_Flow_Begin | Event_Flow_Step | Event_Flow_End => true | _ => false end.

Inductive flow_step : FlowWorld -> FlowWorld -> Prop :=
| fs_new w o label f s' :
    flows w !! o = None -> TraceFlow_ctor label (tracing w) = Ret (f, s') ->
    flow_step w (mkFlowWorld s' (<[o := f]> (flows w)))
| fs_step w o f label s' :
    flows w !! o = Some f -> Step f label (tracing w) = Ret (tt, s') ->
    flow_step w (mkFlowWorld s' (flows w))
| fs_end w o f f' label s' :
    flows w !! o = Some f -> End f label (tracing w) = Ret (f', s') ->
    flow_step w (mkFlowWorld s' (<[o := f']> (flows w)))
| fs_move w o o' f :
    flows w !! o = Some f -> flows w !! o' = None ->
    flow_step w (mkFlowWorld (tracing w) (<[o' := (TraceFlow_move f).1]> (<[o := (TraceFlow_move f).2]> (flows w))))
| fs_destroy w o f f' s' :
    flows w !! o = Some f -> TraceFlow_dtor f (tracing w) = Ret (f', s') ->
    flow_step w (mkFlowWorld s' (delete o (flows w)))
| fs_call w c s' :
    Forall (fun ty => flow_type ty = false) (call_types c) -> run_call c (tracing w) = Ret (tt, s') ->
    flow_step w (mkFlowWorld s' (flows w)).

(** The worlds of a process that hands out fewer than 2^63 ids. *)
Inductive flow_reach : FlowWorld -> FlowWorld -> Prop :=
| fr_refl w : flow_reach w w
| fr_step w w1 w2 :
    flow_reach w w1 -> flow_step w1 w2 -> gLastItem (tracing w2) < 2 ^ 63 -> flow_reach w w2.

(** The life of a flow in the log. *)
Inductive phase := Fresh | Open | Closed.

Definition flow_event (id : Z) (p : phase) (e : TimelineEvent) : option phase :=
  if decide (timestamp1_or_async_id e = id) then
    match ev_type e, p with
    | Event_Flow_Begin, Fresh => Some Open
    | Event_Flow_Step, Open => Some Open
    | Event_Flow_End, Open => Some Closed
    | Event_Flow_Begin, _ | Event_Flow_Step, _ | Event_Flow_End, _ => None
    | _, _ => Some p
    end
  else Some p.

Definition flow_run (id : Z) (es : list TimelineEvent) : option phase :=
  foldl (fun o e => match o with Some p => flow_event id p e | None => None end) (Some Fresh) es.

(** An object that exists holds the flow. *)
Definition held (fs : gmap nat TraceFlow) (id : Z) : Prop := exists o f, fs !! o = Some f /\ nonce_ f = id.
Record flow_inv (w : FlowWorld) : Prop := {
  fi_passes : forall l, passes (tracing w) l = true;
  fi_last : 0 <= gLastItem (tracing w) < 2 ^ 63;
  fi_range : forall o f, flows w !! o = Some f -> 0 <= nonce_ f <= gLastItem (tracing w);
  fi_distinct : forall o o' f f', flows w !! o = Some f -> flows w !! o' = Some f' ->
    nonce_ f = nonce_ f' -> nonce_ f <> 0 -> o = o';
  fi_phase : forall id, id <> 0 -> exists p, flow_run id (events (tracing w)) = Some p /\
    (p = Open <-> held (flows w) id) /\ (gLastItem (tracing w) < id -> p = Fresh)
}.

Lemma flow_run_snoc id es e :
  flow_run id (es ++ [e]) = match flow_run id es with Some p => flow_event id p e | None => None end.
Proof. unfold flow_run. by rewrite foldl_app. Qed.

Lemma flow_run_other id es es' :
  Forall (fun e => flow_type (ev_type e) = false) es' -> flow_run id (es ++ es') = flow_run id es.
Proof.
  intros H. revert es. induction H as [|e es' He _ IH]; intros es; [by rewrite app_nil_r|].
  rewrite (app_assoc es [e] es' : es ++ e :: es' = _), IH, flow_run_snoc.
  destruct (flow_run id es) as [p|]; [|done]. unfold flow_event. case_decide; [|done]. by destruct (ev_type e), p.
Qed.

Lemma i64_nonce n : 0 <= n < 2 ^ 63 -> i64 n = n.
Proof. intros. unfold i64. rewrite Z.mod_small; lia. Qed.

(** An event that passes the filter. *)
Lemma emit_passes name id ty ns vs s :
  (forall l, passes s l = true) ->
  exists s' e, emit name id ty ns vs s = Ret (tt, s') /\ gLastItem s' = gLastItem s /\
    events s' = events s ++ [e] /\ (forall l, passes s' l = true) /\
    timestamp1_or_async_id e = id /\ ev_type e = ty.
Proof.
  intros Hp. destruct (emit_logged name id ty ns vs s) as (s' & now & Hr & Hl & [H1 H2]).
  unfold when_passes in H1. rewrite Hp in H1. eexists s', _. split_and!; try done. intros l. by rewrite H2.
Qed.

Lemma nonce_passes s :
  (forall l, passes s l = true) -> 0 <= gLastItem s < 2 ^ 63 ->
  exists s', TraceNonce s = Ret (gLastItem s + 1, s') /\ gLastItem s' = gLastItem s + 1 /\
    events s' = events s /\ (forall l, passes s' l = true).
Proof.
  intros Hp Hn. unfold TraceNonce. assert (FLUTTER_TIMELINE_ENABLED = true) as ->.
  { specialize (Hp []). unfold passes in Hp. by destruct FLUTTER_TIMELINE_ENABLED. }
  rewrite bind_upd. unfold getS. cbn [gLastItem with_last_item].
  assert (u64 (gLastItem s + 1) = gLastItem s + 1) as Hu by (unfold u64; rewrite Z.mod_small; lia).
  rewrite Hu. eexists. split; [reflexivity|]. done.
Qed.

(** *** Which flows are held *)

Lemma held_new fs o f id : fs !! o = None -> held (<[o := f]> fs) id <-> nonce_ f = id \/ held fs id.
Proof.
  intros Ho. split.
  - intros (o1 & f1 & H1 & Hn). apply lookup_insert_Some in H1 as [[<- <-]|[_ H1]]; [by left|].
    right. by exists o1, f1.
  - intros [Hn|(o1 & f1 & H1 & Hn)]; [exists o, f; by rewrite lookup_insert_eq|].
    exists o1, f1. rewrite lookup_insert_ne; [done|]. intros ->. by rewrite Ho in H1.
Qed.

(** [fs'] is [fs] after its object [o] gave up its flow. *)
Definition released (fs fs' : gmap nat TraceFlow) (o : nat) : Prop :=
  forall o1 f1, fs' !! o1 = Some f1 -> (o1 <> o /\ fs !! o1 = Some f1) \/ nonce_ f1 = 0.

Lemma released_insert fs o f : nonce_ f = 0 -> released fs (<[o := f]> fs) o.
Proof. intros Hn o1 f1 [[<- <-]|[Hne H1]]%lookup_insert_Some; [by right|]. left. split; congruence. Qed.

Lemma released_delete fs o : released fs (delete o fs) o.
Proof. intros o1 f1 [Hne H1]%lookup_delete_Some. left. split; congruence. Qed.
(** *** Every step keeps the invariant *)

Lemma new_inv w o label f s' :
  flow_inv w -> flows w !! o = None -> TraceFlow_ctor label (tracing w) = Ret (f, s') ->
  gLastItem s' < 2 ^ 63 -> flow_inv (mkFlowWorld s' (<[o := f]> (flows w))).
Proof.
  intros [Hp Hl Hr Hd Hph] Ho Hrun Hb. unfold TraceFlow_ctor in Hrun.
  destruct (nonce_passes _ Hp Hl) as (s1 & H1 & L1 & E1 & P1). rewrite (bind_run _ _ _ _ _ H1) in Hrun.
  destruct (emit_passes label (i64 (gLastItem (tracing w) + 1)) Event_Flow_Begin [] [] s1 P1)
    as (s2 & e & H2 & L2 & E2 & P2 & Hid & Hty).
  unfold TraceEventFlowBegin0 in Hrun. rewrite (bind_run _ _ _ _ _ H2) in Hrun. injection Hrun as <- <-.
  rewrite L2, L1 in Hb. rewrite i64_nonce in Hid by lia.
  split; cbn [tracing flows nonce_]; rewrite ?L2, ?L1; [done|lia|..].
  - intros o1 f1 [[_ <-]|[_ Hf]]%lookup_insert_Some; [simpl; lia|]. specialize (Hr _ _ Hf). lia.
  - intros o1 o2 f1 f2 [[<- <-]|[Hn1 Hf1]]%lookup_insert_Some [[<- <-]|[Hn2 Hf2]]%lookup_insert_Some Hn H0;
      [done| | |by eapply Hd].
    + specialize (Hr _ _ Hf2). simpl in Hn. lia.
    + specialize (Hr _ _ Hf1). simpl in Hn. lia.
  - intros id Hi. destruct (Hph id Hi) as (p & Hf & Hop & Hfr). rewrite E2, E1, flow_run_snoc, Hf.
    unfold flow_event. rewrite Hid, Hty.
    case_decide as Hc.
    + subst id. rewrite (Hfr ltac:(lia)). exists Open. split_and!; [done| |lia].
      split; [|done]. intros _. apply held_new; [done|]. by left.
    + exists p. split_and!; [done| |intros; apply Hfr; lia].
      rewrite Hop, held_new by done. simpl. split; [by right|]. intros [?|?]; [congruence|done].
Qed.

(** The log of a step by an object that holds the flow, or none. *)
Lemma step_inv w o f label s' :
  flow_inv w -> flows w !! o = Some f -> Step f label (tracing w) = Ret (tt, s') ->
  flow_inv (mkFlowWorld s' (flows w)).
Proof.
  intros [Hp Hl Hr Hd Hph] Ho Hrun. unfold Step, TraceEventFlowStep0 in Hrun.
  destruct (emit_passes label (i64 (nonce_ f)) Event_Flow_Step [] [] (tracing w) Hp)
    as (s2 & e & H2 & L2 & E2 & P2 & Hid & Hty).
  rewrite H2 in Hrun. injection Hrun as <-. pose proof (Hr _ _ Ho) as Hn. rewrite i64_nonce in Hid by lia.
  split; cbn [tracing flows]; rewrite ?L2; try done. intros id Hi.
  destruct (Hph id Hi) as (p & Hf & Hop & Hfr). exists p. split_and!; [|done|done].
  rewrite E2, flow_run_snoc, Hf. unfold flow_event. rewrite Hid, Hty. case_decide as Hc; [|done].
  assert (p = Open) as ->; [|done]. apply Hop. by exists o, f.
Qed.

Lemma end_inv w o f f' label s' fs' :
  flow_inv w -> flows w !! o = Some f -> End f label (tracing w) = Ret (f', s') ->
  released (flows w) fs' o -> (forall o1 f1, o1 <> o -> flows w !! o1 = Some f1 -> fs' !! o1 = Some f1) ->
  nonce_ f' = 0 /\ flow_inv (mkFlowWorld s' fs').
Proof.
  intros [Hp Hl Hr Hd Hph] Ho Hrun Hrel Hkeep. pose proof (Hr _ _ Ho) as Hn.
  assert (forall id, id <> 0 -> held fs' id <-> held (flows w) id /\ id <> nonce_ f) as Hheld.
  { intros id Hi. split.
    - intros (o1 & f1 & H1 & <-). destruct (Hrel _ _ H1) as [[Hne H1']|]; [|done].
      split; [by exists o1, f1|]. intros Heq. by destruct (Hne (Hd _ _ _ _ H1' Ho Heq Hi)).
    - intros [(o1 & f1 & H1 & Hn1) Hne]. exists o1, f1. split; [|done]. apply Hkeep; [|done].
      intros ->. congruence. }
  assert (forall o1 f1, fs' !! o1 = Some f1 -> 0 <= nonce_ f1 <= gLastItem (tracing w)) as Hr'.
  { intros o1 f1 H1. destruct (Hrel _ _ H1) as [[_ H1']|Hz1]; [by eapply Hr|rewrite Hz1; lia]. }
  assert (forall o1 o2 f1 f2, fs' !! o1 = Some f1 -> fs' !! o2 = Some f2 -> nonce_ f1 = nonce_ f2 ->
            nonce_ f1 <> 0 -> o1 = o2) as Hd'.
  { intros o1 o2 f1 f2 H1 H2 Heq H0. destruct (Hrel _ _ H1) as [[_ H1']|]; [|done].
    destruct (Hrel _ _ H2) as [[_ H2']|]; [by eapply Hd|congruence]. }
  unfold End in Hrun. destruct (Z.eqb_spec (nonce_ f) 0) as [Hz|Hz]; cbn [negb] in Hrun.
  - injection Hrun as <- <-. split; [done|]. split; try done. intros id Hi.
    destruct (Hph id Hi) as (p & Hf & Hop & Hfr). exists p. split_and!; [done| |done].
    cbn [flows]. rewrite (Hheld id Hi), Hop. rewrite Hz. by split; [intros; split|intros [? _]].
  - destruct (emit_passes (match label with None => label_ f | Some l => l end) (i64 (nonce_ f)) Event_Flow_End [] []
                (tracing w) Hp) as (s2 & e & H2 & L2 & E2 & P2 & Hid & Hty).
    unfold TraceEventFlowEnd0 in Hrun. rewrite (bind_run _ _ _ _ _ H2) in Hrun. injection Hrun as <- <-.
    split; [done|]. rewrite i64_nonce in Hid by lia.
    split; cbn [tracing flows]; rewrite ?L2; try done. intros id Hi.
    destruct (Hph id Hi) as (p & Hf & Hop & Hfr). rewrite E2, flow_run_snoc, Hf. unfold flow_event.
    rewrite Hid, Hty. pose proof (Hheld id Hi) as Hh. case_decide as Hc.
    + assert (p = Open) as -> by (apply Hop; by exists o, f). exists Closed. split_and!; [done| |lia].
      split; [done|]. by intros [_ ?]%Hh.
    + exists p. split_and!; [done| |done]. rewrite Hop, Hh. split; [intros; split; congruence|by intros [? _]].
Qed.

Lemma move_inv w o o' f :
  flow_inv w -> flows w !! o = Some f -> flows w !! o' = None ->
  flow_inv (mkFlowWorld (tracing w) (<[o' := (TraceFlow_move f).1]> (<[o := (TraceFlow_move f).2]> (flows w)))).
Proof.
  intros [Hp Hl Hr Hd Hph] Ho Ho'. set (fs1 := <[o := _]> (flows w)).
  assert (fs1 !! o' = None) as Ho1.
  { subst fs1. rewrite lookup_insert_ne; [done|]. intros ->. congruence. }
  assert (released (flows w) fs1 o) as Hrel by by apply released_insert.
  assert (forall o1 f1, fs1 !! o1 = Some f1 -> 0 <= nonce_ f1 <= gLastItem (tracing w)) as Hr1.
  { intros o1 f1 H1. destruct (Hrel _ _ H1) as [[_ H1']|Hz1]; [by eapply Hr|rewrite Hz1; lia]. }
  split; cbn [tracing flows]; [done|done|..].
  - intros o1 f1 [[_ <-]|[_ H1]]%lookup_insert_Some; [exact (Hr o f Ho)|by eapply Hr1].
  - intros o1 o2 f1 f2 [[<- <-]|[Hn1 H1]]%lookup_insert_Some [[<- <-]|[Hn2 H2]]%lookup_insert_Some Heq H0;
      [done| | |]; cbn [TraceFlow_move fst nonce_] in *.
    + destruct (Hrel _ _ H2) as [[Hne H2']|]; [|congruence]. by destruct (Hne (Hd _ _ _ _ H2' Ho ltac:(done) ltac:(congruence))).
    + destruct (Hrel _ _ H1) as [[Hne H1']|]; [|congruence]. by destruct (Hne (Hd _ _ _ _ H1' Ho ltac:(done) ltac:(congruence))).
    + destruct (Hrel _ _ H1) as [[_ H1']|]; [|done]. destruct (Hrel _ _ H2) as [[_ H2']|]; [|congruence]. by eapply Hd.
  - intros id Hi. destruct (Hph id Hi) as (p & Hf & Hop & Hfr). exists p. split_and!; [done| |done].
    rewrite Hop, held_new by done. cbn [TraceFlow_move fst nonce_]. split.
    + intros (o1 & f1 & H1 & Hn). destruct (decide (o1 = o)) as [->|Hne]; [left; congruence|].
      right. exists o1, f1. subst fs1. by rewrite lookup_insert_ne.
    + intros [Hn|(o1 & f1 & H1 & Hn)]; [by exists o, f|].
      destruct (Hrel _ _ H1) as [[_ H1']|]; [by exists o1, f1|congruence].
Qed.
(** Only [TraceNonce] hands out ids. *)
Definition same_last (s s' : Tracing) : Prop := gLastItem s' = gLastItem s.

#[local] Instance same_last_preorder : PreOrder same_last.
Proof. split; [done|]. intros s1 s2 s3 H1 H2. unfold same_last in *. congruence. Qed.

Lemma FlutterTimelineEvent_last l t0 t1 ty n ns vs :
  moves (fun _ => True) same_last (FlutterTimelineEvent l t0 t1 ty n ns vs).
Proof. unfold FlutterTimelineEvent. by repeat moves_step. Qed.

Lemma emit_last name id ty ns vs : moves (fun _ => True) same_last (emit name id ty ns vs).
Proof.
  unfold emit, Dart_TimelineGetMicros. repeat moves_step; [done|]. apply FlutterTimelineEvent_last.
Qed.

Lemma timed_last c name ts id ty ns vs : moves (fun _ => True) same_last (TraceTimelineEvent c name ts id ty ns vs).
Proof. unfold TraceTimelineEvent. repeat moves_step. apply FlutterTimelineEvent_last. Qed.

Lemma call_last c s s' :
  Forall (fun ty => flow_type ty = false) (call_types c) -> (forall l, passes s l = true) ->
  0 <= gLastItem s < 2 ^ 63 -> run_call c s = Ret (tt, s') -> gLastItem s <= gLastItem s'.
Proof.
  intros Hty Hp Hl Hrun.
  assert (forall m : TM unit, moves (fun _ => True) same_last m -> run_call c = m -> gLastItem s <= gLastItem s') as Hsame.
  { intros m Hm Heq. rewrite Heq in Hrun. pose proof (wlp_run _ _ _ _ _ _ (Hm s) Hrun) as Hs.
    unfold same_last in Hs. lia. }
  destruct c; cbn [run_call call_types] in *; apply Forall_cons in Hty as [Hty _]; try done;
    try (by eapply Hsame; [apply emit_last|reflexivity]).
  - eapply Hsame; [|reflexivity]. unfold TraceCounter, TraceTimelineEvent_now, Dart_TimelineGetMicros.
    repeat moves_step; [done|apply timed_last].
  - unfold TraceEventAsyncComplete in Hrun. unfold whenS in Hrun.
    destruct FLUTTER_TIMELINE_ENABLED; [|injection Hrun as <-; lia].
    destruct (nonce_passes _ Hp Hl) as (s1 & H1 & L1 & _). rewrite (bind_run _ _ _ _ _ H1) in Hrun.
    cbv zeta in Hrun. match type of Hrun with ?m s1 = _ => assert (moves (fun _ => True) same_last m) as Hm end.
    { destruct (TimePoint.gtb b e); (apply moves_bind; [apply _|apply timed_last|intros; apply timed_last]). }
    pose proof (wlp_run _ _ _ _ _ _ (Hm s1) Hrun) as Hs. unfold same_last in Hs. lia.
Qed.

Lemma call_inv w c s' :
  flow_inv w -> Forall (fun ty => flow_type ty = false) (call_types c) -> run_call c (tracing w) = Ret (tt, s') ->
  gLastItem s' < 2 ^ 63 -> flow_inv (mkFlowWorld s' (flows w)).
Proof.
  intros [Hp Hl Hr Hd Hph] Hty Hrun Hb. pose proof (call_last c _ _ Hty Hp Hl Hrun) as Hle.
  destruct (run_call_only _ c Hty (tracing w)) as (a & s2 & es & Hrun2 & [He Hps] & Hes).
  rewrite Hrun in Hrun2. injection Hrun2 as _ <-.
  split; cbn [tracing flows]; [by intros l; rewrite Hps|lia| |done|].
  - intros o f Hf. specialize (Hr _ _ Hf). lia.
  - intros id Hi. destruct (Hph id Hi) as (p & Hf & Hop & Hfr). exists p.
    rewrite He, flow_run_other by done. split_and!; [done|done|]. intros; apply Hfr; lia.
Qed.

Lemma flow_step_inv w w' :
  flow_inv w -> flow_step w w' -> gLastItem (tracing w') < 2 ^ 63 -> flow_inv w'.
Proof.
  intros Hi Hs Hb. destruct Hs as [w o label f s' Ho Hr|w o f label s' Ho Hr|w o f f' label s' Ho Hr
    |w o o' f Ho Ho'|w o f f' s' Ho Hr|w c s' Hty Hr].
  - by eapply new_inv.
  - by eapply step_inv.
  - assert (nonce_ f' = 0) as Hz.
    { unfold End in Hr. destruct (Z.eqb_spec (nonce_ f) 0); cbn [negb] in Hr; [by injection Hr as <- _|].
      unfold bindS in Hr. destruct (TraceEventFlowEnd0 _ _ _ _) as [[[] ?]| |]; [|done..]. by injection Hr as <- _. }
    eapply end_inv; [done|done|done|by apply released_insert|].
    intros o1 f1 Hne H1. by rewrite lookup_insert_ne.
  - by apply move_inv.
  - eapply end_inv; [done|done|done|apply released_delete|].
    intros o1 f1 Hne H1. by rewrite lookup_delete_ne.
  - by eapply call_inv.
Qed.

(** A process that starts tracing: nothing logged, no id handed out, and every
    label passes. *)
Record flow_start (w : FlowWorld) : Prop := {
  st_passes : forall l, passes (tracing w) l = true;
  st_last : gLastItem (tracing w) = 0;
  st_events : events (tracing w) = [];
  st_flows : flows w = ∅
}.

Lemma flow_start_inv w : flow_start w -> flow_inv w.
Proof.
  intros [Hp Hl He Hf]. split; rewrite ?Hl, ?Hf; [done|lia|done|done|].
  intros id Hi. exists Fresh. rewrite He. split_and!; [done| |done]. split; [done|].
  intros (o & f & H & _). done.
Qed.

(** C29: flows are used as intended.  Start tracing with every label let through,
    and make, step, move, end and destroy flow objects in any order, with any
    other trace calls between: as long as fewer than 2^63 ids are handed out, the
    log has for each id a begin, then steps, then an end, each at most once; the
    flow is open in the log exactly while an object holds it, and no two objects
    hold the same flow. *)
Theorem flow_discipline (w0 w : FlowWorld) :
  flow_start w0 -> flow_reach w0 w ->
  (forall id, id <> 0 -> exists p, flow_run id (events (tracing w)) = Some p /\ (p = Open <-> held (flows w) id)) /\
  (forall o o' f f', flows w !! o = Some f -> flows w !! o' = Some f' -> nonce_ f = nonce_ f' -> nonce_ f <> 0 ->
     o = o').
Proof.
  intros H0 Hr. assert (flow_inv w) as [_ _ _ Hd Hph].
  { induction Hr as [w0|w0 w1 w2 Hr IH Hs Hb]; [by apply flow_start_inv|]. eapply flow_step_inv; [by apply IH|done|done]. }
  split; [|done]. intros id Hi. destruct (Hph id Hi) as (p & H1 & H2 & _). by exists p.
Qed.

Lemma SplitArguments_pairs args : SplitArguments args = (args.*1, TraceToString <$> args.*2).
Proof.
  unfold SplitArguments.
  enough (forall k v, SplitArgumentsCollect k v args = (k ++ args.*1, v ++ (TraceToString <$> args.*2))) as H by apply H.
  induction args as [|[a x] args IH]; intros k v; [by rewrite !app_nil_r|].
  cbn [SplitArgumentsCollect]. rewrite IH, !fmap_cons, <- !app_assoc. done.
Qed.

(** An event with as many names as values keeps them all. *)
Lemma timed_passes c name ts id ty args s :
  (forall l, passes s l = true) ->
  exists s', TraceTimelineEvent c name ts id ty (SplitArguments args).1 (SplitArguments args).2 s = Ret (tt, s') /\
    gLastItem s' = gLastItem s /\ (forall l, passes s' l = true) /\
    events s' = events s ++ [mkTimelineEvent name ts id ty (args.*1) (TraceToString <$> args.*2)].
Proof.
  intros Hp. rewrite SplitArguments_pairs. cbn [fst snd].
  destruct (TimelineEvent_logged c name ts id ty args.*1 (TraceToString <$> args.*2) s) as (s' & Hr & Hl & [H1 H2]).
  exists s'. split_and!; [done|done|by intros l; rewrite H2|]. rewrite H1. unfold when_passes. rewrite Hp.
  by rewrite !length_fmap, Nat.min_id, !firstn_all2 by (by rewrite !length_fmap).
Qed.

(** a completed asynchronous span.  It logs one begin and one end event with
    the same fresh id and the same arguments, in the order of their times, also
    when the caller gives them the other way round. *)
Theorem AsyncComplete_logs (c name : bytes) (b e : TimePoint.t) (args : list (bytes * TraceValue)) (s : Tracing) :
  (forall l, passes s l = true) -> 0 <= gLastItem s < 2 ^ 63 - 1 ->
  exists s' e1 e2, TraceEventAsyncComplete c name b e args s = Ret (tt, s') /\
    events s' = events s ++ [e1; e2] /\ ev_type e1 = Event_Async_Begin /\ ev_type e2 = Event_Async_End /\
    timestamp1_or_async_id e1 = gLastItem s + 1 /\ timestamp1_or_async_id e2 = gLastItem s + 1 /\
    gLastItem s' = gLastItem s + 1 /\ timestamp0 e1 <= timestamp0 e2 /\
    argument_names e1 = args.*1 /\ argument_values e1 = TraceToString <$> args.*2 /\
    argument_names e2 = args.*1 /\ argument_values e2 = TraceToString <$> args.*2.
Proof.
  intros Hp Hn. unfold TraceEventAsyncComplete. assert (FLUTTER_TIMELINE_ENABLED = true) as ->.
  { specialize (Hp []). unfold passes in Hp. by destruct FLUTTER_TIMELINE_ENABLED. }
  cbn [whenS]. destruct (nonce_passes _ Hp ltac:(lia)) as (s1 & H1 & L1 & E1 & P1). rewrite (bind_run _ _ _ _ _ H1).
  cbv zeta. rewrite i64_nonce by lia.
  assert (exists b' e', (if TimePoint.gtb b e then (e, b) else (b, e)) = (b', e') /\
            TimePoint.ticks_ b' <= TimePoint.ticks_ e') as (b' & e' & -> & Hle).
  { unfold TimePoint.gtb. destruct (Z.ltb_spec (TimePoint.ticks_ e) (TimePoint.ticks_ b)); eexists _, _; split; try done; lia. }
  set (ts b := TimeDelta.ToMicroseconds (TimePoint.ToEpochDelta b)).
  destruct (timed_passes c name (ts b') (gLastItem s + 1) Event_Async_Begin args s1 P1) as (s2 & H2 & L2 & P2 & E2).
  rewrite (bind_run _ _ _ _ _ H2).
  destruct (timed_passes c name (ts e') (gLastItem s + 1) Event_Async_End args s2 P2) as (s3 & H3 & L3 & P3 & E3).
  eexists s3, _, _. split; [exact H3|]. rewrite E3, E2, E1, <- app_assoc. split; [reflexivity|].
  split_and!; try done; [lia|]. simpl. apply Z.quot_le_mono; [lia|exact Hle].
Qed.
End tracing.

(** ** A concrete trace: every label passes *)

Definition sample_env : TraceEnv := {|
  AsciiTrie := unit; AsciiTrie_default := tt; Fill _ _ := tt; Query _ _ := true; micros n := Z.of_nat n
|}.

Definition sample_tracing : @Tracing sample_env := @mkTracing sample_env tt true 0 O [].
Definition sample_flows : @FlowWorld sample_env := @mkFlowWorld sample_env sample_tracing ∅.

(** A flow is made, moved to another object, and that one is destroyed. *)
Definition sample_begun : @Tracing sample_env :=
  @mkTracing sample_env tt true 1 1 [mkTimelineEvent (str "a") 0 1 Event_Flow_Begin [] []].
Definition sample_ended : @Tracing sample_env :=
  @mkTracing sample_env tt true 1 2 [mkTimelineEvent (str "a") 0 1 Event_Flow_Begin [] [];
                                     mkTimelineEvent (str "a") 1 1 Event_Flow_End [] []].
Definition sample_flows_made : @FlowWorld sample_env :=
  @mkFlowWorld sample_env sample_begun (<[0%nat := mkTraceFlow (str "a") 1]> (flows sample_flows)).
Definition sample_flows_moved : @FlowWorld sample_env :=
  @mkFlowWorld sample_env sample_begun
    (<[1%nat := mkTraceFlow (str "a") 1]> (<[0%nat := mkTraceFlow (str "a") 0]> (flows sample_flows_made))).
Definition sample_flows_done : @FlowWorld sample_env :=
  @mkFlowWorld sample_env sample_ended (delete 1%nat (flows sample_flows_moved)).

Lemma flow_discipline_witness :
  (forall id, id <> 0 -> exists p, flow_run id (events (tracing sample_flows_done)) = Some p /\
     (p = Open <-> held (flows sample_flows_done) id)) /\
  (forall o o' f f', flows sample_flows_done !! o = Some f -> flows sample_flows_done !! o' = Some f' ->
     nonce_ f = nonce_ f' -> nonce_ f <> 0 -> o = o').
Proof.
  apply (@flow_discipline sample_env true sample_flows sample_flows_done).
  - split; done.
  - apply (fr_step true _ sample_flows_moved); [|exact (fs_destroy true sample_flows_moved 1 (mkTraceFlow (str "a") 1)
      (mkTraceFlow (str "a") 0) sample_ended eq_refl eq_refl)|reflexivity].
    apply (fr_step true _ sample_flows_made); [|exact (fs_move true sample_flows_made 0 1 (mkTraceFlow (str "a") 1)
      eq_refl eq_refl)|reflexivity].
    apply (fr_step true _ sample_flows); [apply fr_refl|exact (fs_new true sample_flows 0 (str "a")
      (mkTraceFlow (str "a") 1) sample_begun eq_refl eq_refl)|reflexivity].
Defined.

Lemma AsyncComplete_logs_witness :
  exists s' e1 e2,
    @TraceEventAsyncComplete sample_env true (str "c") (str "n") (TimePoint.mk 5000) (TimePoint.mk 1000)
      [(str "k", VInteger 7)] sample_tracing = Ret (tt, s') /\
    events s' = [] ++ [e1; e2] /\ ev_type e1 = Event_Async_Begin /\ ev_type e2 = Event_Async_End /\
    timestamp1_or_async_id e1 = 1 /\ timestamp1_or_async_id e2 = 1 /\ gLastItem s' = 1 /\
    timestamp0 e1 <= timestamp0 e2 /\
    argument_names e1 = [str "k"] /\ argument_values e1 = [str "7"] /\
    argument_names e2 = [str "k"] /\ argument_values e2 = [str "7"].
Proof.
  apply (@AsyncComplete_logs sample_env true (str "c") (str "n") (TimePoint.mk 5000) (TimePoint.mk 1000)
           [(str "k", VInteger 7)] sample_tracing); [done|]. simpl. lia.
Defined.

(** ** What the flows do not keep *)

(** A step of a flow that was moved from is logged under the id 0. *)
Lemma step_after_move :
  exists s' e, @Step sample_env true (TraceFlow_move (mkTraceFlow (str "a") 3)).2 (str "s") sample_tracing = Ret (tt, s') /\
    events s' = [e] /\ ev_type e = Event_Flow_Step /\ timestamp1_or_async_id e = 0.
Proof. eexists _, _. split; [reflexivity|]. split; [reflexivity|]. done. Qed.

(** Under an allow list a flow that is ended with another label stays open in the
    log. *)
Definition only_a : TraceEnv := {|
  AsciiTrie := unit; AsciiTrie_default := tt; Fill _ _ := tt; Query _ l := bool_decide (l = str "a"); micros n := Z.of_nat n
|}.

Lemma filtered_end_stays_open :
  exists s', (let! f := @TraceFlow_ctor only_a true (str "a") in End true f (Some (str "b")))
      (@mkTracing only_a tt true 0 O []) = Ret (mkTraceFlow (str "a") 0, s') /\
    flow_run 1 (events s') = Some Open.
Proof. eexists. split; [vm_compute; reflexivity|]. vm_compute. reflexivity. Qed.
