(* ===== verification/WsUv.v ===== *)
(** * The WebSocket session over libuv: net/ws_cli/implement/uv/session_impl_uv.{h,cpp}
    and ws_cli/response.{h,cpp}

    A second implementation of the session, begun but not finished: it sends the
    handshake, has http-parser read the reply, and packs frame headers.  libuv and
    http-parser are modelled as in HttpSession.v.  [uv_handshake] is what it sends
    when it connects; [uv_send_header_only] shows that a message is announced
    but never sent, and the other lemmas of the last section what else is missing. *)

From stdpp Require Import base list numbers strings pretty.
From Stdlib Require Import ZArith Lia.
From S2P Require Import Prelude WsTypes WsHeader Libevent HttpHeader WsState HttpSession.

(** ** ws_cli/response.h, response.cpp *)

Record WsResponse := mkWsResponse {
  ws_statusCode : Z; ws_status : bytes; ws_body : bytes; ws_header : Header; ws_url : Url
}.

Definition WsResponse_ctor (status_code : Z) (body : bytes) (header : Header) (url : Url) : WsResponse :=
  mkWsResponse status_code [] body header url.

Section uv.
Context {P : HttpParser} (moved : bytes -> bytes) (rand_s : nat -> Z) (stack_junk : bytes).

(** ** session_impl_uv.h *)

Record WsUvSession := mkWsUv {
  uv_field : bytes;
  uv_request : Request;
  uv_response : WsResponse;
  uv_connect_handler : ConnectHandler;
  uv_state : option WSState;                  (* [None]: the zero no enumerator stands for is never read *)
  uv_sendState : WSSendState;
  uv_wsHeader : WSHeader;
  uv_maxFrameSize : Z;
  uv_parser : http_parser;
  uv_resolving : bool; uv_connecting : bool; uv_reading : bool;
  uv_written : list bytes;
  uv_rand_calls : nat;
  uv_connects : nat                           (* calls of the connect handler *)
}.

Definition eta_Uv (s : WsUvSession) : WsUvSession :=
  mkWsUv (uv_field s) (uv_request s) (uv_response s) (uv_connect_handler s) (uv_state s) (uv_sendState s)
    (uv_wsHeader s) (uv_maxFrameSize s) (uv_parser s) (uv_resolving s) (uv_connecting s) (uv_reading s)
    (uv_written s) (uv_rand_calls s) (uv_connects s).
Definition put_field : bytes -> WsUvSession -> WsUvSession := ltac:(build_setter eta_Uv uv_field).
Definition put_request : Request -> WsUvSession -> WsUvSession := ltac:(build_setter eta_Uv uv_request).
Definition put_response : WsResponse -> WsUvSession -> WsUvSession := ltac:(build_setter eta_Uv uv_response).
Definition put_handler : ConnectHandler -> WsUvSession -> WsUvSession := ltac:(build_setter eta_Uv uv_connect_handler).
Definition put_wsHeader : WSHeader -> WsUvSession -> WsUvSession := ltac:(build_setter eta_Uv uv_wsHeader).
Definition put_parser : http_parser -> WsUvSession -> WsUvSession := ltac:(build_setter eta_Uv uv_parser).
Definition put_resolving : bool -> WsUvSession -> WsUvSession := ltac:(build_setter eta_Uv uv_resolving).
Definition put_connecting : bool -> WsUvSession -> WsUvSession := ltac:(build_setter eta_Uv uv_connecting).
Definition put_reading : bool -> WsUvSession -> WsUvSession := ltac:(build_setter eta_Uv uv_reading).
Definition put_written : list bytes -> WsUvSession -> WsUvSession := ltac:(build_setter eta_Uv uv_written).
Definition put_rand : nat -> WsUvSession -> WsUvSession := ltac:(build_setter eta_Uv uv_rand_calls).
Definition put_connects : nat -> WsUvSession -> WsUvSession := ltac:(build_setter eta_Uv uv_connects).

Abbreviation UM := (M WsUvSession).

(** ** session_impl_uv.cpp; [OnAlloc], [OnWrite] and [OnClose] allocate and log *)

Definition uv_Write (buffer : bytes) : UM unit := updS (fun s => put_written (uv_written s ++ [buffer]) s).

(** *** Sending *)

Definition uv_upd_header (f : WSHeader -> WSHeader) : UM unit := updS (fun s => put_wsHeader (f (uv_wsHeader s)) s).

Definition uv_random_bytes (len : nat) : UM (bytes * Z) :=
  let! calls := getS uv_rand_calls in
  let '(bs, r, calls') := GetRandomMask rand_s calls len in
  do! updS (put_rand calls') in
  retS (bs, r).

(** The result, and the caller's buffer afterwards: the payload is masked in
    place, and its [Write] is commented out. *)
Definition uv_SendFrameRaw (opcode : WSOpcode) (data : bytes) : UM (Z * bytes) :=
  let! st := getS uv_sendState in
  if negb (bool_decide (st = SEND_NONE)) then retS (-1, data) else
  if IsControlOpcode (op opcode) && (125 <? zlen data) then retS (-1, data) else
  do! updS (put_wsHeader zero_header) in
  do! uv_upd_header (set_fin 0x1) in
  do! uv_upd_header (set_opcode (op opcode)) in
  if WS_MAX_PAYLOAD_LEN <? zlen data then retS (-1, data) else
  do! uv_upd_header (set_maskBit 0x1) in
  do! uv_upd_header (set_payloadLen (zlen data)) in
  let! '(m, r) := uv_random_bytes 4 in
  do! uv_upd_header (set_mask (le_val m)) in
  if negb (r =? 4) then retS (-1, data) else
  let! h := getS uv_wsHeader in
  let! '(header_buf, header_len) := liftS (PackHeader h stack_junk WS_HDR_MAX_SIZE) in
  do! uv_Write (take (Z.to_nat header_len) header_buf) in
  let! h := getS uv_wsHeader in
  retS (0, MaskPayload (mask h) data).

Definition uv_SendMsgEx (msg : bytes) (binary : Z) : UM (Z * bytes) :=
  let! mx := getS uv_maxFrameSize in
  if (zlen msg <=? mx) || (mx =? 0) then
    uv_SendFrameRaw (if binary =? 0 then TEXT_0X1 else BINARY_0X2) msg
  else retS (0, msg).

Definition uv_DoSendMsg (msg : bytes) : UM (Z * bytes) := uv_SendMsgEx msg 0.

Definition uv_DoClose : UM Z := retS 0.

(** *** The reply *)

Definition uv_OnHttpParserBody (p : bytes) : UM unit := retS tt.
Definition uv_OnHttpParserMessageComplete : UM unit := retS tt.
Definition uv_OnHttpParserHeaderComplete : UM unit := retS tt.
Definition uv_OnHttpParserHeaderField (field : bytes) : UM unit := updS (put_field field).

Definition uv_OnHttpParserHeaderValue (value : bytes) : UM unit :=
  updS (fun s =>
    let r := uv_response s in
    let left := match header_find (ws_header r) (uv_field s) with
                | Some _ => uv_field s | None => moved (uv_field s) end in
    put_field left (put_response (mkWsResponse (ws_statusCode r) (ws_status r) (ws_body r)
      (insert_or_assign (uv_field s) value (ws_header r)) (ws_url r)) s)).

Definition uv_OnHttpParserStatus (code : Z) (text : bytes) : UM unit :=
  updS (fun s => let r := uv_response s in
    put_response (mkWsResponse code text (ws_body r) (ws_header r) (ws_url r)) s).

Definition uv_settings (e : ParserEvent) : UM unit :=
  match e with
  | on_status c t => uv_OnHttpParserStatus c t
  | on_header_field f => uv_OnHttpParserHeaderField f
  | on_header_value v => uv_OnHttpParserHeaderValue v
  | on_headers_complete => uv_OnHttpParserHeaderComplete
  | on_body p => uv_OnHttpParserBody p
  | on_message_complete => uv_OnHttpParserMessageComplete
  end.

(** The calls of the session a handler makes. *)
Definition uv_run_call (c : ApiCall) : UM unit :=
  match c with
  | ApiSendMsg msg => let! _ := uv_DoSendMsg msg in retS tt
  | ApiClose => let! _ := uv_DoClose in retS tt
  end.

Definition uv_connect_handler_call : UM unit :=
  do! updS (fun s => put_connects (S (uv_connects s)) s) in
  let! h := getS uv_connect_handler in
  iterS uv_run_call (ConnectHandler_call h).

Definition uv_OnRead (nread : Z) (buf : bytes) : UM unit :=
  if 0 <? nread then
    let! p := getS uv_parser in
    let '(events, nparsed, p') := http_parser_execute p buf in
    do! iterS uv_settings events in
    do! updS (put_parser p') in
    do! checkS (nparsed =? nread) "nparsed == nread" in
    uv_connect_handler_call
  else updS (put_reading false).

(** *** Connecting *)

Definition uv_DoHandshake : UM Z :=
  let! r := getS uv_request in
  do! checkS (bool_decide (req_method r = str "GET")) "websocket protocol method must be GET." in
  let u := req_url r in
  let origin := FmtString (str "http://" ++ cstr (host u) ++ str ":" ++ dec (port u)) in
  let r := PreparePayload (set_req_header (insert_or_assign (str "Origin") origin (req_header r)) r) in
  do! updS (put_request r) in
  do! uv_Write (raw r) in
  retS 0.

Definition uv_OnConnect (status : Z) : UM unit :=
  do! updS (put_reading true) in
  let! _ := uv_DoHandshake in
  retS tt.

Definition uv_Connect : UM Z :=
  do! updS (put_connecting true) in
  retS 0.

Definition uv_OnResolved (status : Z) : UM unit :=
  if status <? 0 then retS tt else let! _ := uv_Connect in retS tt.

Definition uv_Resolve (started : bool) : UM Z :=
  if negb started then retS 1 else
  do! updS (put_resolving true) in
  retS 0.

Definition uv_handle (e : UvEvent) : UM unit :=
  match e with
  | UvResolved st =>
      let! r := getS uv_resolving in
      whenS r (do! updS (put_resolving false) in uv_OnResolved st)
  | UvConnected st =>
      let! r := getS uv_connecting in
      whenS r (do! updS (put_connecting false) in uv_OnConnect st)
  | UvRead n data => let! r := getS uv_reading in whenS r (uv_OnRead n data)
  end.

Definition uv_DoConnect (started : bool) (events : list UvEvent) : UM Z :=
  let! _ := uv_Resolve started in
  do! iterS uv_handle events in
  retS 0.

Definition uv_DoInit : UM Z :=
  do! updS (put_parser http_parser_init) in
  do! updS (fun s => put_request (set_req_method (str "GET") (uv_request s)) s) in
  let add k v := updS (fun s => put_request (set_req_header (insert_or_assign k v (req_header (uv_request s)))
                                               (uv_request s)) s) in
  do! add (str "Upgrade") (str "websocket") in
  do! add (str "Connection") (str "upgrade") in
  do! add (str "Sec-WebSocket-Key") (str "dGhlIHNhbXBsZSBub25jZQ==") in
  do! add (str "Sec-WebSocket-Version") (str "13") in
  retS 0.

(** *** Setters *)

Definition uv_SetHandler (h : ConnectHandler) : UM unit := updS (put_handler h).
Definition uv_SetHandler_message (h : MessageHandler) : UM unit := retS tt.

Definition uv_SetUrl (u : Url) : UM unit :=
  let buf := url u in
  let parts := http_parser_parse_url buf in
  let! schema := liftS (url_part buf parts UF_SCHEMA (schema u)) in
  let! host := liftS (url_part buf parts UF_HOST (host u)) in
  let port := match field_data parts UF_PORT with
              | Some _ => parts_port parts
              | None => if bool_decide (schema = str "http") then 80 else 443
              end in
  let! path := liftS (url_part buf parts UF_PATH (path u)) in
  let! query := liftS (url_part buf parts UF_QUERY (query u)) in
  let! fragment := liftS (url_part buf parts UF_FRAGMENT (fragment u)) in
  updS (fun s => put_request (set_req_url (mkUrl buf schema host port path query fragment) (uv_request s)) s).
(** ** What the session sends *)

(** The headers of the handshake, in the order of the map. *)
Definition uv_handshake_headers (u : Url) : Header :=
  [(str "Connection", str "upgrade");
   (str "Origin", FmtString (str "http://" ++ cstr (host u) ++ str ":" ++ dec (port u)));
   (str "Sec-WebSocket-Key", str "dGhlIHNhbXBsZSBub25jZQ==");
   (str "Sec-WebSocket-Version", str "13");
   (str "Upgrade", str "websocket")].

Definition uv_handshake_request (u : Url) (r : Request) : bytes :=
  raw (PreparePayload (mkRequest (uv_handshake_headers u) (str "GET") u (httpMajor r) (httpMinor r) (raw r))).

(** Handling the events one after the other. *)
Lemma uv_iter_app es fs s :
  iterS uv_handle (es ++ fs) s = (do! iterS uv_handle es in iterS uv_handle fs) s.
Proof.
  revert s. induction es as [|e es IH]; intros s; [done|]. cbn [app iterS]. unfold bindS.
  by destruct (uv_handle e s) as [[? t1]| |].
Qed.

(** The session once the handshake is written. *)
Lemma uv_connected_run s :
  req_method (uv_request s) = str "GET" ->
  exists s', iterS uv_handle [UvResolved 0; UvConnected 0] (put_resolving true s) = Ret (tt, s') /\
    uv_reading s' = true /\ uv_parser s' = uv_parser s /\ uv_connects s' = uv_connects s /\
    uv_response s' = uv_response s /\
    uv_connect_handler s' = uv_connect_handler s /\
    uv_written s' = uv_written s ++
      [raw (PreparePayload (set_req_header
         (insert_or_assign (str "Origin")
            (FmtString (str "http://" ++ cstr (host (req_url (uv_request s))) ++ str ":" ++ dec (port (req_url (uv_request s)))))
            (req_header (uv_request s))) (uv_request s)))].
Proof.
  intros Hm. cbn [iterS uv_handle].
  unfold uv_OnResolved, uv_Connect, uv_OnConnect, uv_DoHandshake, uv_Write, checkS, whenS, bindS, getS, updS, retS.
  cbn [uv_resolving put_resolving Z.ltb Z.compare uv_connecting put_connecting put_reading uv_request].
  rewrite (bool_decide_eq_true_2 _ Hm). eexists. split; [reflexivity|]. done.
Qed.

Lemma uv_DoInit_run s :
  req_header (uv_request s) = [] ->
  exists s1, uv_DoInit s = Ret (0, s1) /\ uv_written s1 = uv_written s /\ uv_connects s1 = uv_connects s /\
    uv_request s1 = mkRequest [(str "Connection", str "upgrade"); (str "Sec-WebSocket-Key", str "dGhlIHNhbXBsZSBub25jZQ==");
                               (str "Sec-WebSocket-Version", str "13"); (str "Upgrade", str "websocket")]
                      (str "GET") (req_url (uv_request s)) (httpMajor (uv_request s)) (httpMinor (uv_request s))
                      (raw (uv_request s)).
Proof.
  destruct s as [fld [h m u mj mn r] resp hd st ss wh mx p rs cn rd wr rc co]. cbn [uv_request req_header].
  intros ->. eexists. split; [cbv; reflexivity|]. split_and!; reflexivity.
Qed.

(** connecting.  A session that was initialised and given a url writes, once
    it is connected, exactly one request: a GET of the path with the host and the
    five headers of the WebSocket handshake; the connect handler was not called. *)
Theorem uv_handshake (u : Url) (s : WsUvSession) :
  req_header (uv_request s) = [] ->
  exists s', (let! _ := uv_DoInit in
              do! updS (fun s => put_request (set_req_url u (uv_request s)) s) in
              uv_DoConnect true [UvResolved 0; UvConnected 0]) s = Ret (0, s') /\
    uv_written s' = uv_written s ++ [uv_handshake_request u (uv_request s)] /\ uv_connects s' = uv_connects s.
Proof.
  intros Hh. destruct (uv_DoInit_run s Hh) as (s1 & H1 & W1 & C1 & R1). rewrite (bind_run _ _ _ _ _ H1), bind_upd, R1.
  unfold uv_DoConnect, uv_Resolve. cbn [negb]. unfold bindS at 1. rewrite bind_upd. unfold retS at 1.
  set (r := set_req_url u _). destruct (uv_connected_run (put_request r s1)) as (s2 & Hr & _ & _ & Hc & _ & _ & Hw); [done|].
  exists s2. rewrite (bind_run _ _ _ _ _ Hr). split; [done|]. rewrite Hw, Hc. split; [|exact C1].
  cbn [uv_written put_request uv_request]. by rewrite W1.
Qed.

(** ** What is missing *)

(** The header of a message. *)
Definition uv_frame_header (msg : bytes) (s : WsUvSession) : WSHeader :=
  mkWSHeader 1 0 0 0 (op TEXT_0X1) 1 (zlen msg mod 128) 0 (le_val (GetRandomMask rand_s (uv_rand_calls s) 4).1.1).

Lemma uv_mask_bound n : 0 <= le_val (GetRandomMask rand_s n 4).1.1 < 2 ^ 32.
Proof.
  unfold GetRandomMask. cbn -[le_val]. apply (le_val_bound (_ :: _ :: _ :: _ :: [])).
  repeat constructor; apply u8_byte.
Qed.

Lemma wf_uv_frame_header msg s : wf_header (uv_frame_header msg s).
Proof.
  unfold wf_header, uv_frame_header. cbn -[Z.pow le_val GetRandomMask].
  pose proof (uv_mask_bound (uv_rand_calls s)). pose proof (Z.mod_pos_bound (zlen msg) 128). lia.
Qed.

Lemma uv_DoSendMsg_run msg s :
  uv_sendState s = SEND_NONE -> uv_maxFrameSize s = 0 -> zlen msg <= WS_MAX_PAYLOAD_LEN -> length stack_junk = 14%nat ->
  exists s', uv_DoSendMsg msg s = Ret ((0, MaskPayload (mask (uv_frame_header msg s)) msg), s') /\
    uv_written s' = uv_written s ++ [wire_header (uv_frame_header msg s)].
Proof.
  intros Hs Hm Hl Hj. unfold uv_DoSendMsg, uv_SendMsgEx. rewrite bind_get, Hm, orb_true_r.
  unfold uv_SendFrameRaw. rewrite bind_get, Hs. cbn [negb bool_decide decide Z.eqb].
  change (bool_decide (SEND_NONE = SEND_NONE)) with true. cbn [negb].
  change (IsControlOpcode (op TEXT_0X1)) with false. cbn [andb]. rewrite bind_upd.
  unfold uv_upd_header. rewrite !bind_upd. rewrite (proj2 (Z.ltb_ge _ _) Hl), !bind_upd.
  unfold uv_random_bytes. unfold bindS at 1. rewrite bind_get.
  cbn [uv_rand_calls put_wsHeader]. unfold GetRandomMask at 1. cbn [Z.of_nat]. rewrite bind_upd. unfold retS at 1.
  rewrite bind_upd. change (negb (Z.of_nat 4 =? 4)) with false. cbv iota. rewrite bind_get.
  cbn [uv_wsHeader put_wsHeader put_rand].
  match goal with |- context [PackHeader ?h] => assert (h = uv_frame_header msg s) as -> end.
  { unfold set_mask, u32, uv_frame_header. pose proof (uv_mask_bound (uv_rand_calls s)).
    unfold GetRandomMask in *. cbn [fst] in *. rewrite Z.mod_small by done. reflexivity. }
  pose proof (wf_uv_frame_header msg s) as Hw. unfold bindS at 1, liftS at 1. rewrite PackHeader_wire by done.
  unfold uv_Write. rewrite bind_upd, bind_get. cbn [uv_wsHeader put_written put_wsHeader put_rand].
  unfold zlen. rewrite Nat2Z.id, take_app_length. unfold retS.
  eexists. split; [reflexivity|]. done.
Qed.
(** a message is announced, not sent.  [DoSendMsg] of a fresh session reports
    success and writes one buffer, the frame header: the peer reads from it that a
    masked text frame of the message's length (modulo 128) follows, and gets
    nothing.  The caller's string is masked in place. *)
Theorem uv_send_header_only (msg : bytes) (s : WsUvSession) :
  uv_sendState s = SEND_NONE -> uv_maxFrameSize s = 0 -> zlen msg <= WS_MAX_PAYLOAD_LEN -> length stack_junk = 14%nat ->
  exists s' hdr h, uv_DoSendMsg msg s = Ret ((0, MaskPayload (mask h) msg), s') /\
    uv_written s' = uv_written s ++ [hdr] /\
    UnpackHeader 0 hdr (zlen hdr) = Ret (SUCCESS, h, zlen hdr) /\
    fin h = 1 /\ opcode h = op TEXT_0X1 /\ maskBit h = 1 /\ payloadLen h = zlen msg mod 128.
Proof.
  intros Hs Hm Hl Hj. destruct (uv_DoSendMsg_run msg s Hs Hm Hl Hj) as (s' & Hr & Hw).
  eexists s', _, (uv_frame_header msg s). split; [exact Hr|]. split; [exact Hw|]. split; [|done].
  rewrite <- (app_nil_r (wire_header _)) at 1. apply UnpackHeader_wire; [apply wf_uv_frame_header|done|lia].
Qed.

(** What a parser callback does. *)
Definition uv_effect (s : WsUvSession) (e : ParserEvent) : WsUvSession :=
  match uv_settings e s with Ret (_, s') => s' | _ => s end.

Lemma uv_iter_settings evs s : iterS uv_settings evs s = Ret (tt, foldl uv_effect s evs).
Proof.
  revert s. induction evs as [|e evs IH]; intros s; [done|]. cbn [iterS foldl].
  unfold bindS at 1. assert (uv_settings e s = Ret (tt, uv_effect s e)) as -> by by destruct e. apply IH.
Qed.

Lemma uv_effect_keeps s evs :
  uv_connects (foldl uv_effect s evs) = uv_connects s /\
  uv_connect_handler (foldl uv_effect s evs) = uv_connect_handler s.
Proof.
  revert s. induction evs as [|e evs IH]; intros s; [done|]. cbn [foldl].
  destruct (IH (uv_effect s e)) as [-> ->]. by destruct e.
Qed.

(** Every read, whatever the reply says, calls the connect handler. *)
Lemma uv_read_connects data evs p' s :
  data <> [] -> http_parser_execute (uv_parser s) data = (evs, zlen data, p') ->
  ConnectHandler_call (uv_connect_handler s) = [] ->
  exists s', uv_OnRead (zlen data) data s = Ret (tt, s') /\ uv_connects s' = S (uv_connects s).
Proof.
  intros Hd Hx Hh. unfold uv_OnRead.
  rewrite (proj2 (Z.ltb_lt 0 (zlen data))) by (destruct data; [done|unfold zlen; simpl; lia]).
  rewrite bind_get, Hx. unfold bindS at 1. rewrite uv_iter_settings, bind_upd, Z.eqb_refl.
  destruct (uv_effect_keeps s evs) as [Hc Hk].
  unfold checkS, uv_connect_handler_call. rewrite bind_ret, bind_upd, bind_get. cbn [uv_connect_handler put_connects put_parser].
  rewrite Hk, Hh. eexists. split; [reflexivity|]. simpl. by rewrite Hc.
Qed.
End uv.

(** ** A concrete session: [std::make_shared] zero-initialises its members *)

Definition uv_sample (P : HttpParser) : WsUvSession :=
  mkWsUv [] (mkRequest [] [] sample_url 1 1 []) (mkWsResponse 0 [] [] [] sample_url) ConnectHandler_default None
    SEND_NONE zero_header 0 http_parser_init false false false [] 0 0.

Lemma uv_handshake_witness :
  exists s', (let! _ := @uv_DoInit sample_parser in
              do! updS (fun s => put_request (set_req_url sample_url (uv_request s)) s) in
              uv_DoConnect (fun _ => []) (fun _ => 0) [] true [UvResolved 0; UvConnected 0]) (uv_sample sample_parser)
              = Ret (0, s') /\
    uv_written s' = [str "GET /p HTTP/1.1" ++ crlf ++ str "Host: h" ++ crlf ++ str "Connection: upgrade" ++ crlf ++
       str "Origin: http://h:80" ++ crlf ++ str "Sec-WebSocket-Key: dGhlIHNhbXBsZSBub25jZQ==" ++ crlf ++
       str "Sec-WebSocket-Version: 13" ++ crlf ++ str "Upgrade: websocket" ++ crlf ++ crlf] /\
    uv_connects s' = O.
Proof.
  exact (@uv_handshake sample_parser (fun _ => []) (fun _ => 0) [] sample_url (uv_sample sample_parser) eq_refl).
Defined.

Lemma uv_send_header_only_witness :
  exists s' hdr h, @uv_DoSendMsg sample_parser (fun _ => 7) (replicate 14 0) (str "hello") (uv_sample sample_parser)
      = Ret ((0, MaskPayload (mask h) (str "hello")), s') /\
    uv_written s' = [] ++ [hdr] /\ UnpackHeader 0 hdr (zlen hdr) = Ret (SUCCESS, h, zlen hdr) /\
    fin h = 1 /\ opcode h = op TEXT_0X1 /\ maskBit h = 1 /\ payloadLen h = 5.
Proof.
  apply (@uv_send_header_only sample_parser (fun _ => 7) (replicate 14 0) (str "hello") (uv_sample sample_parser));
    [done|done|vm_compute; discriminate|done].
Defined.
