(* ===== verification/HttpEv.v ===== *)
(** * The HTTP client over libevent: net/http_cli/implement/ev/session_impl_ev.{h,cpp}

    evhttp, OpenSSL and the certificate store of Windows are parameters: what
    their calls return is an argument ([EvLib]), and what the client asked of them
    is recorded in the state.  The names of a certificate are checked by
    HostnameValidation.v.  [SetUrl] assigns a member [protocol] that the present
    url.h does not declare; the assignment is a parameter of it.

    [VerifyCertCallback_accepts_iff] says which servers are accepted,
    [DoRequest_verifies] what is set up before a request is made, and
    [HandleResponse_returns_iff] that a reply with a body of text is read past the
    end of an uninitialised array. *)

From stdpp Require Import base list numbers strings.
From Stdlib Require Import ZArith Lia.
From S2P Require Import Prelude HttpHeader Time Libevent HostCheck HostnameValidation HttpSession.

(** ** The libraries *)

(** Verifying the chain of a certificate. *)
Class X509Verify (lib : OpenSSL) := {
  X509_STORE_CTX : Type;
  X509_verify_cert : X509_STORE_CTX -> Z;
  X509_STORE_CTX_get_current_cert : X509_STORE_CTX -> option X509
}.

(** Its documentation: 1 when a complete chain was built and validated, 0 when not,
    and a negative number when the verification itself failed. *)
Class X509VerifyLaws {lib : OpenSSL} (V : X509Verify lib) : Prop := {
  verify_cert_results ctx : X509_verify_cert ctx = 1 \/ X509_verify_cert ctx = 0 \/ X509_verify_cert ctx < 0
}.

(** What the calls of one request return (the results of [RAND_poll] and
    [WSAStartup] are only logged).  A system store is the list of its
    certificates, true for one that [d2i_X509] can parse. *)
Record EvLib := mkEvLib {
  SSL_CTX_new_ok : bool;
  system_store : bytes -> option (list bool);
  SSL_new_ok : bool;
  bufferevent_ok : bool;
  connection_ok : bool;
  make_request : Z;
  event_base_ok : bool;
  request_ok : bool
}.

(** The parts of a parsed uri; the path is a string, maybe empty. *)
Record EvUri := mkEvUri {
  uri_scheme : option bytes; uri_host : option bytes; uri_port : Z; uri_path : option bytes; uri_query : option bytes
}.

Section http_ev.
Context {E : EvBuffer}.

(** What the event loop reports: the end of the request, with its response code
    and input buffer if there is one, or an error. *)
Inductive EvEvent := EvDone (req : option (Z * evbuffer)) | EvError.

(** ** session_impl_ev.h *)

Record EvConnection := mkConnection { conn_host : bytes; conn_port : Z; conn_retries : Z; conn_timeout : Z }.

Record HttpEvSession := mkHttpEv {
  retries_ : Z;
  ev_handler : ResponseHandler;
  evReq_ : bool;
  evBase_ : bool;
  evConn_ : option EvConnection;
  evBuffer_ : option bool;                   (* whether the bufferevent has TLS *)
  url_ : Url;
  timeout_ : TimeDelta.t;
  sslContext_ : bool;
  ssl_ : option bool;                        (* whether it demands a verified peer *)
  (* what the libraries were told *)
  verify_peer : bool;                        (* SSL_CTX_set_verify(SSL_VERIFY_PEER) *)
  trusted : nat;                             (* certificates added to the store *)
  verify_host : option bytes;                (* the host VerifyCertCallback checks *)
  sni_host : option bytes;
  output_headers : list (bytes * bytes);
  requests : list bytes;                     (* paths asked for *)
  ev_delivered : list Response
}.

Definition eta_HttpEv (s : HttpEvSession) : HttpEvSession :=
  mkHttpEv (retries_ s) (ev_handler s) (evReq_ s) (evBase_ s) (evConn_ s) (evBuffer_ s) (url_ s) (timeout_ s)
    (sslContext_ s) (ssl_ s) (verify_peer s) (trusted s) (verify_host s) (sni_host s) (output_headers s) (requests s) (ev_delivered s).
Definition with_retries : Z -> HttpEvSession -> HttpEvSession := ltac:(build_setter eta_HttpEv retries_).
Definition with_ev_handler : ResponseHandler -> HttpEvSession -> HttpEvSession := ltac:(build_setter eta_HttpEv ev_handler).
Definition with_evReq : bool -> HttpEvSession -> HttpEvSession := ltac:(build_setter eta_HttpEv evReq_).
Definition with_evBase : bool -> HttpEvSession -> HttpEvSession := ltac:(build_setter eta_HttpEv evBase_).
Definition with_evConn : option EvConnection -> HttpEvSession -> HttpEvSession := ltac:(build_setter eta_HttpEv evConn_).
Definition with_evBuffer : option bool -> HttpEvSession -> HttpEvSession := ltac:(build_setter eta_HttpEv evBuffer_).
Definition with_ev_url : Url -> HttpEvSession -> HttpEvSession := ltac:(build_setter eta_HttpEv url_).
Definition with_timeout : TimeDelta.t -> HttpEvSession -> HttpEvSession := ltac:(build_setter eta_HttpEv timeout_).
Definition with_sslContext : bool -> HttpEvSession -> HttpEvSession := ltac:(build_setter eta_HttpEv sslContext_).
Definition with_ev_ssl : option bool -> HttpEvSession -> HttpEvSession := ltac:(build_setter eta_HttpEv ssl_).
Definition with_verify_peer : bool -> HttpEvSession -> HttpEvSession := ltac:(build_setter eta_HttpEv verify_peer).
Definition with_trusted : nat -> HttpEvSession -> HttpEvSession := ltac:(build_setter eta_HttpEv trusted).
Definition with_verify_host : option bytes -> HttpEvSession -> HttpEvSession := ltac:(build_setter eta_HttpEv verify_host).
Definition with_sni_host : option bytes -> HttpEvSession -> HttpEvSession := ltac:(build_setter eta_HttpEv sni_host).
Definition with_headers : list (bytes * bytes) -> HttpEvSession -> HttpEvSession := ltac:(build_setter eta_HttpEv output_headers).
Definition with_requests : list bytes -> HttpEvSession -> HttpEvSession := ltac:(build_setter eta_HttpEv requests).
Definition with_ev_delivered : list Response -> HttpEvSession -> HttpEvSession := ltac:(build_setter eta_HttpEv ev_delivered).

Abbreviation EM := (M HttpEvSession).

(** ** session_impl_ev.cpp *)

Definition ev_OnResponse (response : Response) : EM unit :=
  let! h := getS ev_handler in
  whenS (handler_ h) (updS (fun s => with_ev_delivered (ev_delivered s ++ [response]) s)).

(** [char buffer[256]] on the stack: [None] is a char that was never written. *)
Definition stack_buffer : list (option Z) := replicate 256 None.

(** [evbuffer_remove] into the start of the array. *)
Definition fill_buffer (buffer : list (option Z)) (data : bytes) : list (option Z) :=
  (Some <$> data) ++ drop (length data) buffer.

(** [oss << buffer]: the chars up to a NUL. *)
Fixpoint print_buffer (buffer : list (option Z)) : outcome bytes :=
  match buffer with
  | [] => Undef "read past the end of buffer"
  | None :: _ => Undef "read of an uninitialised char"
  | Some c :: rest => if c =? 0 then Ret [] else let? text := print_buffer rest in Ret (c :: text)
  end.

(** The loop that reads the body; each turn takes at least one byte. *)
Fixpoint read_body (fuel : nat) (input : evbuffer) (buffer : list (option Z)) (oss : bytes) : outcome bytes :=
  match fuel with
  | O => Undef "read_body: out of fuel"
  | S fuel' =>
      let '(data, input') := evbuffer_remove input 256 in
      match data with
      | [] => Ret oss
      | _ =>
          let buffer := fill_buffer buffer data in
          let? text := print_buffer buffer in
          read_body fuel' input' buffer (oss ++ text)
      end
  end.

(** For a failed request the pointer to the session is used as a bufferevent. *)
Definition HandleResponse (req : option (Z * evbuffer)) : EM unit :=
  match req with
  | None => undefS "bufferevent_get_openssl_error of a SessionImplEV"
  | Some (code, input) =>
      if code =? 0 then undefS "bufferevent_get_openssl_error of a SessionImplEV" else
      let! text := liftS (read_body (S (Z.to_nat (evbuffer_get_length input))) input stack_buffer []) in
      let! u := getS url_ in
      ev_OnResponse (Response_ctor code (mkError OK) text [] u Cookies_default)
  end.

(** The context is the session, so the check always fails. *)
Definition OnError : EM unit := killS "!that".

Definition ev_handle (e : EvEvent) : EM unit :=
  match e with EvError => OnError | EvDone req => HandleResponse req end.

(** The certificates before the first that cannot be parsed are added. *)
Fixpoint add_certs (certs : list bool) : EM Z :=
  match certs with
  | [] => retS 0
  | true :: certs' => do! updS (fun s => with_trusted (S (trusted s)) s) in add_certs certs'
  | false :: _ => retS (-1)
  end.

Definition AddCertForStore (lib : EvLib) (name : bytes) : EM Z :=
  match system_store lib name with
  | None => retS (-1)
  | Some certs => add_certs certs
  end.

(** The bufferevent, with TLS for an https url.  [SSL_new] copies the verify mode
    of the context; [SSL_CTX_new] starts with [SSL_VERIFY_NONE]. *)
Definition open_bufferevent (lib : EvLib) (u : Url) : EM unit :=
  if negb (IsHttps u) then updS (with_evBuffer (if bufferevent_ok lib then Some false else None))
  else
    do! updS (with_sslContext (SSL_CTX_new_ok lib)) in
    do! updS (with_verify_peer false) in
    if negb (SSL_CTX_new_ok lib) then undefS "SSL_CTX_get_cert_store(NULL)" else
    let! r := AddCertForStore lib (str "CA") in
    let! r := (if r <? 0 then retS r else AddCertForStore lib (str "AuthRoot")) in
    let! _ := (if r <? 0 then retS r else AddCertForStore lib (str "ROOT")) in
    do! updS (with_verify_peer true) in
    do! updS (with_verify_host (Some (cstr (host u)))) in
    let! peer := getS verify_peer in
    do! updS (with_ev_ssl (if SSL_new_ok lib then Some peer else None)) in
    if negb (SSL_new_ok lib) then undefS "SSL_set_tlsext_host_name(NULL)" else
    do! updS (with_sni_host (Some (cstr (host u)))) in
    updS (with_evBuffer (if bufferevent_ok lib then Some true else None)).

(** The connection on top of it; the port is a 16-bit parameter of evhttp. *)
Definition open_connection (lib : EvLib) (u : Url) : EM unit :=
  let! b := getS evBuffer_ in
  match b with
  | None => undefS "bufferevent_openssl_set_allow_dirty_shutdown(NULL)"
  | Some _ =>
      do! updS (with_evConn (if connection_ok lib then Some (mkConnection (cstr (host u)) (u16 (port u)) 0 0) else None)) in
      let! n := getS retries_ in
      let! t := getS (fun s => TimeDelta.ToSeconds (timeout_ s)) in
      let! c := getS evConn_ in
      do! (if 0 <? n then
             match c with
             | None => undefS "evhttp_connection_set_retries(NULL)"
             | Some c => updS (with_evConn (Some (mkConnection (conn_host c) (conn_port c) (i32 n) (conn_timeout c))))
             end
           else retS tt) in
      let! c := getS evConn_ in
      if 0 <? t then
        match c with
        | None => undefS "evhttp_connection_set_timeout(NULL)"
        | Some c => updS (with_evConn (Some (mkConnection (conn_host c) (conn_port c) (conn_retries c) (i32 t))))
        end
      else retS tt
  end.

Definition InitEventConnect (lib : EvLib) : EM unit :=
  let! u := getS url_ in
  do! open_bufferevent lib u in
  open_connection lib u.

Definition ev_DoInit (lib : EvLib) : EM bool :=
  do! updS (with_evBase (event_base_ok lib)) in
  do! updS (with_evReq (request_ok lib)) in
  if negb (request_ok lib) then undefS "evhttp_request_set_error_cb(NULL)" else retS true.

Definition evhttp_add_header (k v : bytes) : EM unit :=
  updS (fun s => with_headers (output_headers s ++ [(k, v)]) s).

Definition ev_DoRequest (lib : EvLib) (events : list EvEvent) : EM unit :=
  let! u := getS url_ in
  do! checkS (negb (bool_decide (url u = []))) "url cannot be empty!" in
  do! InitEventConnect lib in
  let! req := getS evReq_ in
  if negb req then undefS "evReq_->output_headers of NULL" else
  do! evhttp_add_header (str "Host") (cstr (host u)) in
  do! evhttp_add_header (str "Connection") (str "close") in
  let! c := getS evConn_ in
  match c with
  | None => undefS "evhttp_make_request(NULL)"
  | Some _ =>
      do! whenS (make_request lib =? 0) (updS (fun s => with_requests (requests s ++ [cstr (path u)]) s)) in
      iterS ev_handle events
  end.

(** *** Setters *)
Definition ev_SetHandler (h : ResponseHandler) : EM unit := updS (with_ev_handler h).
Definition ev_SetHeader (headers : Header) : EM unit :=
  let! req := getS evReq_ in
  if negb req then undefS "evhttp_request_get_output_headers(NULL)" else
  iterS (fun kv => evhttp_add_header (cstr kv.1) (cstr kv.2)) headers.
Definition ev_SetTimeout (timeout : TimeDelta.t) : EM unit := updS (with_timeout timeout).
Definition ev_SetRetries (retries : Z) : EM unit := updS (with_retries retries).
Definition ev_url (s : HttpEvSession) : Url := url_ s.

Section set_url.
Context (evhttp_uri_parse : bytes -> option EvUri) (set_protocol : bytes -> Url -> Url).

(** [std::string = const char*] of a null pointer is undefined. *)
Definition not_null (p : option bytes) : EM bytes :=
  match p with Some t => retS t | None => undefS "std::string of a null pointer" end.

(** [port] and [fragment] are the results of the comparisons: the port of the uri is
    not taken over, and the fragment becomes the character 1. *)
Definition ev_SetUrl (u : Url) : EM unit :=
  match evhttp_uri_parse (cstr (url u)) with
  | None => undefS "evhttp_uri_get_scheme of a null pointer"
  | Some httpUri =>
      let! scheme := not_null (uri_scheme httpUri) in
      let u1 := set_protocol scheme u in
      let! h := not_null (uri_host httpUri) in
      let u2 := mkUrl (url u1) (schema u1) h (port u1) (path u1) (query u1) (fragment u1) in
      let p := if uri_port httpUri =? -1 then (if IsHttps u2 then 443 else 80) else port u2 in
      let pa := match uri_path httpUri with
                | Some t => if bool_decide (t = []) then str "/" else t
                | None => path u2
                end in
      let fr := match uri_query httpUri with Some _ => [1] | None => fragment u2 end in
      updS (with_ev_url (mkUrl (url u2) (schema u2) h p pa (query u2) fr))
  end.

(** The port of an url is not the one that its text names. *)
Lemma SetUrl_ignores_port u uri scheme h s :
  evhttp_uri_parse (cstr (url u)) = Some uri -> uri_scheme uri = Some scheme -> uri_host uri = Some h ->
  uri_port uri <> -1 ->
  exists s', ev_SetUrl u s = Ret (tt, s') /\ port (url_ s') = port (set_protocol scheme u) /\ host (url_ s') = h.
Proof.
  intros Hu Hs Hh Hp. unfold ev_SetUrl. rewrite Hu, Hs, Hh. cbn [not_null]. rewrite !bind_ret.
  rewrite (proj2 (Z.eqb_neq _ _) Hp). by eexists.
Qed.
End set_url.
(** ** Setting up a request *)

(** Certificates are added, nothing else. *)
Lemma add_certs_run certs s : exists r n, add_certs certs s = Ret (r, with_trusted n s).
Proof.
  revert s. induction certs as [|[] certs IH]; intros s; cbn [add_certs].
  - exists 0, (trusted s). apply ret_state. by destruct s.
  - rewrite bind_upd. destruct (IH (with_trusted (S (trusted s)) s)) as (r & n & ->). by exists r, n.
  - exists (-1), (trusted s). apply ret_state. by destruct s.
Qed.

Lemma AddCertForStore_run lib name s : exists r n, AddCertForStore lib name s = Ret (r, with_trusted n s).
Proof.
  unfold AddCertForStore. destruct (system_store lib name); [apply add_certs_run|].
  exists (-1), (trusted s). apply ret_state. by destruct s.
Qed.

(** The calls for the three stores. *)
Lemma stores_run lib (k : EM unit) s :
  exists n, (let! r := AddCertForStore lib (str "CA") in
             let! r := (if r <? 0 then retS r else AddCertForStore lib (str "AuthRoot")) in
             let! _ := (if r <? 0 then retS r else AddCertForStore lib (str "ROOT")) in k) s = k (with_trusted n s).
Proof.
  assert (forall (r : Z) name t, exists r' n,
            (if r <? 0 then retS r else AddCertForStore lib name) t = Ret (r', with_trusted n t)) as Hn.
  { intros r name t. destruct (r <? 0); [|apply AddCertForStore_run].
    exists r, (trusted t). apply ret_state. by destruct t. }
  destruct (AddCertForStore_run lib (str "CA") s) as (r & n & H1). rewrite (bind_run _ _ _ _ _ H1).
  destruct (Hn r (str "AuthRoot") (with_trusted n s)) as (r2 & n2 & H2). rewrite (bind_run _ _ _ _ _ H2).
  destruct (Hn r2 (str "ROOT") (with_trusted n2 (with_trusted n s))) as (r3 & n3 & H3).
  rewrite (bind_run _ _ _ _ _ H3). by exists n3.
Qed.

(** The connection of a session. *)
Definition connection_of (s : HttpEvSession) : EvConnection :=
  mkConnection (cstr (host (url_ s))) (u16 (port (url_ s))) (if 0 <? retries_ s then i32 (retries_ s) else 0)
    (if 0 <? TimeDelta.ToSeconds (timeout_ s) then i32 (TimeDelta.ToSeconds (timeout_ s)) else 0).

(** What was set up when a request returns: the connection to the host of the
    url, with TLS exactly when the url asks for it, and then with a peer that must
    be verified, by the callback for the host's name; the two headers; and the
    path that was asked for. *)
Record set_up (lib : EvLib) (s s' : HttpEvSession) : Prop := {
  su_buffer : evBuffer_ s' = Some (IsHttps (url_ s));
  su_conn : evConn_ s' = Some (connection_of s);
  su_verify : IsHttps (url_ s) = true -> ssl_ s' = Some true /\
    verify_host s' = Some (cstr (host (url_ s))) /\ sni_host s' = Some (cstr (host (url_ s)));
  su_headers : output_headers s' = output_headers s ++
    [(str "Host", cstr (host (url_ s))); (str "Connection", str "close")];
  su_requests : requests s' = requests s ++ (if make_request lib =? 0 then [cstr (path (url_ s))] else [])
}.

(** Each library call either succeeds or is followed by a use of its null result. *)
Lemma open_bufferevent_cases lib s :
  (exists w, open_bufferevent lib (url_ s) s = Undef w /\ IsHttps (url_ s) = true) \/
  exists s', open_bufferevent lib (url_ s) s = Ret (tt, s') /\
    evBuffer_ s' = (if bufferevent_ok lib then Some (IsHttps (url_ s)) else None) /\
    (IsHttps (url_ s) = true -> ssl_ s' = Some true /\
       verify_host s' = Some (cstr (host (url_ s))) /\ sni_host s' = Some (cstr (host (url_ s)))) /\
    retries_ s' = retries_ s /\ timeout_ s' = timeout_ s /\ evReq_ s' = evReq_ s /\
    output_headers s' = output_headers s /\ requests s' = requests s /\ url_ s' = url_ s.
Proof.
  unfold open_bufferevent. destruct (IsHttps (url_ s)); cbn [negb].
  - rewrite !bind_upd. destruct (SSL_CTX_new_ok lib); cbn [negb]; [|left; by eexists].
    edestruct (stores_run lib) as [n ->]. rewrite !bind_upd, bind_get, bind_upd.
    destruct (SSL_new_ok lib); cbn [negb]; [|left; by eexists]. rewrite bind_upd. right.
    eexists. split; [reflexivity|]. done.
  - right. eexists. split; [reflexivity|]. done.
Qed.

Lemma open_connection_cases lib u s :
  (exists w, open_connection lib u s = Undef w) \/
  (evBuffer_ s = None -> False) /\
  (connection_ok lib = true ->
   open_connection lib u s = Ret (tt, with_evConn (Some (mkConnection (cstr (host u)) (u16 (port u))
      (if 0 <? retries_ s then i32 (retries_ s) else 0)
      (if 0 <? TimeDelta.ToSeconds (timeout_ s) then i32 (TimeDelta.ToSeconds (timeout_ s)) else 0))) s)) /\
  (connection_ok lib = false -> exists s', open_connection lib u s = Ret (tt, s') /\ evConn_ s' = None).
Proof.
  unfold open_connection. rewrite bind_get. destruct (evBuffer_ s); [|left; by eexists].
  rewrite bind_upd. unfold bindS, getS, updS, retS. cbn [retries_ timeout_ evConn_ with_evConn].
  destruct (connection_ok lib), (0 <? retries_ s), (0 <? TimeDelta.ToSeconds (timeout_ s));
    try (left; by eexists); right; split; try done; split; try done; intros _; by eexists.
Qed.
Lemma InitEventConnect_ret lib s s' :
  InitEventConnect lib s = Ret (tt, s') -> evConn_ s' <> None ->
  evBuffer_ s' = Some (IsHttps (url_ s)) /\ evConn_ s' = Some (connection_of s) /\
  (IsHttps (url_ s) = true -> ssl_ s' = Some true /\
     verify_host s' = Some (cstr (host (url_ s))) /\ sni_host s' = Some (cstr (host (url_ s)))) /\
  evReq_ s' = evReq_ s /\ output_headers s' = output_headers s /\ requests s' = requests s.
Proof.
  unfold InitEventConnect. rewrite bind_get. intros Hr Hc.
  destruct (open_bufferevent_cases lib s) as [(w & Hw & _)|(s1 & H1 & Hb & Hv & R1 & T1 & Q1 & O1 & N1 & U1)].
  { by rewrite (bind_undef _ _ _ _ Hw) in Hr. }
  rewrite (bind_run _ _ _ _ _ H1) in Hr.
  destruct (open_connection_cases lib (url_ s) s1) as [(w & Hw)|(Hnb & Hok & Hno)]; [by rewrite Hw in Hr|].
  destruct (connection_ok lib); [|destruct (Hno eq_refl) as (s2 & Hr2 & Hn2); rewrite Hr2 in Hr; injection Hr as <-; done].
  rewrite (Hok eq_refl), R1, T1 in Hr. injection Hr as <-.
  cbn [evBuffer_ evConn_ ssl_ verify_host sni_host evReq_ output_headers requests with_evConn].
  split_and!; try done. rewrite Hb in Hnb |- *. destruct (bufferevent_ok lib); [done|]. by destruct (Hnb eq_refl).
Qed.

(** The callbacks of the loop only deliver. *)
Lemma ev_handle_frame es s s' :
  iterS ev_handle es s = Ret (tt, s') -> exists d, s' = with_ev_delivered d s.
Proof.
  revert s. induction es as [|e es IH]; intros s; cbn [iterS].
  { intros [= <-]. exists (ev_delivered s). by destruct s. }
  unfold bindS at 1. destruct (ev_handle e s) as [[[] s1]| |] eqn:He; [|done..]. intros (d & ->)%IH.
  assert (exists d1, s1 = with_ev_delivered d1 s) as (d1 & ->); [|by exists d].
  destruct e as [[[code input]|]|]; cbn [ev_handle HandleResponse] in He; try done.
  destruct (code =? 0); [done|]. unfold bindS at 1, liftS in He. destruct (read_body _ _ _ _) as [text| |]; [|done..].
  rewrite bind_get in He. unfold ev_OnResponse in He. rewrite bind_get in He.
  destruct (handler_ (ev_handler s)); injection He as <-; [by eexists|].
  exists (ev_delivered s). by destruct s.
Qed.

Definition lib_ok (lib : EvLib) : Prop :=
  SSL_CTX_new_ok lib = true /\ SSL_new_ok lib = true /\ bufferevent_ok lib = true /\ connection_ok lib = true.

(** C31: a request is made as the session asks.  Whatever the library calls
    return, when [DoRequest] returns, the connection is to the host of the url and
    its port modulo 2^16, with the retries and timeout asked for; for an https url
    it has TLS that demands a verified peer, with [VerifyCertCallback] installed
    for that host and the host's name sent; the request carries the two headers
    and asks for the path.  And it does return when the calls succeed, the url is
    not empty and the session was initialised. *)
Theorem DoRequest_verifies (lib : EvLib) (events : list EvEvent) (s : HttpEvSession) :
  (forall s', ev_DoRequest lib events s = Ret (tt, s') -> url (url_ s) <> [] /\ set_up lib s s') /\
  (lib_ok lib -> url (url_ s) <> [] -> evReq_ s = true -> exists s', ev_DoRequest lib [] s = Ret (tt, s')).
Proof.
  split.
  - intros s' Hr. unfold ev_DoRequest in Hr. rewrite bind_get in Hr. unfold checkS in Hr.
    destruct (bool_decide_reflect (url (url_ s) = [])) as [|Hu]; [done|]. cbn [negb] in Hr. rewrite bind_ret in Hr.
    split; [done|]. unfold bindS at 1 in Hr. destruct (InitEventConnect lib s) as [[[] s1]| |] eqn:Hi; [|done..].
    rewrite bind_get in Hr. destruct (evReq_ s1); [|done]. cbn [negb] in Hr. unfold evhttp_add_header in Hr.
    rewrite !bind_upd, bind_get in Hr. cbn [evConn_ with_headers] in Hr.
    destruct (InitEventConnect_ret lib s s1 Hi) as (Hb & Hc & Hv & _ & Ho & Hq).
    { intros Hn. by rewrite Hn in Hr. }
    rewrite Hc in Hr. unfold bindS at 1, whenS in Hr.
    destruct (make_request lib =? 0) eqn:Hm; cbn [updS retS] in Hr;
      apply ev_handle_frame in Hr as (d & ->);
      (split; cbn [evBuffer_ evConn_ ssl_ verify_host sni_host output_headers requests with_ev_delivered with_requests with_headers];
        rewrite ?Ho, ?Hq, ?Hm, <- ?app_assoc, ?app_nil_r; done).
  - intros (H1 & H2 & H3 & H4) Hu Hq. unfold ev_DoRequest. rewrite bind_get, bool_decide_false by done.
    cbn [negb checkS]. rewrite bind_ret.
    destruct (open_bufferevent_cases lib s) as [(w & Hw & Hh)|(s1 & Hr1 & Hb & _ & _ & _ & Q1 & _ & _ & _)].
    { exfalso. unfold open_bufferevent in Hw. rewrite Hh in Hw. cbn [negb] in Hw. rewrite !bind_upd, H1 in Hw. cbn [negb] in Hw.
      edestruct (stores_run lib) as [n Hn]. rewrite Hn, !bind_upd, bind_get, bind_upd, H2 in Hw. done. }
    destruct (open_connection_cases lib (url_ s) s1) as [(w & Hw)|(_ & Hok & _)].
    { exfalso. unfold open_connection in Hw. rewrite bind_get, Hb, H3, bind_upd, H4 in Hw.
      unfold bindS, getS, updS, retS in Hw. cbn [retries_ timeout_ evConn_ with_evConn] in Hw.
      by destruct (0 <? retries_ s1), (0 <? TimeDelta.ToSeconds (timeout_ s1)). }
    unfold InitEventConnect. unfold bindS at 1. rewrite bind_get, (bind_run _ _ _ _ _ Hr1), (Hok H4), bind_get.
    cbn [evReq_ with_evConn]. rewrite Q1, Hq. cbn [negb]. unfold evhttp_add_header. rewrite !bind_upd, bind_get.
    cbn [evConn_ with_headers with_evConn]. unfold bindS, whenS. destruct (make_request lib =? 0); by eexists.
Qed.
(** ** Reading a response *)

Lemma print_buffer_undef data rest :
  0 ∉ data -> head rest = None \/ head rest = Some None ->
  exists w, print_buffer ((Some <$> data) ++ rest) = Undef w.
Proof.
  intros Hd Hr. induction data as [|c data IH]; cbn [fmap list_fmap app].
  - destruct rest as [|[c|] rest]; [by eexists|by destruct Hr|by eexists].
  - apply not_elem_of_cons in Hd as [Hc Hd]. cbn [print_buffer].
    destruct (Z.eqb_spec c 0) as [->|]; [done|]. destruct (IH Hd) as (w & ->). by exists w.
Qed.

(** C32: a response with a body of text is undefined.  The body is printed from an
    uninitialised array as a C string: when no NUL comes with the response,
    [HandleResponse] returns exactly when the body is empty. *)
Theorem HandleResponse_returns_iff {L : EvBufferLaws E} (code : Z) (input : evbuffer) (s : HttpEvSession) :
  code <> 0 -> 0 ∉ contents input ->
  (exists s', HandleResponse (Some (code, input)) s = Ret (tt, s')) <-> contents input = [].
Proof.
  intros Hc Hn. cbn [HandleResponse]. rewrite (proj2 (Z.eqb_neq code 0) Hc). cbn [read_body].
  destruct (evbuffer_remove input 256) as [data input'] eqn:Hr. destruct (remove_law _ _ _ _ Hr) as [-> _].
  destruct (contents input) as [|c body] eqn:Hb; cbn [take].
  - split; [done|]. intros _. unfold bindS at 1, liftS. rewrite bind_get. unfold ev_OnResponse, whenS. rewrite bind_get.
    destruct (handler_ (ev_handler s)); by eexists.
  - split; [|done]. intros (s' & Hs). exfalso.
    assert (0 ∉ c :: take 255 body) as Hn'.
    { intros H. apply Hn. rewrite <- (take_drop 255 body). rewrite app_comm_cons. apply elem_of_app. by left. }
    destruct (print_buffer_undef (c :: take 255 body) (drop (length (c :: take 255 body)) stack_buffer) Hn') as (w & Hw).
    { unfold stack_buffer. rewrite drop_replicate. destruct (256 - _)%nat; [by left|by right]. }
    revert Hs. set (buf := fill_buffer _ _).
    assert (print_buffer buf = Undef w) as Hu by exact Hw. clearbody buf.
    unfold bindS at 1, liftS. by rewrite Hu.
Qed.
End http_ev.

(** *** [VerifyCertCallback], with the file's [ignoreCert] *)
Definition ignoreCert : bool := false.

Definition VerifyCertCallback {lib : OpenSSL} {V : X509Verify lib} (ctx : X509_STORE_CTX) (host : bytes) : outcome Z :=
  if ignoreCert then Ret 1 else
  let ok_so_far := X509_verify_cert ctx in
  let server_cert := X509_STORE_CTX_get_current_cert ctx in
  let? res := (if negb (ok_so_far =? 0) then ValidateHostname (Some host) server_cert else Ret Error) in
  match server_cert with
  | None => Undef "X509_get_subject_name(NULL)"
  | Some _ => if bool_decide (res = MatchFound) then Ret 1 else Ret 0
  end.

(** ** Which servers are accepted *)

(** C30: with a current certificate, the callback accepts exactly when the
    certificate names the host and [X509_verify_cert] answers 1, the chain being
    valid, or a negative number, an error of the verification itself, which the
    test for a result other than 0 takes for success.  It answers 0 or 1 when the
    names it looks at have a NUL in memory, and whenever the answer is 0. *)
Theorem VerifyCertCallback_accepts_iff {lib : OpenSSL} {laws : OpenSSLLaws lib} {V : X509Verify lib}
  {VL : X509VerifyLaws V} (ctx : X509_STORE_CTX) (host : bytes) (cert : X509) :
  c_string host -> X509_STORE_CTX_get_current_cert ctx = Some cert ->
  (VerifyCertCallback ctx host = Ret 1 <->
     found host cert /\ (X509_verify_cert ctx = 1 \/ X509_verify_cert ctx < 0)) /\
  (names_terminated cert \/ X509_verify_cert ctx = 0 ->
     VerifyCertCallback ctx host = Ret 0 \/ VerifyCertCallback ctx host = Ret 1).
Proof.
  intros Hh Hc. pose proof (verify_cert_results ctx) as Hv. unfold VerifyCertCallback, ignoreCert. rewrite Hc.
  destruct (Z.eqb_spec (X509_verify_cert ctx) 0) as [Hz|Hz]; cbn [negb obind].
  - split; [|by left]. split; [done|]. intros [_ ?]. lia.
  - destruct (ValidateHostname_spec host cert Hh) as (Hf & _ & Hr).
    assert (X509_verify_cert ctx = 1 \/ X509_verify_cert ctx < 0) as Hv' by lia. clear Hv.
    assert (forall r, (if bool_decide (r = MatchFound) then Ret 1 else Ret 0 : outcome Z) = Ret 1 <-> r = MatchFound)
      as Hm by (intros r; case_bool_decide; naive_solver).
    destruct (ValidateHostname (Some host) (Some cert)) as [r|w|w]; cbn [obind].
    + split; [rewrite Hm; naive_solver|]. intros _. case_bool_decide; [by right|by left].
    + split; [naive_solver|]. intros [Ht|?]; [|done]. by destruct (Hr Ht).
    + split; [naive_solver|]. intros [Ht|?]; [|done]. by destruct (Hr Ht).
Qed.

(** ** Concrete cases *)

(** A context whose verification answers 1, 0 or -1. *)
Definition answer_of (x : comparison) : Z := match x with Eq => 1 | Gt => 0 | Lt => -1 end.
Definition sample_verify : X509Verify sample_ssl := {|
  X509_STORE_CTX := comparison * @X509 sample_ssl;
  X509_verify_cert c := answer_of c.1;
  X509_STORE_CTX_get_current_cert c := Some c.2
|}.

#[export] Instance sample_verify_laws : X509VerifyLaws sample_verify.
Proof. constructor. intros [[] ?]; simpl; lia. Qed.

Lemma VerifyCertCallback_accepts_iff_witness :
  (@VerifyCertCallback sample_ssl sample_verify (Lt, sample_cert) (str "www.example.com") = Ret 1 <->
     @found sample_ssl (str "www.example.com") sample_cert /\ (-1 = 1 \/ -1 < 0)) /\
  (@names_terminated sample_ssl sample_cert \/ -1 = 0 ->
     @VerifyCertCallback sample_ssl sample_verify (Lt, sample_cert) (str "www.example.com") = Ret 0 \/
     @VerifyCertCallback sample_ssl sample_verify (Lt, sample_cert) (str "www.example.com") = Ret 1).
Proof.
  apply (@VerifyCertCallback_accepts_iff sample_ssl sample_laws sample_verify sample_verify_laws (Lt, sample_cert)
           (str "www.example.com") sample_cert); [vm_compute; repeat constructor; discriminate|done].
Defined.

Example VerifyCertCallback_bad_chain :
  @VerifyCertCallback sample_ssl sample_verify (Gt, sample_cert) (str "www.example.com") = Ret 0.
Proof. reflexivity. Qed.

(** An error of the verification is taken for success. *)
Lemma VerifyCertCallback_error_accepted :
  @X509_verify_cert sample_ssl sample_verify (Lt, sample_cert) = -1 /\
  @VerifyCertCallback sample_ssl sample_verify (Lt, sample_cert) (str "www.example.com") = Ret 1.
Proof. split; reflexivity. Qed.

Definition sample_lib : EvLib := mkEvLib true (fun _ => Some [true; true]) true true true 0 true true.

Definition sample_http_ev : @HttpEvSession :=
  mkHttpEv 3 (mkHandler true) true true None None
    (mkUrl (str "https://h/p") (str "https") (str "h") 443 (str "/p") [] []) (TimeDelta.mk 5000000000) false None
    false O None None [] [] [].

Lemma HandleResponse_returns_iff_witness :
  (exists s', @HandleResponse ListEvBuffer (Some (200, str "hi")) sample_http_ev = Ret (tt, s')) <-> str "hi" = [].
Proof.
  apply (@HandleResponse_returns_iff ListEvBuffer ListEvBufferLaws 200 (str "hi") sample_http_ev); [done|].
  simpl. vm_compute. intros H. repeat (apply elem_of_cons in H as [H|H]; [discriminate H|]). by apply elem_of_nil in H.
Defined.

Lemma DoRequest_verifies_witness :
  (forall s', @ev_DoRequest ListEvBuffer sample_lib [] sample_http_ev = Ret (tt, s') ->
     url (url_ sample_http_ev) <> [] /\ set_up sample_lib sample_http_ev s') /\
  (lib_ok sample_lib -> url (url_ sample_http_ev) <> [] -> evReq_ sample_http_ev = true ->
   exists s', @ev_DoRequest ListEvBuffer sample_lib [] sample_http_ev = Ret (tt, s')).
Proof. exact (@DoRequest_verifies ListEvBuffer sample_lib [] sample_http_ev). Defined.
