(* ===== verification/TypeDescriptor.v ===== *)
(** * Type, method and field descriptors: reflect/TypeDescriptor.h,
    MethodDescriptor.{h,cpp}, FieldDescriptor.{h,cpp}

    [CType] are the C++ types the templates are instantiated with, and
    [descriptor] is the specialisation of [TypeDescriptor] the compiler picks: the
    macros make one for each of the plain types, for each class that is described,
    and for their pointers and references.  The registry of classes keys its data
    by these strings, so what matters is that they tell types apart:
    [descriptor_decodes] gives a parser that reads the type back from its
    descriptor, and [methodDescriptor_injective] shows that overloads have
    different keys.  Types without a descriptor all get the same string. *)

From stdpp Require Import base list numbers strings.
From Stdlib Require Import ZArith Lia.
From S2P Require Import Prelude.

(** ** TypeDescriptor.h *)

(** The types of the [TYPE_DESCRIPTOR(.., is_plain)] lines. *)
Inductive Plain := PInt | PInt64 | PChar | PInt8 | PShort | PFloat | PDouble | PBool | PString.

#[export] Instance Plain_eq_dec : EqDecision Plain.
Proof. solve_decision. Defined.

Definition plain_name (p : Plain) : bytes :=
  match p with
  | PInt => str "int" | PInt64 => str "int64_t" | PChar => str "char" | PInt8 => str "int8_t"
  | PShort => str "short" | PFloat => str "float" | PDouble => str "double" | PBool => str "bool"
  | PString => str "std::string"
  end.

(** [TClass name] is a class with [TYPE_DESCRIPTOR(name)]; [TOther] a type with no
    descriptor of its own. *)
Inductive CType :=
| TVoid
| TPlain (p : Plain)
| TClass (name : bytes)
| TPtr (t : CType)
| TConst (t : CType)
| TRef (t : CType)
| TRRef (t : CType)
| TPair (t u : CType)
| TVector (t : CType)
| TUniquePtr (t : CType)
| TSharedPtr (t : CType)
| TFunction (t : CType)
| TOther (n : nat).

#[export] Instance CType_eq_dec : EqDecision CType.
Proof. solve_decision. Defined.

(** [concat]: the result is not closed. *)
Definition concat_ (strings : list bytes) : bytes :=
  foldl (fun result s => result ++ (s ++ str " ")) (str "<") strings.

(** [VariadicTypeDescriptor] over the descriptors of its arguments. *)
Definition template_descriptor (name : bytes) (args : list bytes) : bytes := name ++ concat_ args.

(** The name of a type given to the macro [TYPE_DESCRIPTOR]. *)
Definition base_name (t : CType) : option bytes :=
  match t with
  | TPlain p => Some (plain_name p)
  | TClass n => Some n
  | _ => None
  end.

Definition unknown : bytes := str "<unknown>".

Definition decorated (pre : bytes) (t : CType) (suf : bytes) : bytes :=
  match base_name t with Some n => pre ++ n ++ suf | None => unknown end.

Fixpoint descriptor (t : CType) : bytes :=
  match t with
  | TVoid => str "void"
  | TPtr TVoid => str "void*"
  | TPtr (TConst TVoid) => str "const void*"
  | TPlain p => plain_name p
  | TClass n => n
  | TPtr (TConst u) => decorated (str "const ") u (str "*")
  | TPtr u => decorated [] u (str "*")
  | TRef (TConst u) => decorated (str "const ") u (str "&")
  | TRef u => decorated [] u (str "&")
  | TPair u v => template_descriptor (str "std::pair") [descriptor u; descriptor v]
  | TVector u => template_descriptor (str "std::vector") [descriptor u]
  | TUniquePtr u => template_descriptor (str "std::unique_ptr") [descriptor u]
  | TSharedPtr u => template_descriptor (str "std::shared_ptr") [descriptor u]
  | TFunction u => template_descriptor (str "std::function") [descriptor u]
  | _ => unknown
  end.

(** ** MethodDescriptor.cpp, FieldDescriptor.cpp *)

Definition class_prefix (classDescriptor : bytes) : bytes :=
  if bool_decide (classDescriptor = []) then [] else classDescriptor ++ str "::".

(** The loop over the parameters, with the ones that are left. *)
Fixpoint print_params (ps : list bytes) : bytes :=
  match ps with
  | [] => []
  | [p] => p ++ str ")"
  | p :: ps' => p ++ str "," ++ print_params ps'
  end.

Definition methodDescriptor (classDescriptor name : bytes) (parameterTypeDescriptors : list bytes) : bytes :=
  class_prefix classDescriptor ++ name ++ str "(" ++ print_params parameterTypeDescriptors.

Definition fieldDescriptor (classDescriptor name : bytes) : bytes := class_prefix classDescriptor ++ name.

(** The descriptor of a method of a class with the parameter types [P]; that of a
    static method is the same. *)
Definition MethodDescriptor (className methodName : bytes) (P : list CType) : bytes :=
  methodDescriptor className methodName (descriptor <$> P).

Definition FieldDescriptor (className fieldName : bytes) : bytes := fieldDescriptor className fieldName.

(** ** Reading a descriptor back *)

(** The characters of a qualified name. *)
Definition is_ident (c : Z) : bool :=
  ((97 <=? c) && (c <=? 122)) || ((65 <=? c) && (c <=? 90)) || ((48 <=? c) && (c <=? 58)) || (c =? 95).

Fixpoint span_ident (l : bytes) : bytes * bytes :=
  match l with
  | c :: l' => if is_ident c then let '(w, r) := span_ident l' in (c :: w, r) else ([], l)
  | [] => ([], [])
  end.

(** Names that are not those of classes. *)
Definition plains : list Plain := [PInt; PInt64; PChar; PInt8; PShort; PFloat; PDouble; PBool; PString].
Definition reserved : list bytes := str "void" :: str "const" :: (plain_name <$> plains).

Definition named (w : bytes) : CType :=
  if decide (w = str "void") then TVoid else
  match list_find (fun p => plain_name p = w) plains with
  | Some (_, p) => TPlain p
  | None => TClass w
  end.

Definition expect (c : Z) (l : bytes) : option bytes :=
  match l with c' :: l' => if c' =? c then Some l' else None | [] => None end.

(** One template argument and the space after it. *)
Definition argument (parse : bytes -> option (CType * bytes)) (l : bytes) : option (CType * bytes) :=
  match parse l with
  | Some (t, l') => match expect 32 l' with Some l'' => Some (t, l'') | None => None end
  | None => None
  end.

Fixpoint parse_type (fuel : nat) (l : bytes) : option (CType * bytes) :=
  match fuel with
  | O => None
  | S fuel' =>
      let '(w, r) := span_ident l in
      if decide (w = str "const") then
        match expect 32 r with
        | Some r1 =>
            let '(w, r2) := span_ident r1 in
            match r2 with
            | 42 :: r3 => Some (TPtr (TConst (named w)), r3)
            | 38 :: r3 => Some (TRef (TConst (named w)), r3)
            | _ => None
            end
        | None => None
        end
      else
        match r with
        | 42 :: r1 => Some (TPtr (named w), r1)
        | 38 :: r1 => Some (TRef (named w), r1)
        | 60 :: r1 =>
            match argument (parse_type fuel') r1 with
            | Some (t, r2) =>
                if decide (w = str "std::vector") then Some (TVector t, r2) else
                if decide (w = str "std::unique_ptr") then Some (TUniquePtr t, r2) else
                if decide (w = str "std::shared_ptr") then Some (TSharedPtr t, r2) else
                if decide (w = str "std::function") then Some (TFunction t, r2) else
                if decide (w = str "std::pair") then
                  match argument (parse_type fuel') r2 with
                  | Some (u, r3) => Some (TPair t u, r3)
                  | None => None
                  end
                else None
            | None => None
            end
        | _ => Some (named w, r)
        end
  end.

(** The types that have a descriptor of their own. *)
Definition class_name (n : bytes) : Prop := n <> [] /\ Forall (fun c => is_ident c = true) n /\ n ∉ reserved.

Definition base_type (t : CType) : Prop :=
  match t with TPlain _ => True | TClass n => class_name n | _ => False end.

Fixpoint described (t : CType) : Prop :=
  match t with
  | TVoid => True
  | TPtr TVoid | TPtr (TConst TVoid) => True
  | TPlain _ => True
  | TClass n => class_name n
  | TPtr (TConst u) | TRef (TConst u) => base_type u
  | TPtr u | TRef u => base_type u
  | TPair u v => described u /\ described v
  | TVector u | TUniquePtr u | TSharedPtr u | TFunction u => described u
  | _ => False
  end.

(** What may come after a descriptor. *)
Definition stops (l : bytes) : Prop := match l with [] => True | c :: _ => c = 32 \/ c = 44 \/ c = 41 end.

(** ** Lemmas *)

Lemma span_ident_app w r :
  Forall (fun c => is_ident c = true) w -> match r with [] => True | c :: _ => is_ident c = false end ->
  span_ident (w ++ r) = (w, r).
Proof.
  intros Hw Hr. induction Hw as [|c w Hc _ IH]; cbn [app span_ident].
  - destruct r as [|c r]; [done|]. cbn [span_ident]. by rewrite Hr.
  - by rewrite Hc, IH.
Qed.

Lemma plain_name_ident p : Forall (fun c => is_ident c = true) (plain_name p).
Proof. destruct p; repeat constructor. Qed.

Lemma named_plain p : named (plain_name p) = TPlain p.
Proof. destruct p; vm_compute; reflexivity. Qed.

Lemma named_class n : class_name n -> named n = TClass n.
Proof.
  intros (_ & _ & Hn). unfold named. rewrite decide_False.
  2: { intros ->. apply Hn. left. }
  destruct (list_find _ plains) as [[i p]|] eqn:Hf; [|done].
  apply list_find_Some in Hf as (Hi & Hp & _). exfalso. apply Hn. unfold reserved.
  right. right. apply list_elem_of_fmap. exists p. split; [done|]. by eapply list_elem_of_lookup_2.
Qed.

(** The word of a base type, as the parser sees it. *)
Lemma base_word t :
  base_type t -> exists w, base_name t = Some w /\ Forall (fun c => is_ident c = true) w /\
    w <> str "const" /\ named w = t.
Proof.
  destruct t as [|p|n| | | | | | | | | |]; try done.
  - intros _. exists (plain_name p). split_and!; [done|apply plain_name_ident|by destruct p|apply named_plain].
  - intros Hn. exists n. split_and!; [done|apply Hn| |by apply named_class]. intros ->.
    destruct Hn as (_ & _ & Hn). apply Hn. right. left.
Qed.

Lemma stops_ident r : stops r -> match r with [] => True | c :: _ => is_ident c = false end.
Proof. destruct r as [|c r]; [done|]. by intros [->|[->| ->]]. Qed.

Lemma parse_word fuel w r :
  Forall (fun c => is_ident c = true) w -> w <> str "const" -> stops r ->
  parse_type (S fuel) (w ++ r) = Some (named w, r).
Proof.
  intros Hw Hc Hr. cbn [parse_type]. rewrite span_ident_app by (done || by apply stops_ident).
  rewrite decide_False by done. destruct r as [|c r]; [done|]. by destruct Hr as [->|[->| ->]].
Qed.

(** A pointer or a reference. *)
Lemma parse_suffixed fuel w c r (K : CType -> CType) :
  Forall (fun c => is_ident c = true) w -> w <> str "const" ->
  (c = 42 /\ K = TPtr) \/ (c = 38 /\ K = TRef) ->
  parse_type (S fuel) (w ++ c :: r) = Some (K (named w), r).
Proof.
  intros Hw Hc HK. cbn [parse_type]. rewrite span_ident_app; [|done|by destruct HK as [[-> _]|[-> _]]].
  rewrite decide_False by done. by destruct HK as [[-> ->]|[-> ->]].
Qed.

Lemma parse_const fuel w c r (K : CType -> CType) :
  Forall (fun c => is_ident c = true) w -> (c = 42 /\ K = TPtr) \/ (c = 38 /\ K = TRef) ->
  parse_type (S fuel) (str "const " ++ w ++ c :: r) = Some (K (TConst (named w)), r).
Proof.
  intros Hw HK. change (str "const " ++ w ++ c :: r) with (str "const" ++ 32 :: w ++ c :: r). cbn [parse_type].
  rewrite span_ident_app; [|repeat constructor|done]. rewrite decide_True by done. cbn [expect Z.eqb Pos.eqb].
  rewrite span_ident_app; [|done|by destruct HK as [[-> _]|[-> _]]]. by destruct HK as [[-> ->]|[-> ->]].
Qed.

(** The head of a template. *)
Lemma parse_head fuel w r :
  Forall (fun c => is_ident c = true) w -> w <> str "const" ->
  parse_type (S fuel) (w ++ 60 :: r) =
    match argument (parse_type fuel) r with
    | Some (t, r2) =>
        if decide (w = str "std::vector") then Some (TVector t, r2) else
        if decide (w = str "std::unique_ptr") then Some (TUniquePtr t, r2) else
        if decide (w = str "std::shared_ptr") then Some (TSharedPtr t, r2) else
        if decide (w = str "std::function") then Some (TFunction t, r2) else
        if decide (w = str "std::pair") then
          match argument (parse_type fuel) r2 with Some (u, r3) => Some (TPair t u, r3) | None => None end
        else None
    | None => None
    end.
Proof.
  intros Hw Hc. cbn [parse_type]. rewrite span_ident_app; [|done|done]. by rewrite decide_False by done.
Qed.

Fixpoint depth (t : CType) : nat :=
  match t with
  | TPair u v => S (Nat.max (depth u) (depth v))
  | TVector u | TUniquePtr u | TSharedPtr u | TFunction u => S (depth u)
  | _ => 1%nat
  end.

Lemma parse_argument fuel t r :
  (forall r', stops r' -> parse_type fuel (descriptor t ++ r') = Some (t, r')) ->
  argument (parse_type fuel) (descriptor t ++ 32 :: r) = Some (t, r).
Proof. intros H. unfold argument. rewrite H by by left. done. Qed.

(** A pointer or reference to a base type, [const] or not. *)
Lemma parse_decorated fuel t r (K : CType -> CType) c :
  base_type t -> (c = 42 /\ K = TPtr) \/ (c = 38 /\ K = TRef) ->
  parse_type (S fuel) (decorated [] t [c] ++ r) = Some (K t, r) /\
  parse_type (S fuel) (decorated (str "const ") t [c] ++ r) = Some (K (TConst t), r).
Proof.
  intros Ht HK. destruct (base_word t Ht) as (w & Hb & Hw & Hc & Hn). unfold decorated. rewrite Hb.
  cbn [app]. rewrite <- !app_assoc. cbn [app]. split.
  - by rewrite (parse_suffixed fuel w c r K), Hn.
  - by rewrite (parse_const fuel w c r K), Hn.
Qed.

Lemma template_one w d r : template_descriptor w [d] ++ r = w ++ 60 :: d ++ 32 :: r.
Proof. unfold template_descriptor, concat_. cbn [foldl]. by rewrite <- !app_assoc. Qed.

Lemma template_two w d e r : template_descriptor w [d; e] ++ r = w ++ 60 :: d ++ 32 :: e ++ 32 :: r.
Proof. unfold template_descriptor, concat_. cbn [foldl]. by rewrite <- !app_assoc. Qed.

Lemma parse_descriptor t : forall fuel r,
  described t -> stops r -> (depth t <= fuel)%nat -> parse_type fuel (descriptor t ++ r) = Some (t, r).
Proof.
  induction t as [|p|n|t IH|t IH|t IH|t IH|t IHt u IHu|t IH|t IH|t IH|t IH|n]; intros [|fuel] r Hd Hr Hf;
    try (cbn [depth] in Hf; lia); try done; cbn [depth] in Hf;
    try (cbn [descriptor]; rewrite template_one, parse_head by (repeat constructor || done);
         rewrite parse_argument by (intros; apply IH; [done|done|lia]); done).
  - by apply (parse_word fuel (str "void")); [repeat constructor|..].
  - rewrite <- (named_plain p) at 2. apply parse_word; [apply plain_name_ident|by destruct p|done].
  - destruct (base_word (TClass n) Hd) as (w & [= <-] & Hw & Hc & Hn). rewrite <- Hn at 2. by apply parse_word.
  - destruct t as [|p|n|t|t|t|t|t u|t|t|t|t|n]; try done;
      try (by apply (parse_decorated fuel _ r TPtr 42); [|left]); try (by apply (parse_suffixed fuel (str "void") 42 r TPtr);
        [repeat constructor| |left]).
    destruct t as [|p|n|t|t|t|t|t u|t|t|t|t|n]; try done;
      try (by apply (parse_decorated fuel _ r TPtr 42); [|left]).
  - destruct t as [|p|n|t|t|t|t|t u|t|t|t|t|n]; try done; try (by apply (parse_decorated fuel _ r TRef 38); [|right]).
  - destruct Hd as [Ht Hu]. cbn [descriptor]. rewrite template_two, parse_head by (repeat constructor || done).
    rewrite parse_argument by (intros; apply IHt; [done|done|lia]). repeat (rewrite decide_False by done).
    rewrite decide_True by done. by rewrite parse_argument by (intros; apply IHu; [done|done|lia]).
Qed.

(** ** Method descriptors *)

Definition no_sep (l : bytes) : Prop := Forall (fun c => c <> 44 /\ c <> 41) l.

Lemma sep_split w1 w2 c1 c2 r1 r2 :
  no_sep w1 -> no_sep w2 -> (c1 = 44 \/ c1 = 41) -> (c2 = 44 \/ c2 = 41) ->
  w1 ++ c1 :: r1 = w2 ++ c2 :: r2 -> w1 = w2 /\ c1 = c2 /\ r1 = r2.
Proof.
  intros H1. revert w2. induction H1 as [|a w1 Ha _ IH]; intros [|b w2] H2 Hc1 Hc2; cbn [app]; intros [= -> Heq]; try done.
  - apply Forall_cons in H2 as [Hb _]. lia.
  - lia.
  - apply Forall_cons in H2 as [_ H2]. destruct (IH w2 H2 Hc1 Hc2 Heq) as (-> & -> & ->). done.
Qed.

Lemma print_params_inj ps qs :
  Forall no_sep ps -> Forall no_sep qs -> print_params ps = print_params qs -> ps = qs.
Proof.
  intros Hp. revert qs. induction Hp as [|p ps Hp0 Hps IH]; intros qs Hq.
  - destruct qs as [|q [|q' qs]]; [done|..]; cbn [print_params]; by destruct q.
  - destruct qs as [|q qs]. { destruct ps; cbn [print_params]; by destruct p. }
    apply Forall_cons in Hq as [Hq0 Hqs]. intros Heq.
    assert (p = q /\ print_params ps = print_params qs) as [-> Hrest]; [|by f_equal; apply IH].
    destruct ps as [|p' ps], qs as [|q' qs]; cbn [print_params] in Heq;
      apply sep_split in Heq as (-> & Hc & Hr); auto; try discriminate Hc.
Qed.

(** C34: a descriptor tells its type, for the types that have one of their own
    ([described]: no part of them is printed as [<unknown>], and the names of classes
    are identifiers other than the reserved words): reading back the
    descriptor of such a type, at any depth of templates, gives the type and the text
    that follows it, where that is nothing or starts with a space, a comma or a
    closing parenthesis ([stops]), as in the descriptors of methods.  Followed by other
    text a descriptor may read as another type. *)
Theorem descriptor_decodes (t : CType) (r : bytes) :
  described t -> stops r -> parse_type (depth t) (descriptor t ++ r) = Some (t, r).
Proof. intros Ht Hr. by apply parse_descriptor. Qed.

Lemma descriptor_injective t u : described t -> described u -> descriptor t = descriptor u -> t = u.
Proof.
  intros Ht Hu He. set (f := Nat.max (depth t) (depth u)).
  pose proof (parse_descriptor t f [] Ht I ltac:(lia)) as H1.
  pose proof (parse_descriptor u f [] Hu I ltac:(lia)) as H2. rewrite He, H2 in H1. by injection H1.
Qed.

(** The characters of a descriptor. *)
Lemma described_no_sep t : described t -> no_sep (descriptor t).
Proof.
  assert (forall w, Forall (fun c => is_ident c = true) w -> no_sep w) as Hid.
  { intros w Hw. eapply Forall_impl; [exact Hw|]. intros c Hc. cbv beta in Hc. split; intros ->; done. }
  assert (forall pre u suf, no_sep pre -> no_sep suf -> base_type u -> no_sep (decorated pre u suf)) as Hdec.
  { intros pre u suf Hp Hs Hu. destruct (base_word u Hu) as (w & Hb & Hw & _). unfold decorated. rewrite Hb.
    apply Forall_app_2; [done|]. apply Forall_app_2; [by apply Hid|done]. }
  assert (forall s : list Z, forallb (fun c => negb (c =? 44) && negb (c =? 41)) s = true -> no_sep s) as Hlit.
  { intros s Hs. induction s as [|c s IH]; constructor; cbn [forallb] in Hs; apply andb_prop in Hs as [Hc Hs]; [lia|by apply IH]. }
  assert (forall w args, no_sep w -> Forall no_sep args -> no_sep (template_descriptor w args)) as Htpl.
  { intros w args Hw Ha. unfold template_descriptor, concat_. apply Forall_app_2; [done|].
    assert (no_sep (str "<")) as Hacc by by apply Hlit. revert Hacc. generalize (str "<") as acc.
    induction Ha as [|d args Hd _ IH]; intros acc Hacc; cbn [foldl]; [done|]. apply IH.
    apply Forall_app_2; [done|]. apply Forall_app_2; [done|]. by apply Hlit. }
  induction t as [|p|n|t IH|t IH|t IH|t IH|t IHt u IHu|t IH|t IH|t IH|t IH|n]; intros Ht; try done;
    try (apply Htpl; [by apply Hlit|repeat constructor; by apply IH]).
  - by apply Hlit.
  - apply Hid, plain_name_ident.
  - by apply Hid, Ht.
  - destruct t as [|p|n|t|t|t|t|t u|t|t|t|t|n]; try done; try (by apply Hlit); try (by apply Hdec; [constructor|apply Hlit|]).
    destruct t as [|p|n|t|t|t|t|t u|t|t|t|t|n]; try done; try (by apply Hlit); by apply Hdec; [apply Hlit|apply Hlit|].
  - destruct t as [|p|n|t|t|t|t|t u|t|t|t|t|n]; try done; try (by apply Hdec; [constructor|apply Hlit|]).
    by apply Hdec; [apply Hlit|apply Hlit|].
  - destruct Ht as [Ht Hu]. apply Htpl; [by apply Hlit|]. repeat constructor; [by apply IHt|by apply IHu].
Qed.

Lemma MethodDescriptor_inj (className n1 n2 : bytes) (P1 P2 : list CType) :
  40 ∉ n1 -> 40 ∉ n2 -> Forall described P1 -> Forall described P2 ->
  MethodDescriptor className n1 P1 = MethodDescriptor className n2 P2 -> n1 = n2 /\ P1 = P2.
Proof.
  intros H1 H2 HP1 HP2. unfold MethodDescriptor, methodDescriptor. intros He%app_inv_head.
  assert (n1 = n2 /\ print_params (descriptor <$> P1) = print_params (descriptor <$> P2)) as [-> Hp].
  { revert n2 H2 He. induction n1 as [|c n1 IH]; intros [|c2 n2] H2 He; cbn [app] in He.
    - by injection He.
    - injection He as <- _. by destruct H2; left.
    - injection He as -> _. by destruct H1; left.
    - injection He as -> He. apply not_elem_of_cons in H1 as [_ H1]. apply not_elem_of_cons in H2 as [_ H2].
      destruct (IH H1 n2 H2 He) as [-> ?]. done. }
  split; [done|]. clear He H1 H2. apply print_params_inj in Hp.
  - revert P2 HP2 Hp. induction HP1 as [|t P1 Ht _ IH]; intros [|u P2] HP2 Hp; try done.
    apply Forall_cons in HP2 as [Hu HP2]. injection Hp as Hd Hp. f_equal; [by apply descriptor_injective|by apply IH].
  - apply Forall_fmap. eapply Forall_impl; [exact HP1|]. intros t. apply described_no_sep.
  - apply Forall_fmap. eapply Forall_impl; [exact HP2|]. intros t. apply described_no_sep.
Qed.

(** overloads have different keys.  Two methods of a class with the same
    descriptor have the same name and the same parameter types, when the names
    have no parenthesis and the types have descriptors of their own. *)
Theorem MethodDescriptor_injective (className n1 n2 : bytes) (P1 P2 : list CType) :
  40 ∉ n1 -> 40 ∉ n2 -> Forall described P1 -> Forall described P2 ->
  MethodDescriptor className n1 P1 = MethodDescriptor className n2 P2 -> n1 = n2 /\ P1 = P2.
Proof. apply MethodDescriptor_inj. Qed.

(** ** Examples *)

Definition sample_type : CType := TPair (TVector (TRef (TConst (TClass (str "ns::Point"))))) (TPtr (TPlain PInt)).

Lemma sample_class_name : class_name (str "ns::Point").
Proof.
  split; [done|]. split; [repeat constructor|]. refine (bool_decide_unpack _ _). vm_compute. exact I.
Qed.

Lemma sample_described : described sample_type.
Proof. split; [exact sample_class_name|done]. Qed.

Lemma descriptor_decodes_witness :
  parse_type 3 (str "std::pair<std::vector<const ns::Point&  int* ,") = Some (sample_type, str ",").
Proof. exact (descriptor_decodes sample_type (str ",") sample_described (or_intror (or_introl eq_refl))). Defined.

Lemma MethodDescriptor_injective_witness :
  str "C::f(int,bool)" = MethodDescriptor (str "C") (str "f") [TPlain PInt; TPlain PBool] ->
  str "f" = str "f" /\ [TPlain PInt; TPlain PBool] = [TPlain PInt; TPlain PBool].
Proof.
  intros H. apply (MethodDescriptor_injective (str "C") (str "f") (str "f") [TPlain PInt; TPlain PBool] [TPlain PInt; TPlain PBool]).
  - refine (bool_decide_unpack _ _). vm_compute. exact I.
  - refine (bool_decide_unpack _ _). vm_compute. exact I.
  - repeat constructor.
  - repeat constructor.
  - exact H.
Defined.

(** Types without a descriptor of their own cannot be told apart. *)
Lemma unknown_types_collide :
  descriptor (TOther 0) = descriptor (TOther 1) /\
  descriptor (TPtr (TPtr (TPlain PInt))) = descriptor (TRef (TVector (TPlain PBool))).
Proof. done. Qed.

(** The parenthesis of a method without parameters is not closed. *)
Lemma no_parameters_unclosed : MethodDescriptor (str "C") (str "f") [] = str "C::f(".
Proof. done. Qed.
