(* ===== verification/Reflect.v ===== *)
(** * The registry of classes: reflect/Class.{h,cpp}, with the methods and fields
    of Method.h and Field.h as they are declared and looked up

    [Registry] holds the statics of the library: the counter of type ids, the data
    shared by all classes with the same base type, keyed by its descriptor, the
    classes that were made, the objects made by [newInstance] with the class that
    made them, and the heap: the objects that [new] has made and [delete] has not
    deleted.  [describe] is what the user's [describeClass] declares for a
    type.  An object is its address.

    [getClass] runs the constructor of the class while its own static pointer is
    still null; the constructor calls [getClass] again and drops the reference it
    gets, so nothing is modelled of it.  The maps of the source are ordered by
    their keys; the order of [getDeclaredMethods] is not part of the model. *)

From stdpp Require Import base list numbers strings gmap.
From Stdlib Require Import ZArith Lia.
From S2P Require Import Prelude TypeDescriptor.

(** ** Types *)

Definition remove_cv (t : CType) : CType := match t with TConst u => u | _ => t end.
Definition remove_reference (t : CType) : CType := match t with TRef u | TRRef u => u | _ => t end.

(** [TypeValueTraits<T>::basetype] *)
Definition basetype (t : CType) : CType := remove_cv (remove_reference t).

(** [remove_const_if]: a const pointer is a pointer too and keeps its const. *)
Definition remove_const_if (t : CType) : CType :=
  match t with TPtr _ | TConst (TPtr _) | TRef _ | TRRef _ => t | _ => remove_cv t end.

(** [Class<T>::getName] *)
Definition getName (t : CType) : bytes := descriptor (remove_const_if t).

(** ** What is declared *)

Record Method := mkMethod { method_name : bytes; method_static : bool; method_params : list CType }.
Record Field := mkField { field_name : bytes; field_type : CType }.

Inductive Declaration := DeclareMethod (m : Method) | DeclareField (f : Field).

(** A null pointer is [None]. *)
Record ClassSharedData := mkShared {
  m_typeid : Z;
  m_methods : gmap bytes (option Method);
  m_fields : gmap bytes (option Field);
  m_instances : gset Z
}.

Record Registry := mkRegistry {
  nextTypeid : Z;
  shared : gmap bytes ClassSharedData;
  initialized : list CType;
  instances : gmap Z CType;
  heap : gset Z
}.

Definition new_registry : Registry := mkRegistry 1 ∅ [] ∅ ∅.

Definition with_shared (m : gmap bytes ClassSharedData) (r : Registry) : Registry :=
  mkRegistry (nextTypeid r) m (initialized r) (instances r) (heap r).

Section reflect.
Context (describe : CType -> list Declaration).

Abbreviation RM := (M Registry).

(** ** Class.cpp *)

(** [ClassSharedData::ClassSharedData] *)
Definition new_shared : RM ClassSharedData :=
  let! id := getS nextTypeid in
  do! updS (fun r => mkRegistry (id + 1) (shared r) (initialized r) (instances r) (heap r)) in
  retS (mkShared id ∅ ∅ ∅).

Definition classSharedData (key : bytes) : RM ClassSharedData :=
  let! m := getS shared in
  match m !! key with
  | Some d => retS d
  | None =>
      let! d := new_shared in
      do! updS (fun r => with_shared (<[key := d]> (shared r)) r) in
      retS d
  end.

(** ** Class.h *)

(** [m_sharedData] of a class: null before a class with this base type was made.
    The operations below are those of a class object, so it was. *)
Definition sharedData (t : CType) : RM ClassSharedData :=
  let! m := getS shared in
  match m !! descriptor (basetype t) with
  | Some d => retS d
  | None => undefS "m_sharedData is null"
  end.

Definition upd_shared (t : CType) (f : ClassSharedData -> ClassSharedData) : RM unit :=
  let! d := sharedData t in
  updS (fun r => with_shared (<[descriptor (basetype t) := f d]> (shared r)) r).

Definition setDeclaredMethod (t : CType) (m : Method) : RM unit :=
  let d := MethodDescriptor (getName t) (method_name m) (method_params m) in
  upd_shared t (fun s => mkShared (m_typeid s) (<[d := Some m]> (m_methods s)) (m_fields s) (m_instances s)).

Definition setDeclaredField (t : CType) (f : Field) : RM unit :=
  let d := FieldDescriptor (getName t) (field_name f) in
  upd_shared t (fun s => mkShared (m_typeid s) (m_methods s) (<[d := Some f]> (m_fields s)) (m_instances s)).

Definition declare (t : CType) (d : Declaration) : RM unit :=
  match d with
  | DeclareMethod m => setDeclaredMethod t m
  | DeclareField f => setDeclaredField t f
  end.

(** [Reflect::getClass<T>()] *)
Definition getClass (t : CType) : RM unit :=
  let! done := getS initialized in
  if bool_decide (t ∈ done) then retS tt else
  do! updS (fun r => mkRegistry (nextTypeid r) (shared r) (t :: initialized r) (instances r) (heap r)) in
  let! _ := classSharedData (descriptor (basetype t)) in
  iterS (declare t) (describe t).

Definition getTypeid (t : CType) : RM Z := let! d := sharedData t in retS (m_typeid d).

Definition isAssignableFrom (t other : CType) : RM bool :=
  let! a := getTypeid t in
  let! b := getTypeid other in
  retS (a =? b).

(** [m_methods[descriptor]] of a map makes a null entry when there is none. *)
Definition getDeclaredMethodFromDescription (t : CType) (descr : bytes) : RM (option Method) :=
  let! s := sharedData t in
  match m_methods s !! descr with
  | Some m => retS m
  | None =>
      do! upd_shared t (fun s => mkShared (m_typeid s) (<[descr := None]> (m_methods s)) (m_fields s) (m_instances s)) in
      retS None
  end.

Definition getDeclaredFieldFromDescription (t : CType) (descr : bytes) : RM (option Field) :=
  let! s := sharedData t in
  match m_fields s !! descr with
  | Some f => retS f
  | None =>
      do! upd_shared t (fun s => mkShared (m_typeid s) (m_methods s) (<[descr := None]> (m_fields s)) (m_instances s)) in
      retS None
  end.

(** With the classes of the parameters. *)
Definition getDeclaredMethod (t : CType) (methodName : bytes) (parameterTypes : list CType) : RM (option Method) :=
  getDeclaredMethodFromDescription t (methodDescriptor (getName t) methodName (getName <$> parameterTypes)).

Definition getDeclaredField (t : CType) (fieldName : bytes) : RM (option Field) :=
  getDeclaredFieldFromDescription t (fieldDescriptor (getName t) fieldName).

Definition getDeclaredMethods (t : CType) : RM (list (option Method)) :=
  let! s := sharedData t in retS (map_to_list (m_methods s)).*2.

Definition getDeclaredFields (t : CType) : RM (list (option Field)) :=
  let! s := sharedData t in retS (map_to_list (m_fields s)).*2.

(** *** Parameters of a method *)

(** [DeducedMethod::getParameterTypes], of functions and of member functions: the
    vector is filled with copies of the first class.  The order in which the
    classes are asked for is the compiler's; here it is that of the parameters. *)
Definition getParameterTypes (m : Method) : RM (list CType) :=
  match method_params m with
  | [] => retS []
  | p :: _ =>
      do! iterS getClass (method_params m) in
      retS (replicate (length (method_params m)) p)
  end.

(** *** Instances *)

Definition trackInstance (t : CType) (instance : Z) : RM unit :=
  updS (fun r => mkRegistry (nextTypeid r) (shared r) (initialized r) (<[instance := t]> (instances r)) (heap r)).

Definition forgetInstance (instance : Z) : RM unit :=
  updS (fun r => mkRegistry (nextTypeid r) (shared r) (initialized r) (delete instance (instances r)) (heap r)).

(** [new T], which returned [instance], and [delete instance]. *)
Definition new_object (instance : Z) : RM unit :=
  updS (fun r => mkRegistry (nextTypeid r) (shared r) (initialized r) (instances r) ({[instance]} ∪ heap r)).

Definition delete_object (instance : Z) : RM unit :=
  let! h := getS heap in
  if bool_decide (instance ∈ h) then
    updS (fun r => mkRegistry (nextTypeid r) (shared r) (initialized r) (instances r) (heap r ∖ {[instance]}))
  else undefS "delete of a pointer that is not to an object".

Definition newInstance (t : CType) (instance : Z) : RM Z :=
  do! new_object instance in
  do! trackInstance t instance in
  do! upd_shared t (fun s => mkShared (m_typeid s) (m_methods s) (m_fields s) ({[instance]} ∪ m_instances s)) in
  retS instance.

Definition deleteInstance (t : CType) (instance : Z) : RM unit :=
  do! forgetInstance instance in
  do! upd_shared t (fun s => mkShared (m_typeid s) (m_methods s) (m_fields s) (m_instances s ∖ {[instance]})) in
  delete_object instance.

(** [ClassBase::isInstance], [ClassUnknown::isInstance] that it overrides, and
    [ClassUnknown::getClass] of a pointer. *)
Definition isInstance (t : CType) (ptr : Z) : RM bool :=
  let! s := sharedData t in retS (bool_decide (ptr ∈ m_instances s)).

Definition unknown_isInstance (ptr : Z) : RM bool :=
  getS (fun r => bool_decide (is_Some (instances r !! ptr))).

Definition getClass_of (instance : Z) : RM (option CType) :=
  if instance =? 0 then retS None else getS (fun r => instances r !! instance).
(** ** The states of the registry *)

Inductive reg_step : Registry -> Registry -> Prop :=
| rs_class t r r' : getClass t r = Ret (tt, r') -> reg_step r r'
| rs_method t n ps m r r' : getDeclaredMethod t n ps r = Ret (m, r') -> reg_step r r'
| rs_params m l r r' : getParameterTypes m r = Ret (l, r') -> reg_step r r'
| rs_field t n f r r' : getDeclaredField t n r = Ret (f, r') -> reg_step r r'
| rs_new t p r r' :
    (* [new] returns the address of no other object *)
    t ∈ initialized r -> p <> 0 -> p ∉ heap r -> newInstance t p r = Ret (p, r') -> reg_step r r'
| rs_delete t p r r' :
    instances r !! p = Some t -> deleteInstance t p r = Ret (tt, r') -> reg_step r r'.

Inductive reg_reach : Registry -> Prop :=
| rr_new : reg_reach new_registry
| rr_step r r' : reg_reach r -> reg_step r r' -> reg_reach r'.

Definition key (t : CType) : bytes := descriptor (basetype t).

Record reg_inv (r : Registry) : Prop := {
  ri_ids : forall k d, shared r !! k = Some d -> m_typeid d < nextTypeid r;
  ri_distinct : forall k k' d d', shared r !! k = Some d -> shared r !! k' = Some d' -> m_typeid d = m_typeid d' -> k = k';
  ri_init : forall t, t ∈ initialized r -> is_Some (shared r !! key t);
  ri_instances : forall k d p, shared r !! k = Some d ->
    p ∈ m_instances d <-> exists t, instances r !! p = Some t /\ key t = k;
  ri_tracked : forall p t, instances r !! p = Some t -> t ∈ initialized r /\ p <> 0;
  ri_heap : forall p, p ∈ heap r <-> is_Some (instances r !! p)
}.

(** Data of a class that keeps its id and its instances. *)
Definition same_class (s s' : ClassSharedData) : Prop := m_typeid s' = m_typeid s /\ m_instances s' = m_instances s.

Lemma shared_update_inv k d d' r :
  reg_inv r -> shared r !! k = Some d -> same_class d d' -> reg_inv (with_shared (<[k := d']> (shared r)) r).
Proof.
  intros [Hi Hd Hn Hp Ht Hh] Hk [Hid Hin]. split; cbn [shared nextTypeid initialized instances heap with_shared].
  - intros k1 d1 [[<- <-]|[_ H1]]%lookup_insert_Some; [rewrite Hid; by eapply Hi|by eapply Hi].
  - intros k1 k2 d1 d2 [[<- <-]|[Hne1 H1]]%lookup_insert_Some [[<- <-]|[Hne2 H2]]%lookup_insert_Some He; try done.
    + rewrite Hid in He. by eapply Hd.
    + rewrite Hid in He. by eapply Hd.
    + by eapply Hd.
  - intros t Hti. apply lookup_insert_is_Some. destruct (decide (k = key t)); [by left|right; split; [done|by apply Hn]].
  - intros k1 d1 p [[<- <-]|[_ H1]]%lookup_insert_Some; [rewrite Hin; by apply Hp|by apply Hp].
  - done.
  - done.
Qed.

Lemma upd_shared_run t f r u r' :
  upd_shared t f r = Ret (u, r') -> exists d, shared r !! key t = Some d /\ r' = with_shared (<[key t := f d]> (shared r)) r.
Proof.
  unfold upd_shared, sharedData. unfold bindS at 1. rewrite bind_get. fold (key t).
  destruct (shared r !! key t) as [d|]; [|done]. intros [= _ <-]. by exists d.
Qed.

Lemma upd_shared_inv t f r u r' :
  reg_inv r -> (forall d, same_class d (f d)) -> upd_shared t f r = Ret (u, r') -> reg_inv r'.
Proof. intros Hi Hf (d & Hk & ->)%upd_shared_run. eapply shared_update_inv; [done|exact Hk|apply Hf]. Qed.

Lemma declare_inv t d r u r' : reg_inv r -> declare t d r = Ret (u, r') -> reg_inv r'.
Proof. intros Hi. destruct d; cbn [declare]; apply upd_shared_inv; try done; by split. Qed.

Lemma declares_inv t ds r u r' : reg_inv r -> iterS (declare t) ds r = Ret (u, r') -> reg_inv r'.
Proof.
  revert r. induction ds as [|d ds IH]; intros r Hi; cbn [iterS]; [by intros [= _ <-]|].
  unfold bindS. destruct (declare t d r) as [[v r1]| |] eqn:Hd; [|done..]. apply IH. by eapply declare_inv.
Qed.

(** Making the data of a new key. *)
Lemma new_key_inv k r :
  reg_inv r -> shared r !! k = None ->
  reg_inv (mkRegistry (nextTypeid r + 1) (<[k := mkShared (nextTypeid r) ∅ ∅ ∅]> (shared r)) (initialized r) (instances r) (heap r)).
Proof.
  intros [Hi Hd Hn Hp Ht Hh] Hk. split; cbn [shared nextTypeid initialized instances heap].
  - intros k1 d1 [[_ <-]|[_ H1]]%lookup_insert_Some; [cbn; lia|]. specialize (Hi _ _ H1). lia.
  - intros k1 k2 d1 d2 [[<- <-]|[Hne1 H1]]%lookup_insert_Some [[<- <-]|[Hne2 H2]]%lookup_insert_Some He; try done.
    + specialize (Hi _ _ H2). cbn in He. lia.
    + specialize (Hi _ _ H1). cbn in He. lia.
    + by eapply Hd.
  - intros t Hti. apply lookup_insert_is_Some. destruct (decide (k = key t)); [by left|right; split; [done|by apply Hn]].
  - intros k1 d1 p [[<- <-]|[_ H1]]%lookup_insert_Some; [|by apply Hp]. cbn [m_instances]. split; [set_solver|].
    intros (t & Hpt & Hkt). destruct (Ht _ _ Hpt) as [Hti _]. destruct (Hn t Hti) as [d Hd1]. by rewrite Hkt, Hk in Hd1.
  - done.
  - done.
Qed.

Lemma initialized_inv t r :
  reg_inv r -> is_Some (shared r !! key t) ->
  reg_inv (mkRegistry (nextTypeid r) (shared r) (t :: initialized r) (instances r) (heap r)).
Proof.
  intros [Hi Hd Hn Hp Ht Hh] Hk. split; cbn [shared nextTypeid initialized instances heap]; try done.
  - intros u [->|Hu]%elem_of_cons; [done|by apply Hn].
  - intros p u Hu. destruct (Ht p u Hu) as [? ?]. split; [by right|done].
Qed.

(** The data of the class exists before its methods and fields are declared. *)
Lemma getClass_start t r :
  reg_inv r -> t ∉ initialized r ->
  exists r1, getClass t r = iterS (declare t) (describe t) r1 /\ reg_inv r1 /\ is_Some (shared r1 !! key t) /\
    initialized r1 = t :: initialized r /\ (shared r !! key t = None -> exists id, shared r1 !! key t = Some (mkShared id ∅ ∅ ∅)).
Proof.
  intros Hi Ht. unfold getClass. rewrite bind_get, bool_decide_false by done. rewrite bind_upd.
  unfold classSharedData. unfold bindS at 1. rewrite bind_get. cbn [shared]. fold (key t).
  destruct (shared r !! key t) as [d|] eqn:Hk.
  - unfold retS at 1. eexists. split; [reflexivity|]. split; [apply initialized_inv; [done|by rewrite Hk]|].
    cbn [shared initialized]. split_and!; [by rewrite Hk|done..].
  - unfold new_shared. unfold bindS at 1. rewrite bind_get, bind_upd. unfold retS at 1. rewrite bind_upd.
    unfold retS at 1. eexists. split; [reflexivity|].
    cbn [nextTypeid shared initialized instances heap with_shared].
    split; [|split; [by rewrite lookup_insert_eq|split; [done|by rewrite lookup_insert_eq; eexists]]].
    apply (initialized_inv t _ (new_key_inv (key t) r Hi Hk)). cbn [shared]. by rewrite lookup_insert_eq.
Qed.

Lemma getClass_inv t r u r' : reg_inv r -> getClass t r = Ret (u, r') -> reg_inv r'.
Proof.
  intros Hi Hr. destruct (decide (t ∈ initialized r)) as [Ht|Ht].
  - unfold getClass in Hr. rewrite bind_get, bool_decide_true in Hr by done. by injection Hr as _ <-.
  - destruct (getClass_start t r Hi Ht) as (r1 & He & Hi1 & _). rewrite He in Hr. by eapply declares_inv.
Qed.

Lemma getParameterTypes_inv m r l r' : reg_inv r -> getParameterTypes m r = Ret (l, r') -> reg_inv r'.
Proof.
  unfold getParameterTypes. destruct (method_params m) as [|p ps]; [by intros ? [= _ <-]|].
  intros Hi. unfold bindS at 1. destruct (iterS getClass (p :: ps) r) as [[u r1]| |] eqn:He; [|done..].
  intros [= _ <-]. revert r Hi He. induction (p :: ps) as [|q qs IH]; intros r Hi; cbn [iterS]; [by intros [= _ <-]|].
  unfold bindS. destruct (getClass q r) as [[v r2]| |] eqn:Hq; [|done..]. apply IH. by eapply getClass_inv.
Qed.

Lemma getMethod_inv t d r m r' : reg_inv r -> getDeclaredMethodFromDescription t d r = Ret (m, r') -> reg_inv r'.
Proof.
  intros Hi. unfold getDeclaredMethodFromDescription, sharedData. unfold bindS at 1. rewrite bind_get.
  destruct (shared r !! descriptor (basetype t)) as [s|]; [|done]. cbn [retS].
  destruct (m_methods s !! d) as [x|]; [by intros [= _ <-]|]. unfold bindS.
  destruct (upd_shared t _ r) as [[v r1]| |] eqn:Hu; [|done..]. intros [= _ <-]. eapply upd_shared_inv; [done| |exact Hu]. by split.
Qed.

Lemma getField_inv t d r m r' : reg_inv r -> getDeclaredFieldFromDescription t d r = Ret (m, r') -> reg_inv r'.
Proof.
  intros Hi. unfold getDeclaredFieldFromDescription, sharedData. unfold bindS at 1. rewrite bind_get.
  destruct (shared r !! descriptor (basetype t)) as [s|]; [|done]. cbn [retS].
  destruct (m_fields s !! d) as [x|]; [by intros [= _ <-]|]. unfold bindS.
  destruct (upd_shared t _ r) as [[v r1]| |] eqn:Hu; [|done..]. intros [= _ <-]. eapply upd_shared_inv; [done| |exact Hu]. by split.
Qed.

Lemma newInstance_inv t p r x r' :
  reg_inv r -> t ∈ initialized r -> p <> 0 -> p ∉ heap r -> newInstance t p r = Ret (x, r') -> reg_inv r'.
Proof.
  intros [Hi Hd Hn Hp Ht Hh] Hti Hp0 Hpn.
  assert (instances r !! p = None) as Hpi by (apply eq_None_not_Some; by rewrite <- Hh).
  unfold newInstance, new_object, trackInstance. rewrite !bind_upd. unfold bindS at 1.
  destruct (upd_shared t _ _) as [[v r1]| |] eqn:Hu; [|done..]. intros [= _ <-].
  apply upd_shared_run in Hu as (d & Hk & ->). cbn [shared] in Hk.
  split; cbn [shared nextTypeid initialized instances heap with_shared].
  - intros k1 d1 [[<- <-]|[_ H1]]%lookup_insert_Some; [exact (Hi _ _ Hk)|by eapply Hi].
  - intros k1 k2 d1 d2 [[<- <-]|[Hne1 H1]]%lookup_insert_Some [[<- <-]|[Hne2 H2]]%lookup_insert_Some He;
      [done|exact (Hd _ _ _ _ Hk H2 He)|exact (Hd _ _ _ _ H1 Hk He)|by eapply Hd].
  - intros u Hu. apply lookup_insert_is_Some. destruct (decide (key t = key u)); [by left|right; split; [done|by apply Hn]].
  - intros k1 d1 q [[<- <-]|[Hne H1]]%lookup_insert_Some; cbn [m_instances].
    + rewrite elem_of_union, elem_of_singleton, (Hp _ _ q Hk). split.
      * intros [->|(u & Hu & Hku)]; [exists t; by rewrite lookup_insert_eq|]. exists u. split; [|done].
        rewrite lookup_insert_ne; [done|]. intros ->. congruence.
      * intros (u & [[<- <-]|[_ Hu]]%lookup_insert_Some & Hku); [by left|right; by exists u].
    + rewrite (Hp _ _ q H1). split.
      * intros (u & Hu & Hku). exists u. split; [|done]. rewrite lookup_insert_ne; [done|]. intros ->. congruence.
      * intros (u & [[<- <-]|[_ Hu]]%lookup_insert_Some & Hku); [done|by exists u].
  - intros q u [[<- <-]|[_ Hu]]%lookup_insert_Some; [done|by eapply Ht].
  - intros q. rewrite elem_of_union, elem_of_singleton, lookup_insert_is_Some, Hh.
    destruct (decide (p = q)); naive_solver.
Qed.

Lemma deleteInstance_inv t p r x r' :
  reg_inv r -> instances r !! p = Some t -> deleteInstance t p r = Ret (x, r') -> reg_inv r'.
Proof.
  intros [Hi Hd Hn Hp Ht Hh] Hpt. unfold deleteInstance, forgetInstance. rewrite bind_upd. unfold bindS at 1.
  destruct (upd_shared t _ _) as [[v r1]| |] eqn:Hu; [|done..].
  apply upd_shared_run in Hu as (d & Hk & ->). cbn [shared] in Hk.
  unfold delete_object. rewrite bind_get. cbn [heap with_shared].
  rewrite bool_decide_true by (apply Hh; by rewrite Hpt). intros [= _ <-].
  split; cbn [shared nextTypeid initialized instances heap with_shared].
  - intros k1 d1 [[<- <-]|[_ H1]]%lookup_insert_Some; [exact (Hi _ _ Hk)|by eapply Hi].
  - intros k1 k2 d1 d2 [[<- <-]|[Hne1 H1]]%lookup_insert_Some [[<- <-]|[Hne2 H2]]%lookup_insert_Some He;
      [done|exact (Hd _ _ _ _ Hk H2 He)|exact (Hd _ _ _ _ H1 Hk He)|by eapply Hd].
  - intros u Hu. apply lookup_insert_is_Some. destruct (decide (key t = key u)); [by left|right; split; [done|by apply Hn]].
  - intros k1 d1 q [[<- <-]|[Hne H1]]%lookup_insert_Some; cbn [m_instances].
    + rewrite elem_of_difference, elem_of_singleton, (Hp _ _ q Hk). split.
      * intros [(u & Hu & Hku) Hq]. exists u. by rewrite lookup_delete_ne by congruence.
      * intros (u & [Hne Hu]%lookup_delete_Some & Hku). split; [by exists u|congruence].
    + rewrite (Hp _ _ q H1). split.
      * intros (u & Hu & Hku). exists u. split; [|done]. rewrite lookup_delete_ne; [done|]. intros ->. congruence.
      * intros (u & [_ Hu]%lookup_delete_Some & Hku). by exists u.
  - intros q u [_ Hu]%lookup_delete_Some. by eapply Ht.
  - intros q. rewrite elem_of_difference, elem_of_singleton, lookup_delete_is_Some, Hh. naive_solver.
Qed.

Lemma reg_reach_inv r : reg_reach r -> reg_inv r.
Proof.
  induction 1 as [|r r' _ IH Hs].
  - split; cbn [shared nextTypeid initialized instances new_registry]; try done.
    + intros t Ht. by apply elem_of_nil in Ht.
    + intros p. rewrite lookup_empty. split; [set_solver|by intros [? ?]].
  - destruct Hs as [t r r' Hr|t n ps m r r' Hr|m l r r' Hr|t n f r r' Hr|t p r r' Ht Hp0 Hpn Hr|t p r r' Hpt Hr].
    + by eapply getClass_inv.
    + by eapply getMethod_inv.
    + by eapply getParameterTypes_inv.
    + by eapply getField_inv.
    + by eapply newInstance_inv.
    + by eapply deleteInstance_inv.
Qed.

Lemma sharedData_run t r d : shared r !! key t = Some d -> sharedData t r = Ret (d, r).
Proof. intros H. unfold sharedData. rewrite bind_get. fold (key t). by rewrite H. Qed.

Lemma declares_total t ds r :
  is_Some (shared r !! key t) ->
  exists r', iterS (declare t) ds r = Ret (tt, r') /\ initialized r' = initialized r.
Proof.
  revert r. induction ds as [|d ds IH]; intros r [s Hs]; [by exists r|]. cbn [iterS].
  assert (exists r1, declare t d r = Ret (tt, r1) /\ is_Some (shared r1 !! key t) /\ initialized r1 = initialized r)
    as (r1 & H1 & Hs1 & Hi1).
  { destruct d; cbn [declare]; unfold setDeclaredMethod, setDeclaredField, upd_shared;
      rewrite (bind_run _ _ _ _ _ (sharedData_run t r s Hs)); eexists; (split; [reflexivity|]);
      cbn [shared with_shared initialized]; fold (key t); by rewrite lookup_insert_eq. }
  rewrite (bind_run _ _ _ _ _ H1). destruct (IH r1 Hs1) as (r' & H' & Hi'). exists r'. by rewrite Hi', Hi1.
Qed.

(** Asking for a class always gives one. *)
Lemma getClass_total t r :
  reg_inv r -> exists r', getClass t r = Ret (tt, r') /\ reg_inv r' /\ t ∈ initialized r' /\ initialized r ⊆ initialized r'.
Proof.
  intros Hi. destruct (decide (t ∈ initialized r)) as [Ht|Ht].
  { exists r. unfold getClass. by rewrite bind_get, bool_decide_true. }
  destruct (getClass_start t r Hi Ht) as (r1 & He & Hi1 & Hs1 & Hin & _).
  destruct (declares_total t (describe t) r1 Hs1) as (r' & H' & Hin'). exists r'. rewrite He. split; [done|].
  split; [by eapply declares_inv|]. rewrite Hin', Hin. split; [left|set_solver].
Qed.

Lemma assignable_key t u r :
  reg_inv r -> t ∈ initialized r -> u ∈ initialized r -> isAssignableFrom t u r = Ret (bool_decide (key t = key u), r).
Proof.
  intros [Hi Hd Hn _ _ _] Ht Hu. destruct (Hn t Ht) as [dt Hkt], (Hn u Hu) as [du Hku].
  unfold isAssignableFrom, getTypeid. unfold bindS at 1. rewrite (bind_run _ _ _ _ _ (sharedData_run t r dt Hkt)).
  unfold retS at 1. unfold bindS at 1. rewrite (bind_run _ _ _ _ _ (sharedData_run u r du Hku)). unfold retS.
  do 2 f_equal. apply eq_bool_prop_intro. rewrite !Is_true_true, Z.eqb_eq, bool_decide_eq_true. split.
  - by apply (Hd _ _ _ _ Hkt Hku).
  - intros He. rewrite He in Hkt. congruence.
Qed.

(** C35: In every state of the registry, whatever classes, methods, fields and
    instances were asked for, a class is assignable from another exactly when their
    base types have the same descriptor; between base types that have a descriptor
    of their own that is when the base types are the same.  All the types without
    one share the descriptor of unknown types, and are assignable to each other. *)
Theorem isAssignableFrom_iff (t u : CType) (r : Registry) :
  reg_reach r -> t ∈ initialized r -> u ∈ initialized r ->
  exists b, isAssignableFrom t u r = Ret (b, r) /\
    (b = true <-> descriptor (basetype t) = descriptor (basetype u)) /\
    (described (basetype t) -> described (basetype u) -> (b = true <-> basetype t = basetype u)).
Proof.
  intros Hr Ht Hu. rewrite (assignable_key t u r (reg_reach_inv r Hr) Ht Hu). eexists. split; [reflexivity|].
  rewrite bool_decide_eq_true. split; [done|]. intros Hdt Hdu. unfold key.
  split; [by apply descriptor_injective|by intros ->].
Qed.

(** instances are tracked.  In every state of the registry a class recognises
    exactly the objects that were made, and not deleted, by a class with the same
    base type; and [getClass] of a pointer names the class that made the object. *)
Theorem isInstance_iff (t : CType) (p : Z) (r : Registry) :
  reg_reach r -> t ∈ initialized r ->
  exists b, isInstance t p r = Ret (b, r) /\
    (b = true <-> exists u, getClass_of p r = Ret (Some u, r) /\ key u = key t).
Proof.
  intros Hr Ht. destruct (reg_reach_inv r Hr) as [_ _ Hn Hp Htr _]. destruct (Hn t Ht) as [d Hk].
  unfold isInstance. rewrite (bind_run _ _ _ _ _ (sharedData_run t r d Hk)). unfold retS. eexists. split; [reflexivity|].
  rewrite bool_decide_eq_true, (Hp _ _ p Hk). unfold getClass_of. split.
  - intros (u & Hu & Hku). exists u. destruct (Htr p u Hu) as [_ Hp0]. rewrite (proj2 (Z.eqb_neq p 0) Hp0).
    split; [|done]. unfold getS. by rewrite Hu.
  - intros (u & Hg & Hku). exists u. split; [|done]. destruct (p =? 0); [done|]. unfold getS in Hg. congruence.
Qed.
(** ** Looking up methods *)

(** The method a list of declarations gives to a name and parameter types: the
    last one. *)
Definition last_method (n : bytes) (ps : list CType) (acc : option Method) (ds : list Declaration) : option Method :=
  foldl (fun acc d =>
    match d with
    | DeclareMethod m => if decide (method_name m = n /\ method_params m = ps) then Some m else acc
    | DeclareField _ => acc
    end) acc ds.

(** Declarations whose descriptors can be told apart. *)
Definition clear_name (n : bytes) (ps : list CType) : Prop := (40 ∉ n) /\ Forall described ps.
Definition clear_declaration (d : Declaration) : Prop :=
  match d with DeclareMethod m => clear_name (method_name m) (method_params m) | DeclareField _ => True end.

Lemma declare_run t d r s :
  shared r !! key t = Some s ->
  exists r' s', declare t d r = Ret (tt, r') /\ shared r' !! key t = Some s' /\
    m_methods s' = match d with
                   | DeclareMethod m =>
                       <[MethodDescriptor (getName t) (method_name m) (method_params m) := Some m]> (m_methods s)
                   | DeclareField _ => m_methods s
                   end.
Proof.
  intros Hs. destruct d as [m|f]; cbn [declare]; unfold setDeclaredMethod, setDeclaredField, upd_shared;
    rewrite (bind_run _ _ _ _ _ (sharedData_run t r s Hs)); eexists _, _; (split; [reflexivity|]);
    cbn [shared with_shared]; fold (key t); rewrite lookup_insert_eq; done.
Qed.

Lemma declares_run t n ps acc ds r s :
  clear_name n ps -> Forall clear_declaration ds -> shared r !! key t = Some s ->
  m_methods s !! MethodDescriptor (getName t) n ps = Some <$> acc ->
  exists r' s', iterS (declare t) ds r = Ret (tt, r') /\ shared r' !! key t = Some s' /\
    m_methods s' !! MethodDescriptor (getName t) n ps = Some <$> (last_method n ps acc ds).
Proof.
  intros [Hn Hps] Hds. revert acc r s. induction Hds as [|d ds Hd _ IH]; intros acc r s Hs Hl.
  - exists r, s. done.
  - destruct (declare_run t d r s Hs) as (r1 & s1 & Hr1 & Hs1 & Hm1). cbn [iterS last_method foldl].
    rewrite (bind_run _ _ _ _ _ Hr1). apply (IH _ r1 s1 Hs1). rewrite Hm1. destruct d as [m|f]; [|done].
    case_decide as Hc.
    + destruct Hc as [<- <-]. by rewrite lookup_insert_eq.
    + rewrite lookup_insert_ne; [done|]. intros Heq. apply Hc. destruct Hd as [Hdn Hdp].
      by apply (MethodDescriptor_inj (getName t)).
Qed.

(** overloads are resolved.  Right after the first use of a class, looking up
    a method by its name and the classes of its parameters gives the method last
    declared with that name and those parameter types, and null if there is none. *)
Theorem getDeclaredMethod_finds (t : CType) (n : bytes) (ps : list CType) (r : Registry) :
  reg_reach r -> t ∉ initialized r -> shared r !! key t = None ->
  clear_name n ps -> Forall (fun p => remove_const_if p = p) ps -> Forall clear_declaration (describe t) ->
  exists r1 r2, getClass t r = Ret (tt, r1) /\
    getDeclaredMethod t n ps r1 = Ret (last_method n ps None (describe t), r2).
Proof.
  intros Hr Ht Hk Hn Hps Hds. destruct (getClass_start t r (reg_reach_inv r Hr) Ht) as (r0 & He & _ & _ & _ & Hnew).
  destruct (Hnew Hk) as [id Hs0]. destruct (declares_run t n ps None (describe t) r0 _ Hn Hds Hs0) as (r1 & s1 & H1 & Hs1 & Hm1).
  { done. }
  exists r1. rewrite He, H1. unfold getDeclaredMethod, getDeclaredMethodFromDescription.
  assert (methodDescriptor (getName t) n (getName <$> ps) = MethodDescriptor (getName t) n ps) as ->.
  { unfold MethodDescriptor. f_equal. clear -Hps. induction Hps as [|p ps Hp _ IH]; [done|].
    rewrite !fmap_cons, IH. unfold getName at 1. by rewrite Hp. }
  rewrite (bind_run _ _ _ _ _ (sharedData_run t r1 s1 Hs1)), Hm1.
  destruct (last_method n ps None (describe t)) as [m|]; cbn [fmap option_fmap option_map].
  - by eexists.
  - unfold upd_shared. unfold bindS at 1. rewrite (bind_run _ _ _ _ _ (sharedData_run t r1 s1 Hs1)). by eexists.
Qed.
End reflect.

(** ** A class with two overloads *)

Definition sample_point : CType := TClass (str "ns::Point").

Definition sample_describe (t : CType) : list Declaration :=
  if decide (t = sample_point) then
    [DeclareMethod (mkMethod (str "move") false [TPlain PInt]);
     DeclareMethod (mkMethod (str "move") false [TPlain PInt; TPlain PInt]);
     DeclareField (mkField (str "x") (TPlain PInt))]
  else [].

Lemma clear_move ps : Forall described ps -> clear_name (str "move") ps.
Proof. intros H. split; [|done]. refine (bool_decide_unpack _ _). vm_compute. exact I. Qed.

Lemma sample_clear : Forall clear_declaration (sample_describe sample_point).
Proof.
  unfold sample_describe. rewrite decide_True by done.
  repeat first [apply Forall_nil_2 | apply Forall_cons_2]; [apply clear_move; repeat constructor..|done].
Qed.

Lemma getDeclaredMethod_finds_witness :
  exists r1 r2, getClass sample_describe sample_point new_registry = Ret (tt, r1) /\
    getDeclaredMethod sample_point (str "move") [TPlain PInt] r1 = Ret (Some (mkMethod (str "move") false [TPlain PInt]), r2).
Proof.
  apply (getDeclaredMethod_finds sample_describe sample_point (str "move") [TPlain PInt] new_registry).
  - apply rr_new.
  - apply not_elem_of_nil.
  - done.
  - apply clear_move. repeat constructor.
  - repeat constructor.
  - exact sample_clear.
Defined.

(** The registry after the classes of a point, a reference to one and [int], and a
    point made at the address 64. *)
Definition run_class (t : CType) (r : Registry) : Registry :=
  match getClass sample_describe t r with Ret (_, r') => r' | _ => r end.

Definition sample_classes : Registry :=
  run_class (TPlain PInt) (run_class (TRef (TConst sample_point)) (run_class sample_point new_registry)).

Definition sample_registry : Registry :=
  match newInstance sample_point 64 sample_classes with Ret (_, r) => r | _ => sample_classes end.

Lemma run_class_reach t r : reg_reach sample_describe r -> reg_reach sample_describe (run_class t r).
Proof.
  intros Hr. unfold run_class. destruct (getClass sample_describe t r) as [[[] r']| |] eqn:He; [|done..].
  by eapply rr_step, rs_class, He.
Qed.

Lemma sample_initialized t :
  bool_decide (t ∈ [TPlain PInt; TRef (TConst sample_point); sample_point]) = true -> t ∈ initialized sample_registry.
Proof. intros H. apply bool_decide_eq_true in H. exact H. Qed.

Lemma sample_registry_reached : reg_reach sample_describe sample_registry.
Proof.
  apply (rr_step _ sample_classes); [by repeat apply run_class_reach; apply rr_new|].
  apply (rs_new _ sample_point 64); [|done|refine (bool_decide_unpack _ _); vm_compute; exact I|by vm_compute].
  refine (bool_decide_unpack _ _). vm_compute. exact I.
Qed.

Lemma isAssignableFrom_iff_witness :
  exists b, isAssignableFrom sample_point (TRef (TConst sample_point)) sample_registry = Ret (b, sample_registry) /\
    (b = true <-> descriptor sample_point = descriptor sample_point) /\
    (described sample_point -> described sample_point -> (b = true <-> sample_point = sample_point)).
Proof.
  apply (isAssignableFrom_iff sample_describe sample_point (TRef (TConst sample_point)) sample_registry sample_registry_reached).
  - by apply sample_initialized.
  - by apply sample_initialized.
Defined.

Lemma isInstance_iff_witness :
  exists b, isInstance (TRef (TConst sample_point)) 64 sample_registry = Ret (b, sample_registry) /\
    (b = true <-> exists u, getClass_of 64 sample_registry = Ret (Some u, sample_registry) /\ key u = key sample_point).
Proof.
  apply (isInstance_iff sample_describe (TRef (TConst sample_point)) 64 sample_registry sample_registry_reached).
  by apply sample_initialized.
Defined.

(** The class of a reference to a point recognises the point, and that of [int]
    does not. *)
Example sample_instances :
  isInstance (TRef (TConst sample_point)) 64 sample_registry = Ret (true, sample_registry) /\
  isInstance (TPlain PInt) 64 sample_registry = Ret (false, sample_registry) /\
  getClass_of 64 sample_registry = Ret (Some sample_point, sample_registry).
Proof. split_and!; vm_compute; reflexivity. Qed.

(** A lookup that fails leaves a null method behind, which [getDeclaredMethods]
    then returns with the others. *)
Lemma failed_lookup_leaves_null :
  exists r ms, getDeclaredMethod sample_point (str "grow") [] sample_registry = Ret (None, r) /\
    getDeclaredMethods sample_point r = Ret (ms, r) /\ None ∈ ms /\ length ms = 3%nat.
Proof.
  eexists _, _. split; [vm_compute; reflexivity|]. split; [vm_compute; reflexivity|]. split; [|reflexivity].
  repeat first [apply list_elem_of_here | apply list_elem_of_further].
Qed.

(** A method of an [int] and a [bool] claims to take two of [int]. *)
Lemma getParameterTypes_repeats :
  exists r, getParameterTypes sample_describe (mkMethod (str "set") false [TPlain PInt; TPlain PBool]) sample_registry
    = Ret ([TPlain PInt; TPlain PInt], r).
Proof. eexists. vm_compute. reflexivity. Qed.
