(* ===== verification/ReflectShared.v ===== *)
(** * Objects that are owned: [ClassBase::newInstance] with shared pointers (reflect/Class.h)

    [newInstance] hands out an [std::shared_ptr] whose deleter calls [deleteInstance]
    of the class that made the object.  [control] has the control block of each owned
    object: that class and the number of pointers.  Copies and releases may come in
    any order, and between other uses of the registry. *)

From stdpp Require Import base list numbers strings gmap.
From Stdlib Require Import ZArith Lia.
From S2P Require Import Prelude TypeDescriptor Reflect.

Record SharedWorld := mkSharedWorld { reg : Registry; control : gmap Z (CType * nat) }.

Abbreviation SHM := (M SharedWorld).

Definition on_registry {A} (m : M Registry A) : SHM A :=
  fun w => match m (reg w) with
           | Ret (a, r) => Ret (a, mkSharedWorld r (control w))
           | Killed s => Killed s
           | Undef s => Undef s
           end.

Definition set_control (p : Z) (o : option (CType * nat)) : SHM unit :=
  updS (fun w => mkSharedWorld (reg w) (partial_alter (fun _ => o) p (control w))).

(** [newInstance(args...)]; [p] is what [new T] returned. *)
Definition newInstance_shared (t : CType) (p : Z) : SHM Z :=
  let! instance := on_registry (newInstance t p) in
  do! set_control instance (Some (t, 1%nat)) in
  retS instance.

(** [Deleter::operator()] *)
Definition Deleter_call (t : CType) (p : Z) : SHM unit := on_registry (deleteInstance t p).

(** A copy of a pointer is made, or a pointer goes away; the last one calls the deleter. *)
Definition shared_copy (p : Z) : SHM unit :=
  let! c := getS control in
  match c !! p with
  | Some (t, n) => set_control p (Some (t, S n))
  | None => undefS "no shared_ptr"
  end.

Definition shared_release (p : Z) : SHM unit :=
  let! c := getS control in
  match c !! p with
  | Some (t, S O) => do! Deleter_call t p in set_control p None
  | Some (t, S (S n)) => set_control p (Some (t, S n))
  | _ => undefS "no shared_ptr"
  end.

Section shared.
Context (describe : CType -> list Declaration).

(** What can happen.  [deleteInstance] is protected: nothing but the deleter calls it
    for an owned object. *)
Inductive sh_step : SharedWorld -> SharedWorld -> Prop :=
| sh_new t p w w' :
    t ∈ initialized (reg w) -> p <> 0 -> p ∉ heap (reg w) ->
    newInstance_shared t p w = Ret (p, w') -> sh_step w w'
| sh_copy p w w' : shared_copy p w = Ret (tt, w') -> sh_step w w'
| sh_release p w w' : shared_release p w = Ret (tt, w') -> sh_step w w'
| sh_registry w r :
    reg_step describe (reg w) r ->
    (forall p, is_Some (control w !! p) -> instances r !! p = instances (reg w) !! p) ->
    sh_step w (mkSharedWorld r (control w)).

Inductive sh_reach : SharedWorld -> Prop :=
| sr_new : sh_reach (mkSharedWorld new_registry ∅)
| sr_step w w' : sh_reach w -> sh_step w w' -> sh_reach w'.

(** An owned object is tracked under the class that will delete it. *)
Record sh_inv (w : SharedWorld) : Prop := {
  si_reg : reg_reach describe (reg w);
  si_owned : forall p t n, control w !! p = Some (t, n) -> (0 < n)%nat /\ instances (reg w) !! p = Some t
}.

Lemma newInstance_run t p r x r' :
  newInstance t p r = Ret (x, r') -> x = p /\ instances r' = <[p := t]> (instances r).
Proof.
  unfold newInstance, new_object, trackInstance. rewrite !bind_upd. unfold bindS.
  destruct (upd_shared t _ _) as [[v r1]| |] eqn:Hu; [|done..]. intros [= <- <-].
  apply upd_shared_run in Hu as (d & _ & ->). done.
Qed.

(** The object is forgotten and deleted. *)
Lemma deleteInstance_run t p r :
  reg_inv r -> instances r !! p = Some t ->
  exists r', deleteInstance t p r = Ret (tt, r') /\ instances r' = delete p (instances r) /\
    initialized r' = initialized r /\ heap r' = heap r ∖ {[p]}.
Proof.
  intros [_ _ Hn _ Ht Hh] Hp. destruct (Ht p t Hp) as [Hti _]. destruct (Hn t Hti) as [d Hd].
  unfold deleteInstance, forgetInstance. rewrite bind_upd. unfold upd_shared. unfold bindS at 1.
  rewrite (bind_run _ _ _ _ _ (sharedData_run t (mkRegistry _ _ _ _ _) d Hd)). unfold updS at 1.
  unfold delete_object. rewrite bind_get. cbn [heap with_shared].
  rewrite bool_decide_true by (apply Hh; by rewrite Hp). eexists. split; [reflexivity|]. done.
Qed.

Lemma sh_reach_inv w : sh_reach w -> sh_inv w.
Proof.
  induction 1 as [|w w' _ [Hr Ho] Hs]; [split; [apply rr_new|done]|].
  destruct Hs as [t p w w' Ht Hp0 Hpn Hnew|p w w' Hc|p w w' Hc|w r Hs Hsame].
  - unfold newInstance_shared, on_registry in Hnew. unfold bindS at 1 in Hnew.
    destruct (newInstance t p (reg w)) as [[x r]| |] eqn:Hn; [|done..].
    destruct (newInstance_run _ _ _ _ _ Hn) as [-> Hi]. unfold set_control in Hnew. rewrite bind_upd in Hnew. injection Hnew as <-.
    split; cbn [reg control]; [by eapply rr_step; [|by eapply rs_new]|]. intros q u n. rewrite Hi.
    destruct (decide (q = p)) as [->|Hne].
    + rewrite lookup_partial_alter_eq, lookup_insert_eq. intros [= <- <-]. split; [lia|done].
    + rewrite lookup_partial_alter_ne, lookup_insert_ne by done. apply Ho.
  - unfold shared_copy in Hc. rewrite bind_get in Hc. destruct (control w !! p) as [[t n]|] eqn:Hp; [|done].
    injection Hc as <-. split; cbn [reg control]; [done|]. intros q u m. destruct (decide (q = p)) as [->|Hne].
    + rewrite lookup_partial_alter_eq. intros [= <- <-]. destruct (Ho _ _ _ Hp). split; [lia|done].
    + rewrite lookup_partial_alter_ne by done. apply Ho.
  - unfold shared_release in Hc. rewrite bind_get in Hc. destruct (control w !! p) as [[t [|[|n]]]|] eqn:Hp; try done.
    + destruct (Ho _ _ _ Hp) as [_ Hi]. destruct (deleteInstance_run t p (reg w) (reg_reach_inv _ _ Hr) Hi) as (r & Hd & Hir & _).
      unfold Deleter_call, on_registry in Hc. unfold bindS in Hc. rewrite Hd in Hc. injection Hc as <-.
      split; cbn [reg control]; [by eapply rr_step; [|by eapply rs_delete]|]. intros q u m. rewrite Hir.
      destruct (decide (q = p)) as [->|Hne]; [by rewrite lookup_partial_alter_eq|].
      rewrite lookup_partial_alter_ne, lookup_delete_ne by done. apply Ho.
    + injection Hc as <-. split; cbn [reg control]; [done|]. intros q u m. destruct (decide (q = p)) as [->|Hne].
      * rewrite lookup_partial_alter_eq. intros [= <- <-]. destruct (Ho _ _ _ Hp). split; [lia|done].
      * rewrite lookup_partial_alter_ne by done. apply Ho.
  - split; cbn [reg control]; [by eapply rr_step|]. intros p t n Hp. rewrite Hsame by (by eexists). by eapply Ho.
Qed.

(** The class of the object decides. *)
Definition made_by (t : CType) (o : option CType) : bool := match o with Some u => bool_decide (key u = key t) | None => false end.

Lemma isInstance_tracked t p r :
  reg_inv r -> t ∈ initialized r -> isInstance t p r = Ret (made_by t (instances r !! p), r).
Proof.
  intros [_ _ Hn Hp _ _] Ht. destruct (Hn t Ht) as [d Hk]. unfold isInstance.
  rewrite (bind_run _ _ _ _ _ (sharedData_run t r d Hk)). unfold retS. do 2 f_equal. unfold made_by.
  destruct (instances r !! p) as [u|] eqn:Hu; [apply bool_decide_ext|apply bool_decide_false]; rewrite (Hp _ _ p Hk).
  - rewrite Hu. split; [by intros (? & [= <-] & ?)|by exists u].
  - rewrite Hu. by intros (? & [=] & _).
Qed.

(** C17: Objects live as long as they are owned.  In every state, an owned object is
    on the heap and an instance of the class that made it.  Giving up one of
    several pointers changes nothing but their number; giving up the last one
    deletes the object, and no other, and no class takes it for an instance any
    more. *)
Theorem shared_lifetime (p : Z) (t : CType) (n : nat) (w : SharedWorld) :
  sh_reach w -> control w !! p = Some (t, n) ->
  p ∈ heap (reg w) /\ isInstance t p (reg w) = Ret (true, reg w) /\
  exists w', shared_release p w = Ret (tt, w') /\
    if decide (n = 1%nat)
    then control w' !! p = None /\ heap (reg w') = heap (reg w) ∖ {[p]} /\
         forall u, u ∈ initialized (reg w) -> isInstance u p (reg w') = Ret (false, reg w')
    else control w' !! p = Some (t, pred n) /\ reg w' = reg w.
Proof.
  intros Hw Hp. destruct (sh_reach_inv w Hw) as [Hr Ho]. destruct (Ho _ _ _ Hp) as [Hn Hi].
  pose proof (reg_reach_inv _ _ Hr) as Hinv. destruct (ri_tracked _ Hinv p t Hi) as [Hti _].
  split; [apply (ri_heap _ Hinv); by rewrite Hi|].
  split. { rewrite (isInstance_tracked t p (reg w) Hinv Hti), Hi. cbn [made_by]. by rewrite bool_decide_true. }
  unfold shared_release. rewrite bind_get, Hp. destruct n as [|[|n]]; [lia| |].
  - destruct (deleteInstance_run t p (reg w) Hinv Hi) as (r & Hd & Hir & Hini & Hhe).
    unfold Deleter_call, on_registry. unfold bindS. rewrite Hd. eexists. split; [reflexivity|]. cbn [decide reg control].
    rewrite decide_True by done. rewrite lookup_partial_alter_eq. split_and!; [done|done|]. intros u Hu.
    assert (Hr' : reg_inv r) by (by eapply deleteInstance_inv).
    rewrite (isInstance_tracked u p r Hr') by (by rewrite Hini). by rewrite Hir, lookup_delete_eq.
  - eexists. split; [reflexivity|]. rewrite decide_False by lia. cbn [reg control]. by rewrite lookup_partial_alter_eq.
Qed.
End shared.

(** ** Example *)

Definition nothing (t : CType) : list Declaration := [].
Definition widget : CType := TClass (str "Widget").

(** An object with two owners, both of which go. *)
Definition two_owners : SHM (bool * bool) :=
  do! on_registry (getClass nothing widget) in
  do! newInstance_shared widget 4096 in
  do! shared_copy 4096 in
  do! shared_release 4096 in
  let! before := on_registry (isInstance widget 4096) in
  do! shared_release 4096 in
  let! after := on_registry (isInstance widget 4096) in
  retS (before, after).

Example two_owners_run :
  match two_owners (mkSharedWorld new_registry ∅) with Ret (r, _) => r = (true, false) | _ => False end.
Proof. vm_compute. reflexivity. Qed.

Definition owned_world : SharedWorld :=
  match (do! on_registry (getClass nothing widget) in newInstance_shared widget 4096) (mkSharedWorld new_registry ∅) with
  | Ret (_, w) => w
  | _ => mkSharedWorld new_registry ∅
  end.

Lemma shared_lifetime_witness :
  4096 ∈ heap (reg owned_world) /\
  isInstance widget 4096 (reg owned_world) = Ret (true, reg owned_world) /\
  exists w', shared_release 4096 owned_world = Ret (tt, w') /\
    control w' !! 4096 = None /\ heap (reg w') = heap (reg owned_world) ∖ {[4096]} /\
    forall u, u ∈ initialized (reg owned_world) -> isInstance u 4096 (reg w') = Ret (false, reg w').
Proof.
  apply (shared_lifetime nothing 4096 widget 1 owned_world); [|vm_compute; reflexivity].
  set (w0 := mkSharedWorld new_registry ∅).
  destruct (getClass nothing widget new_registry) as [[u r]| |] eqn:Hg; [|vm_compute in Hg; discriminate Hg..].
  apply (sr_step nothing (mkSharedWorld r ∅)).
  - apply (sr_step nothing w0); [apply sr_new|]. destruct u. apply (sh_registry nothing w0 r); [by eapply rs_class|]. by intros p [? ?].
  - vm_compute in Hg. injection Hg as <- <-. eapply (sh_new nothing widget 4096); [vm_compute; left|done| |reflexivity].
    refine (bool_decide_unpack _ _). vm_compute. exact I.
Defined.
