(* ===== verification/FloatText.v ===== *)
(** * Floating-point numbers of both formats, their conversions and their texts

    [float] is binary32 and [double] is binary64.  A conversion rounds to the nearest.
    [print_float] is what [stream << x] writes without any manipulator: the format
    [%g] with six digits, correctly rounded; [read_float] is what [stream >> x] makes
    of a text, the nearest number of the format.  Hexadecimal floating-point literals
    are not read.  The theorems show that every number these produce is a number of
    its format ([valid_binary]), and that whole numbers below a million survive
    their texts. *)

From stdpp Require Import base list numbers strings.
From Stdlib Require Import ZArith Lia.
From Stdlib Require Import Floats.SpecFloat.
From S2P Require Import Prelude HttpHeader Double.

Record Format := mkFormat { prec : Z; emax : Z }.
Definition binary32 : Format := mkFormat 24 128.
Definition binary64 : Format := mkFormat 53 1024.

(** The conversion of an integer, and of a number of another format. *)
Definition of_int (f : Format) (z : Z) : spec_float := binary_normalize (prec f) (emax f) z 0 false.
Definition convert (f : Format) (x : spec_float) : spec_float :=
  match x with S754_finite s m e => binary_round (prec f) (emax f) s m e | _ => x end.

Definition valid (f : Format) (x : spec_float) : Prop := valid_binary (prec f) (emax f) x = true.

(** ** Printing *)

(** The number of decimal digits of a positive integer. *)
Fixpoint ndigits (fuel : nat) (z : Z) : Z :=
  match fuel with
  | O => 0
  | S fuel' => if z <? 10 then 1 else 1 + ndigits fuel' (z / 10)
  end.

(** The least [k] with [den <= num * 10^k]. *)
Fixpoint zeros_after_point (fuel : nat) (num den : Z) : Z :=
  match fuel with
  | O => 0
  | S fuel' => if den <=? num then 0 else 1 + zeros_after_point fuel' (10 * num) den
  end.

(** The exponent of [num / den] in scientific notation. *)
Definition dec_exponent (num den : Z) : Z :=
  if den <=? num then ndigits (Z.to_nat (Z.log2 (num / den) + 1)) (num / den) - 1
  else - zeros_after_point (Z.to_nat (Z.log2 den + 1)) num den.

(** [num / den] rounded to an integer. *)
Definition round_div (num den : Z) : Z := round_nearest_even (num / den) (new_location den (num mod den)).

(** The six significant digits, as an integer, and the exponent of the first one. *)
Definition six_digits (num den : Z) : Z * Z :=
  let x := dec_exponent num den in
  let n := if 0 <=? 5 - x then round_div (num * 10 ^ (5 - x)) den else round_div num (den * 10 ^ (x - 5)) in
  if n =? 10 ^ 6 then (10 ^ 5, x + 1) else (n, x).

(** The last [w] decimal digits of [z]. *)
Fixpoint digits (w : nat) (z : Z) : bytes :=
  match w with O => [] | S w' => digits w' (z / 10) ++ [48 + z mod 10] end.

(** Trailing zeros are dropped. *)
Fixpoint strip (l : bytes) : bytes :=
  match l with
  | [] => []
  | c :: r => match strip r with [] => if c =? 48 then [] else [c] | r' => c :: r' end
  end.

(** A fraction with its point, unless it is empty. *)
Definition fraction (l : bytes) : bytes := match strip l with [] => [] | r => 46 :: r end.

(** The format [%g]. *)
Definition general (n x : Z) : bytes :=
  let ds := digits 6 n in
  if (x <? -4) || (6 <=? x) then
    take 1 ds ++ fraction (drop 1 ds) ++ [101; if x <? 0 then 45 else 43] ++
    (if Z.abs x <? 10 then [48] else []) ++ dec (Z.abs x)
  else if 0 <=? x then take (Z.to_nat (x + 1)) ds ++ fraction (drop (Z.to_nat (x + 1)) ds)
  else [48] ++ fraction (replicate (Z.to_nat (- x - 1)) 48 ++ ds).

Definition print_float (x : spec_float) : bytes :=
  match x with
  | S754_nan => str "nan"
  | S754_infinity s => (if s then [45] else []) ++ str "inf"
  | S754_zero s => (if s then [45] else []) ++ [48]
  | S754_finite s m e =>
      let '(n, x) := six_digits (Zpos m * 2 ^ Z.max e 0) (2 ^ Z.max (- e) 0) in
      (if s then [45] else []) ++ general n x
  end.

(** [std::to_string]: the format [%f], with six digits after the point. *)
Definition to_string (x : spec_float) : bytes :=
  match x with
  | S754_nan => str "nan"
  | S754_infinity s => (if s then [45] else []) ++ str "inf"
  | S754_zero s => (if s then [45] else []) ++ str "0.000000"
  | S754_finite s m e =>
      let n := round_div (Zpos m * 2 ^ Z.max e 0 * 10 ^ 6) (2 ^ Z.max (- e) 0) in
      (if s then [45] else []) ++ dec (n / 10 ^ 6) ++ [46] ++ digits 6 n
  end.

(** ** Reading *)

(** A number is [(-1)^s * d * 10^x]. *)
Record Decimal := mkDecimal { d_neg : bool; d_digits : Z; d_exp : Z }.

(** [e], a sign and digits; an [e] without digits spoils the number. *)
Definition scan_exponent (s : bytes) : option Z :=
  match s with
  | c :: s' =>
      if (c =? 101) || (c =? 69) then
        match s' with
        | 45 :: t => (fun p => - p.1) <$> scan_nat t
        | 43 :: t => fst <$> scan_nat t
        | _ => fst <$> scan_nat s'
        end
      else Some 0
  | [] => Some 0
  end.

Definition scan_decimal (s : bytes) : option Decimal :=
  let '(neg, s1) := match s with 45 :: t => (true, t) | 43 :: t => (false, t) | _ => (false, s) end in
  let '(i, s2) := scan_digits 0 s1 in
  let '(d, s3) := match s2 with 46 :: t => scan_digits i t | _ => (i, s2) end in
  let fractional := match s2 with 46 :: t => zlen t - zlen s3 | _ => 0 end in
  if (zlen s1 - zlen s2 + fractional =? 0) then None else
  x ← scan_exponent s3; Some (mkDecimal neg d (x - fractional)).

(** The nearest number of the format; the largest one when it is out of range. *)
Definition nearest_decimal (f : Format) (d : Decimal) : spec_float :=
  if d_digits d =? 0 then S754_zero (d_neg d) else
  let '(q, e, l) := SFdiv_core_binary (prec f) (emax f) (d_digits d * 10 ^ Z.max (d_exp d) 0) 0 (10 ^ Z.max (- d_exp d) 0) 0 in
  match binary_round_aux (prec f) (emax f) (d_neg d) q e l with
  | S754_infinity s => if s then SFopp (SFmax_float (prec f) (emax f)) else SFmax_float (prec f) (emax f)
  | x => x
  end.

(** Text that is no number becomes 0. *)
Definition read_float (f : Format) (s : bytes) : spec_float :=
  match scan_decimal (skip_ws s) with Some d => nearest_decimal f d | None => S754_zero false end.

(** ** Every result is a number of its format *)

Section validity.
Context (p em : Z) (Hp : 0 < p) (Hem : p < em).

Lemma fexp_mono a b : a <= b -> fexp p em a <= fexp p em b.
Proof. unfold fexp. lia. Qed.

(** Some quantity lies where a location says. *)
Lemma between_some m l : 0 <= m -> exists N, between N 4 m l /\ 4 * m <= N < 4 * m + 4.
Proof.
  intros Hm. exists (4 * m + match l with loc_Exact => 0 | loc_Inexact Lt => 1 | loc_Inexact Eq => 2 | loc_Inexact Gt => 3 end).
  split; [|destruct l as [|[]]; lia]. split; [done|]. split; [done|].
  destruct l as [|[]]; [lia| | |]; (split; [lia|]); cmp; lia.
Qed.

(** Shifting to the exponent of the format. *)
Lemma shr_fexp_floor m e l :
  0 <= m -> e <= fexp p em (Zdigits2 m + e) ->
  let e1 := fexp p em (Zdigits2 m + e) in
  exists mrs, shr_fexp p em m e l = (mrs, e1) /\ 0 <= shr_m mrs /\
    shr_m mrs * 2 ^ (e1 - e) <= m < (shr_m mrs + 1) * 2 ^ (e1 - e).
Proof.
  intros Hm He e1. destruct (between_some m l Hm) as (N & Hb & HN). apply shr_of_loc_between in Hb.
  assert (Hs : exists mrs, shr_fexp p em m e l = (mrs, e1) /\ shr_between N (2 ^ (e1 - e) * 4) mrs).
  { unfold shr_fexp. fold e1. destruct (e1 - e) as [|k|k] eqn:Ek; [|eexists; split; [|by apply iter_shr_between]|lia].
    - eexists. split; [cbn [shr]; f_equal; lia|]. done.
    - cbn [shr]. f_equal. lia. }
  destruct Hs as (mrs & Hs & H0 & _ & Hl). exists mrs. split; [done|]. split; [done|].
  pose proof (Z.pow_pos_nonneg 2 (e1 - e) ltac:(lia) ltac:(lia)). set (j := shr_m mrs) in *. set (P := 2 ^ (e1 - e)) in *.
  assert (j * (P * 4) <= N < (j + 1) * (P * 4)) by (destruct (loc_of_shr_record mrs); nia). lia.
Qed.

(** What is left has the exponent of the format, or is zero at the least exponent. *)
Lemma floor_canonical m e j :
  0 < m -> e <= fexp p em (Zdigits2 m + e) -> 0 <= j ->
  let e1 := fexp p em (Zdigits2 m + e) in
  j * 2 ^ (e1 - e) <= m < (j + 1) * 2 ^ (e1 - e) ->
  (0 < j /\ fexp p em (Zdigits2 j + e1) = e1) \/ (j = 0 /\ e1 = emin p em).
Proof.
  intros Hm He Hj e1 Hb. destruct (Zdigits2_bounds m Hm) as [Hd Hdb]. set (d := Zdigits2 m) in *. set (k := e1 - e) in *.
  assert (Hk : 0 <= k) by (unfold k, e1; lia). pose proof (Z.pow_pos_nonneg 2 k ltac:(lia) Hk) as HP.
  destruct (decide (j = 0)) as [->|Hj0].
  - right. split; [done|]. assert (Hdk : d - 1 < k) by (apply (Z.pow_lt_mono_r_iff 2); lia).
    unfold e1, fexp in *. lia.
  - left. split; [lia|]. assert (Hkd : k < d) by (apply (Z.pow_lt_mono_r_iff 2); nia).
    rewrite (Zdigits2_unique j (d - k)); [unfold e1, k; f_equal; lia|lia|].
    replace (d - 1) with (d - k - 1 + k) in Hdb by lia. replace d with (d - k + k) in Hdb at 2 by lia.
    rewrite !Z.pow_add_r in Hdb by lia. nia.
Qed.

(** Adding one adds a digit only at a power of two. *)
Lemma digits_succ j : 0 <= j -> Zdigits2 (j + 1) = Zdigits2 j \/ (j + 1 = 2 ^ Zdigits2 j /\ Zdigits2 (j + 1) = Zdigits2 j + 1).
Proof.
  intros Hj. destruct (decide (j = 0)) as [->|Hj0]; [by right|]. destruct (Zdigits2_bounds j ltac:(lia)) as [Hd Hb].
  destruct (decide (j + 1 = 2 ^ Zdigits2 j)) as [He|He]; [right|left; apply Zdigits2_unique; lia].
  split; [done|]. apply Zdigits2_unique; [lia|]. rewrite He. split; [apply Z.pow_le_mono_r; lia|apply Z.pow_lt_mono_r; lia].
Qed.

(** The shift after the rounding. *)
Lemma second_shift r e1 :
  0 < r -> fexp p em (Zdigits2 r + e1) = e1 \/ (r = 2 ^ (Zdigits2 r - 1) /\ 1 < Zdigits2 r /\ fexp p em (Zdigits2 r + e1) = e1 + 1 /\ fexp p em (Zdigits2 r - 1 + e1) = e1) ->
  exists mrs e2, shr_fexp p em r e1 loc_Exact = (mrs, e2) /\ 0 < shr_m mrs /\ fexp p em (Zdigits2 (shr_m mrs) + e2) = e2.
Proof.
  intros Hr Hcase. destruct (shr_fexp_floor r e1 loc_Exact) as (mrs & Hs & H0 & Hb); [lia|destruct Hcase as [?|(_ & _ & ? & _)]; lia|].
  exists mrs, (fexp p em (Zdigits2 r + e1)). split; [done|]. destruct Hcase as [He|(Hpow & Hd & He & He')].
  - rewrite He, Z.sub_diag in *. cbn in Hb. replace (shr_m mrs) with r by lia. done.
  - rewrite He in Hb. replace (e1 + 1 - e1) with 1 in Hb by lia. change (2 ^ 1) with 2 in Hb.
    set (d := Zdigits2 r) in *. replace (d - 1) with (d - 2 + 1) in Hpow by lia. rewrite Z.pow_add_r in Hpow by lia. change (2 ^ 1) with 2 in Hpow.
    pose proof (Z.pow_pos_nonneg 2 (d - 2) ltac:(lia) ltac:(lia)). assert (Hm : shr_m mrs = 2 ^ (d - 2)) by lia.
    rewrite Hm. split; [done|]. rewrite (Zdigits2_unique _ (d - 1)); [rewrite He; by replace (d - 1 + (e1 + 1)) with (d + e1) by lia|lia|].
    split; [apply Z.pow_le_mono_r; lia|apply Z.pow_lt_mono_r; lia].
Qed.

Lemma round_aux_valid s m e l :
  0 <= m -> e <= fexp p em (Zdigits2 m + e) -> valid_binary p em (binary_round_aux p em s m e l) = true.
Proof.
  intros Hm He. destruct (shr_fexp_floor m e l Hm He) as (mrs & Hs & H0 & Hb). unfold binary_round_aux. rewrite Hs.
  set (e1 := fexp p em (Zdigits2 m + e)) in *. set (j := shr_m mrs) in *.
  set (r := round_nearest_even _ _). assert (Hr : r = j \/ r = j + 1).
  { unfold r, round_nearest_even. destruct (loc_of_shr_record mrs) as [|[]]; [auto..|]; try destruct (Z.even _); auto. }
  assert (Hj : 0 < j /\ fexp p em (Zdigits2 j + e1) = e1 \/ j = 0 /\ e1 = emin p em).
  { destruct (decide (m = 0)) as [->|Hm0]; [|by apply (floor_canonical m e); [lia|done..]].
    right. pose proof (Z.pow_pos_nonneg 2 (e1 - e) ltac:(lia) ltac:(unfold e1; lia)).
    split; [nia|]. unfold e1, fexp in *. cbn [Zdigits2] in *. lia. }
  clearbody r. destruct (decide (r = 0)) as [->|Hr0].
  { destruct Hj as [[Hj _]|[_ He1]]; [lia|]. unfold shr_fexp. cbn [Zdigits2].
    replace (fexp p em (0 + e1) - e1) with 0 by (unfold fexp; lia). done. }
  destruct (second_shift r e1) as (mrs2 & e2 & -> & Hpos & Hcan); [lia| |].
  { destruct Hj as [[Hj Hc]|[-> He1]].
    - destruct Hr as [->| ->]; [by left|]. destruct (digits_succ j H0) as [->|[Hpow Hd]]; [by left|].
      destruct (decide (fexp p em (Zdigits2 (j + 1) + e1) = e1)) as [?|Hne]; [by left|right]. rewrite Hd in *.
      destruct (Zdigits2_bounds j Hj) as [Hdj _]. replace (Zdigits2 j + 1 - 1) with (Zdigits2 j) by lia.
      split; [done|]. split; [lia|]. split; [|done]. unfold fexp in *. lia.
    - left. replace r with 1 by lia. cbn [Zdigits2 digits2_pos]. unfold fexp. lia. }
  destruct (shr_m mrs2) as [|q|q]; [lia| |lia]. destruct (e2 <=? em - p) eqn:Hle; [|done].
  unfold valid_binary, bounded, canonical_mantissa. cbn [Zdigits2] in Hcan. rewrite Hcan, Z.eqb_refl, Hle. done.
Qed.

Lemma digits_shift q j : Zdigits2 (Zpos (Pos.iter xO q j)) = Zdigits2 (Zpos q) + Zpos j.
Proof.
  rewrite iter_xO. destruct (Zdigits2_bounds (Zpos q)) as [Hd Hb]; [lia|]. pose proof (Z.pow_pos_nonneg 2 (Zpos j)).
  apply Zdigits2_unique; [lia|]. replace (_ + Zpos j - 1) with (Zdigits2 (Zpos q) - 1 + Zpos j) by lia.
  rewrite !Z.pow_add_r by lia. nia.
Qed.

Lemma round_valid s m e : valid_binary p em (binary_round p em s m e) = true.
Proof.
  unfold binary_round. change (Zpos (digits2_pos m)) with (Zdigits2 (Zpos m)). unfold shl_align.
  destruct (fexp p em (Zdigits2 (Zpos m) + e) - e) as [|j|j] eqn:Ej; apply round_aux_valid; try lia.
  rewrite digits_shift. replace (_ + Zpos j + _) with (Zdigits2 (Zpos m) + e) by lia. done.
Qed.

Lemma normalize_valid z e s : valid_binary p em (binary_normalize p em z e s) = true.
Proof. destruct z; [done|apply round_valid..]. Qed.

Lemma digits_mul_pow z k : 0 < z -> 0 <= k -> Zdigits2 (z * 2 ^ k) = Zdigits2 z + k.
Proof.
  intros Hz Hk. destruct (Zdigits2_bounds z Hz) as [Hd Hb]. pose proof (Z.pow_pos_nonneg 2 k).
  apply Zdigits2_unique; [lia|]. replace (Zdigits2 z + k - 1) with (Zdigits2 z - 1 + k) by lia. rewrite !Z.pow_add_r by lia. nia.
Qed.

(** A quotient is rounded from enough digits. *)
Lemma quotient_valid s num den :
  0 < num -> 0 < den ->
  let '(q, e, l) := SFdiv_core_binary p em num 0 den 0 in valid_binary p em (binary_round_aux p em s q e l) = true.
Proof.
  intros Hn Hd. unfold SFdiv_core_binary. rewrite !Z.add_0_r, Z.sub_0_r. set (dd := Zdigits2 num - Zdigits2 den).
  set (e := Z.min (fexp p em dd) 0). replace (0 - e) with (- e) by lia.
  replace (match - e with Z0 => num | Zpos _ => _ | Zneg _ => 0 end) with (num * 2 ^ (- e)).
  2: { destruct (- e) as [|k|k] eqn:Ek; [lia|by rewrite Z.shiftl_mul_pow2 by lia|lia]. }
  pose proof (Z.pow_pos_nonneg 2 (- e) ltac:(lia) ltac:(lia)) as HP.
  pose proof (Z_div_mod (num * 2 ^ (- e)) den ltac:(lia)) as Hdiv. destruct (Z.div_eucl _ _) as [q r]. destruct Hdiv as [HN Hr].
  apply round_aux_valid; [nia|]. destruct (Zdigits2_bounds den Hd) as [Hdd Hdb].
  assert (Hnum : Zdigits2 (num * 2 ^ (- e)) = Zdigits2 num - e) by (rewrite digits_mul_pow by lia; lia).
  destruct (Zdigits2_bounds (num * 2 ^ (- e)) ltac:(nia)) as [_ Hnb]. rewrite Hnum in Hnb.
  destruct (decide (q = 0)) as [->|Hq].
  - assert (Zdigits2 num - e - 1 < Zdigits2 den) by (apply (Z.pow_lt_mono_r_iff 2); lia).
    cbn [Zdigits2]. unfold e, fexp in *. lia.
  - destruct (Zdigits2_bounds q ltac:(nia)) as [Hdq Hqb].
    assert (Zdigits2 num - e - 1 < Zdigits2 den + Zdigits2 q).
    { apply (Z.pow_lt_mono_r_iff 2); [lia..|]. rewrite Z.pow_add_r by lia. nia. }
    assert (dd <= Zdigits2 q + e) by lia. pose proof (fexp_mono dd (Zdigits2 q + e)). lia.
Qed.

(** ** Exact results *)

Lemma round_aux_exact s m k e :
  0 < m -> Zdigits2 m = p -> 0 <= k -> emin p em <= e + k <= em - p ->
  binary_round_aux p em s (m * 2 ^ k) e loc_Exact = S754_finite s (Z.to_pos m) (e + k).
Proof.
  intros Hm Hdm Hk He. pose proof (Z.pow_pos_nonneg 2 k ltac:(lia) Hk) as HP. unfold binary_round_aux.
  assert (Hs : exists mrs, shr_fexp p em (m * 2 ^ k) e loc_Exact = (mrs, e + k) /\ shr_between (m * 2 ^ k) (2 ^ k * 1) mrs).
  { unfold shr_fexp. rewrite digits_mul_pow, Hdm by lia.
    replace (fexp p em (p + k + e) - e) with k by (unfold fexp; lia).
    assert (Hb : shr_between (m * 2 ^ k) 1 (shr_record_of_loc (m * 2 ^ k) loc_Exact)) by (apply shr_of_loc_between; split; lia).
    destruct k as [|q|q]; [eexists; split; [cbn [shr]; f_equal; lia|done]|eexists; split; [reflexivity|by apply iter_shr_between]|lia]. }
  destruct Hs as (mrs & -> & H0 & _ & Hl). rewrite Z.mul_1_r in Hl. set (j := shr_m mrs) in *.
  assert (Hj : loc_of_shr_record mrs = loc_Exact /\ j = m).
  { destruct (loc_of_shr_record mrs) as [|c]; [split; [done|nia]|exfalso]. destruct Hl as [Hl _]. assert (j < m < j + 1) by nia. lia. }
  destruct Hj as [-> ->]. cbn [round_nearest_even]. unfold shr_fexp. rewrite Hdm.
  replace (fexp p em (p + (e + k)) - (e + k)) with 0 by (unfold fexp; lia). cbn [shr shr_m shr_record_of_loc].
  destruct m as [|q|q]; [lia| |lia]. by rewrite (proj2 (Z.leb_le _ _)) by lia.
Qed.

(** An integer in the form it is stored in. *)
Definition stored (s : bool) (n : Z) : spec_float := S754_finite s (Z.to_pos (n * 2 ^ (p - Zdigits2 n))) (Zdigits2 n - p).

Lemma stored_digits n : 0 < n -> Zdigits2 n <= p -> Zdigits2 (n * 2 ^ (p - Zdigits2 n)) = p.
Proof. intros Hn Hd. rewrite digits_mul_pow by lia. lia. Qed.

Lemma stored_int s n : 0 < n -> Zdigits2 n <= p -> 2 < em -> binary_normalize p em (cond_Zopp s n) 0 false = stored s n.
Proof.
  intros Hn Hd H2. destruct n as [|q|q]; [lia| |lia]. replace (binary_normalize _ _ _ _ _) with (binary_round p em s q 0) by (by destruct s).
  destruct (Zdigits2_bounds (Zpos q) Hn) as [Hd0 _].
  unfold binary_round. change (Zpos (digits2_pos q)) with (Zdigits2 (Zpos q)). set (d := Zdigits2 (Zpos q)) in *.
  replace (fexp p em (d + 0)) with (d - p) by (unfold fexp, emin; lia). unfold shl_align, stored. fold d. rewrite Z.sub_0_r.
  destruct (d - p) as [|k|k] eqn:Ek; [|lia|].
  - replace (p - d) with 0 by lia. rewrite Z.mul_1_r. rewrite <- (Z.mul_1_r (Zpos q)) at 1. change 1 with (2 ^ 0) at 1.
    rewrite round_aux_exact; [done|done|fold d; lia|done|unfold emin; lia].
  - replace (p - d) with (Zpos k) by lia. rewrite iter_xO. rewrite <- (Z.mul_1_r (Zpos q * 2 ^ Zpos k)) at 1. change 1 with (2 ^ 0) at 1.
    pose proof (Z.pow_pos_nonneg 2 (Zpos k)). rewrite round_aux_exact; [f_equal; lia|lia| |done|unfold emin; lia].
    rewrite digits_mul_pow by lia. fold d. lia.
Qed.

Lemma stored_quotient s n :
  0 < n -> Zdigits2 n <= p -> 2 < em ->
  (let '(q, e, l) := SFdiv_core_binary p em n 0 1 0 in binary_round_aux p em s q e l) = stored s n.
Proof.
  intros Hn Hd H2. destruct (Zdigits2_bounds n Hn) as [Hd0 _]. unfold SFdiv_core_binary. change (Zdigits2 1) with 1.
  set (d := Zdigits2 n) in *. replace (Z.min _ _) with (d - 1 - p) by (unfold fexp, emin; lia).
  replace (0 - 0 - (d - 1 - p)) with (p + 1 - d) by lia. destruct (p + 1 - d) as [|k|k] eqn:Ek; [lia| |lia].
  rewrite Z.shiftl_mul_pow2 by lia. pose proof (Z_div_mod (n * 2 ^ Zpos k) 1 ltac:(lia)) as Hdiv.
  destruct (Z.div_eucl _ _) as [q r]. destruct Hdiv as [HN Hr]. replace r with 0 by lia. change (new_location 1 0) with loc_Exact.
  replace q with (n * 2 ^ (p - d) * 2 ^ 1) by (rewrite <- Z.mul_assoc, <- Z.pow_add_r by lia; replace (p - d + 1) with (Zpos k) by lia; lia).
  pose proof (Z.pow_pos_nonneg 2 (p - d)). rewrite round_aux_exact; [|lia|by apply stored_digits|lia|unfold emin; lia].
  unfold stored. fold d. f_equal. lia.
Qed.
End validity.

(** ** Texts of whole numbers *)

Lemma ndigits_bounds fuel z : 0 < z -> z < 10 ^ Z.of_nat fuel -> 0 < ndigits fuel z /\ 10 ^ (ndigits fuel z - 1) <= z < 10 ^ ndigits fuel z.
Proof.
  revert z. induction fuel as [|fuel IH]; intros z Hz Hf; [cbn in Hf; lia|]. cbn [ndigits].
  destruct (Z.ltb_spec z 10) as [H|H]; [cbn; lia|].
  rewrite Nat2Z.inj_succ, Z.pow_succ_r in Hf by lia. pose proof (Z.div_mod z 10 ltac:(lia)). pose proof (Z.mod_pos_bound z 10 ltac:(lia)).
  destruct (IH (z / 10)) as [Hn0 [Hn1 Hn2]]; [lia..|]. split; [lia|].
  replace (1 + ndigits fuel (z / 10) - 1) with (Z.succ (ndigits fuel (z / 10) - 1)) by lia.
  replace (1 + ndigits fuel (z / 10)) with (Z.succ (ndigits fuel (z / 10))) by lia. rewrite !Z.pow_succ_r by lia. lia.
Qed.

Lemma digits_length w z : length (digits w z) = w.
Proof. revert z. induction w as [|w IH]; intros z; cbn [digits]; [done|]. rewrite length_app, IH. cbn. lia. Qed.

Lemma digits_zeros w k z : digits (w + k) (z * 10 ^ Z.of_nat k) = digits w z ++ replicate k 48.
Proof.
  induction k as [|k IH]; [by rewrite Nat.add_0_r, Z.mul_1_r, app_nil_r|].
  replace (w + S k)%nat with (S (w + k)) by lia. cbn [digits]. rewrite Nat2Z.inj_succ, Z.pow_succ_r by lia.
  replace (z * (10 * 10 ^ Z.of_nat k)) with (z * 10 ^ Z.of_nat k * 10) by ring. rewrite Z.div_mul, Z.mod_mul by lia.
  by rewrite IH, <- app_assoc, <- replicate_cons_app.
Qed.

Lemma strip_zeros k : strip (replicate k 48) = [].
Proof. induction k as [|k IH]; [done|]. cbn [replicate strip]. by rewrite IH. Qed.

Lemma scan_digits_digits w z acc rest :
  0 <= z -> scan_digits acc (digits w z ++ rest) = scan_digits (acc * 10 ^ Z.of_nat w + z mod 10 ^ Z.of_nat w) rest.
Proof.
  revert z acc rest. induction w as [|w IH]; intros z acc rest Hz.
  { cbn [digits app]. cbn. rewrite Z.mod_1_r. f_equal; lia. }
  cbn [digits]. rewrite <- app_assoc, IH by (apply Z.div_pos; lia). cbn [app scan_digits].
  pose proof (Z.mod_pos_bound z 10 ltac:(lia)). assert (isdigit (48 + z mod 10) = true) as -> by (unfold isdigit; lia).
  f_equal. rewrite Nat2Z.inj_succ, Z.pow_succ_r by lia.
  rewrite (Z.rem_mul_r z 10 (10 ^ Z.of_nat w)) by (pose proof (Z.pow_pos_nonneg 10 (Z.of_nat w)); lia). lia.
Qed.

Lemma digits_first w z : 0 <= z -> digit_first (digits (S w) z).
Proof.
  revert z. induction w as [|w IH]; intros z Hz.
  - eexists _, []. split; [reflexivity|]. pose proof (Z.mod_pos_bound z 10 ltac:(lia)). unfold isdigit. lia.
  - cbn [digits]. destruct (IH (z / 10)) as (c & r & Hl & Hc); [apply Z.div_pos; lia|].
    cbn [digits] in Hl. rewrite Hl. by eexists c, _.
Qed.

(** A text of digits, with or without a sign, is the integer. *)
Lemma scan_decimal_digits (s : bool) w z :
  0 <= z < 10 ^ Z.of_nat (S w) -> scan_decimal ((if s then [45] else []) ++ digits (S w) z) = Some (mkDecimal s z 0).
Proof.
  intros Hz. unfold scan_decimal. set (l := digits (S w) z).
  assert (Hsign : match (if s then [45] else []) ++ l with 45 :: t => (true, t) | 43 :: t => (false, t) | _ => (false, (if s then [45] else []) ++ l) end = (s, l)).
  { destruct s; [done|]. cbn [app]. destruct (digits_first w z) as (c & r & Hl & Hc); [lia|]. unfold l. rewrite Hl.
    unfold isdigit in Hc. destruct c as [|c|c]; [done| |done]. do 6 (destruct c as [c|c|]; try done). }
  rewrite Hsign. pose proof (scan_digits_digits (S w) z 0 [] ltac:(lia)) as Hscan. rewrite app_nil_r, Z.mod_small in Hscan by lia.
  cbn [scan_digits] in Hscan. rewrite Z.mul_0_l, Z.add_0_l in Hscan. fold l in Hscan. rewrite Hscan. rewrite Z.add_0_r.
  replace (_ =? 0) with false; [done|]. symmetry. apply Z.eqb_neq. unfold zlen, l. rewrite digits_length. cbn [length]. lia.
Qed.

Lemma round_div_exact n den : 0 < den -> round_div (n * den) den = n.
Proof. intros Hd. unfold round_div. rewrite Z.div_mul, Z.mod_mul by lia. unfold new_location. by destruct (Z.even den). Qed.

Lemma general_int n :
  0 < n < 10 ^ 6 ->
  exists w, n < 10 ^ Z.of_nat (S w) /\
    forall den, 0 < den -> (let '(m, x) := six_digits (n * den) den in general m x) = digits (S w) n.
Proof.
  intros Hn. set (nd := ndigits (Z.to_nat (Z.log2 n + 1)) n).
  destruct (ndigits_bounds (Z.to_nat (Z.log2 n + 1)) n) as [H0 [H1 H2]]; [lia| |].
  { pose proof (Z.log2_nonneg n). rewrite Z2Nat.id by lia. destruct (Z.log2_spec n) as [_ Hl]; [lia|].
    eapply Z.lt_le_trans; [exact Hl|]. apply Z.pow_le_mono_l. lia. }
  fold nd in H0, H1, H2. assert (H6 : nd - 1 < 6) by (apply (Z.pow_lt_mono_r_iff 10); lia).
  exists (Z.to_nat (nd - 1)). replace (Z.of_nat (S (Z.to_nat (nd - 1)))) with nd by lia. split; [done|]. intros den Hden.
  assert (Hx : dec_exponent (n * den) den = nd - 1).
  { unfold dec_exponent. rewrite (proj2 (Z.leb_le _ _)) by nia. by rewrite Z.div_mul by lia. }
  unfold six_digits. rewrite Hx. rewrite (proj2 (Z.leb_le 0 _)) by lia.
  replace (n * den * 10 ^ (5 - (nd - 1))) with (n * 10 ^ (6 - nd) * den) by (replace (5 - (nd - 1)) with (6 - nd) by lia; ring).
  rewrite round_div_exact by done.
  assert (Hlt : n * 10 ^ (6 - nd) < 10 ^ 6).
  { replace (10 ^ 6) with (10 ^ nd * 10 ^ (6 - nd)) by (rewrite <- Z.pow_add_r by lia; f_equal; lia).
    apply Z.mul_lt_mono_pos_r; [apply Z.pow_pos_nonneg; lia|done]. }
  rewrite (proj2 (Z.eqb_neq _ _)) by lia. unfold general.
  replace ((nd - 1 <? -4) || (6 <=? nd - 1)) with false by lia. rewrite (proj2 (Z.leb_le 0 _)) by lia.
  replace (nd - 1 + 1) with nd by lia. replace (S (Z.to_nat (nd - 1))) with (Z.to_nat nd) by lia.
  set (k := Z.to_nat (6 - nd)). replace (6 - nd) with (Z.of_nat k) by lia. replace 6%nat with (Z.to_nat nd + k)%nat by lia.
  rewrite digits_zeros, take_app_length', drop_app_length' by (by rewrite digits_length).
  unfold fraction. by rewrite strip_zeros, app_nil_r.
Qed.

(** ** The two formats *)

Definition is_format (f : Format) : Prop := f = binary32 \/ f = binary64.

Lemma format_bounds f : is_format f -> 0 < prec f /\ prec f < emax f /\ 20 <= prec f.
Proof. by intros [-> | ->]. Qed.

Lemma of_int_valid f z : is_format f -> valid f (of_int f z).
Proof. intros Hf. destruct (format_bounds f Hf) as (H1 & H2 & _). by apply normalize_valid. Qed.

Lemma convert_valid f x : is_format f -> valid f (convert f x).
Proof. intros Hf. destruct (format_bounds f Hf) as (H1 & H2 & _). destruct x; [done..|]. by apply round_valid. Qed.

Lemma scan_digits_nonneg s acc : 0 <= acc -> 0 <= (scan_digits acc s).1.
Proof.
  revert acc. induction s as [|c s IH]; intros acc H; cbn [scan_digits]; [done|].
  destruct (isdigit c) eqn:Hc; [|done]. apply IH. unfold isdigit in Hc. lia.
Qed.

Lemma scan_decimal_nonneg s d : scan_decimal s = Some d -> 0 <= d_digits d.
Proof.
  unfold scan_decimal. destruct (match s with 45 :: t => (true, t) | 43 :: t => (false, t) | _ => (false, s) end) as [neg s1].
  pose proof (scan_digits_nonneg s1 0 ltac:(lia)) as Hi. destruct (scan_digits 0 s1) as [i s2]. cbn [fst] in Hi.
  assert (Hd : 0 <= (match s2 with 46 :: t => scan_digits i t | _ => (i, s2) end).1).
  { repeat case_match; try done. by apply scan_digits_nonneg. }
  destruct (match s2 with 46 :: t => scan_digits i t | _ => (i, s2) end) as [d' s3]. cbn [fst] in Hd.
  case_match; [done|]. intros H'. apply bind_Some in H' as (x & _ & [= <-]). done.
Qed.

Lemma nearest_decimal_valid f d : is_format f -> 0 <= d_digits d -> valid f (nearest_decimal f d).
Proof.
  intros Hf Hd. destruct (format_bounds f Hf) as (H1 & H2 & _). unfold nearest_decimal.
  destruct (Z.eqb_spec (d_digits d) 0) as [|Hne]; [done|].
  pose proof (Z.pow_pos_nonneg 10 (Z.max (d_exp d) 0)). pose proof (Z.pow_pos_nonneg 10 (Z.max (- d_exp d) 0)).
  pose proof (quotient_valid (prec f) (emax f) H1 H2 (d_neg d) (d_digits d * 10 ^ Z.max (d_exp d) 0) (10 ^ Z.max (- d_exp d) 0)
    ltac:(nia) ltac:(nia)) as Hq.
  destruct (SFdiv_core_binary _ _ _ _ _ _) as [[q e] l]. destruct (binary_round_aux _ _ _ q e l) as [|s| |]; [done| |done..].
  destruct s, Hf as [-> | ->]; done.
Qed.

Lemma read_float_valid f s : is_format f -> valid f (read_float f s).
Proof.
  intros Hf. unfold read_float. destruct (scan_decimal (skip_ws s)) as [d|] eqn:E; [|done].
  apply nearest_decimal_valid; [done|]. by eapply scan_decimal_nonneg.
Qed.

(** A number of the format is its own conversion. *)
Lemma convert_id f x : is_format f -> valid f x -> convert f x = x.
Proof.
  intros Hf Hv. destruct x as [| | |s m e]; [done..|]. unfold valid, valid_binary, bounded in Hv.
  apply andb_true_iff in Hv as [Hc He]. unfold canonical_mantissa in Hc. apply Z.eqb_eq in Hc.
  unfold convert, binary_round. rewrite Hc. unfold shl_align. rewrite Z.sub_diag. unfold binary_round_aux, shr_fexp.
  cbn [Zdigits2]. rewrite Hc, Z.sub_diag. cbn [shr shr_record_of_loc shr_m loc_of_shr_record round_nearest_even Zdigits2].
  rewrite Hc, Z.sub_diag. cbn [shr shr_m]. by rewrite He.
Qed.

Lemma digits_whole f n : is_format f -> Z.abs n < 10 ^ 6 -> n <> 0 -> Zdigits2 (Z.abs n) <= prec f.
Proof.
  intros Hf Hn Hn0. destruct (format_bounds f Hf) as (_ & _ & H20). destruct (Zdigits2_between (Z.abs n) 1 20); [lia| |lia].
  split; [cbn; lia|]. transitivity (10 ^ 6); [lia|done].
Qed.

(** Whole numbers are printed in full. *)
Lemma print_whole f s a :
  is_format f -> 0 < a < 10 ^ 6 ->
  exists w, a < 10 ^ Z.of_nat (S w) /\ print_float (stored (prec f) s a) = (if s then [45] else []) ++ digits (S w) a.
Proof.
  intros Hf Ha. pose proof (digits_whole f a Hf ltac:(lia) ltac:(lia)) as Hd. rewrite Z.abs_eq in Hd by lia.
  destruct (general_int a Ha) as (w & Hw & Hg). exists w. split; [done|].
  unfold print_float, stored. pose proof (Z.pow_pos_nonneg 2 (prec f - Zdigits2 a) ltac:(lia) ltac:(lia)) as HP.
  rewrite Z.max_r by lia. rewrite Z.max_l by lia. rewrite Z2Pos.id by nia. rewrite Z.mul_1_r.
  replace (- (Zdigits2 a - prec f)) with (prec f - Zdigits2 a) by lia. specialize (Hg _ HP).
  destruct (six_digits _ _) as [m x]. by rewrite Hg.
Qed.

(** White space is no part of them. *)
Lemma signed_digits_ws (s : bool) w a : 0 <= a -> skip_ws ((if s then [45] else []) ++ digits (S w) a) = (if s then [45] else []) ++ digits (S w) a.
Proof. intros Ha. destruct s; [done|]. by apply (digit_first_scan (digits (S w) a)), digits_first. Qed.

Lemma of_int_stored f n :
  is_format f -> Z.abs n < 10 ^ 6 -> n <> 0 -> of_int f n = stored (prec f) (n <? 0) (Z.abs n).
Proof.
  intros Hf Hn Hn0. destruct (format_bounds f Hf) as (H1 & H2 & H20). pose proof (digits_whole f n Hf Hn Hn0).
  unfold of_int. rewrite <- (stored_int (prec f) (emax f)) by lia. f_equal. unfold cond_Zopp. destruct (Z.ltb_spec n 0); lia.
Qed.

(** Whole numbers below a million survive their texts: they are printed in full, and
    read back as the same number. *)
Theorem whole_text_roundtrip (f : Format) (n : Z) :
  is_format f -> Z.abs n < 10 ^ 6 ->
  skip_ws (print_float (of_int f n)) <> [] /\ read_float f (print_float (of_int f n)) = of_int f n.
Proof.
  intros Hf Hn. destruct (format_bounds f Hf) as (H1 & H2 & H20). destruct (decide (n = 0)) as [->|Hn0]; [done|].
  pose proof (digits_whole f n Hf Hn Hn0) as Hd. rewrite (of_int_stored f n) by done.
  set (s := n <? 0). set (a := Z.abs n) in *. assert (Ha : 0 < a < 10 ^ 6) by lia. clearbody s a.
  destruct (print_whole f s a Hf Ha) as (w & Hw & ->). unfold read_float. rewrite signed_digits_ws by lia.
  split; [destruct s; [done|]; destruct (digits_first w a) as (c & r & -> & _); [lia|done]|].
  rewrite scan_decimal_digits by lia. unfold nearest_decimal. cbn [d_digits d_exp d_neg].
  rewrite (proj2 (Z.eqb_neq a 0)) by lia. cbn [Z.max Z.compare Z.opp]. rewrite Z.mul_1_r.
  pose proof (stored_quotient (prec f) (emax f) H1 H2 s a ltac:(lia) Hd ltac:(lia)) as Hq.
  change (10 ^ 0) with 1. destruct (SFdiv_core_binary _ _ _ _ _ _) as [[q e] l]. by rewrite Hq.
Qed.

Lemma whole_text_roundtrip_witness : read_float binary32 (print_float (of_int binary32 (-4711))) = of_int binary32 (-4711).
Proof. apply (whole_text_roundtrip binary32 (-4711)); [by left|lia]. Defined.

(** Seven digits do not survive. *)
Example seven_digits_lost :
  print_float (of_int binary64 1234567) = str "1.23457e+06" /\
  read_float binary64 (print_float (of_int binary64 1234567)) = of_int binary64 1234570.
Proof. vm_compute. done. Qed.
