(* ===== verification/ReflectValue.v ===== *)
(** * Type-erased values and calls through them: reflect/Value.{h,cpp}, the calls
    of Method.h and Field.h

    A [World] is the registry of classes and a store of cells: variables of the
    program and the temporaries that values own.  A [Value] is the value class the
    templates pick for a type and the cell its member [m_value] is in, or refers
    to: [NumberValue] with [ref] set is [NumberValue<T&>], and its cell is the
    variable of the caller.  Values of a const type do not compile
    ([valueDataReference] would drop the const), so there are none.  An object of a
    class, and a function object of some type, is a number that stands for its
    contents, which belong to the application.

    A number is an integer or a floating-point number ([FloatText]).  One definition
    stands for the accessors of all types of numbers: [numberValue KInt] is
    [intValue], and so on.  [char] is signed.  Cells are never freed. *)

From stdpp Require Import base list numbers strings gmap.
From Stdlib Require Import ZArith Lia.
From Stdlib Require Import Floats.SpecFloat.
From S2P Require Import Prelude HttpHeader Double FloatText TypeDescriptor Reflect.

(** ** Numbers and their texts *)

Inductive NumKind := KInt | KInt64 | KChar | KInt8 | KShort | KBool | KFloat | KDouble.

#[export] Instance NumKind_eq_dec : EqDecision NumKind.
Proof. solve_decision. Defined.

Inductive Num := NInt (z : Z) | NFlt (x : spec_float).

Definition plain_of (k : NumKind) : Plain :=
  match k with
  | KInt => PInt | KInt64 => PInt64 | KChar => PChar | KInt8 => PInt8 | KShort => PShort | KBool => PBool
  | KFloat => PFloat | KDouble => PDouble
  end.

(** The format of a floating-point type. *)
Definition format (k : NumKind) : option Format :=
  match k with KFloat => Some binary32 | KDouble => Some binary64 | _ => None end.

(** The other types are integers of some width. *)
Definition width (k : NumKind) : Z :=
  match k with KInt | KFloat => 32 | KInt64 | KDouble => 64 | KChar | KInt8 => 8 | KShort => 16 | KBool => 1 end.

Definition min_of (k : NumKind) : Z := match k with KBool => 0 | _ => - 2 ^ (width k - 1) end.
Definition max_of (k : NumKind) : Z := match k with KBool => 1 | _ => 2 ^ (width k - 1) - 1 end.

Definition in_kind (k : NumKind) (n : Num) : Prop :=
  match format k, n with
  | None, NInt z => min_of k <= z <= max_of k
  | Some f, NFlt x => valid f x
  | _, _ => False
  end.

(** Conversions to an integer type: integers wrap around, what is not zero is true, and
    other floating-point numbers are truncated; the result must fit. *)
Definition int_cast (k : NumKind) (z : Z) : Z :=
  match k with
  | KBool => if z =? 0 then 0 else 1
  | _ => (z + 2 ^ (width k - 1)) mod 2 ^ width k - 2 ^ (width k - 1)
  end.

Definition float_to_int (k : NumKind) (x : spec_float) : outcome Z :=
  match k, x with
  | KBool, S754_zero _ => Ret 0
  | KBool, _ => Ret 1
  | _, _ =>
      match truncated x with
      | Some z => if decide (min_of k <= z <= max_of k) then Ret z else Undef "number out of the range of its type"
      | None => Undef "number out of the range of its type"
      end
  end.

(** [static_cast] between types of numbers. *)
Definition static_cast (k : NumKind) (n : Num) : outcome Num :=
  match format k, n with
  | Some f, NInt z => Ret (NFlt (of_int f z))
  | Some f, NFlt x => Ret (NFlt (convert f x))
  | None, NInt z => Ret (NInt (int_cast k z))
  | None, NFlt x => (let? z := float_to_int k x in Ret (NInt z))%cpp
  end.

(** [std::numeric_limits::quiet_NaN], which is 0 for integers. *)
Definition quiet_NaN (k : NumKind) : Num := match format k with Some _ => NFlt S754_nan | None => NInt 0 end.

Definition char_kind (k : NumKind) : bool := match k with KChar | KInt8 => true | _ => false end.

(** [s << value]: characters as they are, numbers in decimal. *)
Definition print_num (k : NumKind) (n : Num) : bytes :=
  match n with NInt z => if char_kind k then [u8 z] else dec z | NFlt x => print_float x end.

(** [s >> value]: [None] when the stream has nothing but white space, and the
    variable is not assigned.  A number out of range becomes the nearest one; text
    that is no number becomes 0. *)
Definition extract_int (k : NumKind) (c : Z) (s : bytes) : Z :=
  if char_kind k then int_cast k c else
  let z := match scan_int s with Some (z, _) => z | None => 0 end in
  match k with
  | KBool => if z =? 0 then 0 else 1
  | _ => Z.max (min_of k) (Z.min z (max_of k))
  end.

Definition extract_num (k : NumKind) (s : bytes) : option Num :=
  match skip_ws s with
  | [] => None
  | c :: _ => Some (match format k with Some f => NFlt (read_float f s) | None => NInt (extract_int k c s) end)
  end.

(** [toNumber]: the variable has no value before the extraction. *)
Definition toNumber (k : NumKind) (s : bytes) : outcome Num := or_undef "value is not initialised" (extract_num k s).

(** ** The store *)

Inductive Cell :=
| CNum (k : NumKind) (n : Num)
| CStr (s : bytes)
| CObj (name : bytes) (z : Z)          (* an object of the class [name] *)
| CFun (sig : nat) (z : Z).            (* an [std::function] of the [sig]-th function type *)

Inductive CellType := TyNum (k : NumKind) | TyStr | TyObj (name : bytes) | TyFun (sig : nat).

#[export] Instance CellType_eq_dec : EqDecision CellType.
Proof. solve_decision. Defined.

Definition type_of (c : Cell) : CellType :=
  match c with CNum k _ => TyNum k | CStr _ => TyStr | CObj name _ => TyObj name | CFun sig _ => TyFun sig end.

(** Function types have no descriptor. *)
Definition ctype (t : CellType) : CType :=
  match t with
  | TyNum k => TPlain (plain_of k)
  | TyStr => TPlain PString
  | TyObj name => TClass name
  | TyFun sig => TFunction (TOther sig)
  end.

Definition cell_ok (c : Cell) : Prop := match c with CNum k n => in_kind k n | _ => True end.

Record World := mkWorld { registry : Registry; heap : list Cell }.

Inductive Value :=
| Void
| NumberValue (k : NumKind) (ref : bool) (m_value : nat)
| StringValue (ref : bool) (m_value : nat)
| ObjectValue (t : CellType) (ref : bool) (m_value : nat).

Section values.
Context (describe : CType -> list Declaration).

Abbreviation WM := (M World).

Definition inRegistry {A} (m : M Registry A) : WM A :=
  fun w => match m (registry w) with
           | Ret (a, r) => Ret (a, mkWorld r (heap w))
           | Killed s => Killed s
           | Undef s => Undef s
           end.

Definition load (l : nat) : WM Cell := fun w => match heap w !! l with Some c => Ret (c, w) | None => Undef "dangling reference" end.
Definition store (l : nat) (c : Cell) : WM unit := updS (fun w => mkWorld (registry w) (<[l := c]> (heap w))).
Definition alloc (c : Cell) : WM nat :=
  let! l := getS (fun w => length (heap w)) in
  do! updS (fun w => mkWorld (registry w) (heap w ++ [c])) in
  retS l.

Definition load_num (l : nat) : WM Num :=
  let! c := load l in match c with CNum _ z => retS z | _ => undefS "type of the cell" end.
Definition load_str (l : nat) : WM bytes :=
  let! c := load l in match c with CStr s => retS s | _ => undefS "type of the cell" end.

(** ** Value.h *)

(** [isVoid], [isNumber], [isBoolean], [isString] *)
Definition isVoid (v : Value) : bool := match v with Void => true | _ => false end.
(** [std::is_arithmetic] of a reference type is false; [isBoolean] decays it. *)
Definition isNumber (v : Value) : bool := match v with NumberValue _ ref _ => negb ref | _ => false end.
Definition isBoolean (v : Value) : bool := match v with NumberValue KBool _ _ => true | _ => false end.
Definition isString (v : Value) : bool := match v with StringValue _ _ => true | _ => false end.
(** [std::is_function] is specialised for function objects and references to them. *)
Definition isFunction (v : Value) : bool := match v with ObjectValue (TyFun _) _ _ => true | _ => false end.

(** An [ObjectValue] inherits the accessors of [Value]. *)
Definition numberValue (j : NumKind) (v : Value) : WM Num :=
  match v with
  | Void | ObjectValue _ _ _ => retS (quiet_NaN j)
  | NumberValue _ _ l => let! z := load_num l in liftS (static_cast j z)
  | StringValue _ l => let! s := load_str l in liftS (toNumber j s)
  end.

Definition setNumberValue (j : NumKind) (v : Value) (x : Num) : WM unit :=
  match v with
  | Void | ObjectValue _ _ _ => retS tt
  | NumberValue k _ l => let! y := liftS (static_cast k x) in store l (CNum k y)
  | StringValue _ l => store l (CStr (print_num j x))
  end.

Definition stringValue (v : Value) : WM bytes :=
  match v with
  | Void | ObjectValue _ _ _ => retS []
  | NumberValue k _ l => let! z := load_num l in retS (print_num k z)
  | StringValue _ l => load_str l
  end.

Definition setStringValue (v : Value) (s : bytes) : WM unit :=
  match v with
  | Void | ObjectValue _ _ _ => retS tt
  | NumberValue k _ l => match extract_num k s with Some z => store l (CNum k z) | None => retS tt end
  | StringValue _ l => store l (CStr s)
  end.

(** The type whose class [getClass] returns. *)
Definition value_type (v : Value) : CType :=
  match v with
  | Void => TVoid
  | NumberValue k ref _ => if ref then TRef (TPlain (plain_of k)) else TPlain (plain_of k)
  | StringValue _ _ => TPlain PString
  | ObjectValue t ref _ => if ref then TRef (ctype t) else ctype t
  end.

Definition valueDataReference (v : Value) : option nat :=
  match v with Void => None | NumberValue _ _ l | StringValue _ l | ObjectValue _ _ l => Some l end.

(** [operator T*] for [T = t]; a failed [assert] aborts. *)
Definition value_ptr (t : CType) (v : Value) : WM (option nat) :=
  do! inRegistry (getClass describe t) in
  do! inRegistry (getClass describe (value_type v)) in
  let! b := inRegistry (isAssignableFrom t (value_type v)) in
  do! checkS b "isAssignableFrom" in
  retS (valueDataReference v).

(** [operator T&] *)
Definition value_ref (t : CType) (v : Value) : WM nat :=
  let! p := value_ptr t v in
  match p with
  | Some l => retS l
  | None => undefS "reference to null"
  end.

(** [functionObject], for the type of function [sig] *)
Definition functionObject (sig : nat) (v : Value) : WM nat :=
  do! checkS (isFunction v) "isFunction" in
  value_ref (ctype (TyFun sig)) v.

(** What a caller passes: a temporary or a variable. *)
Inductive Arg := RValue (c : Cell) | LValue (l : nat).

Definition new_value (t : CellType) (ref : bool) (l : nat) : Value :=
  match t with TyNum k => NumberValue k ref l | TyStr => StringValue ref l | _ => ObjectValue t ref l end.

(** [TypedValue<P>(std::forward<P>(argument))] *)
Definition TypedValue (a : Arg) : WM Value :=
  match a with
  | RValue c => let! l := alloc c in retS (new_value (type_of c) false l)
  | LValue l => let! c := load l in retS (new_value (type_of c) true l)
  end.

(** ** Method.h *)

(** A number by value, a reference to [T] or to [const T], or a function object,
    which is copied from the one that is referred to. *)
Inductive Param := PVal (k : NumKind) | PRef (const : bool) (t : CellType) | PFun (sig : nat).
Inductive Passed := AVal (n : Num) | ARef (l : nat).

Definition referred (const : bool) (t : CellType) : CType := if const then TConst (ctype t) else ctype t.

(** [ValueCastFunction<P>::cast] *)
Definition cast (p : Param) (v : Value) : WM Passed :=
  match p with
  | PVal k => let! z := numberValue k v in retS (AVal z)
  | PRef const t => let! l := value_ref (referred const t) v in retS (ARef l)
  | PFun sig => let! l := functionObject sig v in retS (ARef l)
  end.

(** A function or a member function: its parameters, and what it does with the
    receiver and its arguments.  It returns nothing or the contents of a cell.  A
    function whose first parameter is a reference does not compile: the overload of
    [forward] for members takes the reference for the receiver. *)
Record DeducedMethod := mkDeducedMethod {
  m_static : bool;
  m_params : list Param;
  m_method : option nat -> list Passed -> WM (option Cell)
}.

(** [ValueCastFunction<P>::cast( *values[I])...] *)
Fixpoint casts (ps : list Param) (values : list Value) : WM (list Passed) :=
  match ps, values with
  | [], _ => retS []
  | p :: ps', v :: values' =>
      let! a := cast p v in
      let! rest := casts ps' values' in
      retS (a :: rest)
  | _ :: _, [] => undefS "values out of range"
  end.

(** The results of the functions [forward]. *)
Definition box (r : option Cell) : WM Value :=
  match r with None => retS Void | Some c => TypedValue (RValue c) end.

Definition forward (m : DeducedMethod) (receiver : option nat) (values : list Value) : WM Value :=
  let! arguments := casts (m_params m) values in
  let! r := m_method m receiver arguments in
  box r.

(** [DeducedMethod<R ( * )(P...)>::invoke] and [DeducedMethod<R (C::* )(P...)>::invoke] on values:
    null when a receiver is given to a function or missing for a member. *)
Definition function_invoke (m : DeducedMethod) (receiver : option nat) (values : list Value) : WM (option Value) :=
  match receiver with
  | None => let! v := forward m None values in retS (Some v)
  | Some _ => retS None
  end.

Definition member_invoke (m : DeducedMethod) (receiver : option nat) (values : list Value) : WM (option Value) :=
  match receiver with
  | None => retS None
  | Some _ => let! v := forward m receiver values in retS (Some v)
  end.

(** The virtual call. *)
Definition invoke_values (m : DeducedMethod) (receiver : option nat) (values : list Value) : WM (option Value) :=
  if m_static m then function_invoke m receiver values else member_invoke m receiver values.

Fixpoint typed_values (args : list Arg) : WM (list Value) :=
  match args with
  | [] => retS []
  | a :: args' =>
      let! v := TypedValue a in
      let! vs := typed_values args' in
      retS (v :: vs)
  end.

(** [Method::invoke] *)
Definition invoke (m : DeducedMethod) (receiver : option nat) (args : list Arg) : WM (option Value) :=
  let! values := typed_values args in
  invoke_values m receiver values.

(** ** Field.h *)

(** A member of type [k]; the cell of the member of an object. *)
Record DeducedField := mkDeducedField { f_kind : NumKind; m_field : nat -> nat }.

(** [DeducedField::get] and [set] on values *)
Definition get_value (f : DeducedField) (receiver : nat) : WM Value :=
  let! z := load_num (m_field f receiver) in
  TypedValue (RValue (CNum (f_kind f) z)).

Definition set_value (f : DeducedField) (receiver : nat) (v : Value) : WM unit :=
  let! z := numberValue (f_kind f) v in
  store (m_field f receiver) (CNum (f_kind f) z).

(** [Field::get<T>] and [Field::set] *)
Definition Field_get (f : DeducedField) (T : NumKind) (receiver : nat) : WM Num :=
  let! v := get_value f receiver in numberValue T v.

Definition Field_set (f : DeducedField) (receiver : nat) (a : Arg) : WM unit :=
  let! v := TypedValue a in set_value f receiver v.

(** ** Numbers survive their texts *)

Lemma int_cast_id k z : format k = None -> min_of k <= z <= max_of k -> int_cast k z = z.
Proof.
  destruct k; intros [=]; cbn -[Z.pow Z.modulo]; intros H;
    [rewrite Z.mod_small by lia; lia..|]. destruct (Z.eqb_spec z 0); lia.
Qed.

Lemma format_is k f : format k = Some f -> is_format f.
Proof. destruct k; intros [= <-]; [by left|by right]. Qed.

(** A number is its own conversion to its type. *)
Lemma static_cast_id k n : in_kind k n -> static_cast k n = Ret n.
Proof.
  unfold in_kind, static_cast. destruct (format k) as [f|] eqn:Hf, n as [z|x]; try done.
  - intros Hv. by rewrite (convert_id f x (format_is k f Hf) Hv).
  - intros Hz. by rewrite int_cast_id.
Qed.

(** Numbers whose text has all there is of them: whole numbers below a million in
    floating point, and characters other than white space. *)
Definition has_text (k : NumKind) (n : Num) : Prop :=
  match format k, n with
  | None, NInt z => char_kind k = true -> isspace (u8 z) = false
  | Some f, NFlt x => exists i, Z.abs i < 10 ^ 6 /\ x = of_int f i
  | _, _ => False
  end.

Lemma extract_print_int k z :
  format k = None -> min_of k <= z <= max_of k -> (char_kind k = true -> isspace (u8 z) = false) ->
  extract_num k (print_num k (NInt z)) = Some (NInt z).
Proof.
  intros Hf Hz Hs. unfold extract_num, print_num, extract_int. rewrite Hf. destruct (char_kind k) eqn:Hk.
  - cbn [skip_ws]. rewrite (Hs eq_refl). do 2 f_equal. unfold u8.
    transitivity (int_cast k z); [|by apply int_cast_id].
    destruct k; try done; unfold int_cast; f_equal; cbn -[Z.pow Z.modulo]; by rewrite Zplus_mod_idemp_l.
  - destruct (scan_dec z) as (c & l & Hl & Hc & Hn). rewrite Hn. rewrite Hl at 1. cbn [skip_ws]. rewrite Hc. do 2 f_equal.
    destruct k; try done; [lia..|]. cbn in Hz. destruct (Z.eqb_spec z 0); lia.
Qed.

Lemma extract_print k n : in_kind k n -> has_text k n -> extract_num k (print_num k n) = Some n.
Proof.
  unfold in_kind, has_text. destruct (format k) as [f|] eqn:Hf, n as [z|x]; try done.
  - intros _ (i & Hi & ->). pose proof (format_is k f Hf) as Hff. unfold extract_num. rewrite Hf. cbn [print_num].
    destruct (whole_text_roundtrip f i Hff Hi) as [Hws Hr]. destruct (skip_ws _) as [|c r]; [done|]. by rewrite Hr.
  - by apply extract_print_int.
Qed.

(** values survive their texts.  The text of a number, given to a number of the
    same type, makes it equal, and a number put into a string value is read back
    from it, unless it is a character of white space or needs more than six digits. *)
Theorem text_roundtrip (k : NumKind) (z y : Num) (t : bytes) (ref ref' : bool) (l l' l'' : nat) (w : World) :
  in_kind k z -> has_text k z ->
  heap w !! l = Some (CNum k z) -> heap w !! l' = Some (CNum k y) -> heap w !! l'' = Some (CStr t) ->
  (exists s, stringValue (NumberValue k ref l) w = Ret (s, w) /\
     setStringValue (NumberValue k ref' l') s w = Ret (tt, mkWorld (registry w) (<[l' := CNum k z]> (heap w)))) /\
  (exists w', setNumberValue k (StringValue ref' l'') z w = Ret (tt, w') /\
     numberValue k (StringValue ref' l'') w' = Ret (z, w')).
Proof.
  intros Hz Hs Hl _ Hl''. pose proof (extract_print k z Hz Hs) as He. split.
  - exists (print_num k z). unfold stringValue, load_num, load. unfold bindS. rewrite Hl. split; [done|].
    unfold setStringValue. by rewrite He.
  - exists (mkWorld (registry w) (<[l'' := CStr (print_num k z)]> (heap w))). split; [reflexivity|].
    unfold numberValue, load_str, load. unfold bindS. cbn [heap].
    rewrite list_lookup_insert_eq by (by eapply lookup_lt_Some). cbn beta iota delta [retS]. unfold toNumber. by rewrite He.
Qed.

(** ** Arguments reach the method *)

Definition arg_cell (h : list Cell) (a : Arg) : option Cell := match a with RValue c => Some c | LValue l => h !! l end.
Definition temporary (a : Arg) : option Cell := match a with RValue c => Some c | LValue _ => None end.

(** An argument that a parameter can take: a number by value whose conversion is
    defined, a variable or temporary of the same type by reference. *)
Definition accepts (h : list Cell) (p : Param) (a : Arg) : Prop :=
  match p with
  | PVal k => exists j z y, arg_cell h a = Some (CNum j z) /\ static_cast k z = Ret y
  | PRef _ t => exists c, arg_cell h a = Some c /\ type_of c = t
  | PFun sig => exists c, arg_cell h a = Some c /\ type_of c = TyFun sig
  end.

(** What the call [f(a)] in the language passes: the number, converted; the
    variable; or the temporary, which is in [h']. *)
Definition passes (h h' : list Cell) (p : Param) (a : Arg) (x : Passed) : Prop :=
  match p, x with
  | PVal k, AVal y => exists j z, arg_cell h a = Some (CNum j z) /\ static_cast k z = Ret y
  | (PRef _ _ | PFun _), ARef l => match a with
                        | LValue l0 => l = l0
                        | RValue c => (length h <= l)%nat /\ h' !! l = Some c
                        end
  | _, _ => False
  end.

(** A value that stands for an argument. *)
Definition stands_for (h h' : list Cell) (a : Arg) (v : Value) : Prop :=
  exists c ref l, arg_cell h a = Some c /\ v = new_value (type_of c) ref l /\ h' !! l = Some c /\
    match a with LValue l0 => l = l0 | RValue _ => (length h <= l)%nat end.

Lemma typed_values_run h ts args r :
  Forall (fun a => is_Some (arg_cell h a)) args ->
  exists vs, typed_values args (mkWorld r (h ++ ts)) = Ret (vs, mkWorld r (h ++ ts ++ omap temporary args)) /\
    Forall2 (stands_for h (h ++ ts ++ omap temporary args)) args vs.
Proof.
  intros Ha. revert ts. induction Ha as [|a args [c Hc] _ IH]; intros ts.
  { exists []. by rewrite app_nil_r. }
  cbn [typed_values]. destruct a as [c'|l]; cbn [arg_cell] in Hc.
  - injection Hc as <-. destruct (IH (ts ++ [c'])) as (vs & Hvs & Hf). rewrite <-!app_assoc in Hvs, Hf. cbn [app] in Hvs, Hf.
    exists (new_value (type_of c') false (length (h ++ ts)) :: vs). cbn [omap list_omap temporary].
    unfold TypedValue, alloc. unfold bindS at 1 2. rewrite bind_get, bind_upd. cbn [retS heap registry].
    rewrite <-app_assoc, (bind_run _ _ _ _ _ Hvs). split; [done|]. constructor; [|done].
    eexists c', false, _. split; [done|]. split; [done|]. rewrite app_assoc, length_app. split; [|lia].
    rewrite lookup_app_r by (rewrite length_app; lia). by rewrite length_app, Nat.sub_diag.
  - destruct (IH ts) as (vs & Hvs & Hf). exists (new_value (type_of c) true l :: vs). cbn [omap list_omap temporary].
    unfold TypedValue, load. unfold bindS at 1 2. cbn [heap]. rewrite (lookup_app_l_Some _ _ _ _ Hc).
    cbn [retS]. rewrite (bind_run _ _ _ _ _ Hvs). split; [done|]. constructor; [|done].
    exists c, true, l. split; [done|]. split; [done|]. split; [|done]. by apply lookup_app_l_Some.
Qed.

Lemma value_key const t ref l :
  key (value_type (new_value t ref l)) = key (ctype t) /\ key (referred const t) = key (ctype t).
Proof. split; [destruct t as [[]| | |], ref|destruct const, t as [[]| | |]]; done. Qed.

(** The check of [operator T&] passes exactly when the descriptors are the same. *)
Lemma value_ref_run const t t' ref l r h :
  reg_inv r ->
  exists r', reg_inv r' /\
    value_ref (referred const t) (new_value t' ref l) (mkWorld r h)
    = if decide (key (ctype t) = key (ctype t')) then Ret (l, mkWorld r' h) else Killed "isAssignableFrom".
Proof.
  intros Hi. set (u := referred const t). set (v := new_value t' ref l).
  destruct (getClass_total describe u r Hi) as (r1 & H1 & Hi1 & Hu1 & _).
  destruct (getClass_total describe (value_type v) r1 Hi1) as (r2 & H2 & Hi2 & Hv2 & Hsub).
  exists r2. split; [done|]. unfold value_ref, value_ptr, inRegistry. unfold bindS. cbn [registry heap].
  rewrite H1. cbn [registry heap]. rewrite H2. cbn [registry heap].
  rewrite (assignable_key u (value_type v) r2 Hi2 (Hsub _ Hu1) Hv2).
  destruct (value_key const t ref l) as [_ Hk2], (value_key const t' ref l) as [Hk1 _]. subst u v. cbn [registry heap].
  rewrite Hk1, Hk2. destruct (decide (key (ctype t) = key (ctype t'))) as [Heq|Hne].
  - rewrite bool_decide_true by done. by destruct t'.
  - by rewrite bool_decide_false.
Qed.

Lemma cast_run h h' p a v r :
  reg_inv r -> accepts h p a -> stands_for h h' a v ->
  exists x r', reg_inv r' /\ cast p v (mkWorld r h') = Ret (x, mkWorld r' h') /\ passes h h' p a x.
Proof.
  intros Hi Hacc (c & ref & l & Hc & -> & Hl & Ha). destruct p as [k|const t|sig]; cbn [accepts cast] in *.
  - destruct Hacc as (j & z & y & Hz & Hy). rewrite Hz in Hc. injection Hc as <-. exists (AVal y), r.
    split; [done|]. cbn [new_value type_of numberValue]. unfold load_num, load. unfold bindS. cbn [heap]. rewrite Hl.
    cbn beta iota delta [retS]. unfold liftS. rewrite Hy. split; [done|]. by exists j, z.
  - destruct Hacc as (c' & Hc' & <-). rewrite Hc' in Hc. injection Hc as ->.
    destruct (value_ref_run const (type_of c) (type_of c) ref l r h' Hi) as (r' & Hi' & Hv).
    rewrite decide_True in Hv by done. exists (ARef l), r'. split; [done|]. rewrite (bind_run _ _ _ _ _ Hv). split; [done|].
    cbn [passes]. destruct a; [|done]. by injection Hc' as ->.
  - destruct Hacc as (c' & Hc' & Hsig). rewrite Hc' in Hc. injection Hc as ->. rewrite Hsig.
    destruct (value_ref_run false (TyFun sig) (TyFun sig) ref l r h' Hi) as (r' & Hi' & Hv).
    rewrite decide_True in Hv by done. exists (ARef l), r'. split; [done|]. unfold functionObject. unfold bindS at 1.
    cbn [isFunction new_value checkS]. rewrite bind_ret. cbn [new_value referred] in Hv. rewrite Hv. split; [done|].
    cbn [passes]. destruct a; [|done]. by injection Hc' as ->.
Qed.

Lemma casts_run h h' ps args vs r :
  reg_inv r -> Forall2 (accepts h) ps args -> Forall2 (stands_for h h') args vs ->
  exists xs r', reg_inv r' /\ casts ps vs (mkWorld r h') = Ret (xs, mkWorld r' h') /\ Forall3 (passes h h') ps args xs.
Proof.
  intros Hi Hacc. revert r vs Hi. induction Hacc as [|p a ps args Hp _ IH]; intros r vs Hi Hs.
  { exists [], r. split; [done|]. split; [done|constructor]. }
  apply Forall2_cons_inv_l in Hs as (v & vs' & Hv & Hvs & ->). cbn [casts].
  destruct (cast_run h h' p a v r Hi Hp Hv) as (x & r1 & Hi1 & Hx & Hpx).
  destruct (IH r1 vs' Hi1 Hvs) as (xs & r2 & Hi2 & Hxs & Hpxs). exists (x :: xs), r2.
  rewrite (bind_run _ _ _ _ _ Hx), (bind_run _ _ _ _ _ Hxs). split; [done|]. split; [done|by constructor].
Qed.

Lemma accepts_cell h p a : accepts h p a -> is_Some (arg_cell h a).
Proof. destruct p; cbn [accepts]; [intros (j & z & y & -> & _)|intros (c & -> & _)|intros (c & -> & _)]; done. Qed.

(** C36: a call through reflection is a call.  When each argument can be taken by
    its parameter, [Method::invoke] runs the method on what a direct call passes:
    numbers converted to the type of the parameter, the caller's own variables by
    reference, and temporaries, in a store that grows only by these; the result
    comes back as a value. *)
Theorem invoke_direct (m : DeducedMethod) (receiver : option nat) (args : list Arg) (r : Registry) (h : list Cell) :
  reg_reach describe r -> m_static m = bool_decide (receiver = None) -> Forall2 (accepts h) (m_params m) args ->
  exists xs r', reg_inv r' /\ Forall3 (passes h (h ++ omap temporary args)) (m_params m) args xs /\
    invoke m receiver args (mkWorld r h)
    = (let! res := m_method m receiver xs in let! v := box res in retS (Some v)) (mkWorld r' (h ++ omap temporary args)).
Proof.
  intros Hr Hst Hacc. destruct (typed_values_run h [] args r) as (vs & Hvs & Hs).
  { clear -Hacc. induction Hacc; constructor; [by eapply accepts_cell|done]. }
  rewrite app_nil_r in Hvs. cbn [app] in Hvs, Hs.
  destruct (casts_run h _ (m_params m) args vs r (reg_reach_inv describe r Hr) Hacc Hs) as (xs & r' & Hi' & Hxs & Hp).
  exists xs, r'. split; [done|]. split; [done|]. unfold invoke. rewrite (bind_run _ _ _ _ _ Hvs).
  assert (Hi : invoke_values m receiver vs = (let! v := forward m receiver vs in retS (Some v))).
  { unfold invoke_values. rewrite Hst. by destruct receiver. }
  rewrite Hi. unfold forward. unfold bindS at 1 2. rewrite Hxs. unfold bindS. by destruct (m_method m receiver xs _) as [[? ?]| |].
Qed.

(** ** Values keep the types of their cells *)

(** The cell of a value holds what the value is made for. *)
Definition value_ok (h : list Cell) (v : Value) : Prop :=
  match v with
  | Void => True
  | NumberValue k _ l => exists z, h !! l = Some (CNum k z)
  | StringValue _ l => exists s, h !! l = Some (CStr s)
  | ObjectValue t _ l => exists c, h !! l = Some c /\ type_of c = t
  end.

Definition store_ok (h : list Cell) : Prop := Forall cell_ok h.

(** The same cells with the same types. *)
Definition same_types (h h' : list Cell) : Prop := type_of <$> h' = type_of <$> h.

Lemma int_cast_in k z : format k = None -> min_of k <= int_cast k z <= max_of k.
Proof.
  destruct k; intros [=]; cbn -[Z.pow Z.modulo];
    try match goal with |- context [?a mod ?b] => pose proof (Z.mod_pos_bound a b ltac:(lia)); lia end.
  destruct (z =? 0); lia.
Qed.

(** A floating-point number without an integer of the type. *)
Definition unfit (k : NumKind) (n : Num) : Prop :=
  match format k, n with
  | None, NFlt x => k <> KBool /\ forall z, truncated x = Some z -> ~ (min_of k <= z <= max_of k)
  | _, _ => False
  end.

(** A conversion gives a number of the type, or there is none. *)
Lemma static_cast_in k n :
  (exists y, static_cast k n = Ret y /\ in_kind k y) \/
  (unfit k n /\ static_cast k n = Undef "number out of the range of its type").
Proof.
  unfold static_cast, in_kind, unfit. destruct (format k) as [f|] eqn:Hf, n as [z|x].
  - left. eexists. split; [reflexivity|]. by apply of_int_valid, (format_is k).
  - left. eexists. split; [reflexivity|]. by apply convert_valid, (format_is k).
  - left. eexists. split; [reflexivity|]. by apply int_cast_in.
  - destruct (decide (k = KBool)) as [->|Hk]; [left; destruct x; eexists; split; [reflexivity|cbn; lia|reflexivity|cbn; lia|reflexivity|cbn; lia|reflexivity|cbn; lia]|].
    assert (Hr : float_to_int k x = match truncated x with
      | Some z => if decide (min_of k <= z <= max_of k) then Ret z else Undef "number out of the range of its type"
      | None => Undef "number out of the range of its type" end) by (destruct k; done).
    rewrite Hr. destruct (truncated x) as [z|] eqn:Ht; [destruct (decide (min_of k <= z <= max_of k)) as [Hz|Hz]|].
    + left. by eexists.
    + right. split; [|done]. split; [done|]. by intros ? [= <-].
    + right. split; [|done]. by split.
Qed.

Lemma quiet_NaN_in j : in_kind j (quiet_NaN j).
Proof. destruct j; vm_compute; done. Qed.

Lemma extract_in k s z : extract_num k s = Some z -> in_kind k z.
Proof.
  unfold extract_num, in_kind. destruct (skip_ws s) as [|c r]; [done|]. intros [= <-].
  destruct (format k) as [f|] eqn:Hf; [by apply read_float_valid, (format_is k)|]. unfold extract_int.
  destruct (char_kind k); [by apply int_cast_in|].
  destruct k; try done; cbn -[Z.pow Z.min Z.max]; try lia. destruct (_ =? 0); lia.
Qed.

Lemma skip_ws_nil s : skip_ws s = [] -> Forall (fun c => isspace c = true) s.
Proof.
  induction s as [|c s IH]; [constructor|]. cbn [skip_ws]. destruct (isspace c) eqn:Hc; [|done].
  intros H. apply Forall_cons. split; [exact Hc|exact (IH H)].
Qed.

Lemma extract_blank k s : extract_num k s = None -> Forall (fun c => isspace c = true) s.
Proof. unfold extract_num. destruct (skip_ws s) eqn:Hs; [|done]. intros _. by apply skip_ws_nil. Qed.

Lemma same_types_insert h l c c' : h !! l = Some c -> type_of c' = type_of c -> same_types h (<[l := c']> h).
Proof.
  intros Hl Ht. unfold same_types. rewrite list_fmap_insert, Ht. apply list_insert_id. by rewrite list_lookup_fmap, Hl.
Qed.

Lemma store_ok_insert h l c : store_ok h -> cell_ok c -> store_ok (<[l := c]> h).
Proof. intros Hh Hc. by apply Forall_insert. Qed.

(** What a setter may do. *)
Definition sets (v : Value) (m : WM unit) (w : World) : Prop :=
  exists w', m w = Ret (tt, w') /\ registry w' = registry w /\ same_types (heap w) (heap w') /\ store_ok (heap w') /\
    value_ok (heap w') v.

Lemma sets_nothing v w : store_ok (heap w) -> value_ok (heap w) v -> sets v (retS tt) w.
Proof. intros Hs Hv. by exists w. Qed.

Lemma sets_cell v l c c' w :
  store_ok (heap w) -> heap w !! l = Some c -> type_of c' = type_of c -> cell_ok c' ->
  (value_ok (<[l := c']> (heap w)) v) -> sets v (store l c') w.
Proof.
  intros Hs Hl Ht Hc Hv. eexists. split; [reflexivity|]. cbn [registry heap]. split; [done|].
  split; [by eapply same_types_insert|]. split; [by apply store_ok_insert|done].
Qed.

(** The type of number a setter has to convert to. *)
Definition target (v : Value) : option NumKind := match v with NumberValue k _ _ => Some k | _ => None end.

(** What an accessor returns: a number of its type; or what it does is undefined, for a
    blank string and for a floating-point number that does not fit. *)
Definition reads (j : NumKind) (v : Value) (w : World) : Prop :=
  (exists z, numberValue j v w = Ret (z, w) /\ in_kind j z) \/
  (exists ref l s, v = StringValue ref l /\ heap w !! l = Some (CStr s) /\ Forall (fun c => isspace c = true) s /\
     numberValue j v w = Undef "value is not initialised") \/
  (exists k ref l x, v = NumberValue k ref l /\ heap w !! l = Some (CNum k x) /\ unfit j x /\
     numberValue j v w = Undef "number out of the range of its type").

(** C39: values are typed.  The setters of a value leave every cell of the store with
    its type and its number in the range or format of that type, whatever number they
    are given that fits the type, and whatever text; storing a floating-point number that
    does not fit an integer type is not covered.  An accessor returns a number of its own
    type, except in two cases, where what it does is undefined: a string that holds
    nothing but white space, and a floating-point number that does not fit. *)
Theorem values_typed (v : Value) (w : World) :
  store_ok (heap w) -> value_ok (heap w) v ->
  (forall j x, (forall k, target v = Some k -> ~ unfit k x) -> sets v (setNumberValue j v x) w) /\
  (forall s, sets v (setStringValue v s) w) /\ (forall j, reads j v w).
Proof.
  intros Hs Hv. destruct v as [|k ref l|ref l|t ref l]; cbn [value_ok setNumberValue setStringValue target] in *.
  - split_and!; [intros; by apply sets_nothing..|]. intros j. left. eexists. split; [reflexivity|apply quiet_NaN_in].
  - destruct Hv as [z Hl]. assert (Hlt := lookup_lt_Some _ _ _ Hl).
    assert (Hset : forall y, in_kind k y -> sets (NumberValue k ref l) (store l (CNum k y)) w).
    { intros y Hy. eapply sets_cell; [done|exact Hl|done|done|]. exists y. by apply list_lookup_insert_eq. }
    split_and!.
    + intros j x Hx. destruct (static_cast_in k x) as [(y & Hy & Hk)|[Hu _]]; [|by destruct (Hx k)].
      rewrite Hy. exact (Hset y Hk).
    + intros s. destruct (extract_num k s) as [y|] eqn:He; [by apply Hset; eapply extract_in|].
      apply sets_nothing; [done|by exists z].
    + intros j. assert (Hnum : numberValue j (NumberValue k ref l) w = liftS (static_cast j z) w).
      { cbn [numberValue]. unfold load_num, load, bindS. by rewrite Hl. }
      unfold reads. rewrite Hnum. destruct (static_cast_in j z) as [(y & -> & Hk)|[Hu ->]]; [left; by exists y|].
      right. right. by exists k, ref, l, z.
  - destruct Hv as [s0 Hl]. assert (Hlt := lookup_lt_Some _ _ _ Hl).
    assert (Hset : forall s, sets (StringValue ref l) (store l (CStr s)) w).
    { intros s. eapply sets_cell; [done|exact Hl|done|done|]. exists s. by apply list_lookup_insert_eq. }
    split_and!; [intros; apply Hset..|]. intros j. unfold reads. cbn [numberValue]. unfold load_str, load, bindS, toNumber. rewrite Hl.
    cbn beta iota delta [retS]. destruct (extract_num j s0) as [z|] eqn:He; [left; exists z|right; left; exists ref, l, s0].
    + split; [done|by eapply extract_in].
    + split_and!; [done..|by eapply extract_blank|done].
  - split_and!; [intros; by apply sets_nothing..|]. intros j. left. eexists. split; [reflexivity|apply quiet_NaN_in].
Qed.

(** ** What does not match *)

(** A reference to a type with another descriptor stops the process. *)
Lemma cast_mismatch const t c ref l r h :
  reg_inv r -> key (ctype t) <> key (ctype (type_of c)) -> cast (PRef const t) (new_value (type_of c) ref l) (mkWorld r h) = Killed "isAssignableFrom".
Proof.
  intros Hi Hne. destruct (value_ref_run const t (type_of c) ref l r h Hi) as (r' & _ & Hv).
  rewrite decide_False in Hv by done. cbn [cast]. by apply bind_killed.
Qed.

(** The descriptors of all function objects are the same: one of another type is
    taken for the one that is asked for. *)
Lemma function_types_confused sig sig' ref l r h :
  reg_inv r ->
  exists r', cast (PFun sig) (new_value (TyFun sig') ref l) (mkWorld r h) = Ret (ARef l, mkWorld r' h).
Proof.
  intros Hi. destruct (value_ref_run false (TyFun sig) (TyFun sig') ref l r h Hi) as (r' & _ & Hv).
  rewrite decide_True in Hv by done. exists r'. cbn [cast]. unfold functionObject. unfold bindS at 1.
  cbn [isFunction new_value checkS]. rewrite bind_ret. cbn [new_value referred] in Hv. by rewrite Hv.
Qed.

(** fields.  A number written to a field through reflection is the one read
    back from it, converted to the type of the field, and nothing else of the store
    is changed but for temporaries. *)
Theorem field_roundtrip (f : DeducedField) (T : NumKind) (receiver : nat) (j : NumKind) (z y y' : Num) (c : Cell) (w : World) :
  heap w !! m_field f receiver = Some c -> static_cast (f_kind f) z = Ret y -> static_cast T y = Ret y' ->
  exists w1 w2, Field_set f receiver (RValue (CNum j z)) w = Ret (tt, w1) /\
    Field_get f T receiver w1 = Ret (y', w2) /\
    forall l, l <> m_field f receiver -> (l < length (heap w))%nat -> heap w2 !! l = heap w !! l.
Proof.
  intros Hc Hy Hy'. pose proof (lookup_lt_Some _ _ _ Hc) as Hlt. set (l0 := m_field f receiver) in *.
  set (h1 := <[l0 := CNum (f_kind f) y]> (heap w ++ [CNum j z])).
  assert (Hl0 : h1 !! l0 = Some (CNum (f_kind f) y)).
  { apply list_lookup_insert_eq. rewrite length_app. lia. }
  exists (mkWorld (registry w) h1), (mkWorld (registry w) (h1 ++ [CNum (f_kind f) y])). split_and!.
  - unfold Field_set, TypedValue, alloc, set_value, numberValue, load_num, load. unfold bindS. cbn [getS updS retS heap registry type_of new_value].
    rewrite lookup_app_r, Nat.sub_diag by lia. cbn. by rewrite Hy.
  - unfold Field_get, get_value, TypedValue, alloc, numberValue, load_num, load. unfold bindS. cbn [getS updS retS heap registry type_of new_value].
    fold l0. rewrite Hl0. cbn [getS updS retS heap registry type_of new_value]. rewrite lookup_app_r, Nat.sub_diag by lia. cbn. by rewrite Hy'.
  - intros l Hne Hl. cbn [heap]. rewrite lookup_app_l by (unfold h1; rewrite length_insert, length_app; lia).
    unfold h1. rewrite list_lookup_insert_ne by done. by rewrite lookup_app_l.
Qed.
End values.

(** ** Examples *)

Definition no_classes (t : CType) : list Declaration := [].

(** [void f(short n, int& target) { target += n; }] *)
Definition sample_method : DeducedMethod :=
  mkDeducedMethod true [PVal KShort; PRef false (TyNum KInt)]
    (fun _ xs => match xs with
                 | [AVal (NInt n); ARef l] =>
                     let! z := load_num l in
                     match z with
                     | NInt z => do! store l (CNum KInt (NInt (int_cast KInt (z + n)))) in retS None
                     | NFlt _ => undefS "type of the variable"
                     end
                 | _ => undefS "arguments"
                 end).

Definition sample_args : list Arg := [RValue (CNum KInt64 (NInt 65541)); LValue 0].
Definition sample_heap : list Cell := [CNum KInt (NInt 37)].

Lemma invoke_direct_witness :
  exists xs r', reg_inv r' /\
    Forall3 (passes sample_heap (sample_heap ++ [CNum KInt64 (NInt 65541)])) (m_params sample_method) sample_args xs /\
    invoke no_classes sample_method None sample_args (mkWorld new_registry sample_heap)
    = (let! res := m_method sample_method None xs in let! v := box res in retS (Some v))
        (mkWorld r' (sample_heap ++ [CNum KInt64 (NInt 65541)])).
Proof.
  apply (invoke_direct no_classes sample_method None sample_args new_registry sample_heap).
  - apply rr_new.
  - done.
  - constructor; [by exists KInt64, (NInt 65541), (NInt 5)|]. constructor; [by exists (CNum KInt (NInt 37))|constructor].
Defined.

(** The variable of the caller is changed; the first argument lost its high bits. *)
Example sample_invoke :
  exists r', invoke no_classes sample_method None sample_args (mkWorld new_registry sample_heap)
    = Ret (Some Void, mkWorld r' [CNum KInt (NInt 42); CNum KInt64 (NInt 65541)]).
Proof. eexists. vm_compute. reflexivity. Qed.

Definition sample_values : World := mkWorld new_registry [CNum KShort (NInt (-7)); CStr (str "12.5")].

Lemma values_typed_witness :
  (forall j x, (forall k, target (NumberValue KShort false 0) = Some k -> ~ unfit k x) ->
     sets (NumberValue KShort false 0) (setNumberValue j (NumberValue KShort false 0) x) sample_values) /\
  (forall s, sets (NumberValue KShort false 0) (setStringValue (NumberValue KShort false 0) s) sample_values) /\
  (forall j, reads j (NumberValue KShort false 0) sample_values).
Proof.
  apply (values_typed (NumberValue KShort false 0) sample_values).
  - repeat constructor; vm_compute; discriminate.
  - by exists (NInt (-7)).
Defined.

(** A string read as a double and as an integer; a double that is no short. *)
Example sample_reads :
  numberValue KDouble (StringValue true 1) sample_values = Ret (NFlt (SFdiv 53 1024 (of_int binary64 25) (of_int binary64 2)), sample_values) /\
  numberValue KInt (StringValue true 1) sample_values = Ret (NInt 12, sample_values) /\
  setNumberValue KDouble (NumberValue KShort false 0) (NFlt (of_int binary64 40000)) sample_values
  = Undef "number out of the range of its type".
Proof. vm_compute. done. Qed.

Lemma text_roundtrip_witness :
  let w := mkWorld new_registry [CNum KShort (NInt (-7)); CNum KShort (NInt 3); CStr []] in
  (exists s, stringValue (NumberValue KShort false 0) w = Ret (s, w) /\
     setStringValue (NumberValue KShort true 1) s w
     = Ret (tt, mkWorld new_registry [CNum KShort (NInt (-7)); CNum KShort (NInt (-7)); CStr []])) /\
  (exists w', setNumberValue KShort (StringValue true 2) (NInt (-7)) w = Ret (tt, w') /\
     numberValue KShort (StringValue true 2) w' = Ret (NInt (-7), w')).
Proof.
  apply (text_roundtrip KShort (NInt (-7)) (NInt 3) [] false true 0 1 2
           (mkWorld new_registry [CNum KShort (NInt (-7)); CNum KShort (NInt 3); CStr []])).
  - by vm_compute.
  - done.
  - done.
  - done.
  - done.
Defined.

Lemma field_roundtrip_witness :
  let w := mkWorld new_registry [CNum KInt (NInt 1); CNum KShort (NInt 2)] in
  let f := mkDeducedField KShort S in
  exists w1 w2, Field_set f 0 (RValue (CNum KInt (NInt 70000))) w = Ret (tt, w1) /\ Field_get f KInt 0 w1 = Ret (NInt 4464, w2) /\
    forall l, l <> 1%nat -> (l < 2)%nat -> heap w2 !! l = heap w !! l.
Proof.
  apply (field_roundtrip (mkDeducedField KShort S) KInt 0 KInt (NInt 70000) (NInt 4464) (NInt 4464) (CNum KShort (NInt 2))
           (mkWorld new_registry [CNum KInt (NInt 1); CNum KShort (NInt 2)])); done.
Defined.

(** The text of a double has six digits: 1234567 comes back as 1234570. *)
Lemma double_text_loses ref ref' l l' w :
  heap w !! l = Some (CNum KDouble (NFlt (of_int binary64 1234567))) ->
  exists s, stringValue (NumberValue KDouble ref l) w = Ret (s, w) /\
    setStringValue (NumberValue KDouble ref' l') s w
    = Ret (tt, mkWorld (registry w) (<[l' := CNum KDouble (NFlt (of_int binary64 1234570))]> (heap w))).
Proof. intros Hl. eexists. unfold stringValue, load_num, load. unfold bindS. rewrite Hl. split; [reflexivity|]. vm_compute. reflexivity. Qed.

(** A space does not survive its text: the number keeps its old value. *)
Lemma space_lost ref l z w :
  heap w !! l = Some (CNum KChar (NInt 32)) ->
  exists s, stringValue (NumberValue KChar ref l) w = Ret (s, w) /\ setStringValue (NumberValue KChar ref z) s w = Ret (tt, w).
Proof. intros Hl. exists [32]. unfold stringValue, load_num, load. unfold bindS. by rewrite Hl. Qed.

(** The number of an empty string is an uninitialised variable. *)
Lemma empty_number_undefined k ref l w :
  heap w !! l = Some (CStr []) -> numberValue k (StringValue ref l) w = Undef "value is not initialised".
Proof. intros Hl. unfold numberValue, load_str, load. unfold bindS. by rewrite Hl. Qed.

(** A value that refers to a number is not a number, although one that refers to a
    [bool] is a boolean. *)
Lemma reference_is_no_number k l : isNumber (NumberValue k true l) = false /\ isBoolean (NumberValue KBool true l) = true.
Proof. done. Qed.
