(* ===== verification/HttpBeast.v ===== *)
(** * The HTTP client over Boost.Beast: net/http_cli/implement/beast

    [BeastSession] holds the members of [SessionImplBeast] and what Boost.Asio
    keeps for it: the asynchronous operations that are pending, whether the context
    was stopped and the socket closed, and, for the theorems, the names that were
    looked up, the requests handed to the socket and the responses handed to the
    application.  An asynchronous call adds an operation; an event completes one
    and runs its handler.  A cancelled timer still completes, with
    [operation_aborted].  [run] returns when nothing is pending or the context was
    stopped, and otherwise waits for the network.

    Parameters: the members [parameters] and [port] (as text) of a [Url] that the
    present url.h does not declare; [prepare_payload] of Beast;
    [SSL_set_tlsext_host_name]; the contents of the members that no constructor
    sets ([port0], [method0]).  The text written to the error stream is left out. *)

From stdpp Require Import base list numbers strings.
From Stdlib Require Import ZArith Lia.
From S2P Require Import Prelude HttpHeader HttpSession.

(** ** session_impl_beast.h *)

(** [std::variant<std::monostate, tcp::socket, ssl::stream<tcp::socket>>] *)
Inductive StreamOpaque := Monostate | PlainStream | TlsStream.

#[export] Instance StreamOpaque_eq_dec : EqDecision StreamOpaque.
Proof. solve_decision. Defined.

(** [http::request<http::string_body>], whose body stays empty. *)
Record BeastRequest := mkBeastRequest {
  verb : Z; version : Z; target : bytes; fields : Header
}.

(** What the response parser holds when a message was read. *)
Record Message := mkMessage { result_int : Z; msg_fields : list (bytes * bytes); msg_body : bytes }.

(** Operations under way in the context. *)
Inductive Op := OpResolve | OpConnect | OpHandshake | OpWrite | OpRead | OpShutdown | OpTimeout | OpGrace.

#[export] Instance Op_eq_dec : EqDecision Op.
Proof. solve_decision. Defined.

(** Their completions, with the error code and the results. *)
Inductive IoEvent :=
| Resolved (ec : Z) | Connected (ec : Z) | HandShaken (ec : Z) | Written (ec : Z)
| Received (ec : Z) (m : Message) | ShutDown (ec : Z) | TimedOut (ec : Z) | GraceOver (ec : Z).

Definition op_of (e : IoEvent) : Op :=
  match e with
  | Resolved _ => OpResolve | Connected _ => OpConnect | HandShaken _ => OpHandshake | Written _ => OpWrite
  | Received _ _ => OpRead | ShutDown _ => OpShutdown | TimedOut _ => OpTimeout | GraceOver _ => OpGrace
  end.

Record BeastSession := mkBeast {
  timeout_ : Z;                     (* milliseconds *)
  redirect_ : bool;
  followNextRedirect : bool;
  numberOfRedirects : Z;
  b_request : BeastRequest;
  method_ : Z;
  url_ : Url;
  onResponse : bool;                (* whether the function object holds a function *)
  parameters_ : bytes;
  stream_ : StreamOpaque;
  b_handler : ResponseHandler;
  pending : list Op;
  stopped : bool;
  closed : bool;
  resolves : list (bytes * bytes);
  sent : list BeastRequest;
  b_delivered : list Response
}.

Definition eta_Beast (s : BeastSession) : BeastSession :=
  mkBeast (timeout_ s) (redirect_ s) (followNextRedirect s) (numberOfRedirects s) (b_request s) (method_ s) (url_ s)
    (onResponse s) (parameters_ s) (stream_ s) (b_handler s) (pending s) (stopped s) (closed s) (resolves s) (sent s)
    (b_delivered s).
Definition with_follow : bool -> BeastSession -> BeastSession := ltac:(build_setter eta_Beast followNextRedirect).
Definition with_redirects : Z -> BeastSession -> BeastSession := ltac:(build_setter eta_Beast numberOfRedirects).
Definition with_brequest : BeastRequest -> BeastSession -> BeastSession := ltac:(build_setter eta_Beast b_request).
Definition with_url : Url -> BeastSession -> BeastSession := ltac:(build_setter eta_Beast url_).
Definition with_stream : StreamOpaque -> BeastSession -> BeastSession := ltac:(build_setter eta_Beast stream_).
Definition with_pending : list Op -> BeastSession -> BeastSession := ltac:(build_setter eta_Beast pending).
Definition with_stopped : bool -> BeastSession -> BeastSession := ltac:(build_setter eta_Beast stopped).
Definition with_closed : bool -> BeastSession -> BeastSession := ltac:(build_setter eta_Beast closed).
Definition with_resolves : list (bytes * bytes) -> BeastSession -> BeastSession := ltac:(build_setter eta_Beast resolves).
Definition with_sent : list BeastRequest -> BeastSession -> BeastSession := ltac:(build_setter eta_Beast sent).
Definition with_bdelivered : list Response -> BeastSession -> BeastSession := ltac:(build_setter eta_Beast b_delivered).

Section beast.
Context (url_parameters url_port : Url -> bytes) (prepare_payload : BeastRequest -> BeastRequest)
  (SSL_set_tlsext_host_name : bytes -> bool) (operation_aborted : Z) (port0 : Z).

Abbreviation BM := (M BeastSession).

(** ** session_impl_beast.cpp *)

(** An asynchronous call. *)
Definition start (o : Op) : BM unit := updS (fun s => with_pending (pending s ++ [o]) s).

Definition beast_SetUrl (u : Url) : BM unit := updS (with_url u).

Definition IsTlsStream : BM bool := getS (fun s => bool_decide (stream_ s = TlsStream)).

(** [std::get] of another alternative throws. *)
Definition GetPlainStream : BM unit :=
  let! st := getS stream_ in checkS (bool_decide (st = PlainStream)) "std::bad_variant_access".
Definition GetTlsStream : BM unit :=
  let! st := getS stream_ in checkS (bool_decide (st = TlsStream)) "std::bad_variant_access".

(** The socket of either stream. *)
Definition lowest_socket : BM unit :=
  let! tls := IsTlsStream in if (tls : bool) then GetTlsStream else GetPlainStream.

Definition HandleFail (http_ec : ErrorCode) : BM unit :=
  let! h := getS b_handler in
  whenS (handler_ h)
    (updS (fun s => with_bdelivered
       (b_delivered s ++ [Response_ctor 0 (mkError http_ec) [] [] (url_ s) Cookies_default]) s)).

Definition OnFail (http_ec : ErrorCode) : BM unit := HandleFail http_ec.

(** [async_write] and [async_read] on the stream there is. *)
Definition visit (m : BM unit) : BM unit :=
  let! st := getS stream_ in
  match st with Monostate => retS tt | _ => m end.

Definition OnHandShake (ec : Z) : BM unit :=
  if negb (ec =? 0) then OnFail SSL_CONNECT_ERROR else
  visit (do! updS (fun s => with_sent (sent s ++ [b_request s]) s) in start OpWrite).

Definition beast_OnConnect (ec : Z) : BM unit :=
  if negb (ec =? 0) then OnFail CONNECTION_FAILURE else
  let! tls := IsTlsStream in
  if (tls : bool) then do! GetTlsStream in start OpHandshake
  else OnHandShake ec.

Definition OnResolve (ec : Z) : BM unit :=
  if negb (ec =? 0) then OnFail HOST_RESOLUTION_FAILURE else
  do! lowest_socket in
  start OpConnect.

Definition beast_OnWrite (ec : Z) : BM unit :=
  if negb (ec =? 0) then OnFail NETWORK_SEND_FAILURE else
  visit (start OpRead).

(** [ec.assign(0, ..)] comes before the test. *)
Definition OnShutdown (ec : Z) : BM unit :=
  let ec := 0 in
  if negb (ec =? 0) then OnFail GENERIC_SSL_ERROR else retS tt.

(** The loop over the fields of the message: cookies and headers. *)
Definition read_field (acc : Header * Cookies) (kv : bytes * bytes) : Header * Cookies :=
  let '(h, c) := acc in
  if bool_decide (tolower <$> kv.1 = str "set-cookie") then (h, ParseCookieString kv.2 c)
  else (insert_or_assign kv.1 kv.2 h, c).
Definition read_fields (fs : list (bytes * bytes)) : Header * Cookies := foldl read_field ([], Cookies_default) fs.

Definition beast_OnRead (ec : Z) (m : Message) : BM unit :=
  if negb (ec =? 0) then OnFail NETWORK_RECEIVE_ERROR else
  let '(responseHeaders, response_cookies) := read_fields (msg_fields m) in
  let! tls := IsTlsStream in
  do! (if (tls : bool) then
         do! start OpGrace in
         do! GetTlsStream in
         start OpShutdown
       else OnShutdown ec) in
  match header_find responseHeaders (str "Location") with
  | Some location =>
      do! beast_SetUrl (Url_ctor location port0) in
      let! follow := getS (fun s => redirect_ s && (0 <? numberOfRedirects s)) in
      whenS follow (updS (fun s => with_follow true (with_redirects (numberOfRedirects s - 1) s)))
  | None =>
      let! f := getS onResponse in
      do! checkS f "std::bad_function_call" in
      updS (fun s => with_bdelivered
        (b_delivered s ++ [Response_ctor (result_int m) Error_default (msg_body m) responseHeaders (url_ s) response_cookies]) s)
  end.

Definition close_socket : BM unit := do! lowest_socket in updS (with_closed true).

Definition OnTimeout (ec : Z) : BM unit :=
  if ec =? operation_aborted then retS tt else
  do! updS (with_stopped true) in
  do! close_socket in
  OnFail TIMEDOUT.

Definition OnTooLongAsyncShutdown (ec : Z) : BM unit :=
  if ec =? operation_aborted then retS tt else
  do! updS (with_stopped true) in
  close_socket.

(** A failing [SSL_set_tlsext_host_name] is written to the error stream only. *)
Definition PrepareRequest : BM unit :=
  let! tls := IsTlsStream in
  let! u := getS url_ in
  let! ok := (if (tls : bool) then do! GetTlsStream in retS (SSL_set_tlsext_host_name (host u)) else retS true) in
  whenS ok
    (do! updS (fun s => with_resolves (resolves s ++ [(host u, url_port u)]) s) in
     start OpResolve).

(** The target of the request. *)
Definition request_target (u : Url) (parameters : bytes) : bytes :=
  path u ++
  (if bool_decide (url_parameters u = [] /\ parameters = []) then [] else str "?" ++ url_parameters u ++ parameters).

Definition prepared (s : BeastSession) : BeastRequest :=
  prepare_payload (mkBeastRequest (method_ s) 11 (request_target (url_ s) (parameters_ s))
    (insert_or_assign (str "User-Agent") (str "v0.0.1") (insert_or_assign (str "Host") (host (url_ s)) (fields (b_request s))))).

Definition DoOneRequest : BM unit :=
  do! updS (with_follow false) in
  do! updS (fun s => with_brequest (prepared s) s) in
  let! https := getS (fun s => IsHttps (url_ s)) in
  do! updS (fun s => with_closed false (with_stream (if (https : bool) then TlsStream else PlainStream) s)) in
  do! PrepareRequest in
  let! timeout := getS timeout_ in
  whenS (negb (timeout =? 0)) (start OpTimeout).

(** *** The context *)

Definition callback (e : IoEvent) : BM unit :=
  match e with
  | Resolved ec => OnResolve ec
  | Connected ec => beast_OnConnect ec
  | HandShaken ec => OnHandShake ec
  | Written ec => beast_OnWrite ec
  | Received ec m => beast_OnRead ec m
  | ShutDown ec => OnShutdown ec
  | TimedOut ec => OnTimeout ec
  | GraceOver ec => OnTooLongAsyncShutdown ec
  end.

Fixpoint remove_op (o : Op) (l : list Op) : list Op :=
  match l with
  | [] => []
  | o' :: l' => if decide (o' = o) then l' else o' :: remove_op o l'
  end.

(** A handler runs when its operation is pending and the context is not stopped. *)
Definition complete (e : IoEvent) : BM unit :=
  let! live := getS (fun s => negb (stopped s) && bool_decide (op_of e ∈ pending s)) in
  whenS live
    (do! updS (fun s => with_pending (remove_op (op_of e) (pending s)) s) in
     callback e).

(** [ioc_.run()]: whether it returned. *)
Definition run (events : list IoEvent) : BM bool :=
  do! iterS complete events in
  getS (fun s => stopped s || bool_decide (pending s = [])).

(** [DoRequest] when the network reports [env i] in the [i]-th round; the result is
    false when the last [run] still waits. *)
Fixpoint beast_DoRequest (fuel : nat) (env : nat -> list IoEvent) : BM bool :=
  match fuel with
  | O => undefS "DoRequest: out of fuel"
  | S fuel' =>
      do! updS (with_stopped false) in
      do! DoOneRequest in
      let! returned := run (env 0%nat) in
      if negb returned then retS false else
      let! again := getS followNextRedirect in
      if (again : bool) then beast_DoRequest fuel' (fun i => env (S i)) else retS true
  end.

(** The setters are empty, but for [SetUrl]. *)
Definition beast_SetParameters (content : bytes) : BM unit := retS tt.
Definition beast_SetHandler (h : ResponseHandler) : BM unit := retS tt.
Definition beast_SetHeader (h : Header) : BM unit := retS tt.
Definition beast_SetTimeout (timeout : Z) : BM unit := retS tt.
Definition beast_SetAuth : BM unit := retS tt.
Definition beast_SetDigest : BM unit := retS tt.
Definition beast_SetMethod (m : bytes) : BM unit := retS tt.
Definition beast_SetMultipart : BM unit := retS tt.
Definition beast_SetRedirect (redirect : bool) : BM unit := retS tt.
Definition beast_SetMaxRedirects : BM unit := retS tt.
Definition beast_SetCookies (c : Cookies) : BM unit := retS tt.
Definition beast_SetBody : BM unit := retS tt.

(** ** Every request comes to an end *)

(** What the handlers do to a session: the stream stays, the redirects left never
    grow, and a redirect is followed only after one was spent. *)
Record advance (s s' : BeastSession) : Prop := {
  av_stream : stream_ s <> Monostate -> stream_ s' <> Monostate;
  av_function : onResponse s' = onResponse s;
  av_left : numberOfRedirects s' <= numberOfRedirects s;
  av_nonneg : 0 <= numberOfRedirects s -> 0 <= numberOfRedirects s';
  av_spent : followNextRedirect s' = true -> followNextRedirect s = true \/ numberOfRedirects s' < numberOfRedirects s
}.

#[local] Instance advance_preorder : PreOrder advance.
Proof.
  split; [intros s; split; auto; lia|]. intros s1 s2 s3 [A1 A2 A3 A4 A5] [B1 B2 B3 B4 B5].
  split; [auto|congruence|lia|auto|]. intros H. destruct (B5 H) as [H2|H2]; [destruct (A5 H2); [by left|]|]; right; lia.
Qed.

(** [m] advances the session, or calls an [onResponse] that was never set. *)
Definition steady_at {A} (s : BeastSession) (m : BM A) : Prop :=
  stream_ s <> Monostate -> 0 <= numberOfRedirects s ->
    match m s with
    | Ret (_, s') => advance s s'
    | Killed w => w = "std::bad_function_call"%string /\ onResponse s = false
    | Undef _ => False
    end.
Definition steady {A} (m : BM A) : Prop := forall s, steady_at s m.

Lemma steady_ret {A} (a : A) : steady (retS a).
Proof. intros s _ _. cbn. reflexivity. Qed.

Lemma steady_get {A} (f : BeastSession -> A) : steady (getS f).
Proof. intros s _ _. cbn. reflexivity. Qed.

Lemma steady_at_bind {A B} s (m : BM A) (k : A -> BM B) :
  steady_at s m -> (forall a s', m s = Ret (a, s') -> steady_at s' (k a)) -> steady_at s (bindS m k).
Proof.
  intros Hm Hk Hs Hn. specialize (Hm Hs Hn). unfold bindS. destruct (m s) as [[a s']| |] eqn:He; [|done..].
  specialize (Hk a s' eq_refl (av_stream _ _ Hm Hs) (av_nonneg _ _ Hm Hn)).
  destruct (k a s') as [[b s'']| |]; [by etransitivity|by rewrite <-(av_function _ _ Hm)|done].
Qed.

Lemma steady_bind {A B} (m : BM A) (k : A -> BM B) : steady m -> (forall a, steady (k a)) -> steady (bindS m k).
Proof. intros Hm Hk s. apply steady_at_bind; [apply Hm|intros a s' _; apply Hk]. Qed.

Lemma steady_upd f : (forall s, stream_ s <> Monostate -> 0 <= numberOfRedirects s -> advance s (f s)) -> steady (updS f).
Proof. intros Hf s Hs Hn. by apply Hf. Qed.

Lemma steady_when b m : steady m -> steady (whenS b m).
Proof. intros Hm. destruct b; [done|apply steady_ret]. Qed.

Lemma steady_iter {A} (f : A -> BM unit) l : (forall a, steady (f a)) -> steady (iterS f l).
Proof. intros Hf. induction l as [|a l IH]; cbn [iterS]; [apply steady_ret|by apply steady_bind]. Qed.

(** The socket is there whenever a handler runs. *)
Lemma steady_socket : steady lowest_socket.
Proof.
  intros s Hs Hn. unfold lowest_socket, IsTlsStream, GetTlsStream, GetPlainStream, getS, bindS.
  destruct (stream_ s) eqn:He; [done|..]; [rewrite bool_decide_false by done|rewrite bool_decide_true by done];
    rewrite He, bool_decide_true by done; cbn; reflexivity.
Qed.

#[local] Hint Extern 1 (advance _ _) => (split; cbn; auto; lia) : core.

Ltac steady_step :=
  match goal with
  | |- steady (retS _) => apply steady_ret
  | |- steady (getS _) => apply steady_get
  | |- steady (bindS _ _) => apply steady_bind; [|intros ?]
  | |- steady (whenS _ _) => apply steady_when
  | |- steady (if ?b then _ else _) => destruct b
  | |- steady (match ?x with _ => _ end) => destruct x
  | |- steady lowest_socket => apply steady_socket
  | |- steady (updS _) => apply steady_upd; intros ???; auto
  end.

Lemma steady_fail c : steady (OnFail c).
Proof. unfold OnFail, HandleFail. repeat steady_step. Qed.

(** The alternative was tested before it is taken. *)
Lemma steady_tls {A} (K : bool -> BM A) :
  (forall s, stream_ s = TlsStream -> steady_at s (K true)) -> steady (K false) -> steady (let! tls := IsTlsStream in K tls).
Proof.
  intros H1 H2 s. unfold IsTlsStream, steady_at. rewrite bind_get. case_bool_decide as He; [exact (H1 s He)|exact (H2 s)].
Qed.

Lemma steady_get_tls {A} s (m : BM A) : stream_ s = TlsStream -> steady m -> steady_at s (do! GetTlsStream in m).
Proof.
  intros He Hm Hs Hn. unfold GetTlsStream. unfold bindS at 1. rewrite bind_get, bool_decide_true by done. exact (Hm s Hs Hn).
Qed.

Lemma steady_start o : steady (start o).
Proof. unfold start. repeat steady_step. Qed.

Lemma steady_OnHandShake ec : steady (OnHandShake ec).
Proof. unfold OnHandShake, visit. repeat first [apply steady_fail|apply steady_start|steady_step]. Qed.

Lemma steady_OnRead ec m : steady (beast_OnRead ec m).
Proof.
  unfold beast_OnRead. destruct (negb (ec =? 0)); [apply steady_fail|]. destruct (read_fields _) as [h c].
  assert (steady (match header_find h (str "Location") with
    | Some location =>
        do! beast_SetUrl (Url_ctor location port0) in
        let! follow := getS (fun s => redirect_ s && (0 <? numberOfRedirects s)) in
        whenS follow (updS (fun s => with_follow true (with_redirects (numberOfRedirects s - 1) s)))
    | None =>
        let! f := getS onResponse in
        do! checkS f "std::bad_function_call" in
        updS (fun s => with_bdelivered
          (b_delivered s ++ [Response_ctor (result_int m) Error_default (msg_body m) h (url_ s) c]) s)
    end)) as Hrest.
  { destruct (header_find h _) as [location|].
    - unfold beast_SetUrl. apply steady_bind; [repeat steady_step|intros _ s Hs Hn]. rewrite bind_get.
      destruct (redirect_ s && (0 <? numberOfRedirects s)) eqn:Hf; cbn; [|reflexivity]. split; cbn; auto; lia.
    - intros s Hs Hn. rewrite bind_get. destruct (onResponse s); cbn; [auto|done]. }
  apply steady_tls; [|repeat first [exact Hrest|steady_step]]. intros s He. apply steady_at_bind; [|intros; apply Hrest].
  apply steady_at_bind; [apply steady_start|]. intros a s' [= <- <-]. by apply steady_get_tls, steady_start.
Qed.

Lemma steady_callback e : steady (callback e).
Proof.
  destruct e as [ec|ec|ec|ec|ec m|ec|ec|ec]; cbn [callback]; [| |apply steady_OnHandShake| |apply steady_OnRead|..].
  - unfold OnResolve. repeat first [apply steady_fail|apply steady_start|steady_step].
  - unfold beast_OnConnect. destruct (negb _); [apply steady_fail|].
    apply steady_tls; [|apply steady_OnHandShake]. intros s He. by apply steady_get_tls, steady_start.
  - unfold beast_OnWrite, visit. repeat first [apply steady_fail|apply steady_start|steady_step].
  - apply steady_ret.
  - unfold OnTimeout, close_socket. repeat first [apply steady_fail|steady_step].
  - unfold OnTooLongAsyncShutdown, close_socket. repeat steady_step.
Qed.

Lemma steady_run events : steady (run events).
Proof.
  unfold run. apply steady_bind; [|intros _; apply steady_get]. apply steady_iter. intros e. unfold complete.
  repeat first [apply steady_callback|steady_step].
Qed.

(** The start of a request: the stream is made, and the name looked up unless it
    cannot be set for TLS. *)
Definition sni_ok (u : Url) : bool := negb (IsHttps u) || SSL_set_tlsext_host_name (host u).

Definition opened (s : BeastSession) : BeastSession :=
  with_closed false (with_stream (if IsHttps (url_ s) then TlsStream else PlainStream)
    (with_brequest (prepared (with_follow false s)) (with_follow false s))).

Definition looking_up (s : BeastSession) : BeastSession :=
  with_pending (pending s ++ [OpResolve]) (with_resolves (resolves s ++ [(host (url_ s), url_port (url_ s))]) s).

Lemma PrepareRequest_run s :
  stream_ s = (if IsHttps (url_ s) then TlsStream else PlainStream) ->
  PrepareRequest s = Ret (tt, if sni_ok (url_ s) then looking_up s else s).
Proof.
  intros Hs. unfold PrepareRequest, IsTlsStream. rewrite !bind_get. unfold sni_ok.
  destruct (IsHttps (url_ s)); cbn [negb orb].
  - rewrite bool_decide_true by done. unfold GetTlsStream. unfold bindS at 1 2 3. unfold getS at 1, checkS.
    rewrite bool_decide_true by done. unfold retS. by destruct (SSL_set_tlsext_host_name _).
  - rewrite bool_decide_false by congruence. done.
Qed.

Lemma DoOneRequest_run s :
  let s1 := if sni_ok (url_ s) then looking_up (opened s) else opened s in
  DoOneRequest s = Ret (tt, if timeout_ s =? 0 then s1 else with_pending (pending s1 ++ [OpTimeout]) s1).
Proof.
  intros s1. unfold DoOneRequest. rewrite !bind_upd, bind_get, bind_upd. cbn [url_ with_brequest with_follow].
  change (with_closed _ _) with (opened s). rewrite (bind_run _ _ _ _ _ (PrepareRequest_run (opened s) eq_refl)).
  rewrite bind_get. change (sni_ok (url_ (opened s))) with (sni_ok (url_ s)). fold s1.
  assert (timeout_ s1 = timeout_ s) as -> by (subst s1; by destruct (sni_ok _)). by destruct (timeout_ s =? 0).
Qed.

Lemma DoOneRequest_steady s :
  exists s', DoOneRequest s = Ret (tt, s') /\ stream_ s' <> Monostate /\ onResponse s' = onResponse s /\
    numberOfRedirects s' = numberOfRedirects s /\ followNextRedirect s' = false.
Proof.
  rewrite DoOneRequest_run. eexists. split; [reflexivity|].
  destruct (sni_ok _), (timeout_ s =? 0); cbn; by destruct (IsHttps _).
Qed.

(** C38: every request comes to an end.  Whatever the network reports, a request
    spends at most one more round than there are redirects left, never takes a
    stream that is not there, and returns or waits for the network; the only
    exception is the call of the function [onResponse], which nothing sets. *)
Theorem DoRequest_ends (fuel : nat) (env : nat -> list IoEvent) (s : BeastSession) :
  0 <= numberOfRedirects s < Z.of_nat fuel ->
  match beast_DoRequest fuel env s with
  | Ret (_, s') => 0 <= numberOfRedirects s' <= numberOfRedirects s
  | Killed w => w = "std::bad_function_call"%string /\ onResponse s = false
  | Undef _ => False
  end.
Proof.
  revert env s. induction fuel as [|fuel IH]; intros env s Hn; [lia|]. cbn [beast_DoRequest]. rewrite bind_upd.
  destruct (DoOneRequest_steady (with_stopped false s)) as (s1 & H1 & Hs1 & Ho1 & Hn1 & Hf1).
  cbn [onResponse numberOfRedirects with_stopped] in Ho1, Hn1. rewrite (bind_run _ _ _ _ _ H1).
  pose proof (steady_run (env 0%nat) s1 Hs1 ltac:(lia)) as Hr. unfold bindS at 1.
  destruct (run (env 0%nat) s1) as [[ret s2]| |]; [|by rewrite <-Ho1|done]. destruct Hr as [A1 A2 A3 A4 A5].
  destruct ret; cbn [negb]; [|cbn; lia]. rewrite bind_get. destruct (followNextRedirect s2); [|cbn; lia].
  destruct (A5 eq_refl) as [?|Hlt]; [congruence|]. specialize (IH (fun i => env (S i)) s2 ltac:(lia)).
  destruct (beast_DoRequest fuel _ s2) as [[b s3]| |]; [lia|by rewrite <-Ho1, <-A2|done].
Qed.

(** ** What one round of a request amounts to *)

(** The operations of a round with the error each one stands for. *)
Definition stages (tls : bool) (m : Message) : list (ErrorCode * (Z -> IoEvent)) :=
  [(HOST_RESOLUTION_FAILURE, Resolved); (CONNECTION_FAILURE, Connected)] ++
  (if tls then [(SSL_CONNECT_ERROR, HandShaken)] else []) ++
  [(NETWORK_SEND_FAILURE, Written); (NETWORK_RECEIVE_ERROR, fun ec => Received ec m)].

(** The network completes the operations with the given codes. *)
Definition reports (l : list (ErrorCode * (Z -> IoEvent))) (codes : list Z) : list IoEvent :=
  zip_with (fun st c => st.2 c) l codes.

Fixpoint first_failure (l : list (ErrorCode * (Z -> IoEvent))) (codes : list Z) : option ErrorCode :=
  match l, codes with
  | (e, _) :: l', c :: codes' => if c =? 0 then first_failure l' codes' else Some e
  | _, _ => None
  end.

Definition error_response (e : ErrorCode) (u : Url) : Response := Response_ctor 0 (mkError e) [] [] u Cookies_default.

(** The request was handed to the socket before these errors. *)
Definition after_send (e : ErrorCode) : bool :=
  match e with NETWORK_SEND_FAILURE | NETWORK_RECEIVE_ERROR => true | _ => false end.

(** What a round leaves alone: the name was looked up once, and the functions the
    response goes to are those of before. *)
Record looked_up (s s' : BeastSession) : Prop := {
  lu_resolves : resolves s' = resolves s ++ [(host (url_ s), url_port (url_ s))];
  lu_function : onResponse s' = onResponse s;
  lu_handler : b_handler s' = b_handler s
}.

(** The request failed: the error is reported to the handler, if one is stored, and
    nothing is left to do. *)
Record failed_with (e : ErrorCode) (s s' : BeastSession) : Prop := {
  fw_delivered : b_delivered s' = b_delivered s ++ (if handler_ (b_handler s) then [error_response e (url_ s)] else []);
  fw_sent : sent s' = sent s ++ (if after_send e then [prepared s] else []);
  fw_pending : pending s' = [];
  fw_follow : followNextRedirect s' = false
}.

(** The location a response redirects to. *)
Definition location_of (m : Message) : option bytes := header_find (read_fields (msg_fields m)).1 (str "Location").

(** The response arrived: the function [onResponse] gets it, or its location is
    where to go next. *)
Record answered_with (m : Message) (s s' : BeastSession) : Prop := {
  aw_sent : sent s' = sent s ++ [prepared s];
  aw_pending : pending s' = if IsHttps (url_ s) then [OpGrace; OpShutdown] else [];
  aw_result :
    match location_of m with
    | Some location =>
        url_ s' = Url_ctor location port0 /\ b_delivered s' = b_delivered s /\
        followNextRedirect s' = (redirect_ s && (0 <? numberOfRedirects s))
    | None =>
        followNextRedirect s' = false /\
        b_delivered s' = b_delivered s ++
          [Response_ctor (result_int m) Error_default (msg_body m) (read_fields (msg_fields m)).1 (url_ s)
             (read_fields (msg_fields m)).2]
    end
}.

(** The round came to an end in such a state. *)
Definition ended (s : BeastSession) (Q : BeastSession -> Prop) (r : outcome (unit * BeastSession)) : Prop :=
  exists s', r = Ret (tt, s') /\ looked_up s s' /\ Q s'.

(** How a round ends whose first failure is [fail] and whose response is [m]. *)
Definition round_result (fail : option ErrorCode) (m : Message) (s : BeastSession) (r : outcome (unit * BeastSession)) : Prop :=
  match fail, location_of m, onResponse s with
  | Some e, _, _ => ended s (failed_with e s) r
  | None, None, false => r = Killed "std::bad_function_call"
  | None, _, _ => ended s (answered_with m s) r
  end.

(** Waiting for one operation. *)
Definition awaits (o : Op) (s : BeastSession) : Prop := pending s = [o] /\ stopped s = false.

Lemma complete_awaited e s :
  awaits (op_of e) s -> complete e s = callback e (with_pending [] s).
Proof.
  intros [Hp Hs]. unfold complete. rewrite bind_get, Hs, Hp, bool_decide_true by left. cbn [negb andb whenS].
  rewrite bind_upd, Hp. cbn [remove_op]. by rewrite decide_True.
Qed.

Lemma complete_idle es s : pending s = [] -> iterS complete es s = Ret (tt, s).
Proof.
  intros Hp. induction es as [|e es IH]; [done|]. cbn [iterS]. unfold complete. unfold bindS at 1. rewrite bind_get, Hp.
  rewrite bool_decide_false by apply not_elem_of_nil. by rewrite andb_false_r.
Qed.

Definition fail_state (e : ErrorCode) (s : BeastSession) : BeastSession :=
  if handler_ (b_handler s) then with_bdelivered (b_delivered s ++ [error_response e (url_ s)]) s else s.

Lemma OnFail_run e s : OnFail e s = Ret (tt, fail_state e s).
Proof. unfold OnFail, HandleFail, fail_state. rewrite bind_get. by destruct (handler_ _). Qed.

(** The state while a round is under way. *)
Definition under_way (s0 : BeastSession) (o : Op) (was_sent : bool) : BeastSession :=
  let s1 := looking_up (opened s0) in
  with_pending [o] (if was_sent then with_sent (sent s0 ++ [prepared s0]) s1 else s1).

Lemma under_way_failed s0 o e es :
  pending s0 = [] ->
  ended s0 (failed_with e s0) (iterS complete es (fail_state e (with_pending [] (under_way s0 o (after_send e))))).
Proof.
  intros Hp. eexists. split; [apply complete_idle; unfold fail_state, under_way; by repeat case_match|].
  unfold fail_state, under_way. destruct (after_send e) eqn:Ha; cbn; destruct (handler_ (b_handler s0)) eqn:Hh;
    (split; [done|]); split; cbn; by rewrite ?Hh, ?Ha, ?app_nil_r.
Qed.

(** The first operations of a round, up to the handshake, lead to the write. *)
Lemma awaits_under_way s0 o b : pending s0 = [] -> stopped s0 = false -> awaits o (under_way s0 o b).
Proof. intros Hp Hs. destruct b; by split. Qed.

Lemma lowest_socket_run s : stream_ s <> Monostate -> lowest_socket s = Ret (tt, s).
Proof.
  intros Hs. unfold lowest_socket, IsTlsStream. rewrite bind_get. unfold GetTlsStream, GetPlainStream.
  case_bool_decide as He; rewrite bind_get, bool_decide_true; try done. by destruct (stream_ s).
Qed.

Lemma start_next o o' x : start o (with_pending [] (with_pending [o'] x)) = Ret (tt, with_pending [o] x).
Proof. done. Qed.

Section round.
Context (s0 : BeastSession) (Hp : pending s0 = []) (Hst : stopped s0 = false).

Lemma under_way_stream o b : stream_ (under_way s0 o b) = if IsHttps (url_ s0) then TlsStream else PlainStream.
Proof. by destruct b. Qed.

Lemma step_resolved : OnResolve 0 (with_pending [] (under_way s0 OpResolve false)) = Ret (tt, under_way s0 OpConnect false).
Proof.
  unfold OnResolve. cbn [Z.eqb negb].
  assert (stream_ (with_pending [] (under_way s0 OpResolve false)) <> Monostate) as Hs by (cbn; by destruct (IsHttps _)).
  rewrite (bind_run _ _ _ _ _ (lowest_socket_run _ Hs)). apply start_next.
Qed.

Lemma step_handshaken o : OnHandShake 0 (with_pending [] (under_way s0 o false)) = Ret (tt, under_way s0 OpWrite true).
Proof.
  unfold OnHandShake, visit. cbn [Z.eqb negb]. rewrite bind_get.
  change (stream_ (with_pending _ _)) with (if IsHttps (url_ s0) then TlsStream else PlainStream).
  unfold under_way. cbv zeta. generalize (eq_refl : sent (looking_up (opened s0)) = sent s0).
  generalize (eq_refl : b_request (looking_up (opened s0)) = prepared s0). generalize (looking_up (opened s0)) as x.
  intros x <- <-. by destruct (IsHttps (url_ s0)).
Qed.

Lemma step_connected :
  beast_OnConnect 0 (with_pending [] (under_way s0 OpConnect false))
  = Ret (tt, if IsHttps (url_ s0) then under_way s0 OpHandshake false else under_way s0 OpWrite true).
Proof.
  unfold beast_OnConnect, IsTlsStream. cbn [Z.eqb negb]. rewrite bind_get.
  change (stream_ (with_pending _ _)) with (if IsHttps (url_ s0) then TlsStream else PlainStream).
  destruct (IsHttps (url_ s0)) eqn:Hh.
  - rewrite bool_decide_true by done. unfold GetTlsStream. unfold bindS at 1. rewrite bind_get.
    change (stream_ (with_pending _ _)) with (if IsHttps (url_ s0) then TlsStream else PlainStream).
    rewrite Hh, bool_decide_true by done. cbn [checkS retS]. apply start_next.
  - rewrite bool_decide_false by done. apply step_handshaken.
Qed.

Lemma step_written : beast_OnWrite 0 (with_pending [] (under_way s0 OpWrite true)) = Ret (tt, under_way s0 OpRead true).
Proof.
  unfold beast_OnWrite, visit. cbn [Z.eqb negb]. rewrite bind_get.
  change (stream_ (with_pending _ _)) with (if IsHttps (url_ s0) then TlsStream else PlainStream).
  destruct (IsHttps (url_ s0)); apply start_next.
Qed.

(** Reading the response, in a state that agrees with the start of the round. *)
Lemma OnRead_answers m x :
  pending x = [] -> followNextRedirect x = false ->
  stream_ x = (if IsHttps (url_ x) then TlsStream else PlainStream) ->
  match location_of m, onResponse x with
  | None, false => beast_OnRead 0 m x = Killed "std::bad_function_call"
  | _, _ =>
  exists s', beast_OnRead 0 m x = Ret (tt, s') /\
    (resolves s' = resolves x /\ onResponse s' = onResponse x /\ b_handler s' = b_handler x) /\ sent s' = sent x /\
    pending s' = (if IsHttps (url_ x) then [OpGrace; OpShutdown] else []) /\
    match location_of m with
    | Some location =>
        url_ s' = Url_ctor location port0 /\ b_delivered s' = b_delivered x /\
        followNextRedirect s' = (redirect_ x && (0 <? numberOfRedirects x))
    | None =>
        followNextRedirect s' = false /\
        b_delivered s' = b_delivered x ++
          [Response_ctor (result_int m) Error_default (msg_body m) (read_fields (msg_fields m)).1 (url_ x)
             (read_fields (msg_fields m)).2]
    end
  end.
Proof.
  intros Hpx Hfx Hsx. unfold beast_OnRead, IsTlsStream, location_of. cbn [Z.eqb negb].
  destruct (read_fields (msg_fields m)) as [h c]. cbn [fst snd] in *. rewrite bind_get.
  set (x1 := with_pending (if IsHttps (url_ x) then [OpGrace; OpShutdown] else []) x).
  assert ((if bool_decide (stream_ x = TlsStream)
           then do! start OpGrace in do! GetTlsStream in start OpShutdown else OnShutdown 0) x
          = Ret (tt, if IsHttps (url_ x) then x1 else x)) as Hshut.
  { subst x1. rewrite Hsx. destruct (IsHttps (url_ x)) eqn:Hh; [|by rewrite bool_decide_false].
    rewrite bool_decide_true by done. unfold start at 1. rewrite bind_upd, Hpx. unfold GetTlsStream. unfold bindS at 1.
    rewrite bind_get. cbn [stream_ with_pending]. by rewrite Hsx. }
  rewrite (bind_run _ _ _ _ _ Hshut). assert (Hx1 : forall B (f : BeastSession -> B), (forall l, f (with_pending l x) = f x) ->
    f (if IsHttps (url_ x) then x1 else x) = f x) by (intros B f Hf; destruct (IsHttps _); [apply Hf|done]).
  assert (Hpend : pending (if IsHttps (url_ x) then x1 else x) = if IsHttps (url_ x) then [OpGrace; OpShutdown] else [])
    by (by destruct (IsHttps _)).
  set (x2 := if IsHttps (url_ x) then x1 else x) in *. clearbody x2. destruct (header_find h (str "Location")) as [location|].
  - unfold beast_SetUrl. rewrite bind_upd, bind_get. cbn [redirect_ numberOfRedirects with_url].
    rewrite (Hx1 _ redirect_), (Hx1 _ numberOfRedirects) by done.
    destruct (redirect_ x && (0 <? numberOfRedirects x)); eexists; (split; [reflexivity|]); cbn;
      rewrite (Hx1 _ resolves), (Hx1 _ onResponse), (Hx1 _ b_handler), (Hx1 _ sent), (Hx1 _ b_delivered),
        ?(Hx1 _ followNextRedirect) by done; by rewrite ?Hfx.
  - rewrite bind_get, (Hx1 _ onResponse) by done. destruct (onResponse x) eqn:Ho; [|done].
    eexists. split; [reflexivity|]. cbn.
    by rewrite (Hx1 _ resolves), (Hx1 _ onResponse), (Hx1 _ b_handler), (Hx1 _ sent), (Hx1 _ b_delivered), (Hx1 _ url_),
      (Hx1 _ followNextRedirect) by done.
Qed.

Lemma step_received m :
  round_result None m s0 ((do! beast_OnRead 0 m in iterS complete []) (with_pending [] (under_way s0 OpRead true))).
Proof.
  pose proof (OnRead_answers m (with_pending [] (under_way s0 OpRead true)) eq_refl eq_refl eq_refl) as H.
  change (onResponse (with_pending _ _)) with (onResponse s0) in H. unfold round_result.
  assert ((exists s', beast_OnRead 0 m (with_pending [] (under_way s0 OpRead true)) = Ret (tt, s') /\
             looked_up s0 s' /\ answered_with m s0 s') ->
          ended s0 (answered_with m s0)
            ((do! beast_OnRead 0 m in iterS complete []) (with_pending [] (under_way s0 OpRead true)))) as Hend
    by (intros (s' & H1 & H2); exists s'; by rewrite (bind_run _ _ _ _ _ H1)).
  destruct (location_of m) as [location|] eqn:Hl; [|destruct (onResponse s0) eqn:Ho; [|by apply bind_killed]];
    apply Hend; destruct H as (s' & H1 & (H2 & H3 & H4) & H5 & H6 & H7); exists s'; (split; [exact H1|]);
    (split; [by split; rewrite ?Ho|]); (split; [done|done|by rewrite Hl]).
Qed.

(** One operation of the round: its success leads on, its failure is final. *)
Lemma complete_stage (e : ErrorCode) (ev : Z -> IoEvent) o code es (Q : outcome (unit * BeastSession) -> Prop) :
  (forall c, op_of (ev c) = o) ->
  (forall s, code <> 0 -> callback (ev code) s = OnFail e s) ->
  (code <> 0 -> forall r, ended s0 (failed_with e s0) r -> Q r) ->
  (code = 0 -> Q ((do! callback (ev 0) in iterS complete es) (with_pending [] (under_way s0 o (after_send e))))) ->
  Q (iterS complete (ev code :: es) (under_way s0 o (after_send e))).
Proof.
  intros Ho Hfail Hbad Hgood. cbn [iterS]. unfold bindS.
  rewrite complete_awaited by (rewrite Ho; by apply awaits_under_way). destruct (decide (code = 0)) as [->|Hne].
  - by apply Hgood.
  - rewrite Hfail, OnFail_run by done. apply Hbad; [done|]. by apply under_way_failed.
Qed.
End round.

(** One stage of the round: a code that is not zero ends it. *)
Ltac stage Hp Hst e ev :=
  apply (complete_stage _ Hp Hst e ev);
  [ done
  | intros x Hne; apply Z.eqb_neq in Hne; cbn [callback]; unfold OnResolve, beast_OnConnect, OnHandShake, beast_OnWrite, beast_OnRead;
    by rewrite Hne
  | intros Hne r Hr; apply Z.eqb_neq in Hne; rewrite Hne; exact Hr
  | intros ->; cbn [Z.eqb callback] ].

Ltac next H := rewrite (bind_run _ _ _ _ _ H).

(** C37: one round of a request.  The network completes the operations of a round one
    after the other, with any error codes.  The first code that is not zero decides:
    its error goes to the response handler once, if one is stored, and nothing is
    left to do.  When there is none, the request that was prepared was sent once; with
    a location the session goes there next as long as redirects are left; any other
    response goes to [onResponse] when a function is stored there, and ends the
    process when none is.  No code stores either of them and a round leaves them as
    they are, so a session as it is constructed reports no error and ends the process
    at every response that is no redirect. *)
Theorem round_outcome (codes : list Z) (m : Message) (s : BeastSession) :
  pending s = [] -> stopped s = false -> timeout_ s = 0 -> sni_ok (url_ s) = true ->
  length codes = length (stages (IsHttps (url_ s)) m) ->
  round_result (first_failure (stages (IsHttps (url_ s)) m) codes) m s
    ((do! DoOneRequest in iterS complete (reports (stages (IsHttps (url_ s)) m) codes)) s).
Proof.
  intros Hp Hst Ht Hsni Hlen. pose proof (DoOneRequest_run s) as Hrun. cbv zeta in Hrun. rewrite Hsni, Ht in Hrun.
  cbn [Z.eqb] in Hrun. rewrite (bind_run _ _ _ _ _ Hrun).
  assert (looking_up (opened s) = under_way s OpResolve (after_send HOST_RESOLUTION_FAILURE)) as ->.
  { unfold under_way, looking_up. cbn [after_send pending opened with_closed with_stream with_brequest with_follow]. by rewrite Hp. }
  pose proof (step_connected s) as Hconn. pose proof (step_received s m) as Hrecv.
  destruct (IsHttps (url_ s)); cbn [stages app length] in Hlen |- *.
  - destruct codes as [|c1 [|c2 [|c3 [|c4 [|c5 [|]]]]]]; try done. unfold reports. cbn [zip_with snd first_failure].
    stage Hp Hst HOST_RESOLUTION_FAILURE Resolved. next (step_resolved s).
    stage Hp Hst CONNECTION_FAILURE Connected. next Hconn.
    stage Hp Hst SSL_CONNECT_ERROR HandShaken. next (step_handshaken s OpHandshake).
    stage Hp Hst NETWORK_SEND_FAILURE Written. next (step_written s).
    by stage Hp Hst NETWORK_RECEIVE_ERROR (fun ec => Received ec m).
  - destruct codes as [|c1 [|c2 [|c3 [|c4 [|]]]]]; try done. unfold reports. cbn [zip_with snd first_failure].
    stage Hp Hst HOST_RESOLUTION_FAILURE Resolved. next (step_resolved s).
    stage Hp Hst CONNECTION_FAILURE Connected. next Hconn.
    stage Hp Hst NETWORK_SEND_FAILURE Written. next (step_written s).
    by stage Hp Hst NETWORK_RECEIVE_ERROR (fun ec => Received ec m).
Qed.

(** ** What the client does not do *)

(** When the name cannot be set for TLS, the request ends without a response. *)
Lemma sni_failure_silent s :
  sni_ok (url_ s) = false -> timeout_ s = 0 -> pending s = [] ->
  exists s', (do! DoOneRequest in run []) s = Ret (true, s') /\ b_delivered s' = b_delivered s.
Proof.
  intros Hn Ht Hp. pose proof (DoOneRequest_run s) as Hrun. cbv zeta in Hrun. rewrite Hn, Ht in Hrun. cbn [Z.eqb] in Hrun.
  rewrite (bind_run _ _ _ _ _ Hrun). eexists. unfold run. cbn [iterS]. rewrite bind_ret. unfold getS.
  change (pending (opened s)) with (pending s). rewrite Hp, bool_decide_true by done. by rewrite orb_true_r.
Qed.
End beast.

(** [SessionImplBeast::SessionImplBeast] *)
Definition new_beast (method0 : Z) (u : Url) : BeastSession :=
  mkBeast 0 true false (2 ^ 31 - 1) (mkBeastRequest 0 11 [] []) method0 u false [] Monostate (mkHandler false)
    [] false false [] [] [].

(** ** Examples *)

Definition sample_url : Url := mkUrl (str "http://a/x") (str "http") (str "a") 80 (str "/x") [] [].

Definition sample_redirect : Message :=
  mkMessage 302 [(str "Set-Cookie", str "k=v"); (str "location", str "http://b/y")] [].

Definition no_parameters (u : Url) : bytes := [].
Definition port_text (u : Url) : bytes := dec (port u).
Definition as_it_is (r : BeastRequest) : BeastRequest := r.
Definition always (h : bytes) : bool := true.

(** A server that answers every request with a redirect. *)
Definition redirecting (i : nat) : list IoEvent := [Resolved 0; Connected 0; Written 0; Received 0 sample_redirect].

Lemma DoRequest_ends_witness :
  match beast_DoRequest no_parameters port_text as_it_is always 995 0 3 redirecting
          (with_redirects 2 (new_beast 1 sample_url)) with
  | Ret (_, s') => 0 <= numberOfRedirects s' <= 2
  | Killed w => w = "std::bad_function_call"%string /\ false = false
  | Undef _ => False
  end.
Proof.
  apply (DoRequest_ends no_parameters port_text as_it_is always 995 0 3 redirecting (with_redirects 2 (new_beast 1 sample_url))).
  cbn. lia.
Defined.

(** The url of a redirect is not parsed: the next request looks up an empty name. *)
Example redirect_loses_host :
  match beast_DoRequest no_parameters port_text as_it_is always 995 0 3 redirecting
          (with_redirects 1 (new_beast 1 sample_url)) with
  | Ret (returned, s') => returned = true /\ resolves s' = [(str "a", str "80"); ([], str "0")] /\
      target <$> sent s' = [str "/x"; []] /\ b_delivered s' = []
  | _ => False
  end.
Proof. vm_compute. repeat split. Qed.

Definition sample_reply : Message := mkMessage 200 [(str "Server", str "s")] (str "body").

(** Two rounds of a session as it is constructed: a write that fails, and a reply. *)
Lemma round_outcome_witness :
  ended port_text (new_beast 1 sample_url) (failed_with no_parameters as_it_is NETWORK_SEND_FAILURE (new_beast 1 sample_url))
    ((do! DoOneRequest no_parameters port_text as_it_is always in
      iterS (complete 995 0) (reports (stages false sample_redirect) [0; 0; 11; 0])) (new_beast 1 sample_url)) /\
  (do! DoOneRequest no_parameters port_text as_it_is always in
   iterS (complete 995 0) (reports (stages false sample_reply) [0; 0; 0; 0])) (new_beast 1 sample_url)
  = Killed "std::bad_function_call".
Proof.
  split; [apply (round_outcome no_parameters port_text as_it_is always 995 0 [0; 0; 11; 0] sample_redirect (new_beast 1 sample_url))
         |apply (round_outcome no_parameters port_text as_it_is always 995 0 [0; 0; 0; 0] sample_reply (new_beast 1 sample_url))];
    reflexivity.
Defined.
