(* ===== verification/SemaphorePlatforms.v ===== *)
(** * The other semaphores: the OS_MACOSX and POSIX branches of wtf/sync/semaphore.cpp

    [DispatchSemaphore] and [PosixSemaphore] are what libdispatch and POSIX offer,
    with their documented behaviour as laws.  Both classes [PlatformSemaphore] meet
    the [SemaphoreSpec] that the clients of Sync.v are proved against, so the
    pipeline theorems hold on every system.  libdispatch stops a program that
    releases a semaphore below its initial count: [mac_lifetime] shows that the
    destructor prevents that after any use.  The macros of Flutter these branches
    still name are not in the repository; [FML_HANDLE_EINTR] repeats a call that
    was interrupted, and is part of [sem_trywait_retried]. *)

From stdpp Require Import base list numbers strings.
From Stdlib Require Import ZArith Lia.
From S2P Require Import Prelude Sync.

(** ** macOS *)

Class DispatchSemaphore := {
  dispatch_semaphore_t : Type;
  dispatch_semaphore_create : Z -> option dispatch_semaphore_t;
  dispatch_wait_now : dispatch_semaphore_t -> bool * dispatch_semaphore_t;   (* the wait with DISPATCH_TIME_NOW returned 0 *)
  dispatch_semaphore_signal : dispatch_semaphore_t -> dispatch_semaphore_t;
  dispatch_release : dispatch_semaphore_t -> outcome unit
}.

(** The documentation: a count that is not negative, kept in a [long]; a wait that
    does not block takes one when there is one; and "destroying a semaphore whose
    count is less than its initial value" stops the program. *)
Class DispatchLaws (D : DispatchSemaphore) := {
  d_count : dispatch_semaphore_t -> Z;
  d_initial : dispatch_semaphore_t -> Z;
  d_nonneg h : 0 <= d_count h;
  d_create c : 0 <= c < 2 ^ 63 ->
    exists h, dispatch_semaphore_create c = Some h /\ d_count h = c /\ d_initial h = c;
  d_wait h : dispatch_wait_now h = (bool_decide (0 < d_count h), snd (dispatch_wait_now h));
  d_wait_count h : d_count (snd (dispatch_wait_now h)) = Z.max 0 (d_count h - 1);
  d_wait_initial h : d_initial (snd (dispatch_wait_now h)) = d_initial h;
  d_signal_count h : d_count h < 2 ^ 63 - 1 -> d_count (dispatch_semaphore_signal h) = d_count h + 1;
  d_signal_initial h : d_initial (dispatch_semaphore_signal h) = d_initial h;
  d_release h : d_initial h <= d_count h -> dispatch_release h = Ret tt;
  d_release_in_use h : d_count h < d_initial h -> exists w, dispatch_release h = Killed w
}.

Section mac.
Context {D : DispatchSemaphore}.

Record MacSemaphore := mkMac { mac_sem : option dispatch_semaphore_t; mac_initial : Z }.

Definition mac_ctor (count : Z) : MacSemaphore := mkMac (dispatch_semaphore_create count) count.

Definition mac_IsValid (s : MacSemaphore) : bool := bool_decide (is_Some (mac_sem s)).

Definition mac_TryWait (s : MacSemaphore) : bool * MacSemaphore :=
  match mac_sem s with
  | None => (false, s)
  | Some h => let '(r, h') := dispatch_wait_now h in (r, mkMac (Some h') (mac_initial s))
  end.

Definition mac_Signal (s : MacSemaphore) : MacSemaphore :=
  match mac_sem s with
  | None => s
  | Some h => mkMac (Some (dispatch_semaphore_signal h)) (mac_initial s)
  end.

(** [~PlatformSemaphore] *)
Definition mac_dtor (s : MacSemaphore) : outcome unit :=
  let s' := Nat.iter (Z.to_nat (mac_initial s)) mac_Signal s in
  match mac_sem s' with
  | None => Ret tt
  | Some h => dispatch_release h
  end.

Context (L : DispatchLaws D).

Definition mac_at (s : MacSemaphore) (c : Z) : Prop :=
  exists h, mac_sem s = Some h /\ d_count h = c /\ d_initial h = mac_initial s.

Lemma mac_ctor_at c : 0 <= c < 2 ^ 63 -> mac_at (mac_ctor c) c.
Proof. intros Hc. destruct (d_create c Hc) as (h & Hh & Hcount & Hinit). by exists h. Qed.

Lemma mac_TryWait_at s c :
  mac_at s c -> exists s', mac_TryWait s = (bool_decide (0 < c), s') /\ mac_at s' (Z.max 0 (c - 1)) /\ mac_initial s' = mac_initial s.
Proof.
  intros (h & Hh & <- & Hi). unfold mac_TryWait. rewrite Hh, d_wait. eexists. split; [reflexivity|]. split; [|done].
  eexists. split; [reflexivity|]. by rewrite d_wait_count, d_wait_initial.
Qed.

Lemma mac_Signal_at s c : mac_at s c -> c < 2 ^ 63 - 1 -> mac_at (mac_Signal s) (c + 1) /\ mac_initial (mac_Signal s) = mac_initial s.
Proof.
  intros (h & Hh & <- & Hi) Hc. unfold mac_Signal. rewrite Hh. split; [|done]. eexists. split; [reflexivity|].
  by rewrite d_signal_count, d_signal_initial.
Qed.

Lemma mac_signals_at n s c :
  mac_at s c -> c + Z.of_nat n < 2 ^ 63 ->
  mac_at (Nat.iter n mac_Signal s) (c + Z.of_nat n) /\ mac_initial (Nat.iter n mac_Signal s) = mac_initial s.
Proof.
  intros Hs. induction n as [|n IH]; intros Hn; [by rewrite Z.add_0_r|]. destruct (IH ltac:(lia)) as [H1 H2].
  destruct (mac_Signal_at _ _ H1 ltac:(lia)) as [H3 H4]. cbn [Nat.iter]. rewrite <-H2, <-H4. split; [|done].
  by replace (c + Z.of_nat (S n)) with (c + Z.of_nat n + 1) by lia.
Qed.

(** What a client does with a semaphore. *)
Inductive SemOp := DoTryWait | DoSignal.
Definition mac_op (s : MacSemaphore) (o : SemOp) : MacSemaphore :=
  match o with DoTryWait => (mac_TryWait s).2 | DoSignal => mac_Signal s end.

Lemma mac_ops_at ops s c :
  mac_at s c -> 0 <= c -> c + zlen ops < 2 ^ 63 ->
  exists c', mac_at (foldl mac_op s ops) c' /\ 0 <= c' <= c + zlen ops /\ mac_initial (foldl mac_op s ops) = mac_initial s.
Proof.
  revert s c. induction ops as [|o ops IH]; intros s c Hs Hc Hl; unfold zlen in *; cbn [length foldl] in *; [exists c; split; [done|split; [lia|done]]|].
  destruct o; cbn [mac_op].
  - destruct (mac_TryWait_at s c Hs) as (s1 & -> & H1 & Hi1). cbn [snd]. destruct (IH s1 _ H1) as (c' & H2 & H3 & Hi2); [lia..|].
    exists c'. split; [done|]. split; [lia|congruence].
  - destruct (mac_Signal_at s c Hs ltac:(lia)) as [H1 Hi1]. destruct (IH _ _ H1) as (c' & H2 & H3 & Hi2); [lia..|].
    exists c'. split; [done|]. split; [lia|congruence].
Qed.

(** a semaphore can always be destroyed.  Whatever a client did with a macOS
    semaphore, its destructor brings the count up to the initial value before it
    releases the object, so libdispatch does not stop the program. *)
Theorem mac_lifetime (count : Z) (ops : list SemOp) :
  0 <= count < 2 ^ 32 -> zlen ops < 2 ^ 62 -> mac_dtor (foldl mac_op (mac_ctor count) ops) = Ret tt.
Proof.
  intros Hc Hl. destruct (mac_ops_at ops (mac_ctor count) count (mac_ctor_at count ltac:(lia))) as (c & Hs & Hr & Hi); [lia..|].
  unfold mac_dtor. rewrite Hi. cbn [mac_initial mac_ctor]. set (s := foldl mac_op _ _) in *. set (n := Z.to_nat count).
  assert (Hn : Z.of_nat n = count) by lia.
  destruct (mac_signals_at n s c Hs ltac:(lia)) as [(h & Hh & Hcount & Hinit) Hi']. rewrite Hh.
  apply d_release. rewrite Hinit, Hi', Hi, Hcount. cbn [mac_initial mac_ctor]. lia.
Qed.

(** Without the signals of the destructor a wait could be fatal. *)
Lemma release_without_signals count :
  0 < count < 2 ^ 32 -> exists h w, mac_sem (mac_TryWait (mac_ctor count)).2 = Some h /\ dispatch_release h = Killed w.
Proof.
  intros Hc. destruct (mac_TryWait_at (mac_ctor count) count (mac_ctor_at count ltac:(lia))) as (s & -> & (h & Hh & H1 & H2) & Hi).
  destruct (d_release_in_use h) as [w Hw]; [rewrite H2, Hi, H1; cbn [mac_initial mac_ctor]; lia|]. by exists h, w.
Qed.

#[export] Instance Mac_spec : SemaphoreSpec MacSemaphore mac_ctor mac_IsValid mac_TryWait mac_Signal.
Proof.
  unshelve eapply (Build_SemaphoreSpec _ _ _ _ _ (fun s c => mac_at s c /\ c <= LONG_MAX)).
  - intros s c [(h & _ & <- & _) Hm]. pose proof (d_nonneg h). lia.
  - intros s c c' [(h & Hh & <- & _) _] [(h' & Hh' & <- & _) _]. congruence.
  - intros c Hc. split; [|lia]. apply mac_ctor_at. unfold LONG_MAX in Hc. lia.
  - intros s c [(h & Hh & _) _]. unfold mac_IsValid. by rewrite Hh.
  - intros s c [Hs Hm] Hc. destruct (mac_TryWait_at s c Hs) as (s' & Hw & Hs' & _). rewrite bool_decide_true in Hw by done.
    exists s'. split; [done|]. replace (c - 1) with (Z.max 0 (c - 1)) by lia. split; [done|lia].
  - intros s [Hs Hm]. destruct (mac_TryWait_at s 0 Hs) as (s' & Hw & Hs' & _). by exists s'.
  - intros s c [Hs Hm] Hc. unfold LONG_MAX in *. split; [|lia]. by apply mac_Signal_at; [|lia].
Defined.
End mac.

(** ** POSIX *)

Class PosixSemaphore := {
  sem_t : Type;
  sem_init : Z -> option sem_t;                    (* not shared; None: it did not return 0 *)
  sem_trywait_retried : sem_t -> bool * sem_t;     (* FML_HANDLE_EINTR(sem_trywait(..)) == 0 *)
  sem_post : sem_t -> sem_t;
  sem_destroy : sem_t -> Z
}.

(** The manual: a value up to [SEM_VALUE_MAX], which is the greatest [int] here. *)
Class PosixLaws (P : PosixSemaphore) := {
  p_value : sem_t -> Z;
  p_range s : 0 <= p_value s <= LONG_MAX;
  p_init c : 0 <= c <= LONG_MAX -> exists s, sem_init c = Some s /\ p_value s = c;
  p_init_bad c : LONG_MAX < c -> sem_init c = None;
  p_trywait s : sem_trywait_retried s = (bool_decide (0 < p_value s), snd (sem_trywait_retried s));
  p_trywait_value s : p_value (snd (sem_trywait_retried s)) = Z.max 0 (p_value s - 1);
  p_post s : p_value s < LONG_MAX -> p_value (sem_post s) = p_value s + 1;
  p_destroy s : sem_destroy s = 0
}.

Section posix.
Context {P : PosixSemaphore} (debug : bool).

(** [valid_] and [sem_]: there is a semaphore when the initialisation succeeded. *)
Record PosixPlatform := mkPosix { posix_sem : option sem_t }.

Definition posix_ctor (count : Z) : PosixPlatform := mkPosix (sem_init count).
Definition posix_IsValid (s : PosixPlatform) : bool := bool_decide (is_Some (posix_sem s)).

Definition posix_TryWait (s : PosixPlatform) : bool * PosixPlatform :=
  match posix_sem s with
  | None => (false, s)
  | Some h => let '(r, h') := sem_trywait_retried h in (r, mkPosix (Some h'))
  end.

Definition posix_Signal (s : PosixPlatform) : PosixPlatform :=
  match posix_sem s with
  | None => s
  | Some h => mkPosix (Some (sem_post h))
  end.

(** [FML_DCHECK(result == 0)] *)
Definition posix_dtor (s : PosixPlatform) : outcome unit :=
  match posix_sem s with
  | None => Ret tt
  | Some h => if negb debug || (sem_destroy h =? 0) then Ret tt else Killed "result == 0"
  end.

Context (L : PosixLaws P).

Lemma posix_dtor_ok s : posix_dtor s = Ret tt.
Proof. unfold posix_dtor. destruct (posix_sem s) as [h|]; [|done]. by rewrite p_destroy, orb_true_r. Qed.

#[export] Instance Posix_spec : SemaphoreSpec PosixPlatform posix_ctor posix_IsValid posix_TryWait posix_Signal.
Proof.
  unshelve eapply (Build_SemaphoreSpec _ _ _ _ _ (fun s c => exists h, posix_sem s = Some h /\ p_value h = c)).
  - intros s c (h & _ & <-). apply p_range.
  - intros s c c' (h & Hh & <-) (h' & Hh' & <-). congruence.
  - intros c Hc. destruct (p_init c Hc) as (h & Hh & Hv). by exists h.
  - intros s c (h & Hh & _). unfold posix_IsValid. by rewrite Hh.
  - intros s c (h & Hh & <-) Hc. unfold posix_TryWait. rewrite Hh, p_trywait, bool_decide_true by done.
    eexists. split; [reflexivity|]. eexists. split; [reflexivity|]. rewrite p_trywait_value. lia.
  - intros s (h & Hh & Hv). unfold posix_TryWait. rewrite Hh, p_trywait, bool_decide_false by lia.
    eexists. split; [reflexivity|]. eexists. split; [reflexivity|]. rewrite p_trywait_value. lia.
  - intros s c (h & Hh & <-) Hc. unfold posix_Signal. rewrite Hh. eexists. split; [reflexivity|]. by apply p_post.
Defined.
End posix.

(** ** A libdispatch that keeps to its laws *)

#[export] Instance sample_dispatch : DispatchSemaphore := {|
  dispatch_semaphore_t := (N * Z)%type;
  dispatch_semaphore_create c := if decide (0 <= c < 2 ^ 63) then Some (Z.to_N c, c) else None;
  dispatch_wait_now h := (bool_decide (0 < Z.of_N h.1), (N.pred h.1, h.2));
  dispatch_semaphore_signal h := (N.succ h.1, h.2);
  dispatch_release h := if decide (h.2 <= Z.of_N h.1) then Ret tt else Killed "Semaphore object deallocated while in use"
|}.

#[export] Instance sample_dispatch_laws : DispatchLaws sample_dispatch.
Proof.
  unshelve eapply (Build_DispatchLaws sample_dispatch (fun h => Z.of_N h.1) (fun h => h.2)); cbn; try done.
  - intros h. lia.
  - intros c Hc. rewrite decide_True by done. eexists. split; [reflexivity|]. cbn. lia.
  - intros h. lia.
  - intros h _. lia.
  - intros h Hh. by rewrite decide_True.
  - intros h Hh. rewrite decide_False by lia. by eexists.
Defined.

Lemma mac_lifetime_witness :
  mac_dtor (foldl mac_op (mac_ctor 2) [DoTryWait; DoTryWait; DoTryWait; DoSignal]) = Ret tt.
Proof.
  apply (mac_lifetime sample_dispatch_laws 2 [DoTryWait; DoTryWait; DoTryWait; DoSignal]).
  - lia.
  - vm_compute. reflexivity.
Defined.
