(* ===== verification/UnitTests.v ===== *)
(** * The unit tests of the repository, run on the model:
    ws_cli/implement/ev/base64_unittests.cpp, pipeline/pipeline_unittests.cpp,
    wtf/sync/waitable_event_unittest.cpp, wtf/task_runner/message_loop_unittests.cpp

    A test is a program of the model in which [ASSERT_*] and [EXPECT_*] are [expect];
    it passes when it returns.  The threads of a test do their parts in the order
    its latches and joins enforce.  What a task of a loop test does to the local
    variables of the test is read off the names of the tasks that ran.  Where a test
    sleeps to let other threads get on, they do; which thread a signal wakes, and the
    coins a test throws, are all tried. *)

From stdpp Require Import base list numbers strings gmap.
From Stdlib Require Import ZArith Lia.
From S2P Require Import Prelude Base64 Time Double TimeFloat TaskQueues Sync Pipeline.

Definition expect {S} (b : bool) : M S unit := checkS b "assertion of a test".

(** A test passes from a state. *)
Definition passes {S A} (test : M S A) (s : S) : bool := is_ret (test s).

(** ** base64_unittests.cpp *)

Definition Encode_test (plain coded : string) : bool :=
  match EncodeBase64 (str plain) (zlen (str plain)) with Ret r => bool_decide (r = str coded) | _ => false end.
Definition Decode_test (coded plain : string) : bool :=
  match DecodeBase64 (str coded) with Ret r => bool_decide (r = str plain) | _ => false end.

Definition base64_cases : list (string * string) :=
  [("abcd", "YWJjZA=="); ("A", "QQ=="); ("BC", "QkM="); ("Man", "TWFu");
   ("5qyi6L+O5L2/55So5pys5bel5YW3", "NXF5aTZMK081TDIvNTVTbzVweXM1YmVsNVlXMw==")]%string.

Example base64_tests_pass :
  forallb (fun c => Encode_test c.1 c.2 && Decode_test c.2 c.1) base64_cases = true.
Proof. vm_compute. reflexivity. Qed.

(** ** pipeline_unittests.cpp *)

Section pipeline_tests.

(** [Pipeline<int>] *)
Abbreviation IntPipeline := (Pipeline (@PlatformSemaphore counting) Z).
Abbreviation TM := (M IntPipeline).

Definition new_pipeline (depth : Z) : IntPipeline := Pipeline_ctor (ctor := Semaphore_ctor) depth.

#[local] Abbreviation Produce := (Produce (S := @PlatformSemaphore counting) (try := TryWait) (R := Z)).
#[local] Abbreviation ProduceIfEmpty := (ProduceIfEmpty (S := @PlatformSemaphore counting) (try := TryWait) (R := Z)).
#[local] Abbreviation Complete := (Complete (S := @PlatformSemaphore counting) (signal := Sync.Signal) (R := Z)).
#[local] Abbreviation Consume := (Consume (S := @PlatformSemaphore counting) (try := TryWait) (signal := Sync.Signal) (R := Z)).

#[local] Instance PipelineConsumeResult_eq_dec : EqDecision PipelineConsumeResult.
Proof. solve_decision. Defined.

(** [ASSERT_EQ(continuation.Complete(..), result)] *)
Definition complete_gives (c : ProducerContinuation) (v : Z) (result : bool) : TM ProducerContinuation :=
  let! '(r, c') := Complete c (Some v) in
  do! expect (Bool.eqb r result) in
  retS c'.

(** [Consume] with a consumer that expects [v], and its expected result. *)
Definition consume_gives (result : PipelineConsumeResult) (v : option Z) : TM unit :=
  let! '(r, got) := Consume true in
  expect (bool_decide (r = result /\ got = Some <$> v)).

Definition ConsumeOneVal : TM unit :=
  let! continuation := Produce in
  do! complete_gives continuation 1 true in
  consume_gives Done (Some 1).

Definition ContinuationCanOnlyBeUsedOnce : TM unit :=
  let! continuation := Produce in
  let! continuation := complete_gives continuation 1 true in
  do! consume_gives Done (Some 1) in
  let! continuation := complete_gives continuation 1 false in
  do! consume_gives NoneAvailable None in
  do! complete_gives continuation 1 false in
  retS tt.

Definition PushingMoreThanDepthCompletesFirstSubmission : TM unit :=
  let! continuation_1 := Produce in
  let! continuation_2 := Produce in
  do! complete_gives continuation_1 1 true in
  do! complete_gives continuation_2 2 false in
  consume_gives Done (Some 1).

Definition PushingMultiProcessesInOrder : TM unit :=
  let! continuation_1 := Produce in
  let! continuation_2 := Produce in
  do! complete_gives continuation_1 1 true in
  do! complete_gives continuation_2 2 true in
  do! consume_gives MoreAvailable (Some 1) in
  consume_gives Done (Some 2).

Definition ProduceIfEmptyDoesNotConsumeWhenQueueIsNotEmpty : TM unit :=
  let! continuation_1 := Produce in
  let! continuation_2 := ProduceIfEmpty in
  do! complete_gives continuation_1 1 true in
  do! complete_gives continuation_2 2 false in
  consume_gives Done (Some 1).

Definition ProduceIfEmptySuccessfulIfQueueIsEmpty : TM unit :=
  let! continuation_1 := ProduceIfEmpty in
  do! complete_gives continuation_1 1 true in
  consume_gives Done (Some 1).

Example pipeline_tests_pass :
  passes ConsumeOneVal (new_pipeline 2) && passes ContinuationCanOnlyBeUsedOnce (new_pipeline 2) &&
  passes PushingMoreThanDepthCompletesFirstSubmission (new_pipeline 1) &&
  passes PushingMultiProcessesInOrder (new_pipeline 2) &&
  passes ProduceIfEmptyDoesNotConsumeWhenQueueIsNotEmpty (new_pipeline 2) &&
  passes ProduceIfEmptySuccessfulIfQueueIsEmpty (new_pipeline 1) = true.
Proof. vm_compute. reflexivity. Qed.
End pipeline_tests.

(** ** waitable_event_unittest.cpp *)

(** The one thread of the test calls [Wait] on an event that is set, so that it
    returns at once, and [WaitWithTimeout] either that way or until its time is up. *)
Definition wait_returns (t : Z) : M Event unit := let! r := Wait t in expect r.

Definition timed_wait_gives (t : Z) (ms : Z) (result : bool) : M Event unit :=
  let! timeout := liftS (TimeDelta.FromMilliseconds ms) in
  let! r := WaitWithTimeout t timeout in
  match r with
  | Some b => expect (Bool.eqb b result)
  | None =>
      let! start := event_now in
      do! updS (fun e => with_time (time e + TimeDelta.delta_ timeout) e) in
      let! r := WaitWithTimeout_resume true t (mkTimed start timeout timeout) true in
      expect (bool_decide (r = Some result))
  end.

Definition signaled_is (b : bool) : M Event unit := let! s := IsSignaled in expect (Bool.eqb s b).

Definition OneOffWaitableEvent_Basic : M Event unit :=
  do! signaled_is false in
  do! Event_Signal None in
  do! signaled_is true in
  do! wait_returns 0 in
  do! signaled_is false in
  do! Event_Reset in
  do! signaled_is false in
  do! Event_Signal None in
  do! signaled_is true in
  do! Event_Reset in
  do! signaled_is false in
  do! timed_wait_gives 0 0 true in
  do! signaled_is false in
  do! timed_wait_gives 0 1 true in
  do! signaled_is false in
  do! Event_Signal None in
  do! signaled_is true in
  do! timed_wait_gives 0 0 false in
  do! signaled_is false in
  do! timed_wait_gives 0 1 true in
  do! signaled_is false in
  do! Event_Signal None in
  do! timed_wait_gives 0 1 false in
  signaled_is false.

Example event_test_passes : passes OneOffWaitableEvent_Basic (new_event 0) = true.
Proof. vm_compute. reflexivity. Qed.

(** The threads of the second test: a coin decides whether one waits with a timeout. *)
Definition kActionTimeout : outcome TimeDelta.t := TimeDelta.FromMilliseconds 10000.

Definition waiter_starts (coins : list bool) (j : Z) : M Event unit :=
  if default false (coins !! Z.to_nat j) then (let! r := Wait j in expect (negb r)) else
  let! timeout := liftS kActionTimeout in
  let! r := WaitWithTimeout j timeout in
  expect (bool_decide (r = None)).

(** The thread that was woken goes on and returns. *)
Definition waiter_returns (t : Z) : M Event unit :=
  let! threads := getS waiting in
  match threads !! t with
  | Some (Woken None _) => wait_returns t
  | Some (Woken (Some tw) timed_out) =>
      let! r := WaitWithTimeout_resume true t tw timed_out in
      expect (bool_decide (r = Some false))
  | _ => expect false
  end.

(** [wake_count] is what it should be when the other threads still wait. *)
Definition wake_count_is (threads : list Z) (n : Z) : M Event unit :=
  let! blocked := getS waiting in
  expect (zlen (filter (fun t => bool_decide (blocked !! t = None)) threads) =? n).

Definition wake_one (threads : list Z) (j t : Z) : M Event unit :=
  do! wake_count_is threads j in
  do! Event_Signal (Some t) in
  do! waiter_returns t in
  do! signaled_is false in
  do! wake_count_is threads (j + 1) in
  signaled_is false.

Definition waiters_round (coins : list bool) (order : list Z) : M Event unit :=
  let threads := seqZ 0 4 in
  do! iterS (waiter_starts coins) threads in
  do! iterS (fun jt => wake_one threads jt.1 jt.2) (zip (seqZ 0 4) order) in
  do! Event_Signal None in
  do! signaled_is true in
  Event_Reset.

Definition MultipleWaiters (coins : list bool) (order : list Z) : M Event unit :=
  iterS (fun _ : Z => waiters_round coins order) (seqZ 0 5).

Definition all_coins : list (list bool) := Nat.iter 4 (fun l => (cons true <$> l) ++ (cons false <$> l)) [[]].

Example waiters_test_passes :
  forallb (fun coins => forallb (fun order => passes (MultipleWaiters coins order) (new_event 0)) (permutations (seqZ 0 4)))
    all_coins = true.
Proof. vm_compute. reflexivity. Qed.

(** ** message_loop_unittests.cpp *)

Section loop_tests.

Abbreviation WM := (M World).

#[local] Abbreviation any_time := (fun _ : Z => true).
#[local] Abbreviation PostTask := (TaskRunner_PostTask true any_time).
#[local] Abbreviation PostTaskForTime := (PostTaskForTime true any_time).
#[local] Abbreviation PostDelayedTask := (PostDelayedTask true any_time).
#[local] Abbreviation Run := (MessageLoop_Run true any_time).

(** A new thread makes its loop. *)
Definition start_loop (thread : Z) : WM TaskQueueId :=
  do! EnsureInitializedForCurrentThread thread in
  GetCurrent thread.

(** The tasks ran in this order. *)
Definition ran_in_order (names : list Z) : WM unit := let! r := getS ran in expect (bool_decide (reverse r = names)).

(** The [i]-th of [count] tasks; the last one ends the loop. *)
Definition counted_task (count i : Z) : option Task :=
  Some (mkTask i (if count =? i + 1 then [CallTerminateCurrent] else [])).

Definition Loop_GetCurrent : WM unit := do! start_loop 1 in retS tt.

Definition DifferentThreadsHaveDifferentLoops : WM unit :=
  let! loop1 := start_loop 1 in
  let! loop2 := start_loop 2 in
  expect (negb (loop1 =? loop2)).

Definition CanRunAndTerminate : WM unit :=
  let! loop := start_loop 1 in
  do! PostTask loop (counted_task 1 0) in
  let! started := Run 10 10 1 loop in
  do! expect started in
  ran_in_order [0].

Definition NonDelayedTasksAreRunInOrder (count : Z) : WM unit :=
  let! loop := start_loop 1 in
  do! iterS (fun i => PostTask loop (counted_task count i)) (seqZ 0 count) in
  let! started := Run 10 (Z.to_nat (count + 1)) 1 loop in
  do! expect started in
  ran_in_order (seqZ 0 count).

Definition DelayedTasksAtSameTimeAreRunInOrder (count : Z) : WM unit :=
  let! loop := start_loop 1 in
  let! now := Now in
  let! delay := liftS (TimeDelta.FromMilliseconds 2) in
  let! now_plus_some := liftS (TimePoint.plus now delay) in
  do! iterS (fun i => PostTaskForTime loop (counted_task count i) now_plus_some) (seqZ 0 count) in
  let! started := Run 10 (Z.to_nat (count + 1)) 1 loop in
  do! expect started in
  ran_in_order (seqZ 0 count).

(** Thread 0 is the one of the test, which has no loop. *)
Definition CheckRunsTaskOnCurrentThread : WM unit :=
  let! runner := start_loop 1 in
  let! here := RunsTasksOnCurrentThread 0 runner in
  do! expect (negb here) in
  do! PostTask runner (counted_task 1 0) in
  let! ended := Run 10 10 1 runner in
  do! expect ended in
  let! there := RunsTasksOnCurrentThread 1 runner in
  expect there.

(** At least three milliseconds after [begin]; the task that ended the loop was the
    last thing to take time. *)
Definition three_ms_after (begin : TimePoint.t) : WM unit :=
  let! now := Now in
  let! delta := liftS (TimePoint.sub now begin) in
  expect (fgeb (ToMillisecondsF delta) (double_of_int 3)).

Definition SingleDelayedTaskByDelta : WM unit :=
  let! loop := start_loop 1 in
  let! begin := Now in
  let! delay := liftS (TimeDelta.FromMilliseconds 5) in
  do! PostDelayedTask loop (counted_task 1 0) delay in
  let! ended := Run 10 10 1 loop in
  do! expect ended in
  do! ran_in_order [0] in
  three_ms_after begin.

Definition SingleDelayedTaskForTime : WM unit :=
  let! loop := start_loop 1 in
  let! begin := Now in
  let! delay := liftS (TimeDelta.FromMilliseconds 5) in
  let! target := liftS (TimePoint.plus begin delay) in
  do! PostTaskForTime loop (counted_task 1 0) target in
  let! ended := Run 10 10 1 loop in
  do! expect ended in
  do! ran_in_order [0] in
  three_ms_after begin.

(** *** Tasks that look at the clock *)

(** [MessageLoopWin::Run] turn by turn, with a look at the tasks of each turn: they all
    run at the time the timer fired at, as they take no time themselves. *)
Fixpoint run_observed (see : Z -> TimePoint.t -> WM unit) (turns fuel : nat) (thread id : Z) : WM bool :=
  match turns with
  | O => undefS "run_loop: out of fuel"
  | S turns' =>
      let! l := loop_at id in
      if negb (running_ l) then retS true else
      let! fired := wait_timer id in
      if negb fired then retS false else
      let! before := getS ran in
      do! RunExpiredTasksNow true any_time fuel thread id in
      let! after := getS ran in
      let! now := Now in
      do! iterS (fun name => see name now) (take (length after - length before) after) in
      run_observed see turns' fuel thread id
  end.

(** A look that changes nothing. *)
Definition looks (see : Z -> TimePoint.t -> WM unit) : Prop :=
  forall name now w r, see name now w = Ret r -> r = (tt, w).

Lemma looks_iter see names now w r : looks see -> iterS (fun name => see name now) names w = Ret r -> r = (tt, w).
Proof.
  intros Hs. induction names as [|n names IH]; [by intros [= <-]|]. cbn [iterS]. unfold bindS.
  destruct (see n now w) as [p| |] eqn:Hp; [|done..]. rewrite (Hs _ _ _ _ Hp). apply IH.
Qed.

(** When every look is satisfied, the loop did what it does unobserved. *)
Lemma run_observed_run see turns fuel thread id w r :
  looks see -> run_observed see turns fuel thread id w = Ret r -> run_loop true any_time turns fuel thread id w = Ret r.
Proof.
  intros Hs. revert w. induction turns as [|turns IH]; intros w; [done|]. cbn [run_observed run_loop]. unfold bindS.
  destruct (loop_at id w) as [[l w1]| |]; [|done..]. destruct (negb (running_ l)); [done|].
  destruct (wait_timer id w1) as [[fired w2]| |]; [|done..]. destruct (negb fired); [done|]. cbn [getS].
  destruct (RunExpiredTasksNow true any_time fuel thread id w2) as [[[] w3]| |]; [|done..]. unfold Now. cbn [getS].
  destruct (iterS _ _ w3) as [p| |] eqn:Hp; [|done..]. rewrite (looks_iter _ _ _ _ _ Hs Hp). apply IH.
Qed.

(** [ASSERT_GE(ms, target_ms - 2)] of the task with that name, which was posted at [begin]. *)
Definition late_enough (begin : TimePoint.t) (target_ms : Z) (now : TimePoint.t) : WM unit :=
  let! delta := liftS (TimePoint.sub now begin) in
  expect (fgeb (ToMillisecondsF delta) (double_of_int (target_ms - 2))).

Lemma late_enough_looks begin : looks (late_enough begin).
Proof.
  intros target now w r. unfold late_enough, liftS, expect, checkS. unfold bindS.
  destruct (TimePoint.sub now begin); [|done..]. destruct (fgeb _ _); [by intros [= <-]|done].
Qed.

(** The tasks of the two tests are named by their targets; the last one to run ends the
    loop.  [loop.Run()] sets [running_], runs the loop and finishes. *)
Definition MultipleDelayedTasks (targets : list Z) (last : Z) : WM unit :=
  let! loop := start_loop 1 in
  let! begin := Now in
  do! iterS (fun target_ms =>
        let! delay := liftS (TimeDelta.FromMilliseconds target_ms) in
        PostDelayedTask loop (Some (mkTask target_ms (if target_ms =? last then [CallTerminateCurrent] else []))) delay) targets in
  let! l := loop_at loop in
  do! updS (set_loop loop (mkLoop (terminated_ l) true (timer_ l))) in
  let! ended := run_observed (late_enough begin) 40 40 1 loop in
  do! expect ended in
  do! finish_run true any_time 40 1 loop in
  let! r := getS ran in
  expect (zlen r =? zlen targets).

Definition MultipleDelayedTasksWithIncreasingDeltas (count : Z) : WM unit := MultipleDelayedTasks (seqZ 2 count) (count + 1).
Definition MultipleDelayedTasksWithDecreasingDeltas (count : Z) : WM unit := MultipleDelayedTasks (reverse (seqZ 3 count)) (count + 2).

(** The observer is the task -1: it runs after every other. *)
Definition TaskObserverFire (count : Z) : WM unit :=
  let! loop := start_loop 1 in
  do! iterS (fun i => PostTask loop (counted_task count i)) (seqZ 0 count) in
  do! MessageLoop_AddTaskObserver true 1 loop 0 (Some (mkTask (-1) [])) in
  let! started := Run 10 (Z.to_nat (count + 1)) 1 loop in
  do! expect started in
  ran_in_order (seqZ 0 count ≫= fun i => [i; -1]).

Example loop_tests_pass :
  forallb (fun test => passes test (new_world 0))
    [Loop_GetCurrent; DifferentThreadsHaveDifferentLoops; CanRunAndTerminate; NonDelayedTasksAreRunInOrder 100;
     DelayedTasksAtSameTimeAreRunInOrder 100; CheckRunsTaskOnCurrentThread; SingleDelayedTaskByDelta;
     SingleDelayedTaskForTime; TaskObserverFire 25;
     MultipleDelayedTasksWithIncreasingDeltas 10; MultipleDelayedTasksWithDecreasingDeltas 10] = true.
Proof. vm_compute. reflexivity. Qed.
End loop_tests.
