(* ===== verification/Tutorials.v ===== *)
(** * The programs of the tutorial: code/03 to code/06

    A function of a shared library, user-defined literals, a setter over a parameter
    pack, and a class with the iterators of a range-based for loop.  A program is the
    lines it prints. *)

From stdpp Require Import base list numbers strings.
From Stdlib Require Import ZArith Lia.
From Stdlib Require Import Floats.SpecFloat.
From S2P Require Import Prelude HttpHeader Double FloatText.

(** ** code/06: a range of integers *)

Definition INT_MAX : Z := 2 ^ 31 - 1.

(** [Iter<int>] *)
Record Iter := mkIter { addr_ : Z }.
Definition iter_ne (this that : Iter) : bool := negb (addr_ this =? addr_ that).
Definition iter_deref (this : Iter) : Z := addr_ this.
Definition iter_incr (this : Iter) : outcome Iter :=
  if addr_ this <? INT_MAX then Ret (mkIter (addr_ this + 1)) else Undef "signed overflow".

Record Index := mkIndex { begin_ : Z; end_ : Z }.
Definition Index_begin (r : Index) : Iter := mkIter (begin_ r).
Definition Index_end (r : Index) : Iter := mkIter (end_ r).

(** [for (auto value : range)], printing each value. *)
Fixpoint range_for (fuel : nat) (it last : Iter) : outcome (list Z) :=
  match fuel with
  | O => Undef "range_for: out of fuel"
  | S fuel' =>
      if negb (iter_ne it last) then Ret [] else
      let value := iter_deref it in
      let? it' := iter_incr it in
      let? rest := range_for fuel' it' last in
      Ret (value :: rest)
  end.

Definition for_each (fuel : nat) (r : Index) : outcome (list Z) := range_for fuel (Index_begin r) (Index_end r).

Definition main_06 (fuel : nat) : outcome (list Z) := for_each fuel (mkIndex 0 10).

(** A range that is not reversed yields its values, each once, in order. *)
Theorem for_each_values (r : Index) (fuel : nat) :
  begin_ r <= end_ r <= INT_MAX -> end_ r - begin_ r < Z.of_nat fuel ->
  for_each fuel r = Ret (seqZ (begin_ r) (end_ r - begin_ r)).
Proof.
  destruct r as [b e]. unfold for_each, Index_begin, Index_end. cbn [begin_ end_]. revert b.
  induction fuel as [|fuel IH]; intros b He Hf; [lia|]. cbn [range_for]. unfold iter_ne, iter_deref, iter_incr. cbn [addr_].
  destruct (Z.eqb_spec b e) as [->|Hne]; cbn [negb]; [by rewrite Z.sub_diag|].
  rewrite (proj2 (Z.ltb_lt b INT_MAX)) by lia. cbn [obind]. rewrite IH by lia. cbn [obind].
  rewrite (seqZ_cons b) by lia. do 3 f_equal; lia.
Qed.

(** A reversed range runs into the greatest integer. *)
Theorem for_each_reversed (r : Index) (fuel : nat) :
  end_ r < begin_ r <= INT_MAX -> INT_MAX - begin_ r < Z.of_nat fuel -> for_each fuel r = Undef "signed overflow".
Proof.
  destruct r as [b e]. unfold for_each, Index_begin, Index_end. cbn [begin_ end_]. revert b.
  induction fuel as [|fuel IH]; intros b He Hf; [lia|]. cbn [range_for]. unfold iter_ne, iter_deref, iter_incr. cbn [addr_].
  rewrite (proj2 (Z.eqb_neq b e)) by lia. cbn [negb]. destruct (Z.ltb_spec b INT_MAX); [|done].
  cbn [obind]. by rewrite IH by lia.
Qed.

Example main_06_prints : main_06 11 = Ret [0; 1; 2; 3; 4; 5; 6; 7; 8; 9].
Proof. reflexivity. Qed.

(** ** code/05: options in any number *)

Inductive ObjectOption := OptionA | OptionB | OptionC.

(** [SetA], [SetB], [SetC]: the classes are empty, so a setter only prints. *)
Definition set_one (o : ObjectOption) : bytes :=
  match o with OptionA => str "SetA." | OptionB => str "SetB." | OptionC => str "SetC." end.

(** The fold over the pack calls the overload for each option, from left to right. *)
Definition Object_SetOption (ts : list ObjectOption) : list bytes := set_one <$> ts.

Definition main_05 : list bytes :=
  [set_one OptionA; set_one OptionB; set_one OptionC] ++
  Object_SetOption [OptionA] ++ Object_SetOption [OptionB] ++ Object_SetOption [OptionC] ++
  Object_SetOption [OptionA; OptionB; OptionC].

Example main_05_prints :
  main_05 = concat (replicate 3 [str "SetA."; str "SetB."; str "SetC."]).
Proof. reflexivity. Qed.

(** ** code/04: literals *)

Definition literal_exe (file : bytes) : bytes := cstr file ++ str ".exe".
Definition literal_xX (letter : Z) : bytes := str ".exe".
Definition literal_s (s : Z) : Z := u64 (s * 1000).
(** [long double] is [double] on Windows. *)
Definition literal_kg (num : spec_float) : bytes := to_string num ++ str "kg".

(** The lines of the program; 2.2 is the nearest double. *)
Definition main_04 : list bytes :=
  [str "path=" ++ dec 1000; str "file=" ++ literal_exe (str "panda"); str "to upper=" ++ literal_xX 97;
   str "2s = " ++ dec (literal_s 2) ++ str "mm"; str "weight = " ++ literal_kg (read_float binary64 (str "2.2"))].

Example main_04_prints :
  main_04 = [str "path=1000"; str "file=panda.exe"; str "to upper=.exe"; str "2s = 2000mm"; str "weight = 2.200000kg"].
Proof. vm_compute. reflexivity. Qed.

(** ** code/03: a function of a shared library *)

Definition Shared_Test : bytes := str "Shared::Test.".
Definition main_03 : list bytes := [str "Hello World!"; Shared_Test].
